(* ===== verification/_CoqProject ===== *)
-Q . S2P
Prelude.v
Fnv.v
Strconv.v
Ring.v
Utf8.v
Json.v
JsonFacts.v
ShardMap.v
Float64.v
Types.v
Defaults.v
Kube.v
Signals.v
Autoscale.v
Resources.v
Shards.v
Reconcile.v
Laws.v
Trace.v
Memory.v
Hoare.v
Sample.v
Calls.v
Outcome.v
Plan.v
Refine.v
Children.v
Router.v
RouterSystem.v
Flags.v
RouterMain.v
MockWorker.v
EndToEnd.v
Heap.v
HeapCopy.v
DeepCopy.v
Aliasing.v
Typed.v
Live.v
Setup.v
Manager.v
Deployed.v
