(* ===== verification/Prelude.v ===== *)
(** * LLM inference operator: a verification development

    The program (src/) is a Kubernetes operator for LLM inference clusters
    and the two servers it deploys.

    - The operator (src/internal/controller) watches LLMInferenceCluster
      resources (src/api/v1alpha1).  For each one it fills in defaults, keeps
      a finalizer, optionally computes decode replicas from load signals
      (src/internal/signals), creates or updates Services, RBAC objects,
      Deployments and ConfigMaps, assigns KV-cache shards to decode pods
      (src/internal/routing/consistenthash.go), publishes that assignment as a
      JSON document in a ConfigMap, and reports a status.
    - The router (src/cmd/router) polls that ConfigMap, parses the document
      (src/internal/routing/shardmap.go), and forwards each chat request to
      the decode Service with the shard chosen from the conversation.
    - The mock worker (src/cmd/mock-worker) answers such requests.
    - The manager command (src/cmd/main.go) reads its flags, configures the
      webhook and metrics servers and starts the controller, which
      [SetupWithManager] registers with the kinds it watches; the types of the
      API group are registered in src/api/v1alpha1/groupversion_info.go and
      copied by src/api/v1alpha1/zz_generated.deepcopy.go.

    ** Files

    Base: Prelude.v (this file: integers at their width, strings as bytes,
    results with errors and panics, tactics, hint databases); Fnv.v (FNV-1a);
    Strconv.v (Itoa, ParseInt); Utf8.v, Json.v, JsonFacts.v (encoding/json:
    scanner, unquoting, printing, read-back); Float64.v (float64 and
    ParseFloat); Flags.v (flag parsing, ParseDuration).

    Operator: Types.v (the resource and its validation markers); Defaults.v
    (defaulting); Kube.v (child objects, the [Client] and [Machinery]
    interfaces, the monad of API computations); Signals.v, Autoscale.v
    (adapters, [computeDecodeReplicas]); Resources.v (labels, helpers, every
    [reconcile*] method with the closure it passes to CreateOrUpdate as a
    [mutate_*] function); Ring.v, ShardMap.v, Shards.v (ring, document,
    [computeShardMap]); Reconcile.v ([Reconcile], [requeueDegraded],
    [setCondition]).

    Memory: Heap.v (a heap of typed cells: pointers, slices, maps, what a
    value denotes and which cells it reaches), HeapCopy.v (copying them, and
    that a copy is isolated), DeepCopy.v (every generated [DeepCopyInto],
    [DeepCopy] and [DeepCopyObject]), Aliasing.v (the first statements of
    [Reconcile] on memory).

    Registration and start: Setup.v (group, version, scheme, the controller
    and its watches), Manager.v (flags, server options, start-up of the
    manager command).

    Router and worker: Router.v (identifiers, shard choice, handler, one poll),
    RouterSystem.v (requests and polls interleaved), RouterMain.v (options,
    credentials, start-up, dispatch), MockWorker.v ([main], its mux and its
    handler).

    Reasoning: Laws.v (documented behaviour of the code outside src/), Trace.v
    (a client that records calls), Memory.v (an in-memory API server and
    helpers that satisfy the laws), Sample.v (a concrete resource and world),
    Hoare.v (weakest preconditions), Calls.v, Outcome.v, Plan.v, Refine.v,
    Children.v, Typed.v, Live.v, EndToEnd.v, Deployed.v.

    ** How the code is modelled

    A Go value is an immutable Rocq value, and a deep copy the value itself;
    DeepCopy.v and Aliasing.v justify this by modelling the copies and the
    defaulting over memory, where a pointer, a slice or a map can be shared:
    the working copy and the base of the patch share nothing, and the writes
    do what the functions on values say.  A pointer field is an [option]; int32 and int64
    are [Z] with the wrap-around written where it can occur; strings are byte
    strings; maps are [gmap].  A function that can fail returns [result] (Ok,
    Err, Panic); a nil dereference, an index out of range and a negative
    capacity are panics.  A handler that calls the API is a computation
    [M W A]: it threads the world [W] of a client.  [Client] has one operation
    per API call the code makes and [Machinery] one per helper of apimachinery
    and controllerutil; both are parameters.  [MachineryLaws] and [StoreLaws]
    state what their documentation promises, and only the theorems that need
    them assume them; Memory.v shows that they can hold.  The HTTP client, the
    URL parser, the random source and the host name are parameters of the
    handlers.

    Recursion is structural except for JSON values (fuel twice the length of
    the input plus one; [parse_fuel_irrelevant] shows that more changes
    nothing), the shard loop (fuel is the number of shards;
    [shard_loop_terminates] relates it to the loop without fuel), decimal
    printing (fuel from the binary logarithm) and duration groups and command
    lines (fuel is the length).

    ** What is proved

    - Outcome.v, for any API client: which calls a reconciliation makes and in
      which order, that it writes the status at most once and last, and that
      the status agrees with the result; deletion; early exits; the Scaling
      condition.
    - Plan.v and Refine.v: an abstract plan (the children with their changes),
      that a successful reconciliation implements it, for the signals read and
      the pods listed between its first and its last world, that failing ones touch
      nothing else and nothing panics on a valid resource, and that applying
      the plan again changes nothing.
    - Children.v, Typed.v: the stored Services, Deployments, RBAC objects and
      ConfigMaps refer to each other consistently, are owned by the resource
      and hold ports and counts in range.
    - Live.v: with the API server up and accepting the writes of the plan, a
      reconciliation from any state succeeds, for a valid resource whose
      children are its own and that does not ask for Prometheus signals.
    - DeepCopy.v, Aliasing.v: the generated copies are deep, and the reconciler
      changes neither the cached object nor the base of its patch.
    - Setup.v, Manager.v: which changes wake the controller, that the servers
      are hardened by default, and what the exit status of the manager means.
    - Defaults.v, Autoscale.v, Signals.v: defaulting is complete, idempotent
      and keeps validity; replicas stay within bounds and move one step;
      thresholds on decimal signals are exact.
    - Ring.v, Shards.v, ShardMap.v: shard ownership, and that the published
      document parses back to the reported shards, for arbitrary names.
    - Router.v, RouterSystem.v, RouterMain.v, MockWorker.v: shard choice in
      range and stable, session affinity, one account per request, last good
      map kept, an invariant of every interleaving, options and start-up.
    - EndToEnd.v: what the operator publishes is what the router chooses from,
      and a conversation survives the round trip through router and worker.
      Deployed.v: which of the deployed workers answer behind their Services.

    ** What is not modelled

    Logging; serving HTTP and TLS, the settings of the HTTP transport and
    metrics exposition; what controller-runtime does with the options and the
    registrations it is given (a manager that records its calls stands for it
    in the witnesses); the API server beyond the laws above, in particular
    other writers between two calls of one reconciliation and the fields that
    the server itself fills in when an object is created (Laws.v takes the
    stored object to be the written one); the tests and manifests.

    ** Plan

    Later extensions: sequences of reconciliations with changing pods, signals
    and other writers; the permissions that the kubebuilder markers grant
    against the calls a reconciliation makes; the lifetime of a polling router
    whose shard map changes under its requests. *)
From stdpp Require Export base list strings gmap sorting numbers.
From Stdlib Require Export ZArith Lia.
From Stdlib Require Ascii.
Export Ascii.AsciiSyntax.
Delimit Scope char_scope with char.
From stdpp Require Import options.

#[global] Open Scope Z_scope.

Declare Scope go_scope.
Delimit Scope go_scope with go.
#[global] Open Scope go_scope.

(** ** Machine integers

    A Go integer of width [w] is a [Z] kept in range; every operation whose
    result may leave the range is followed by the conversion that the Go
    compiler emits. *)
Definition wrapU (w z : Z) : Z := z mod 2 ^ w.
Definition wrapS (w z : Z) : Z := (z + 2 ^ (w - 1)) mod 2 ^ w - 2 ^ (w - 1).

Definition uint32 (z : Z) : Z := wrapU 32 z.
Definition int32 (z : Z) : Z := wrapS 32 z.
Definition int64 (z : Z) : Z := wrapS 64 z.

Definition is_int32 (z : Z) : bool := (-2147483648 <=? z) && (z <=? 2147483647).
Definition is_int64 (z : Z) : bool :=
  (-9223372036854775808 <=? z) && (z <=? 9223372036854775807).

(** ** Go strings

    A Go string is a sequence of bytes, one [ascii] per byte. *)
Abbreviation emp := EmptyString.

Definition byte_val (c : Ascii.ascii) : Z := Z.of_N (Ascii.N_of_ascii c).
Definition byte_chr (z : Z) : Ascii.ascii := Ascii.ascii_of_N (Z.to_N z).
Definition str1 (c : Ascii.ascii) : string := String c emp.
Definition bytes_of (s : string) : list Z := byte_val <$> String.list_ascii_of_string s.

(** ** Results of Go code

    [Ok a] is a normal return, [Err e] a return with a non-nil error and
    [Panic m] a run-time panic.  [IsNotFound] is the classification that
    [apierrors.IsNotFound] reads off an error. *)
Record error := mkError { Error : string; IsNotFound : bool }.

Definition errors_New (msg : string) : error := mkError msg false.

Inductive result (A : Type) : Type :=
| Ok (a : A)
| Err (e : error)
| Panic (m : string).
Arguments Ok {A} a.
Arguments Err {A} e.
Arguments Panic {A} m.

Definition rbind {A B : Type} (r : result A) (k : A → result B) : result B :=
  match r with
  | Ok a => k a
  | Err e => Err e
  | Panic m => Panic m
  end.

Notation "'let?' x := r 'in' k" := (rbind r (fun x => k))
  (at level 10, x pattern, r at level 100, k at level 200) : go_scope.

Definition is_ok {A : Type} (r : result A) : bool :=
  match r with Ok _ => true | _ => false end.
Definition panics {A : Type} (r : result A) : bool :=
  match r with Panic _ => true | _ => false end.

(** [nodes[i]]: a slice index outside the slice panics. *)
Definition go_index {A : Type} (l : list A) (i : Z) : result A :=
  if (i <? 0) then Panic "index out of range"
  else match l !! Z.to_nat i with
       | Some a => Ok a
       | None => Panic "index out of range"
       end.

(** [*p]: dereferencing a nil pointer panics. *)
Definition go_deref {A : Type} (p : option A) : result A :=
  match p with
  | Some a => Ok a
  | None => Panic "invalid memory address or nil pointer dereference"
  end.

(** ** Tactics *)

(** Case analysis on every test that blocks the evaluation of the goal or of
    a hypothesis, closing the impossible cases. *)
Ltac go_cases :=
  repeat (case_match; simplify_eq/=; try done).

(** Arithmetic on widths: unfolds the conversions and lets [lia] see the
    powers of two as numbers. *)
Ltac width_lia :=
  unfold is_int32, is_int64, uint32, int32, int64, wrapU, wrapS in *;
  repeat change (2 ^ 64) with 18446744073709551616 in *;
  repeat change (2 ^ (64 - 1)) with 9223372036854775808 in *;
  repeat change (2 ^ 32) with 4294967296 in *;
  repeat change (2 ^ (32 - 1)) with 2147483648 in *;
  Z.div_mod_to_equations; lia.

Create HintDb go.

(** ** Lemmas on machine integers *)
Lemma uint32_range z : 0 <= uint32 z < 4294967296.
Proof. width_lia. Qed.

Lemma int32_small z : is_int32 z = true → int32 z = z.
Proof. intros. width_lia. Qed.

Lemma int32_is_int32 z : is_int32 (int32 z) = true.
Proof. width_lia. Qed.

Lemma int32_int64 z : is_int32 z = true → is_int64 z = true.
Proof. width_lia. Qed.

#[export] Hint Resolve uint32_range int32_is_int32 int32_int64 : go.

(** ** Lemmas on strings and bytes *)
Lemma byte_val_range c : 0 <= byte_val c < 256.
Proof. unfold byte_val. pose proof (Ascii.N_ascii_bounded c). lia. Qed.

Lemma byte_chr_val c : byte_chr (byte_val c) = c.
Proof. unfold byte_chr, byte_val. rewrite N2Z.id. apply Ascii.ascii_N_embedding. Qed.

Lemma byte_val_chr z : 0 <= z < 256 → byte_val (byte_chr z) = z.
Proof.
  intros. unfold byte_chr, byte_val. rewrite Ascii.N_ascii_embedding; lia.
Qed.

#[export] Hint Resolve byte_val_range : go.

Lemma str_app_cons c s t : String c s +:+ t = String c (s +:+ t).
Proof. done. Qed.

Lemma str_app_nil_l s : emp +:+ s = s.
Proof. done. Qed.

Lemma str_app_nil_r s : s +:+ emp = s.
Proof. induction s as [|c s IH]; [done|]. by rewrite str_app_cons, IH. Qed.

Lemma str_app_assoc a b c : (a +:+ b) +:+ c = a +:+ (b +:+ c).
Proof.
  induction a as [|x a IH]; [done|]. rewrite !str_app_cons. by rewrite IH.
Qed.

Lemma str_length_app a b :
  String.length (a +:+ b) = (String.length a + String.length b)%nat.
Proof. induction a as [|x a IH]; [done|]. rewrite str_app_cons. simpl. by rewrite IH. Qed.


(** ** Lemmas on results and indexing *)
Lemma go_index_lookup {A} (l : list A) i x :
  0 <= i → l !! Z.to_nat i = Some x → go_index l i = Ok x.
Proof. intros Hi Hx. unfold go_index. rewrite Hx. case_match; [lia|done]. Qed.

Lemma go_index_in_range {A} (l : list A) i :
  0 <= i < Z.of_nat (length l) → ∃ x, go_index l i = Ok x ∧ x ∈ l.
Proof.
  intros Hi. destruct (lookup_lt_is_Some_2 l (Z.to_nat i)) as [x Hx]; [lia|].
  exists x. split; [by apply go_index_lookup; [lia|]|].
  by eapply list_elem_of_lookup_2.
Qed.

Lemma rbind_ok {A B} (r : result A) (k : A → result B) b :
  rbind r k = Ok b → ∃ a, r = Ok a ∧ k a = Ok b.
Proof. destruct r; simpl; naive_solver. Qed.
