(* ===== verification/Fnv.v ===== *)
(** * FNV-1a hashing

    The 32-bit FNV-1a hash of Go's [hash/fnv] package ([fnv.New32a],
    [Write], [Sum32]), which both the shard ring
    (src/internal/routing/consistenthash.go) and the router
    (src/cmd/router/main.go) use. *)
From S2P Require Import Prelude.
From stdpp Require Import options.

Definition offset32 : Z := 2166136261.
Definition prime32 : Z := 16777619.

(** One byte: [hash ^= uint32(c); hash *= prime32] at width 32. *)
Definition fnv1a_step (hash c : Z) : Z := uint32 (Z.lxor hash c * prime32).

(** [Write] folds the bytes into the running hash. *)
Definition fnv1a_write (hash : Z) (s : string) : Z :=
  foldl fnv1a_step hash (bytes_of s).

(** [h := fnv.New32a(); h.Write([]byte(s)); h.Sum32()]. *)
Definition fnv32a (s : string) : Z := fnv1a_write offset32 s.

Lemma fnv1a_step_range h c : 0 <= fnv1a_step h c < 4294967296.
Proof. apply uint32_range. Qed.

Lemma fnv1a_write_range h s :
  0 <= h < 4294967296 → 0 <= fnv1a_write h s < 4294967296.
Proof.
  unfold fnv1a_write. revert h.
  induction (bytes_of s) as [|c l IH]; intros h Hh; simpl; [done|].
  apply IH, fnv1a_step_range.
Qed.

Lemma fnv32a_range s : 0 <= fnv32a s < 4294967296.
Proof. apply fnv1a_write_range. unfold offset32. lia. Qed.

#[export] Hint Resolve fnv32a_range : go.

(** Published FNV-1a test vectors. *)
Example fnv32a_empty : fnv32a emp = 0x811c9dc5.
Proof. reflexivity. Qed.
Example fnv32a_a : fnv32a "a" = 0xe40c292c.
Proof. reflexivity. Qed.
Example fnv32a_foobar : fnv32a "foobar" = 0xbf9cf968.
Proof. reflexivity. Qed.
