(* ===== verification/Strconv.v ===== *)
(** * Decimal conversions

    What the code uses of Go's [strconv] and [fmt] on integers:
    [strconv.Itoa] and [fmt.Sprintf("%d", n)] print a decimal numeral,
    [strconv.ParseInt(s, 10, 64)] (through [encoding/json]) reads one. *)
From S2P Require Import Prelude.
From stdpp Require Import options.

(** ** Printing *)
Definition digit_chr (d : Z) : Ascii.ascii := byte_chr (48 + d).

Fixpoint dec_go (fuel : nat) (n : Z) (acc : string) : string :=
  match fuel with
  | O => acc
  | S f =>
      let acc' := String (digit_chr (n mod 10)) acc in
      if n <? 10 then acc' else dec_go f (n / 10) acc'
  end.

(** A number has at most as many decimal digits as binary ones. *)
Definition udec (n : Z) : string := dec_go (S (Z.to_nat (Z.log2 n))) n emp.

Definition Itoa (n : Z) : string :=
  if n <? 0 then "-" +:+ udec (- n) else udec n.

(** ** Reading *)
Definition is_digit (c : Ascii.ascii) : bool := (48 <=? byte_val c) && (byte_val c <=? 57).

Fixpoint parse_digits (acc : Z) (s : string) : option Z :=
  match s with
  | EmptyString => Some acc
  | String c s' =>
      if is_digit c then parse_digits (acc * 10 + (byte_val c - 48)) s' else None
  end.

(** [strconv.ParseInt(s, 10, 64)]: an optional sign, at least one digit, and a
    range error outside int64. *)
Definition parse_udec (s : string) : option Z :=
  match s with
  | EmptyString => None
  | String _ _ => parse_digits 0 s
  end.

Definition ParseInt64 (s : string) : option Z :=
  let v := match s with
           | String c s' =>
               if byte_val c =? 45 then option_map Z.opp (parse_udec s')
               else if byte_val c =? 43 then parse_udec s'
               else parse_udec s
           | EmptyString => None
           end in
  match v with
  | Some z => if is_int64 z then Some z else None
  | None => None
  end.

(** ** The shape of a printed numeral *)
Fixpoint all_digits (s : string) : bool :=
  match s with
  | EmptyString => true
  | String c s' => is_digit c && all_digits s'
  end.

(** No leading zero, except for the numeral 0 itself. *)
Definition canonical_nat (s : string) : bool :=
  match s with
  | EmptyString => false
  | String c s' =>
      all_digits s && (negb (byte_val c =? 48) || bool_decide (s' = emp))
  end.

Lemma digit_chr_val d : 0 <= d <= 9 → byte_val (digit_chr d) = 48 + d.
Proof. intros. unfold digit_chr. apply byte_val_chr. lia. Qed.

Lemma digit_chr_is_digit d : 0 <= d <= 9 → is_digit (digit_chr d) = true.
Proof. intros. unfold is_digit. rewrite digit_chr_val by lia. lia. Qed.

Lemma dec_go_parse f n acc :
  0 <= n < 2 ^ Z.of_nat f →
  parse_digits 0 (dec_go f n acc) = parse_digits n acc.
Proof.
  revert n acc. induction f as [|f IH]; intros n acc Hn; [simpl in *; f_equal; lia|].
  pose proof (Z.mod_pos_bound n 10). simpl.
  destruct (Z.ltb_spec n 10).
  - simpl. rewrite digit_chr_is_digit, digit_chr_val by lia.
    f_equal. rewrite Z.mod_small; lia.
  - rewrite IH.
    + simpl. rewrite digit_chr_is_digit, digit_chr_val by lia.
      f_equal. pose proof (Z.div_mod n 10). lia.
    + rewrite Nat2Z.inj_succ, Z.pow_succ_r in Hn by lia.
      split; [apply Z.div_pos; lia|]. apply Z.div_lt_upper_bound; lia.
Qed.

Lemma dec_go_digits f n acc :
  0 <= n → all_digits acc = true → all_digits (dec_go f n acc) = true.
Proof.
  revert n acc. induction f as [|f IH]; intros n acc Hn Hacc; [done|].
  pose proof (Z.mod_pos_bound n 10).
  assert (all_digits (String (digit_chr (n mod 10)) acc) = true).
  { simpl. rewrite digit_chr_is_digit by lia. done. }
  simpl. case_match; [done|]. apply IH; [apply Z.div_pos; lia|done].
Qed.

(** The first digit of a positive number is not zero. *)
Lemma dec_go_head f n acc :
  0 < n < 2 ^ Z.of_nat f →
  ∃ c s, dec_go f n acc = String c s ∧ byte_val c ≠ 48.
Proof.
  revert n acc. induction f as [|f IH]; intros n acc Hn; [simpl in *; lia|].
  simpl. destruct (Z.ltb_spec n 10).
  - eexists _, _; split; [done|].
    rewrite Z.mod_small, digit_chr_val by lia. lia.
  - apply IH. rewrite Nat2Z.inj_succ, Z.pow_succ_r in Hn by lia.
    split; [apply Z.div_str_pos; lia|]. apply Z.div_lt_upper_bound; lia.
Qed.

Lemma udec_fuel n : 0 <= n → 0 <= n < 2 ^ Z.of_nat (S (Z.to_nat (Z.log2 n))).
Proof.
  intros Hn. split; [done|]. rewrite Nat2Z.inj_succ, Z2Nat.id by apply Z.log2_nonneg.
  destruct (Z.eq_dec n 0) as [->|]; [done|]. apply Z.log2_spec. lia.
Qed.

Lemma udec_parse n : 0 <= n → parse_digits 0 (udec n) = Some n.
Proof. intros. unfold udec. by rewrite dec_go_parse by by apply udec_fuel. Qed.

Lemma udec_canonical n : 0 <= n → canonical_nat (udec n) = true.
Proof.
  intros Hn. destruct (Z.eq_dec n 0) as [->|]; [done|].
  pose proof (dec_go_digits (S (Z.to_nat (Z.log2 n))) n emp Hn eq_refl) as Hd.
  destruct (dec_go_head (S (Z.to_nat (Z.log2 n))) n emp) as (c & s & E & Hc).
  { pose proof (udec_fuel n Hn). lia. }
  unfold udec. rewrite E in Hd |- *. unfold canonical_nat. rewrite Hd.
  apply andb_true_intro. split; [done|]. apply orb_true_iff. left. lia.
Qed.

Lemma canonical_nat_digits s : canonical_nat s = true → all_digits s = true.
Proof. destruct s; simpl; [done|]. by intros [? _]%andb_prop. Qed.

Lemma parse_udec_digits s : s ≠ emp → parse_udec s = parse_digits 0 s.
Proof. by destruct s. Qed.

Lemma udec_nonempty n : 0 <= n → udec n ≠ emp.
Proof. intros Hn E. pose proof (udec_canonical n Hn) as H. by rewrite E in H. Qed.

(** Reading back what was printed. *)
Lemma ParseInt64_Itoa n : is_int64 n = true → ParseInt64 (Itoa n) = Some n.
Proof.
  intros Hn. unfold Itoa. destruct (Z.ltb_spec n 0).
  - rewrite str_app_cons, str_app_nil_l. unfold ParseInt64.
    change (byte_val _ =? 45) with true. cbv iota.
    rewrite parse_udec_digits by (apply udec_nonempty; lia).
    rewrite udec_parse by lia. simpl. by rewrite Z.opp_involutive, Hn.
  - pose proof (udec_parse n ltac:(lia)) as Hp.
    pose proof (canonical_nat_digits _ (udec_canonical n ltac:(lia))) as Hd.
    pose proof (udec_nonempty n ltac:(lia)).
    destruct (udec n) as [|c s] eqn:E; [done|].
    simpl in Hd. apply andb_prop in Hd as [Hc _]. unfold is_digit in Hc.
    unfold ParseInt64. destruct (Z.eqb_spec (byte_val c) 45); [lia|].
    destruct (Z.eqb_spec (byte_val c) 43); [lia|].
    rewrite parse_udec_digits, Hp, Hn by done. done.
Qed.

#[export] Hint Resolve ParseInt64_Itoa udec_canonical : go.

Example Itoa_zero : Itoa 0 = "0".
Proof. reflexivity. Qed.
Example Itoa_neg : Itoa (-2147483648) = "-2147483648".
Proof. reflexivity. Qed.
