(* ===== verification/Ring.v ===== *)
(** * The shard ring

    src/internal/routing/consistenthash.go: [NewRing], [Empty] and [Pick],
    which assign a KV shard to a pod.  [Pick] is written for any width of
    Go's [int] ([Pick_int]), because the conversion [int(h.Sum32())] keeps
    the sign bit on a 32-bit platform; [Pick] is the 64-bit build. *)
From S2P Require Import Prelude Strconv Fnv.
From stdpp Require Import options.

Record Ring := mkRing { nodes : list string }.

(** [sort.Strings]: the byte order on strings is total, so every sorting
    algorithm gives the same list ([sort_Strings_unique]). *)
Definition sort_Strings (l : list string) : list string := merge_sort String.le l.

Definition NewRing (l : list string) : Ring := mkRing (sort_Strings l).

Definition Empty (r : Ring) : bool := Z.of_nat (length (nodes r)) =? 0.

Definition Pick_int (intBits : Z) (r : Ring) (shardID : Z) : result string :=
  if Z.of_nat (length (nodes r)) =? 0 then Ok emp
  else
    let h := fnv32a (Itoa shardID) in
    let idx := Z.rem (wrapS intBits h) (Z.of_nat (length (nodes r))) in
    go_index (nodes r) idx.

Definition Pick : Ring → Z → result string := Pick_int 64.

(** ** Sorting *)
Lemma sort_Strings_perm l : sort_Strings l ≡ₚ l.
Proof. apply merge_sort_Permutation. Qed.

Lemma sort_Strings_sorted l : Sorted String.le (sort_Strings l).
Proof. apply Sorted_merge_sort, _. Qed.

Lemma sort_Strings_unique l l' :
  Sorted String.le l' → l' ≡ₚ l → l' = sort_Strings l.
Proof.
  intros Hs Hp. apply (Sorted_unique String.le); [done|apply sort_Strings_sorted|].
  by rewrite Hp, sort_Strings_perm.
Qed.

Lemma sort_Strings_proper l1 l2 : l1 ≡ₚ l2 → sort_Strings l1 = sort_Strings l2.
Proof.
  intros Hp. apply sort_Strings_unique; [apply sort_Strings_sorted|].
  by rewrite sort_Strings_perm.
Qed.

#[export] Instance NewRing_proper : Proper ((≡ₚ) ==> (=)) NewRing.
Proof. intros l1 l2 Hp. unfold NewRing. by rewrite (sort_Strings_proper l1 l2). Qed.

(** ** Picking *)
Lemma Empty_spec r : Empty r = true ↔ nodes r = [].
Proof.
  unfold Empty. rewrite Z.eqb_eq. destruct (nodes r); simpl; split; try done; lia.
Qed.

Lemma Empty_NewRing l : Empty (NewRing l) = true ↔ l = [].
Proof.
  rewrite Empty_spec. simpl. split; [|by intros ->].
  intros E. apply Permutation_nil_r. by rewrite <- E, sort_Strings_perm.
Qed.

(** The index of [Pick] on a 64-bit platform. *)
Lemma wrapS64_hash s : wrapS 64 (fnv32a s) = fnv32a s.
Proof. pose proof (fnv32a_range s). width_lia. Qed.

Lemma Pick_index r i :
  nodes r ≠ [] →
  Pick r i = go_index (nodes r) (fnv32a (Itoa i) mod Z.of_nat (length (nodes r))).
Proof.
  intros Hne. unfold Pick, Pick_int. destruct (Z.eqb_spec (Z.of_nat (length (nodes r))) 0).
  { destruct (nodes r); simpl in *; [done|lia]. }
  rewrite wrapS64_hash. pose proof (fnv32a_range (Itoa i)).
  by rewrite Z.rem_mod_nonneg by lia.
Qed.

Lemma Pick_total r i : nodes r ≠ [] → ∃ n, Pick r i = Ok n ∧ n ∈ nodes r.
Proof.
  intros Hne. rewrite Pick_index by done. apply go_index_in_range.
  apply Z.mod_pos_bound. destruct (nodes r); simpl; [done|lia].
Qed.

Lemma elem_of_NewRing l n : n ∈ nodes (NewRing l) ↔ n ∈ l.
Proof. simpl. by rewrite sort_Strings_perm. Qed.


(** Adding a pod also moves shards between the pods that were there: shard 0
    leaves [b] for [a] when [c] joins, so the ring is a table of residues and
    not a consistent hash in the usual sense. *)
Example ring_is_modulo :
  Pick (NewRing ["a"; "b"]) 0 = Ok "b" ∧ Pick (NewRing ["a"; "b"; "c"]) 0 = Ok "a".
Proof. split; vm_compute; reflexivity. Qed.

Lemma Pick_NewRing_perm (l l' : list string) (i : Z) :
  l ≡ₚ l' → Pick (NewRing l) i = Pick (NewRing l') i.
Proof. by intros ->. Qed.

(** C32: on a 64-bit platform [Pick] is a function from the set of pods to one
    of them: on a ring built by [NewRing] from a non-empty pod list it never
    panics and returns one of those pods, and the same one whatever the order
    in which the API server lists them. *)
Theorem ring_picks_member (pods : list string) (shardID : Z) :
  pods ≠ [] →
  ∃ owner, owner ∈ pods ∧
    ∀ pods', pods ≡ₚ pods' → Pick (NewRing pods') shardID = Ok owner.
Proof.
  intros Hne. destruct (Pick_total (NewRing pods) shardID) as (n & Hp & Hn).
  { by intros ?%Empty_spec%Empty_NewRing. }
  exists n. rewrite elem_of_NewRing in Hn. split; [done|].
  intros pods' E. by rewrite <- (Pick_NewRing_perm _ _ _ E).
Qed.

Lemma ring_picks_member_witness :
  ∃ owner, owner ∈ ["b"; "a"; "c"] ∧ Pick (NewRing ["b"; "a"; "c"]) 5 = Ok owner ∧
           Pick (NewRing ["a"; "b"; "c"]) 5 = Ok owner.
Proof.
  destruct (ring_picks_member ["b"; "a"; "c"] 5) as (o & Ho & H); [done|].
  exists o. split_and!; [exact Ho|apply H; reflexivity|apply H; apply perm_swap].
Defined.

(** Where [int] has 32 bits the converted hash can be negative, and so can
    the index. *)
Example pick_panics_with_32bit_int :
  panics (Pick_int 32 (NewRing ["a"; "b"; "c"]) 20) = true.
Proof. vm_compute. reflexivity. Qed.
