(* ===== verification/Utf8.v ===== *)
(** * UTF-8

    Go's [unicode/utf8] as [encoding/json] uses it: a byte string is cut into
    chunks, each either a valid encoding of one rune or a single byte that
    [utf8.DecodeRune] reports as [(RuneError, 1)]. *)
From S2P Require Import Prelude.
From stdpp Require Import options.

Inductive chunk :=
| Ch1 (a : Ascii.ascii)
| Ch2 (a b : Ascii.ascii)
| Ch3 (a b c : Ascii.ascii)
| Ch4 (a b c d : Ascii.ascii)
| ChBad (a : Ascii.ascii).

Definition in_rng (lo hi : Z) (c : Ascii.ascii) : bool :=
  (lo <=? byte_val c) && (byte_val c <=? hi).

Definition cont (c : Ascii.ascii) : bool := in_rng 0x80 0xBF c.

(** The first-byte table and accept ranges of [utf8.DecodeRune]. *)
Definition valid2 (a b : Ascii.ascii) : bool := in_rng 0xC2 0xDF a && cont b.

Definition valid3 (a b c : Ascii.ascii) : bool :=
  ((in_rng 0xE0 0xE0 a && in_rng 0xA0 0xBF b)
   || (in_rng 0xE1 0xEC a && cont b)
   || (in_rng 0xED 0xED a && in_rng 0x80 0x9F b)
   || (in_rng 0xEE 0xEF a && cont b)) && cont c.

Definition valid4 (a b c d : Ascii.ascii) : bool :=
  ((in_rng 0xF0 0xF0 a && in_rng 0x90 0xBF b)
   || (in_rng 0xF1 0xF3 a && cont b)
   || (in_rng 0xF4 0xF4 a && in_rng 0x80 0x8F b)) && cont c && cont d.

Fixpoint utf8_chunks (s : string) : list chunk :=
  match s with
  | EmptyString => []
  | String a s1 =>
      if byte_val a <? 128 then Ch1 a :: utf8_chunks s1
      else
        match s1 with
        | EmptyString => [ChBad a]
        | String b s2 =>
            if valid2 a b then Ch2 a b :: utf8_chunks s2
            else
              match s2 with
              | EmptyString => ChBad a :: utf8_chunks s1
              | String c s3 =>
                  if valid3 a b c then Ch3 a b c :: utf8_chunks s3
                  else
                    match s3 with
                    | EmptyString => ChBad a :: utf8_chunks s1
                    | String d s4 =>
                        if valid4 a b c d then Ch4 a b c d :: utf8_chunks s4
                        else ChBad a :: utf8_chunks s1
                    end
              end
        end
  end.

Arguments utf8_chunks : simpl never.

Definition RuneError : Z := 0xFFFD.

(** The rune a chunk decodes to. *)
Definition rune_of (ch : chunk) : Z :=
  match ch with
  | Ch1 a => byte_val a
  | Ch2 a b => (byte_val a - 0xC0) * 64 + (byte_val b - 0x80)
  | Ch3 a b c =>
      (byte_val a - 0xE0) * 4096 + (byte_val b - 0x80) * 64 + (byte_val c - 0x80)
  | Ch4 a b c d =>
      (byte_val a - 0xF0) * 262144 + (byte_val b - 0x80) * 4096
      + (byte_val c - 0x80) * 64 + (byte_val d - 0x80)
  | ChBad _ => RuneError
  end.

(** [utf8.EncodeRune]. *)
Definition encode_rune3 (r : Z) : string :=
  String (byte_chr (0xE0 + r / 4096))
    (String (byte_chr (0x80 + (r / 64) mod 64)) (str1 (byte_chr (0x80 + r mod 64)))).

Definition EncodeRune (r : Z) : string :=
  if (0 <=? r) && (r <=? 0x7F) then str1 (byte_chr r)
  else if (0 <=? r) && (r <=? 0x7FF) then
    String (byte_chr (0xC0 + r / 64)) (str1 (byte_chr (0x80 + r mod 64)))
  else if (r <? 0) || (0x10FFFF <? r) || ((0xD800 <=? r) && (r <=? 0xDFFF)) then
    encode_rune3 RuneError
  else if r <=? 0xFFFF then encode_rune3 r
  else
    String (byte_chr (0xF0 + r / 262144))
      (String (byte_chr (0x80 + (r / 4096) mod 64))
        (String (byte_chr (0x80 + (r / 64) mod 64)) (str1 (byte_chr (0x80 + r mod 64))))).

Definition chunk_bytes (ch : chunk) : string :=
  match ch with
  | Ch1 a | ChBad a => str1 a
  | Ch2 a b => String a (str1 b)
  | Ch3 a b c => String a (String b (str1 c))
  | Ch4 a b c d => String a (String b (String c (str1 d)))
  end.

Definition chunk_ok (ch : chunk) : bool :=
  match ch with
  | Ch1 a => byte_val a <? 128
  | Ch2 a b => valid2 a b
  | Ch3 a b c => valid3 a b c
  | Ch4 a b c d => valid4 a b c d
  | ChBad _ => false
  end.

Definition concat_str (l : list string) : string := foldr String.append emp l.

(** [utf8.ValidString]. *)
Definition utf8_valid (s : string) : bool := forallb chunk_ok (utf8_chunks s).

(** Every byte that is not part of a valid encoding becomes U+FFFD. *)
Definition utf8_sanitize (s : string) : string :=
  concat_str ((λ ch, EncodeRune (rune_of ch)) <$> utf8_chunks s).

(** ** Lemmas *)
Ltac chunk_lia :=
  unfold valid2, valid3, valid4, cont, in_rng in *;
  repeat match goal with
         | |- context [byte_val ?c] =>
             lazymatch goal with
             | _ : 0 <= byte_val c < 256 |- _ => fail
             | _ => pose proof (byte_val_range c)
             end
         | _ : context [byte_val ?c] |- _ =>
             lazymatch goal with
             | _ : 0 <= byte_val c < 256 |- _ => fail
             | _ => pose proof (byte_val_range c)
             end
         end;
  lia.

Lemma str_ind2 (P : string → Prop) :
  P emp → (∀ s, (∀ t, (String.length t < String.length s)%nat → P t) → P s) → ∀ s, P s.
Proof.
  intros _ H s. remember (String.length s) as n eqn:E.
  revert s E. induction n as [n IH] using lt_wf_ind. intros s ->.
  apply H. intros t Ht. by eapply IH.
Qed.

(** One step of the cutting loop. *)
Lemma utf8_chunks_step a s1 :
  utf8_chunks (String a s1) =
  if byte_val a <? 128 then Ch1 a :: utf8_chunks s1
  else match s1 with
       | String b s2 =>
           if valid2 a b then Ch2 a b :: utf8_chunks s2
           else match s2 with
                | String c s3 =>
                    if valid3 a b c then Ch3 a b c :: utf8_chunks s3
                    else match s3 with
                         | String d s4 =>
                             if valid4 a b c d then Ch4 a b c d :: utf8_chunks s4
                             else ChBad a :: utf8_chunks s1
                         | EmptyString => ChBad a :: utf8_chunks s1
                         end
                | EmptyString => ChBad a :: utf8_chunks s1
                end
       | EmptyString => [ChBad a]
       end.
Proof. reflexivity. Qed.

(** Cutting after a valid chunk. *)
Lemma utf8_chunks_cons ch t :
  chunk_ok ch = true → utf8_chunks (chunk_bytes ch +:+ t) = ch :: utf8_chunks t.
Proof.
  destruct ch as [a|a b|a b c|a b c d|a]; unfold chunk_ok, chunk_bytes, str1;
    intros H; [| | | |done];
    rewrite !str_app_cons, str_app_nil_l, utf8_chunks_step.
  - by rewrite H.
  - destruct (Z.ltb_spec (byte_val a) 128); [chunk_lia|]. by rewrite H.
  - destruct (Z.ltb_spec (byte_val a) 128); [chunk_lia|].
    destruct (valid2 a b) eqn:E2; [chunk_lia|]. by rewrite H.
  - destruct (Z.ltb_spec (byte_val a) 128); [chunk_lia|].
    destruct (valid2 a b) eqn:E2; [chunk_lia|].
    destruct (valid3 a b c) eqn:E3; [chunk_lia|]. by rewrite H.
Qed.

(** The chunks of a string spell the string. *)
Lemma utf8_chunks_bytes s : concat_str (chunk_bytes <$> utf8_chunks s) = s.
Proof.
  induction s as [|s IH] using str_ind2; [done|].
  destruct s as [|a s1]; [done|]. rewrite utf8_chunks_step.
  assert (Hbad : concat_str (chunk_bytes <$> ChBad a :: utf8_chunks s1) = String a s1).
  { cbn. rewrite IH; [done|simpl; lia]. }
  case_match; [cbn; rewrite IH; [done|simpl; lia]|].
  destruct s1 as [|b s2]; [done|].
  case_match; [cbn; rewrite IH; [done|simpl; lia]|].
  destruct s2 as [|c s3]; [done|].
  case_match; [cbn; rewrite IH; [done|simpl; lia]|].
  destruct s3 as [|d s4]; [done|].
  case_match; [cbn; rewrite IH; [done|simpl; lia]|done].
Qed.

(** Every chunk is a valid encoding or a bad byte that is not ASCII. *)
Definition chunk_wf (ch : chunk) : bool :=
  match ch with ChBad a => 128 <=? byte_val a | _ => chunk_ok ch end.

Lemma utf8_chunks_wf s : Forall (λ ch, chunk_wf ch = true) (utf8_chunks s).
Proof.
  induction s as [|s IH] using str_ind2; [constructor|].
  destruct s as [|a s1]; [constructor|]. rewrite utf8_chunks_step.
  destruct (Z.ltb_spec (byte_val a) 128).
  { constructor; [simpl; lia|apply IH; simpl; lia]. }
  assert (Hbad : ∀ l, Forall (λ ch, chunk_wf ch = true) l →
                 Forall (λ ch, chunk_wf ch = true) (ChBad a :: l)).
  { intros l Hl. constructor; [simpl; lia|done]. }
  destruct s1 as [|b s2]; [apply Hbad; constructor|].
  case_match; [constructor; [done|apply IH; simpl; lia]|].
  destruct s2 as [|c s3]; [apply Hbad, IH; simpl; lia|].
  case_match; [constructor; [done|apply IH; simpl; lia]|].
  destruct s3 as [|d s4]; [apply Hbad, IH; simpl; lia|].
  case_match; [constructor; [done|apply IH; simpl; lia]|].
  apply Hbad, IH; simpl; lia.
Qed.

Ltac if_lia :=
  repeat lazymatch goal with
         | |- (if ?b then _ else _) = _ => destruct b eqn:?; try lia
         end.

Ltac str_bytes :=
  repeat lazymatch goal with
         | |- String _ _ = String _ _ => refine (f_equal2 String _ _)
         | |- emp = emp => reflexivity
         end.

Lemma byte_chr_eq z c : z = byte_val c → byte_chr z = c.
Proof. intros ->. apply byte_chr_val. Qed.

(** Encoding the rune of a valid chunk gives the chunk back. *)
Lemma EncodeRune_rune_of ch :
  chunk_ok ch = true → EncodeRune (rune_of ch) = chunk_bytes ch.
Proof.
  destruct ch as [a|a b|a b c|a b c d|a]; unfold chunk_ok, rune_of, chunk_bytes;
    intros H; [| | | |done]; unfold EncodeRune, encode_rune3, str1.
  - assert (0 <= byte_val a <= 127) by chunk_lia. if_lia. by rewrite byte_chr_val.
  - set (r := _ + _). assert (128 <= r <= 2047) by chunk_lia. if_lia.
    str_bytes; apply byte_chr_eq; subst r; Z.div_mod_to_equations; chunk_lia.
  - set (r := _ + _). assert (2048 <= r <= 65535 ∧ ¬ (0xD800 <= r <= 0xDFFF)) by chunk_lia.
    if_lia. str_bytes; apply byte_chr_eq; subst r; Z.div_mod_to_equations; chunk_lia.
  - set (r := _ + _). assert (65536 <= r <= 0x10FFFF) by chunk_lia.
    if_lia. str_bytes; apply byte_chr_eq; subst r; Z.div_mod_to_equations; chunk_lia.
Qed.

(** Sanitizing leaves a valid string alone. *)
Lemma utf8_sanitize_valid s : utf8_valid s = true → utf8_sanitize s = s.
Proof.
  unfold utf8_valid, utf8_sanitize. intros H.
  rewrite <- (utf8_chunks_bytes s) at 2. f_equal.
  induction (utf8_chunks s) as [|ch l IH]; [done|].
  simpl in H. apply andb_prop in H as [Hc Hl].
  rewrite !fmap_cons, IH, EncodeRune_rune_of by done. done.
Qed.

Lemma utf8_valid_ascii s :
  forallb (λ c, byte_val c <? 128) (String.list_ascii_of_string s) = true →
  utf8_valid s = true.
Proof.
  unfold utf8_valid. induction s as [|c s IH]; [done|]. simpl.
  intros [Hc Hs]%andb_prop. rewrite utf8_chunks_step, Hc. simpl. by rewrite Hc, IH.
Qed.

#[export] Hint Resolve utf8_sanitize_valid utf8_valid_ascii : go.
