(* ===== verification/Json.v ===== *)
(** * JSON

    What the operator and the router use of Go's [encoding/json]: the syntax
    that [Unmarshal] accepts (its scanner, the nesting limit, string
    unquoting) and the text that [Marshal] writes (compact, HTML-escaped).
    A document is parsed into [json]; decoding it into a Go struct is in
    ShardMap.v and Router.v. *)
From S2P Require Import Prelude Strconv Utf8.
From stdpp Require Import options.

(** Numbers stay literals until the target type is known, strings are held
    unquoted, members keep their order and their duplicates. *)
Unset Elimination Schemes.
Inductive json :=
| JNull
| JBool (b : bool)
| JNum (lit : string)
| JStr (s : string)
| JArr (l : list json)
| JObj (m : list (string * json)).
Set Elimination Schemes.

(** Induction with the hypothesis on every element and member. *)
Fixpoint json_ind (P : json → Prop)
  (Hnull : P JNull) (Hbool : ∀ b, P (JBool b)) (Hnum : ∀ lit, P (JNum lit))
  (Hstr : ∀ s, P (JStr s))
  (Harr : ∀ l, Forall P l → P (JArr l))
  (Hobj : ∀ m, Forall (λ kv, P kv.2) m → P (JObj m)) (j : json) : P j :=
  match j with
  | JNull => Hnull
  | JBool b => Hbool b
  | JNum lit => Hnum lit
  | JStr s => Hstr s
  | JArr l =>
      Harr l ((fix go (l : list json) : Forall P l :=
        match l with
        | [] => Forall_nil_2 P
        | x :: l' => Forall_cons_2 P x l'
                       (json_ind P Hnull Hbool Hnum Hstr Harr Hobj x) (go l')
        end) l)
  | JObj m =>
      Hobj m ((fix go (m : list (string * json)) : Forall (λ kv, P kv.2) m :=
        match m with
        | [] => Forall_nil_2 _
        | (k, x) :: m' => Forall_cons_2 (λ kv : string * json, P kv.2) (k, x) m'
                       (json_ind P Hnull Hbool Hnum Hstr Harr Hobj x) (go m')
        end) m)
  end.

(** ** Lexical level *)
Definition is_ws (c : Ascii.ascii) : bool :=
  (byte_val c =? 32) || (byte_val c =? 9) || (byte_val c =? 10) || (byte_val c =? 13).

Fixpoint skip_ws (s : string) : string :=
  match s with
  | String c s' => if is_ws c then skip_ws s' else s
  | EmptyString => s
  end.

Definition hex_digit (c : Ascii.ascii) : option Z :=
  let v := byte_val c in
  if (48 <=? v) && (v <=? 57) then Some (v - 48)
  else if (97 <=? v) && (v <=? 102) then Some (v - 87)
  else if (65 <=? v) && (v <=? 70) then Some (v - 55)
  else None.

Definition is_hex (c : Ascii.ascii) : bool := bool_decide (is_Some (hex_digit c)).

(** [\b \f \n \r \t \\ \/ \x22]: the byte a short escape stands for. *)
Definition simple_escape (c : Ascii.ascii) : option Ascii.ascii :=
  let v := byte_val c in
  if (v =? 34) || (v =? 92) || (v =? 47) then Some c
  else if v =? 98 then Some (byte_chr 8)
  else if v =? 102 then Some (byte_chr 12)
  else if v =? 110 then Some (byte_chr 10)
  else if v =? 114 then Some (byte_chr 13)
  else if v =? 116 then Some (byte_chr 9)
  else None.

Definition cons_fst (p : string) (r : option (string * string)) : option (string * string) :=
  match r with
  | Some (a, b) => Some (p +:+ a, b)
  | None => None
  end.

(** The scanner inside a string literal, after the opening quote: the raw
    contents and what follows the closing quote. *)
Fixpoint scan_string (s : string) : option (string * string) :=
  match s with
  | EmptyString => None
  | String c s' =>
      if byte_val c =? 34 then Some (emp, s')
      else if byte_val c =? 92 then
        match s' with
        | EmptyString => None
        | String e s'' =>
            if bool_decide (is_Some (simple_escape e)) then
              cons_fst (String c (str1 e)) (scan_string s'')
            else if byte_val e =? 117 then
              match s'' with
              | String h1 (String h2 (String h3 (String h4 s4))) =>
                  if is_hex h1 && is_hex h2 && is_hex h3 && is_hex h4 then
                    cons_fst (String c (String e (String h1 (String h2 (String h3 (str1 h4))))))
                      (scan_string s4)
                  else None
              | _ => None
              end
            else None
        end
      else if byte_val c <? 32 then None
      else cons_fst (str1 c) (scan_string s')
  end.

(** [getu4]: the code unit of four hexadecimal digits. *)
Definition hex4 (c1 c2 c3 c4 : chunk) : option Z :=
  match c1, c2, c3, c4 with
  | Ch1 a, Ch1 b, Ch1 c, Ch1 d =>
      match hex_digit a, hex_digit b, hex_digit c, hex_digit d with
      | Some w, Some x, Some y, Some z => Some (w * 4096 + x * 256 + y * 16 + z)
      | _, _, _, _ => None
      end
  | _, _, _, _ => None
  end.

Definition is_surrogate (r : Z) : bool := (0xD800 <=? r) && (r <? 0xE000).

(** [utf16.DecodeRune] on two code units. *)
Definition utf16_decode (r1 r2 : Z) : Z :=
  if (0xD800 <=? r1) && (r1 <? 0xDC00) && (0xDC00 <=? r2) && (r2 <? 0xE000)
  then (r1 - 0xD800) * 1024 + (r2 - 0xDC00) + 0x10000
  else RuneError.

Definition is_ch1 (v : Z) (ch : chunk) : bool :=
  match ch with Ch1 a => byte_val a =? v | _ => false end.

(** [unquoteBytes] on the raw contents of a scanned literal. *)
Fixpoint unquote (cs : list chunk) : string :=
  match cs with
  | [] => emp
  | ch :: cs1 =>
      if is_ch1 92 ch then
        match cs1 with
        | [] => emp
        | e :: cs2 =>
            if is_ch1 117 e then
              match cs2 with
              | h1 :: h2 :: h3 :: h4 :: cs6 =>
                  match hex4 h1 h2 h3 h4 with
                  | None => emp
                  | Some rr =>
                      if is_surrogate rr then
                        match cs6 with
                        | b :: u :: g1 :: g2 :: g3 :: g4 :: cs12 =>
                            match hex4 g1 g2 g3 g4 with
                            | Some rr1 =>
                                if is_ch1 92 b && is_ch1 117 u
                                   && negb (utf16_decode rr rr1 =? RuneError)
                                then EncodeRune (utf16_decode rr rr1) +:+ unquote cs12
                                else EncodeRune RuneError +:+ unquote cs6
                            | None => EncodeRune RuneError +:+ unquote cs6
                            end
                        | _ => EncodeRune RuneError +:+ unquote cs6
                        end
                      else EncodeRune rr +:+ unquote cs6
                  end
              | _ => emp
              end
            else
              match e with
              | Ch1 a => match simple_escape a with
                         | Some x => String x (unquote cs2)
                         | None => emp
                         end
              | _ => emp
              end
        end
      else EncodeRune (rune_of ch) +:+ unquote cs1
  end.

Definition parse_string (s : string) : option (string * string) :=
  match scan_string s with
  | Some (raw, rest) => Some (unquote (utf8_chunks raw), rest)
  | None => None
  end.

(** Number literals: [-]int[.frac][exp]. *)
Fixpoint span_digits (s : string) : string * string :=
  match s with
  | String c s' => if is_digit c then let '(a, b) := span_digits s' in (String c a, b)
                   else (emp, s)
  | EmptyString => (emp, emp)
  end.

Definition scan_int (s : string) : option (string * string) :=
  match s with
  | String c s' =>
      if byte_val c =? 48 then Some (str1 c, s')
      else if is_digit c then Some (span_digits s) else None
  | EmptyString => None
  end.

Definition scan_digits1 (s : string) : option (string * string) :=
  match span_digits s with
  | (EmptyString, _) => None
  | r => Some r
  end.

Definition scan_frac (s : string) : option (string * string) :=
  match s with
  | String c s' => if byte_val c =? 46 then cons_fst (str1 c) (scan_digits1 s')
                   else Some (emp, s)
  | EmptyString => Some (emp, s)
  end.

Definition scan_exp (s : string) : option (string * string) :=
  match s with
  | String c s' =>
      if (byte_val c =? 101) || (byte_val c =? 69) then
        match s' with
        | String g s'' =>
            if (byte_val g =? 43) || (byte_val g =? 45)
            then cons_fst (String c (str1 g)) (scan_digits1 s'')
            else cons_fst (str1 c) (scan_digits1 s')
        | EmptyString => None
        end
      else Some (emp, s)
  | EmptyString => Some (emp, s)
  end.

Definition scan_unsigned (s : string) : option (string * string) :=
  match scan_int s with
  | None => None
  | Some (i, s1) =>
      match scan_frac s1 with
      | None => None
      | Some (f, s2) => cons_fst (i +:+ f) (scan_exp s2)
      end
  end.

Definition scan_number (s : string) : option (string * string) :=
  match s with
  | String c s' => if byte_val c =? 45 then cons_fst (str1 c) (scan_unsigned s')
                   else scan_unsigned s
  | EmptyString => None
  end.

Fixpoint strip_prefix (p s : string) : option string :=
  match p, s with
  | EmptyString, _ => Some s
  | String a p', String b s' => if byte_val a =? byte_val b then strip_prefix p' s' else None
  | String _ _, EmptyString => None
  end.

Arguments scan_number : simpl never.
Arguments parse_string : simpl never.

(** ** Values *)
Definition maxNestingDepth : Z := 10000.

Fixpoint parse_value (fuel : nat) (depth : Z) (s : string) : option (json * string) :=
  match fuel with
  | O => None
  | S f =>
      match skip_ws s with
      | EmptyString => None
      | String c t =>
          let v := byte_val c in
          if v =? 123 then
            if maxNestingDepth <? depth + 1 then None
            else match skip_ws t with
                 | EmptyString => None
                 | String c' t' =>
                     if byte_val c' =? 125 then Some (JObj [], t')
                     else match parse_members f (depth + 1) t with
                          | Some (m, r) => Some (JObj m, r)
                          | None => None
                          end
                 end
          else if v =? 91 then
            if maxNestingDepth <? depth + 1 then None
            else match skip_ws t with
                 | EmptyString => None
                 | String c' t' =>
                     if byte_val c' =? 93 then Some (JArr [], t')
                     else match parse_elems f (depth + 1) t with
                          | Some (l, r) => Some (JArr l, r)
                          | None => None
                          end
                 end
          else if v =? 34 then
            match parse_string t with
            | Some (x, r) => Some (JStr x, r)
            | None => None
            end
          else if v =? 116 then
            match strip_prefix "rue" t with Some r => Some (JBool true, r) | None => None end
          else if v =? 102 then
            match strip_prefix "alse" t with Some r => Some (JBool false, r) | None => None end
          else if v =? 110 then
            match strip_prefix "ull" t with Some r => Some (JNull, r) | None => None end
          else
            match scan_number (String c t) with
            | Some (n, r) => Some (JNum n, r)
            | None => None
            end
      end
  end
with parse_elems (fuel : nat) (depth : Z) (s : string) : option (list json * string) :=
  match fuel with
  | O => None
  | S f =>
      match parse_value f depth s with
      | None => None
      | Some (v, r) =>
          match skip_ws r with
          | EmptyString => None
          | String c t =>
              if byte_val c =? 93 then Some ([v], t)
              else if byte_val c =? 44 then
                match parse_elems f depth t with
                | Some (l, r') => Some (v :: l, r')
                | None => None
                end
              else None
          end
      end
  end
with parse_members (fuel : nat) (depth : Z) (s : string)
  : option (list (string * json) * string) :=
  match fuel with
  | O => None
  | S f =>
      match skip_ws s with
      | EmptyString => None
      | String q t =>
          if byte_val q =? 34 then
            match parse_string t with
            | None => None
            | Some (key, r) =>
                match skip_ws r with
                | EmptyString => None
                | String c t1 =>
                    if byte_val c =? 58 then
                      match parse_value f depth t1 with
                      | None => None
                      | Some (v, r1) =>
                          match skip_ws r1 with
                          | EmptyString => None
                          | String c' t2 =>
                              if byte_val c' =? 125 then Some ([(key, v)], t2)
                              else if byte_val c' =? 44 then
                                match parse_members f depth t2 with
                                | Some (m, r2) => Some ((key, v) :: m, r2)
                                | None => None
                                end
                              else None
                          end
                      end
                    else None
                end
            end
          else None
      end
  end.

(** Each call reads a byte or descends into a value that starts with one, so
    this fuel is never exhausted ([parse_fuel_irrelevant]). *)
Definition json_fuel (s : string) : nat := (2 * String.length s + 1)%nat.

(** [checkValid] and the parse: one value, surrounded by white space. *)
Definition json_parse (s : string) : option json :=
  match parse_value (json_fuel s) 0 s with
  | Some (v, r) => match skip_ws r with EmptyString => Some v | String _ _ => None end
  | None => None
  end.

(** ** Writing *)
Definition hex_chr (d : Z) : Ascii.ascii :=
  if d <? 10 then byte_chr (48 + d) else byte_chr (87 + d).

Definition backslash : Ascii.ascii := byte_chr 92.
Definition dquote : Ascii.ascii := byte_chr 34.

(** [\uXXXX]. *)
Definition u_escape (r : Z) : string :=
  String backslash (String (byte_chr 117)
    (String (hex_chr (r / 4096)) (String (hex_chr ((r / 256) mod 16))
      (String (hex_chr ((r / 16) mod 16)) (str1 (hex_chr (r mod 16))))))).

(** [htmlSafeSet]. *)
Definition html_safe (c : Ascii.ascii) : bool :=
  let v := byte_val c in
  (32 <=? v) && negb ((v =? 34) || (v =? 38) || (v =? 60) || (v =? 62) || (v =? 92)).

Definition quote_chunk (ch : chunk) : string :=
  match ch with
  | Ch1 c =>
      let v := byte_val c in
      if html_safe c then str1 c
      else if (v =? 92) || (v =? 34) then String backslash (str1 c)
      else if v =? 8 then "\b"
      else if v =? 12 then "\f"
      else if v =? 10 then "\n"
      else if v =? 13 then "\r"
      else if v =? 9 then "\t"
      else u_escape v
  | ChBad _ => u_escape RuneError
  | _ => if (rune_of ch =? 0x2028) || (rune_of ch =? 0x2029) then u_escape (rune_of ch)
         else chunk_bytes ch
  end.

(** The contents of the literal, and the literal ([appendString]). *)
Definition quote_body (s : string) : string := concat_str (quote_chunk <$> utf8_chunks s).
Definition quote (s : string) : string := String dquote (quote_body s +:+ str1 dquote).

Fixpoint join (sep : string) (l : list string) : string :=
  match l with
  | [] => emp
  | [x] => x
  | x :: l' => x +:+ sep +:+ join sep l'
  end.

Fixpoint print (j : json) : string :=
  match j with
  | JNull => "null"
  | JBool true => "true"
  | JBool false => "false"
  | JNum lit => lit
  | JStr s => quote s
  | JArr l => "[" +:+ join "," (print <$> l) +:+ "]"
  | JObj m => "{" +:+ join "," ((λ kv, quote kv.1 +:+ ":" +:+ print kv.2) <$> m) +:+ "}"
  end.
