(* ===== verification/JsonFacts.v ===== *)
(** * Facts about the JSON parser and printer

    The parser never runs out of fuel, and parsing what [print] wrote gives
    the document back, with the bytes that are not valid UTF-8 replaced. *)
From S2P Require Import Prelude Strconv Utf8 Json.
From stdpp Require Import options.

(** ** Consumption: every scanner returns a suffix that is not longer *)
Lemma skip_ws_le s : (String.length (skip_ws s) <= String.length s)%nat.
Proof. induction s as [|c s IH]; simpl; [done|]. case_match; simpl; lia. Qed.

Lemma cons_fst_Some p r a b :
  cons_fst p r = Some (a, b) → ∃ a', r = Some (a', b) ∧ a = p +:+ a'.
Proof. destruct r as [[]|]; simpl; naive_solver. Qed.

Lemma scan_string_lt s raw r :
  scan_string s = Some (raw, r) → (String.length r < String.length s)%nat.
Proof.
  revert raw r. induction s as [|s IH] using str_ind2; [done|].
  destruct s as [|c s1]; [done|]. simpl scan_string. intros raw r.
  case_match; [intros; simplify_eq/=; lia|].
  case_match.
  - destruct s1 as [|e s2]; [done|]. case_match.
    + intros (raw2 & Hr & _)%cons_fst_Some. apply IH in Hr; simpl in *; lia.
    + case_match; [|done]. destruct s2 as [|? [|? [|? [|? s4]]]]; try done.
      case_match; [|done].
      intros (raw2 & Hr & _)%cons_fst_Some. apply IH in Hr; simpl in *; lia.
  - case_match; [done|].
    intros (raw2 & Hr & _)%cons_fst_Some. apply IH in Hr; simpl in *; lia.
Qed.

Lemma parse_string_lt s x r :
  parse_string s = Some (x, r) → (String.length r < String.length s)%nat.
Proof.
  unfold parse_string. destruct (scan_string s) as [[raw r']|] eqn:E; [|done].
  intros; simplify_eq. by eapply scan_string_lt.
Qed.

Lemma span_digits_le s :
  (String.length (span_digits s).2 <= String.length s)%nat.
Proof.
  induction s as [|c s IH]; simpl; [lia|].
  case_match; simpl; [|lia]. destruct (span_digits s); simpl in *; lia.
Qed.

Lemma scan_digits1_le s a r :
  scan_digits1 s = Some (a, r) → (String.length r <= String.length s)%nat.
Proof.
  unfold scan_digits1. pose proof (span_digits_le s).
  destruct (span_digits s) as [[|??] ?]; intros; by simplify_eq/=.
Qed.

Lemma scan_frac_le s a r :
  scan_frac s = Some (a, r) → (String.length r <= String.length s)%nat.
Proof.
  destruct s as [|c s]; simpl; [intros; by simplify_eq|].
  case_match; [|intros; by simplify_eq].
  intros (? & ?%scan_digits1_le & _)%cons_fst_Some. lia.
Qed.

Lemma scan_exp_le s a r :
  scan_exp s = Some (a, r) → (String.length r <= String.length s)%nat.
Proof.
  destruct s as [|c s]; simpl; [intros; by simplify_eq|].
  case_match; [|intros; by simplify_eq]. destruct s as [|g s]; [done|].
  case_match; intros (? & ?%scan_digits1_le & _)%cons_fst_Some; simpl in *; lia.
Qed.

Lemma scan_int_lt s a r :
  scan_int s = Some (a, r) → (String.length r < String.length s)%nat.
Proof.
  destruct s as [|c s]; simpl; [done|]. case_match; [intros; simplify_eq; lia|].
  case_match; [|done]. pose proof (span_digits_le s).
  destruct (span_digits s); simpl in *. intros; simplify_eq. lia.
Qed.

Lemma scan_unsigned_lt s a r :
  scan_unsigned s = Some (a, r) → (String.length r < String.length s)%nat.
Proof.
  unfold scan_unsigned. destruct (scan_int s) as [[i s1]|] eqn:E1; [|done].
  destruct (scan_frac s1) as [[f s2]|] eqn:E2; [|done].
  intros (? & ?%scan_exp_le & _)%cons_fst_Some.
  apply scan_int_lt in E1. apply scan_frac_le in E2. lia.
Qed.

Lemma scan_number_lt s a r :
  scan_number s = Some (a, r) → (String.length r < String.length s)%nat.
Proof.
  destruct s as [|c s]; [done|]. unfold scan_number. case_match.
  - intros (? & ?%scan_unsigned_lt & _)%cons_fst_Some. simpl; lia.
  - apply scan_unsigned_lt.
Qed.

Lemma strip_prefix_le p s r :
  strip_prefix p s = Some r → (String.length r <= String.length s)%nat.
Proof.
  revert s. induction p as [|a p IH]; intros s; cbn [strip_prefix].
  - destruct s; intros; simplify_eq/=; lia.
  - destruct s as [|b s]; [done|]. simpl. case_match; [|done]. intros ?%IH. lia.
Qed.

#[local] Arguments strip_prefix : simpl never.

(** A tactic that turns successful scans into length facts. *)
Ltac consume :=
  repeat match goal with
  | H : parse_string _ = Some (_, _) |- _ => apply parse_string_lt in H
  | H : scan_number _ = Some (_, _) |- _ => apply scan_number_lt in H
  | H : strip_prefix _ _ = Some _ |- _ => apply strip_prefix_le in H
  | H : skip_ws ?s = String _ _ |- _ =>
      let E := fresh in
      pose proof (skip_ws_le s) as E; rewrite H in E; clear H
  end; simpl in *.

(** ** The values consume input, so the fuel suffices *)
Lemma parse_lt f :
  (∀ d s v r, parse_value f d s = Some (v, r) → (String.length r < String.length s)%nat) ∧
  (∀ d s l r, parse_elems f d s = Some (l, r) → (String.length r < String.length s)%nat) ∧
  (∀ d s m r, parse_members f d s = Some (m, r) → (String.length r < String.length s)%nat).
Proof.
  induction f as [|f (IHv & IHe & IHm)]; [done|]. split_and!; intros d s x r; simpl.
  - destruct (skip_ws s) as [|c t] eqn:?; [done|].
    go_cases; intros; simplify_eq;
      repeat match goal with
        | H : parse_members _ _ _ = _ |- _ => apply IHm in H
        | H : parse_elems _ _ _ = _ |- _ => apply IHe in H
        end; consume; lia.
  - go_cases; intros; simplify_eq;
      repeat match goal with
        | H : parse_value _ _ _ = _ |- _ => apply IHv in H
        | H : parse_elems _ _ _ = _ |- _ => apply IHe in H
        end; consume; lia.
  - go_cases; intros; simplify_eq;
      repeat match goal with
        | H : parse_value _ _ _ = _ |- _ => apply IHv in H
        | H : parse_members _ _ _ = _ |- _ => apply IHm in H
        end; consume; lia.
Qed.

(** More fuel never changes the answer once there is enough of it. *)
Lemma parse_fuel_step f :
  (∀ d s f', (2 * String.length s + 1 <= f)%nat → (f <= f')%nat →
     parse_value f d s = parse_value f' d s) ∧
  (∀ d s f', (2 * String.length s + 2 <= f)%nat → (f <= f')%nat →
     parse_elems f d s = parse_elems f' d s) ∧
  (∀ d s f', (2 * String.length s + 2 <= f)%nat → (f <= f')%nat →
     parse_members f d s = parse_members f' d s).
Proof.
  induction f as [|f (IHv & IHe & IHm)]; [split_and!; lia|].
  split_and!; intros d s [|f'] Hf Hf'; try lia; simpl.
  - destruct (skip_ws s) as [|c t] eqn:?; [done|]. consume.
    rewrite (IHm _ _ f'), (IHe _ _ f') by lia. done.
  - rewrite (IHv _ _ f') by lia.
    destruct (parse_value f' d s) as [[v r]|] eqn:Hv; [|done].
    apply (proj1 (parse_lt _)) in Hv.
    destruct (skip_ws r) as [|c t] eqn:?; [done|]. consume.
    by rewrite (IHe _ _ f') by lia.
  - destruct (skip_ws s) as [|q t] eqn:?; [done|].
    destruct (parse_string t) as [[key r]|] eqn:?; [|done].
    destruct (skip_ws r) as [|c t1] eqn:?; [done|]. consume.
    rewrite (IHv _ _ f') by lia.
    destruct (parse_value f' d t1) as [[v r1]|] eqn:Hv; [|done].
    apply (proj1 (parse_lt _)) in Hv.
    destruct (skip_ws r1) as [|c' t2] eqn:?; [done|]. consume.
    by rewrite (IHm _ _ f') by lia.
Qed.

(** The fuel of [json_parse] decides nothing: any larger amount gives the
    same answer, so a [None] is a syntax error. *)
Lemma parse_fuel_irrelevant f d s :
  (json_fuel s <= f)%nat → parse_value f d s = parse_value (json_fuel s) d s.
Proof.
  intros Hf. symmetry. apply (proj1 (parse_fuel_step _)); [unfold json_fuel in *; lia|done].
Qed.

(** ** String literals *)
Lemma scan_string_plain c t :
  32 <= byte_val c → byte_val c ≠ 34 → byte_val c ≠ 92 →
  scan_string (String c t) = cons_fst (str1 c) (scan_string t).
Proof.
  intros ???. simpl. destruct (Z.eqb_spec (byte_val c) 34); [done|].
  destruct (Z.eqb_spec (byte_val c) 92); [done|]. case_match; [lia|done].
Qed.

Lemma cons_fst_app p q r : cons_fst p (cons_fst q r) = cons_fst (p +:+ q) r.
Proof. destruct r as [[]|]; simpl; [by rewrite str_app_assoc|done]. Qed.

Lemma scan_string_esc e t :
  is_Some (simple_escape e) →
  scan_string (String backslash (String e t))
  = cons_fst (String backslash (str1 e)) (scan_string t).
Proof.
  intros H. cbn [scan_string]. change (byte_val backslash =? 34) with false.
  change (byte_val backslash =? 92) with true. cbv iota.
  by rewrite bool_decide_eq_true_2.
Qed.

Lemma hex_chr_digit d : 0 <= d < 16 → hex_digit (hex_chr d) = Some d.
Proof.
  intros Hd. unfold hex_chr, hex_digit.
  destruct (Z.ltb_spec d 10); rewrite !byte_val_chr by lia; repeat case_match; try lia;
    f_equal; lia.
Qed.

Lemma hex_chr_is_hex d : 0 <= d < 16 → is_hex (hex_chr d) = true.
Proof. intros. apply bool_decide_eq_true_2. by rewrite hex_chr_digit. Qed.

Lemma hex_chr_ascii d : 0 <= d < 16 → (byte_val (hex_chr d) <? 128) = true.
Proof. intros. unfold hex_chr. case_match; rewrite byte_val_chr; lia. Qed.

Lemma hex_digits_range r :
  0 <= r < 65536 →
  0 <= r / 4096 < 16 ∧ 0 <= (r / 256) mod 16 < 16 ∧
  0 <= (r / 16) mod 16 < 16 ∧ 0 <= r mod 16 < 16.
Proof. intros. Z.div_mod_to_equations. lia. Qed.

Lemma scan_string_u h1 h2 h3 h4 t :
  is_hex h1 = true → is_hex h2 = true → is_hex h3 = true → is_hex h4 = true →
  scan_string (String backslash (String (byte_chr 117)
                 (String h1 (String h2 (String h3 (String h4 t))))))
  = cons_fst (String backslash (String (byte_chr 117)
                 (String h1 (String h2 (String h3 (str1 h4)))))) (scan_string t).
Proof. intros H1 H2 H3 H4. cbn -[is_hex cons_fst]. by rewrite H1, H2, H3, H4. Qed.

Lemma scan_quote_escape r t :
  0 <= r < 65536 →
  scan_string (u_escape r +:+ t) = cons_fst (u_escape r) (scan_string t).
Proof.
  intros (H1 & H2 & H3 & H4)%hex_digits_range. unfold u_escape, str1.
  rewrite !str_app_cons, str_app_nil_l. by rewrite scan_string_u by by apply hex_chr_is_hex.
Qed.

(** The shapes [quote_chunk] gives to an ASCII byte. *)
Inductive quoted_ascii (c : Ascii.ascii) : string → Prop :=
| QA_plain : 32 <= byte_val c → byte_val c ≠ 34 → byte_val c ≠ 92 → quoted_ascii c (str1 c)
| QA_short e : simple_escape e = Some c → byte_val e < 128 → byte_val e ≠ 117 →
    quoted_ascii c (String backslash (str1 e))
| QA_long : quoted_ascii c (u_escape (byte_val c)).

Lemma quote_chunk_ascii c : quoted_ascii c (quote_chunk (Ch1 c)).
Proof.
  unfold quote_chunk. destruct (html_safe c) eqn:E1.
  { unfold html_safe in E1. apply QA_plain; lia. }
  destruct (_ || _) eqn:E2.
  { apply QA_short; [|lia..]. unfold simple_escape. case_match; [done|lia]. }
  repeat match goal with
  | |- quoted_ascii c (if byte_val c =? ?v then _ else _) =>
      destruct (Z.eqb_spec (byte_val c) v) as [Ev|];
      [rewrite <- (byte_chr_val c), Ev; by apply QA_short|]
  end.
  apply QA_long.
Qed.

Lemma scan_quote_ascii c t :
  (byte_val c <? 128) = true →
  scan_string (quote_chunk (Ch1 c) +:+ t) = cons_fst (quote_chunk (Ch1 c)) (scan_string t).
Proof.
  intros Hc. destruct (quote_chunk_ascii c) as [???|e He ? ?|].
  - by apply scan_string_plain.
  - apply scan_string_esc. by rewrite He.
  - apply scan_quote_escape. pose proof (byte_val_range c). lia.
Qed.

Lemma scan_quote_multi s t :
  forallb (λ c, 128 <=? byte_val c) (String.list_ascii_of_string s) = true →
  scan_string (s +:+ t) = cons_fst s (scan_string t).
Proof.
  induction s as [|c s IH]; intros H.
  - rewrite str_app_nil_l. by destruct (scan_string t) as [[]|].
  - simpl in H. apply andb_prop in H as [Hc Hs]. rewrite str_app_cons, scan_string_plain by lia.
    rewrite IH, cons_fst_app by done. done.
Qed.

Lemma chunk_bytes_high ch :
  chunk_ok ch = true → (∀ a, ch ≠ Ch1 a) →
  forallb (λ c, 128 <=? byte_val c) (String.list_ascii_of_string (chunk_bytes ch)) = true.
Proof.
  destruct ch; simpl; intros H Hne; try done; try (by edestruct Hne); chunk_lia.
Qed.

Definition is_line_sep (r : Z) : bool := (r =? 0x2028) || (r =? 0x2029).

Lemma quote_chunk_multi ch :
  chunk_ok ch = true → (∀ a, ch ≠ Ch1 a) →
  (is_line_sep (rune_of ch) = true ∧ quote_chunk ch = u_escape (rune_of ch)) ∨
  quote_chunk ch = chunk_bytes ch.
Proof.
  intros Hok Hne. destruct ch as [a|a b|a b c|a b c d|a]; simpl quote_chunk;
    [by edestruct Hne| | | |done];
    unfold is_line_sep; destruct (_ || _); [by left|by right|by left|by right|by left|by right].
Qed.

Lemma scan_quote_chunk ch t :
  chunk_wf ch = true →
  scan_string (quote_chunk ch +:+ t) = cons_fst (quote_chunk ch) (scan_string t).
Proof.
  intros Hwf. destruct ch as [a| | | |a].
  1: by apply scan_quote_ascii.
  4: by apply scan_quote_escape.
  all: match goal with |- context [quote_chunk ?c] =>
         destruct (quote_chunk_multi c Hwf ltac:(done)) as [[Hr ->]| ->] end;
       [unfold is_line_sep in Hr; apply scan_quote_escape; lia
       |by apply scan_quote_multi, chunk_bytes_high].
Qed.

Lemma scan_quote_body s rest :
  scan_string (quote_body s +:+ String dquote rest) = Some (quote_body s, rest).
Proof.
  unfold quote_body. pose proof (utf8_chunks_wf s) as Hwf.
  induction (utf8_chunks s) as [|ch l IH]; [done|].
  apply Forall_cons_1 in Hwf as [Hch Hl].
  rewrite fmap_cons. simpl concat_str.
  rewrite str_app_assoc, scan_quote_chunk, IH by done. done.
Qed.

Lemma utf8_chunks_ascii s t :
  forallb (λ c, byte_val c <? 128) (String.list_ascii_of_string s) = true →
  utf8_chunks (s +:+ t) = (Ch1 <$> String.list_ascii_of_string s) ++ utf8_chunks t.
Proof.
  induction s as [|c s IH]; [done|]. simpl. intros [Hc Hs]%andb_prop.
  by rewrite str_app_cons, utf8_chunks_step, Hc, IH.
Qed.

Lemma unquote_escape r t :
  0 <= r < 65536 → is_surrogate r = false →
  unquote (utf8_chunks (u_escape r +:+ t)) = EncodeRune r +:+ unquote (utf8_chunks t).
Proof.
  intros Hr Hs. pose proof (hex_digits_range r Hr) as (H1 & H2 & H3 & H4).
  rewrite utf8_chunks_ascii;
    [|cbn -[hex_chr Z.div Z.modulo byte_val Z.ltb]; by rewrite !hex_chr_ascii by done].
  cbn -[hex_chr Z.div Z.modulo EncodeRune hex4]. unfold hex4. rewrite !hex_chr_digit by done.
  replace (_ + _) with r by (Z.div_mod_to_equations; lia). by rewrite Hs.
Qed.

Lemma unquote_short e c t :
  simple_escape e = Some c → byte_val e < 128 → byte_val e ≠ 117 →
  unquote (utf8_chunks (String backslash (str1 e) +:+ t)) = String c (unquote (utf8_chunks t)).
Proof.
  intros He Hlt Hu. rewrite utf8_chunks_ascii; simpl.
  - destruct (Z.eqb_spec (byte_val e) 117); [done|]. by rewrite He.
  - destruct (Z.ltb_spec (byte_val e) 128); [done|lia].
Qed.

Lemma unquote_plain ch cs :
  is_ch1 92 ch = false → unquote (ch :: cs) = EncodeRune (rune_of ch) +:+ unquote cs.
Proof. intros H. cbn [unquote]. by rewrite H. Qed.

Lemma unquote_quote_ascii c t :
  (byte_val c <? 128) = true →
  unquote (utf8_chunks (quote_chunk (Ch1 c) +:+ t)) = str1 c +:+ unquote (utf8_chunks t).
Proof.
  intros Hc. pose proof (EncodeRune_rune_of (Ch1 c) Hc) as Henc. simpl in Henc.
  destruct (quote_chunk_ascii c) as [???|e He ? ?|].
  - rewrite (utf8_chunks_cons (Ch1 c)), unquote_plain by (simpl; lia). simpl. by rewrite Henc.
  - by rewrite (unquote_short e c).
  - pose proof (byte_val_range c). rewrite unquote_escape, Henc; [done|lia|].
    unfold is_surrogate. lia.
Qed.

Lemma unquote_quote_chunk ch t :
  chunk_wf ch = true →
  unquote (utf8_chunks (quote_chunk ch +:+ t))
  = EncodeRune (rune_of ch) +:+ unquote (utf8_chunks t).
Proof.
  intros Hwf. destruct ch as [a| | | |a].
  1: by rewrite unquote_quote_ascii, EncodeRune_rune_of.
  4: by apply unquote_escape.
  all: match goal with |- context [quote_chunk ?c] =>
         destruct (quote_chunk_multi c Hwf ltac:(done)) as [[Hr ->]| ->] end;
       [unfold is_line_sep in Hr; apply unquote_escape; unfold is_surrogate; lia
       |by rewrite utf8_chunks_cons, unquote_plain].
Qed.

Lemma unquote_quote_body s : unquote (utf8_chunks (quote_body s)) = utf8_sanitize s.
Proof.
  unfold quote_body, utf8_sanitize. pose proof (utf8_chunks_wf s) as Hwf.
  induction (utf8_chunks s) as [|ch l IH]; [done|].
  apply Forall_cons_1 in Hwf as [Hch Hl].
  rewrite !fmap_cons. simpl concat_str. rewrite unquote_quote_chunk, IH by done. done.
Qed.

(** Reading a literal that [quote] wrote. *)
Lemma parse_string_quote s rest :
  parse_string (quote_body s +:+ String dquote rest) = Some (utf8_sanitize s, rest).
Proof. unfold parse_string. by rewrite scan_quote_body, unquote_quote_body. Qed.

(** ** Number literals *)

(** A literal of JSON's grammar: the scanner takes all of it. *)
Definition num_lit (lit : string) : bool := bool_decide (scan_number lit = Some (lit, emp)).

(** What may follow a number: nothing that would continue it. *)
Definition num_end (rest : string) : bool :=
  match rest with
  | EmptyString => true
  | String c _ => negb (is_digit c || (byte_val c =? 46) || (byte_val c =? 101) || (byte_val c =? 69))
  end.

(** A scan that ends before [rest] starts does not see it. *)
Definition stops (scan : string → option (string * string)) : Prop :=
  ∀ s a b rest, num_end rest = true → scan s = Some (a, b) → scan (s +:+ rest) = Some (a, b +:+ rest).

Lemma cons_fst_some p r a b :
  cons_fst p r = Some (a, b) → ∃ a', r = Some (a', b) ∧ a = p +:+ a'.
Proof. destruct r as [[a' b']|]; simpl; [|done]. intros [= <- <-]. eauto. Qed.

Lemma span_digits_stops s a b rest :
  num_end rest = true → span_digits s = (a, b) → span_digits (s +:+ rest) = (a, b +:+ rest).
Proof.
  intros Hr. revert a. induction s as [|c s IH]; intros a.
  - intros [= <- <-]. rewrite str_app_nil_l. destruct rest as [|c rest]; [done|]. simpl in *.
    by destruct (is_digit c).
  - rewrite str_app_cons. cbn [span_digits]. destruct (is_digit c); [|by intros [= <- <-]].
    destruct (span_digits s) as [x y]. intros [= <- <-]. by rewrite (IH x eq_refl).
Qed.

Lemma scan_digits1_stops : stops scan_digits1.
Proof.
  intros s a b rest Hr. unfold scan_digits1. destruct (span_digits s) as [x y] eqn:E.
  rewrite (span_digits_stops _ _ _ _ Hr E). by destruct x; [|intros [= <- <-]].
Qed.

Lemma scan_int_stops : stops scan_int.
Proof.
  intros [|c s] a b rest Hr; [done|]. rewrite str_app_cons. unfold scan_int.
  destruct (byte_val c =? 48); [by intros [= <- <-]|]. rewrite <- str_app_cons.
  destruct (is_digit c); [|done]. destruct (span_digits (String c s)) as [x y] eqn:E.
  intros [= <- <-]. by rewrite (span_digits_stops _ _ _ _ Hr E).
Qed.

Lemma scan_frac_stops : stops scan_frac.
Proof.
  intros [|c s] a b rest Hr; unfold scan_frac.
  - intros [= <- <-]. rewrite str_app_nil_l. destruct rest as [|c rest]; [done|]. simpl in Hr.
    case_match; [lia|done].
  - rewrite str_app_cons. destruct (byte_val c =? 46); [|by intros [= <- <-]].
    intros (a' & E & ->)%cons_fst_some. by rewrite (scan_digits1_stops _ _ _ _ Hr E).
Qed.

Lemma scan_exp_stops : stops scan_exp.
Proof.
  intros [|c s] a b rest Hr; unfold scan_exp.
  - intros [= <- <-]. rewrite str_app_nil_l. destruct rest as [|c rest]; [done|]. simpl in Hr.
    case_match; [lia|done].
  - rewrite str_app_cons. destruct ((byte_val c =? 101) || (byte_val c =? 69)); [|by intros [= <- <-]].
    destruct s as [|g s]; [done|]. rewrite str_app_cons.
    destruct ((byte_val g =? 43) || (byte_val g =? 45)); intros (a' & E & ->)%cons_fst_some.
    + by rewrite (scan_digits1_stops _ _ _ _ Hr E).
    + rewrite <- str_app_cons. by rewrite (scan_digits1_stops _ _ _ _ Hr E).
Qed.

Lemma scan_unsigned_stops : stops scan_unsigned.
Proof.
  intros s a b rest Hr. unfold scan_unsigned. destruct (scan_int s) as [[i s1]|] eqn:Ei; [|done].
  rewrite (scan_int_stops _ _ _ _ Hr Ei). destruct (scan_frac s1) as [[f s2]|] eqn:Ef; [|done].
  rewrite (scan_frac_stops _ _ _ _ Hr Ef). intros (a' & E & ->)%cons_fst_some.
  by rewrite (scan_exp_stops _ _ _ _ Hr E).
Qed.

Lemma scan_number_stops : stops scan_number.
Proof.
  intros [|c s] a b rest Hr; [done|]. rewrite str_app_cons. unfold scan_number.
  destruct (byte_val c =? 45).
  - intros (a' & E & ->)%cons_fst_some. by rewrite (scan_unsigned_stops _ _ _ _ Hr E).
  - rewrite <- str_app_cons. by apply scan_unsigned_stops.
Qed.

Lemma scan_number_lit lit rest :
  num_lit lit = true → num_end rest = true → scan_number (lit +:+ rest) = Some (lit, rest).
Proof. intros Hl%bool_decide_eq_true Hr. apply (scan_number_stops _ _ _ _ Hr Hl). Qed.

(** It starts with a digit or a sign. *)
Lemma num_lit_head lit :
  num_lit lit = true → ∃ c t, lit = String c t ∧ (byte_val c = 45 ∨ is_digit c = true).
Proof.
  intros H%bool_decide_eq_true. destruct lit as [|c t]; [done|]. exists c, t. split; [done|].
  unfold scan_number in H. destruct (Z.eqb_spec (byte_val c) 45); [by left|right].
  unfold scan_unsigned, scan_int in H. destruct (Z.eqb_spec (byte_val c) 48) as [E|].
  - unfold is_digit. lia.
  - by destruct (is_digit c).
Qed.

(** Decimal integers are literals. *)
Lemma canonical_nat_head s :
  canonical_nat s = true → ∃ c t, s = String c t ∧ is_digit c = true.
Proof.
  destruct s as [|c t]; [done|]. intros [[? _]%andb_prop _]%andb_prop. eauto.
Qed.

Lemma span_all_digits s : all_digits s = true → span_digits s = (s, emp).
Proof.
  induction s as [|c s IH]; [done|]. simpl. intros [-> Hs]%andb_prop. by rewrite IH.
Qed.

Lemma scan_unsigned_nat s : canonical_nat s = true → scan_unsigned s = Some (s, emp).
Proof.
  intros Hs. unfold scan_unsigned.
  assert (scan_int s = Some (s, emp)) as ->; [|simpl; by rewrite !str_app_nil_r].
  pose proof (canonical_nat_digits _ Hs) as Hd. destruct s as [|c s]; [done|]. unfold scan_int.
  rewrite span_all_digits by done. simpl in Hs, Hd. destruct (Z.eqb_spec (byte_val c) 48).
  - simpl in Hs. apply andb_prop in Hs as [_ Hs]. apply bool_decide_eq_true_1 in Hs as ->. done.
  - by apply andb_prop in Hd as [-> _].
Qed.

Lemma num_lit_Itoa n : num_lit (Itoa n) = true.
Proof.
  apply bool_decide_eq_true. unfold Itoa. destruct (Z.ltb_spec n 0).
  - rewrite str_app_cons, str_app_nil_l. unfold scan_number. simpl (byte_val _ =? _). cbv iota.
    by rewrite scan_unsigned_nat by (apply udec_canonical; lia).
  - pose proof (udec_canonical n ltac:(lia)) as Hc.
    destruct (canonical_nat_head _ Hc) as (c & t & E & Hd). unfold scan_number. rewrite E in Hc |- *.
    rewrite (proj2 (Z.eqb_neq _ _)) by (unfold is_digit in Hd; lia). by rewrite scan_unsigned_nat.
Qed.

(** ** Documents *)

(** Documents whose numbers are literals of the grammar. *)
Fixpoint num_json (j : json) : bool :=
  match j with
  | JNum lit => num_lit lit
  | JArr l => forallb num_json l
  | JObj m => forallb (λ kv, num_json kv.2) m
  | _ => true
  end.

(** Nesting of arrays and objects. *)
Fixpoint height (j : json) : Z :=
  match j with
  | JArr l => 1 + foldr Z.max 0 (height <$> l)
  | JObj m => 1 + foldr Z.max 0 ((λ kv, height kv.2) <$> m)
  | _ => 0
  end.

(** Strings and keys as they come back: valid UTF-8. *)
Fixpoint sanitize (j : json) : json :=
  match j with
  | JStr s => JStr (utf8_sanitize s)
  | JArr l => JArr (sanitize <$> l)
  | JObj m => JObj ((λ kv, (utf8_sanitize kv.1, sanitize kv.2)) <$> m)
  | _ => j
  end.

(** The first byte of a printed value is none of white space, [,], [\]] and [}]. *)
Definition value_head (c : Ascii.ascii) : bool :=
  negb (is_ws c || (byte_val c =? 44) || (byte_val c =? 93) || (byte_val c =? 125)
        || (byte_val c =? 58)).

Lemma print_head j :
  num_json j = true → ∃ c t, print j = String c t ∧ value_head c = true.
Proof.
  destruct j as [|[]|lit|s|l|m]; simpl; intros H;
    try (by eexists _, _; split; [rewrite ?str_app_cons; reflexivity|]).
  destruct (num_lit_head _ H) as (c & t & -> & Hc). exists c, t. split; [done|].
  unfold value_head, is_ws. unfold is_digit in Hc. lia.
Qed.

Lemma skip_ws_head c t : is_ws c = false → skip_ws (String c t) = String c t.
Proof. intros H. simpl. by rewrite H. Qed.

Lemma value_head_ws c : value_head c = true → is_ws c = false.
Proof. unfold value_head. destruct (is_ws c); [done|done]. Qed.

Lemma foldr_max_nonneg l : 0 <= foldr Z.max 0 l.
Proof. induction l; simpl; lia. Qed.

(** Parsing one printed value, in any context that ends it. *)
Definition reads_back (j : json) : Prop :=
  ∀ f d rest,
    num_json j = true → d + height j <= maxNestingDepth → num_end rest = true →
    (2 * String.length (print j) + 1 <= f)%nat →
    parse_value f d (print j +:+ rest) = Some (sanitize j, rest).

Lemma join_cons sep x y l :
  join sep (x :: y :: l) = x +:+ sep +:+ join sep (y :: l).
Proof. done. Qed.

Lemma parse_elems_print l f d rest :
  l ≠ [] → Forall reads_back l → forallb num_json l = true →
  d + foldr Z.max 0 (height <$> l) <= maxNestingDepth →
  (2 * String.length (join "," (print <$> l)) + 2 <= f)%nat →
  parse_elems f d (join "," (print <$> l) +:+ String "]"%char rest)
  = Some (sanitize <$> l, rest).
Proof.
  revert f. induction l as [|x l IH]; intros f Hne Hl Hi Hd Hf; [done|].
  apply Forall_cons_1 in Hl as [Hx Hl]. rewrite fmap_cons in Hd. cbn [foldr] in Hd.
  simpl in Hi. apply andb_prop in Hi as [Hix Hil].
  destruct f as [|f]; [lia|]. destruct l as [|y l].
  - simpl join in *. cbn [parse_elems].
    rewrite (Hx f d (String "]"%char rest)) by (done || lia). done.
  - rewrite !fmap_cons, join_cons in Hf |- *. rewrite <- fmap_cons in Hf |- *.
    rewrite !str_length_app in Hf. simpl String.length in Hf at 2.
    rewrite !str_app_assoc, str_app_cons, str_app_nil_l. cbn [parse_elems].
    rewrite Hx by (done || lia).
    change (skip_ws (String ","%char ?t)) with (String ","%char t). cbv beta iota.
    change (byte_val ","%char =? 93) with false. change (byte_val ","%char =? 44) with true. cbv iota.
    rewrite IH by (done || lia). done.
Qed.

Definition print_member (kv : string * json) : string :=
  quote kv.1 +:+ ":" +:+ print kv.2.

Lemma parse_members_print m f d rest :
  m ≠ [] → Forall (λ kv, reads_back kv.2) m →
  forallb (λ kv, num_json kv.2) m = true →
  d + foldr Z.max 0 ((λ kv, height kv.2) <$> m) <= maxNestingDepth →
  (2 * String.length (join "," (print_member <$> m)) + 2 <= f)%nat →
  parse_members f d (join "," (print_member <$> m) +:+ String "}"%char rest)
  = Some ((λ kv, (utf8_sanitize kv.1, sanitize kv.2)) <$> m, rest).
Proof.
  revert f. induction m as [|[k x] m IH]; intros f Hne Hl Hi Hd Hf; [done|].
  apply Forall_cons_1 in Hl as [Hx Hl]. rewrite fmap_cons in Hd. cbn [foldr snd] in Hd.
  simpl in Hi, Hx. apply andb_prop in Hi as [Hix Hil].
  destruct f as [|f]; [lia|].
  assert (Hkey : ∀ t, parse_members (S f) d (print_member (k, x) +:+ t) =
    match parse_value f d (print x +:+ t) with
    | None => None
    | Some (v, r1) =>
        match skip_ws r1 with
        | EmptyString => None
        | String c' t2 =>
            if byte_val c' =? 125 then Some ([(utf8_sanitize k, v)], t2)
            else if byte_val c' =? 44 then
              match parse_members f d t2 with
              | Some (m, r2) => Some ((utf8_sanitize k, v) :: m, r2)
              | None => None
              end
            else None
        end
    end).
  { intros t. unfold print_member, quote, str1. simpl fst. simpl snd.
    rewrite !str_app_assoc, !str_app_cons, !str_app_nil_l, !str_app_assoc, !str_app_cons,
      !str_app_nil_l. cbn [parse_members].
    rewrite skip_ws_head by done. change (byte_val dquote =? 34) with true. cbv iota.
    rewrite parse_string_quote. done. }
  assert (Hlen : (String.length (print x) + 3 <= String.length (print_member (k, x)))%nat).
  { unfold print_member, quote, str1. simpl. rewrite !str_length_app. simpl. lia. }
  destruct m as [|y m].
  - change (join "," (print_member <$> [(k, x)])) with (print_member (k, x)) in Hf |- *.
    rewrite Hkey, Hx by (done || lia). done.
  - rewrite !fmap_cons, join_cons in Hf |- *. rewrite <- fmap_cons in Hf |- *.
    rewrite !str_length_app in Hf. simpl String.length in Hf at 2.
    rewrite !str_app_assoc, str_app_cons, str_app_nil_l, Hkey.
    rewrite Hx by (done || lia).
    change (skip_ws (String ","%char ?t)) with (String ","%char t). cbv beta iota.
    change (byte_val ","%char =? 125) with false.
    change (byte_val ","%char =? 44) with true. cbv iota.
    rewrite IH by (done || lia). done.
Qed.

Lemma reads_back_num lit : reads_back (JNum lit).
Proof.
  intros [|f] d rest Hi Hd Hr Hf; [lia|]. simpl in Hi.
  pose proof (scan_number_lit _ rest Hi Hr) as Hs.
  destruct (num_lit_head _ Hi) as (c & t & -> & Hc). simpl print. rewrite str_app_cons in Hs |- *.
  unfold is_digit in Hc. cbn [parse_value]. rewrite skip_ws_head by (unfold is_ws; lia).
  cbv zeta. rewrite Hs.
  repeat (rewrite (proj2 (Z.eqb_neq (byte_val c) _)) by lia). done.
Qed.

Lemma reads_back_str s : reads_back (JStr s).
Proof.
  intros [|f] d rest _ _ _ Hf; [lia|]. simpl print. unfold quote, str1.
  rewrite str_app_cons, str_app_assoc, str_app_cons, str_app_nil_l. cbn [parse_value].
  rewrite skip_ws_head by done. simpl. by rewrite parse_string_quote.
Qed.

(** The text after an opening bracket starts with the first printed item. *)
Lemma join_head x l c t :
  x = String c t → ∃ t', join "," (x :: l) = String c t'.
Proof.
  intros ->. destruct l; [by eexists|]. rewrite join_cons, str_app_cons. eauto.
Qed.

Lemma reads_back_arr l : Forall reads_back l → reads_back (JArr l).
Proof.
  intros IH [|f] d rest Hi Hd Hr Hf; [lia|]. cbn [num_json height] in Hi, Hd.
  cbn [print] in Hf |- *. rewrite !str_length_app in Hf.
  rewrite !str_app_assoc, !str_app_cons, !str_app_nil_l.
  cbn [parse_value]. rewrite skip_ws_head by done. simpl (_ =? _). cbv iota.
  pose proof (foldr_max_nonneg (height <$> l)).
  rewrite (proj2 (Z.ltb_ge _ _)) by lia.
  destruct l as [|x l]; [done|].
  destruct (print_head x) as (c & t & E & Hc); [by apply andb_prop in Hi as [? _]|].
  destruct (join_head _ (print <$> l) _ _ E) as [t' Et]. rewrite <- fmap_cons in Et.
  rewrite Et at 1. rewrite str_app_cons, skip_ws_head by by apply value_head_ws.
  unfold value_head in Hc. rewrite (proj2 (Z.eqb_neq _ _)) by lia.
  rewrite parse_elems_print; [done|done|done|done|lia|simpl in *; lia].
Qed.

Lemma reads_back_obj m : Forall (λ kv, reads_back kv.2) m → reads_back (JObj m).
Proof.
  intros IH [|f] d rest Hi Hd Hr Hf; [lia|]. cbn [num_json height] in Hi, Hd.
  cbn [print] in Hf |- *. fold print_member in Hf |- *. rewrite !str_length_app in Hf.
  rewrite !str_app_assoc, !str_app_cons, !str_app_nil_l.
  cbn [parse_value]. rewrite skip_ws_head by done. simpl (_ =? _). cbv iota.
  pose proof (foldr_max_nonneg ((λ kv, height kv.2) <$> m)).
  rewrite (proj2 (Z.ltb_ge _ _)) by lia.
  destruct m as [|[k x] m]; [done|].
  destruct (join_head (print_member (k, x)) (print_member <$> m) dquote
              (quote_body k +:+ str1 dquote +:+ ":" +:+ print x)) as [t' Et].
  { unfold print_member, quote. by rewrite str_app_cons, str_app_assoc. }
  rewrite <- fmap_cons in Et.
  rewrite Et at 1. rewrite str_app_cons, skip_ws_head by done. simpl (_ =? _). cbv iota.
  rewrite parse_members_print; [done|done|done|done|lia|simpl in *; lia].
Qed.

(** Every document reads back, in any context and with any fuel that
    covers its text. *)
Lemma print_reads_back j : reads_back j.
Proof.
  induction j as [|b|lit|s|l IH|m IH] using json_ind.
  - by intros [|f] d rest _ _ _ Hf; [lia|].
  - by intros [|f] d rest _ _ _ Hf; [lia|destruct b].
  - apply reads_back_num.
  - apply reads_back_str.
  - by apply reads_back_arr.
  - by apply reads_back_obj.
Qed.

(** Parsing what [print] wrote. *)
Lemma json_parse_print j :
  num_json j = true → height j <= maxNestingDepth → json_parse (print j) = Some (sanitize j).
Proof.
  intros Hi Hh. unfold json_parse.
  pose proof (print_reads_back j (json_fuel (print j)) 0 emp Hi) as H.
  rewrite str_app_nil_r in H. rewrite H; [done|lia|done|unfold json_fuel; lia].
Qed.
