(* ===== verification/ShardMap.v ===== *)
(** * The shard map document

    The contract between the operator and the router.  The operator writes a
    [shardMapDoc] with [json.Marshal]
    (src/internal/controller/llminferencecluster_controller.go), the router
    reads it with [ParseShardMapJSON] (src/internal/routing/shardmap.go).

    Decoding follows [encoding/json]: object keys match field names up to
    case folding, unknown keys are skipped, [null] leaves a scalar alone, a
    value of the wrong type makes the whole [Unmarshal] fail, and a repeated
    key decodes again into the same field, reusing the elements a slice
    already has. *)
From S2P Require Import Prelude Strconv Utf8 Json JsonFacts.
From stdpp Require Import options.

(** ** Decoding into Go values *)

(** [foldName]: ASCII letters to upper case; U+017F and U+212A fold to the
    ASCII letters S and K.  Every other rune outside ASCII folds to a rune
    outside ASCII, which no field name here contains, so it is kept. *)
Definition upper (c : Ascii.ascii) : Ascii.ascii :=
  let v := byte_val c in
  if (97 <=? v) && (v <=? 122) then byte_chr (v - 32) else c.

Definition fold_chunk (ch : chunk) : string :=
  match ch with
  | Ch1 c => str1 (upper c)
  | _ => if rune_of ch =? 0x17F then "S"
         else if rune_of ch =? 0x212A then "K"
         else chunk_bytes ch
  end.

Definition fold_name (s : string) : string := concat_str (fold_chunk <$> utf8_chunks s).

Definition key_is (name key : string) : bool := bool_decide (fold_name key = fold_name name).

(** The value [Unmarshal] stores, or [None] when it reports an error. *)
Definition decode_int (in_range : Z → bool) (cur : Z) (j : json) : option Z :=
  match j with
  | JNull => Some cur
  | JNum lit =>
      match ParseInt64 lit with
      | Some n => if in_range n then Some n else None
      | None => None
      end
  | _ => None
  end.

Definition decode_string (cur : string) (j : json) : option string :=
  match j with
  | JNull => Some cur
  | JStr s => Some s
  | _ => None
  end.

Fixpoint decode_fields {A : Type} (field : A → string → json → option A)
    (cur : A) (m : list (string * json)) : option A :=
  match m with
  | [] => Some cur
  | (k, v) :: m' =>
      match field cur k v with
      | Some cur' => decode_fields field cur' m'
      | None => None
      end
  end.

Definition decode_struct {A : Type} (field : A → string → json → option A)
    (cur : A) (j : json) : option A :=
  match j with
  | JNull => Some cur
  | JObj m => decode_fields field cur m
  | _ => None
  end.

(** A slice and the elements its backing array keeps beyond the length. *)
Record slice (A : Type) := mkSlice { backing : list A; slen : nat }.
Arguments mkSlice {A}.
Arguments backing {A}.
Arguments slen {A}.

Definition nil_slice {A : Type} : slice A := mkSlice [] 0.
Definition slice_elems {A : Type} (s : slice A) : list A := take (slen s) (backing s).

Fixpoint decode_elems {A : Type} (elem : A → json → option A) (zero : A)
    (back : list A) (l : list json) : option (list A) :=
  match l with
  | [] => Some back
  | j :: l' =>
      match elem (default zero (head back)) j with
      | None => None
      | Some x =>
          match decode_elems elem zero (tail back) l' with
          | Some xs => Some (x :: xs)
          | None => None
          end
      end
  end.

Definition decode_slice {A : Type} (elem : A → json → option A) (zero : A)
    (cur : slice A) (j : json) : option (slice A) :=
  match j with
  | JNull => Some nil_slice
  | JArr [] => Some nil_slice
  | JArr l =>
      match decode_elems elem zero (backing cur) l with
      | Some b => Some (mkSlice b (length l))
      | None => None
      end
  | _ => None
  end.

(** [json.Unmarshal(b, &v)] for a struct.  The text of the error is not
    modelled: no caller reads it. *)
Definition json_error : error := errors_New "json: cannot unmarshal".

Definition Unmarshal {A : Type} (field : A → string → json → option A) (zero : A)
    (b : string) : result A :=
  match json_parse b with
  | None => Err json_error
  | Some j => match decode_struct field zero j with
              | Some v => Ok v
              | None => Err json_error
              end
  end.

(** ** The router's side: src/internal/routing/shardmap.go *)
Record ShardAssignment := mkAssignment { ShardID : Z; Role : string; OwnerPod : string }.
Record ShardMap := mkShardMap { Version : Z; Shards : list ShardAssignment }.

Record raw_map := mkRaw { raw_Version : Z; raw_Shards : slice ShardAssignment }.

Definition assignment_field (a : ShardAssignment) (key : string) (v : json)
  : option ShardAssignment :=
  if key_is "shardID" key then
    (λ z, mkAssignment z (Role a) (OwnerPod a)) <$> decode_int is_int32 (ShardID a) v
  else if key_is "role" key then
    (λ s, mkAssignment (ShardID a) s (OwnerPod a)) <$> decode_string (Role a) v
  else if key_is "ownerPod" key then
    (λ s, mkAssignment (ShardID a) (Role a) s) <$> decode_string (OwnerPod a) v
  else Some a.

Definition zero_assignment : ShardAssignment := mkAssignment 0 emp emp.

Definition raw_field (r : raw_map) (key : string) (v : json) : option raw_map :=
  if key_is "version" key then
    (λ z, mkRaw z (raw_Shards r)) <$> decode_int is_int64 (raw_Version r) v
  else if key_is "shards" key then
    (λ l, mkRaw (raw_Version r) l) <$>
      decode_slice (decode_struct assignment_field) zero_assignment (raw_Shards r) v
  else Some r.

Definition ParseShardMapJSON (b : string) : result ShardMap :=
  if Z.of_nat (String.length b) =? 0 then Err (errors_New "empty shard map")
  else
    let? raw := Unmarshal raw_field (mkRaw 0 nil_slice) b in
    Ok (mkShardMap (raw_Version raw)
          ((λ s, mkAssignment (ShardID s) (Role s) (OwnerPod s)) <$>
             slice_elems (raw_Shards raw))).

(** ** The operator's side *)
Record shardMapEntry := mkEntry { e_ShardID : Z; e_Role : string; e_OwnerPod : string }.
Record shardMapDoc := mkDoc { d_Version : Z; d_Shards : list shardMapEntry }.

(** Struct fields in order; [ownerPod] has [omitempty]. *)
Definition entry_json (e : shardMapEntry) : json :=
  JObj ([("shardID", JNum (Itoa (e_ShardID e))); ("role", JStr (e_Role e))]
        ++ (if bool_decide (e_OwnerPod e = emp) then []
            else [("ownerPod", JStr (e_OwnerPod e))])).

Definition doc_json (d : shardMapDoc) : json :=
  JObj [("version", JNum (Itoa (d_Version d))); ("shards", JArr (entry_json <$> d_Shards d))].

(** [json.Marshal(doc)]: integers and strings always marshal. *)
Definition Marshal_doc (d : shardMapDoc) : result string := Ok (print (doc_json d)).

Example marshal_example :
  Marshal_doc (mkDoc 1 [mkEntry 0 "decode" "p0"; mkEntry 1 "decode" emp]) =
  Ok (String.concat (str1 dquote)
        ["{"; "version"; ":1,"; "shards"; ":[{"; "shardID"; ":0,"; "role"; ":"; "decode"; ",";
         "ownerPod"; ":"; "p0"; "},{"; "shardID"; ":1,"; "role"; ":"; "decode"; "}]}"]).
Proof. vm_compute. reflexivity. Qed.

(** ** The round trip *)
Definition entry_ok (e : shardMapEntry) : bool := is_int32 (e_ShardID e).
Definition doc_ok (d : shardMapDoc) : bool :=
  is_int64 (d_Version d) && forallb entry_ok (d_Shards d).

(** What the router reads for an entry: strings come back as valid UTF-8. *)
Definition read_entry (e : shardMapEntry) : ShardAssignment :=
  mkAssignment (e_ShardID e) (utf8_sanitize (e_Role e)) (utf8_sanitize (e_OwnerPod e)).
Definition read_doc (d : shardMapDoc) : ShardMap :=
  mkShardMap (d_Version d) (read_entry <$> d_Shards d).

Lemma num_json_doc d : num_json (doc_json d) = true.
Proof.
  unfold doc_json. simpl. rewrite num_lit_Itoa. simpl. rewrite andb_true_r.
  induction (d_Shards d) as [|e l IH]; simpl; [done|].
  rewrite num_lit_Itoa. simpl. by case_bool_decide.
Qed.

Lemma height_entry e : height (entry_json e) = 1.
Proof. unfold entry_json. simpl. by case_bool_decide. Qed.

Lemma height_doc d : height (doc_json d) <= 3.
Proof.
  unfold doc_json. cbn [height fmap list_fmap foldr snd].
  assert (foldr Z.max 0 (height <$> (entry_json <$> d_Shards d)) <= 1); [|lia].
  induction (d_Shards d) as [|e l IH]; [simpl; lia|].
  rewrite !fmap_cons. cbn [foldr]. rewrite height_entry. lia.
Qed.

Lemma decode_Itoa (in_range : Z → bool) cur n :
  is_int64 n = true → in_range n = true →
  decode_int in_range cur (JNum (Itoa n)) = Some n.
Proof. intros Hn Hr. simpl. by rewrite ParseInt64_Itoa, Hr. Qed.

(** How the keys that [Marshal] writes select fields. *)
Lemma assignment_keys a v :
  assignment_field a "shardID" v =
    (λ z, mkAssignment z (Role a) (OwnerPod a)) <$> decode_int is_int32 (ShardID a) v ∧
  assignment_field a "role" v =
    (λ s, mkAssignment (ShardID a) s (OwnerPod a)) <$> decode_string (Role a) v ∧
  assignment_field a "ownerPod" v =
    (λ s, mkAssignment (ShardID a) (Role a) s) <$> decode_string (OwnerPod a) v.
Proof. split_and!; reflexivity. Qed.

Lemma raw_keys r v :
  raw_field r "version" v =
    (λ z, mkRaw z (raw_Shards r)) <$> decode_int is_int64 (raw_Version r) v ∧
  raw_field r "shards" v =
    (λ l, mkRaw (raw_Version r) l) <$>
      decode_slice (decode_struct assignment_field) zero_assignment (raw_Shards r) v.
Proof. split; reflexivity. Qed.

Lemma decode_fields_cons {A} (field : A → string → json → option A) cur k v m x :
  field cur k v = Some x → decode_fields field cur ((k, v) :: m) = decode_fields field x m.
Proof. simpl. by intros ->. Qed.

Lemma sanitize_entry e :
  sanitize (entry_json e) =
  JObj ([("shardID", JNum (Itoa (e_ShardID e))); ("role", JStr (utf8_sanitize (e_Role e)))]
        ++ (if bool_decide (e_OwnerPod e = emp) then []
            else [("ownerPod", JStr (utf8_sanitize (e_OwnerPod e)))])).
Proof. unfold entry_json. by case_bool_decide. Qed.

Lemma decode_entry e :
  entry_ok e = true →
  decode_struct assignment_field zero_assignment (sanitize (entry_json e)) = Some (read_entry e).
Proof.
  intros He. rewrite sanitize_entry. unfold decode_struct, read_entry. simpl app.
  rewrite (decode_fields_cons _ _ _ _ _ (mkAssignment (e_ShardID e) emp emp)).
  2: { rewrite (proj1 (assignment_keys _ _)), decode_Itoa; [done|by auto with go|done]. }
  rewrite (decode_fields_cons _ _ _ _ _
             (mkAssignment (e_ShardID e) (utf8_sanitize (e_Role e)) emp)) by reflexivity.
  case_bool_decide as Ho; [by rewrite Ho|].
  by erewrite decode_fields_cons by reflexivity.
Qed.

Lemma decode_entries l :
  forallb entry_ok l = true →
  decode_elems (decode_struct assignment_field) zero_assignment []
    (sanitize <$> (entry_json <$> l)) = Some (read_entry <$> l).
Proof.
  induction l as [|e l IH]; [done|]. simpl forallb. intros [He Hl]%andb_prop.
  rewrite !fmap_cons. cbn [decode_elems head tail default].
  change (default zero_assignment None) with zero_assignment.
  by rewrite decode_entry, IH.
Qed.

Lemma decode_shards l :
  forallb entry_ok l = true →
  ∃ s, decode_slice (decode_struct assignment_field) zero_assignment nil_slice
         (JArr (sanitize <$> (entry_json <$> l))) = Some s ∧
       slice_elems s = read_entry <$> l.
Proof.
  intros Hl. destruct l as [|e l]; [by eexists|].
  pose proof (decode_entries (e :: l) Hl) as H.
  unfold decode_slice. rewrite !fmap_cons in H |- *.
  change (backing nil_slice) with (@nil ShardAssignment). rewrite H.
  eexists; split; [done|]. unfold slice_elems. cbn [slen backing].
  apply take_ge. simpl. by rewrite !length_fmap.
Qed.

Lemma Unmarshal_doc d :
  doc_ok d = true →
  ∃ raw, Unmarshal raw_field (mkRaw 0 nil_slice) (print (doc_json d)) = Ok raw ∧
         raw_Version raw = d_Version d ∧ slice_elems (raw_Shards raw) = read_entry <$> d_Shards d.
Proof.
  intros [Hv Hl]%andb_prop. destruct (decode_shards _ Hl) as (s & Hs & Es).
  unfold Unmarshal. rewrite json_parse_print;
    [|apply num_json_doc|pose proof (height_doc d); unfold maxNestingDepth; lia].
  change (sanitize (doc_json d)) with
    (JObj [("version", JNum (Itoa (d_Version d)));
           ("shards", JArr (sanitize <$> (entry_json <$> d_Shards d)))]).
  unfold decode_struct.
  rewrite (decode_fields_cons _ _ _ _ _ (mkRaw (d_Version d) nil_slice)).
  2: { by rewrite (proj1 (raw_keys _ _)), decode_Itoa. }
  rewrite (decode_fields_cons _ _ _ _ _ (mkRaw (d_Version d) s)).
  2: { rewrite (proj2 (raw_keys _ _)). cbn [raw_Shards]. by rewrite Hs. }
  by eexists.
Qed.

Lemma print_doc_nonempty d : (Z.of_nat (String.length (print (doc_json d))) =? 0) = false.
Proof. unfold doc_json. cbn [print]. rewrite str_app_cons. simpl String.length. apply Z.eqb_neq. lia. Qed.

Lemma shardmap_roundtrip_aux d :
  doc_ok d = true → (let? b := Marshal_doc d in ParseShardMapJSON b) = Ok (read_doc d).
Proof.
  intros Hd. cbn [rbind Marshal_doc]. unfold ParseShardMapJSON.
  rewrite print_doc_nonempty. destruct (Unmarshal_doc d Hd) as (raw & -> & Ev & Es).
  simpl. rewrite Ev, Es. unfold read_doc. f_equal. f_equal.
  rewrite <- (list_fmap_id (read_entry <$> d_Shards d)) at 2.
  apply list_fmap_ext. by intros ? [].
Qed.

Lemma Marshal_doc_reads_back d :
  doc_ok d = true →
  ∃ b, Marshal_doc d = Ok b ∧ ParseShardMapJSON b = Ok (read_doc d).
Proof. intros Hd. eexists. split; [reflexivity|]. exact (shardmap_roundtrip_aux d Hd). Qed.

(** C10: the router reads what the operator published.  For a document whose
    version is an int64 and whose shard identifiers are int32 values,
    [ParseShardMapJSON] applied to [json.Marshal] of the document returns the
    same version and, in order, the same shards; role and pod names come back
    byte for byte when they are valid UTF-8, and with U+FFFD for each invalid
    byte otherwise. *)
Theorem shardmap_roundtrip (d : shardMapDoc) :
  doc_ok d = true →
  (let? b := Marshal_doc d in ParseShardMapJSON b) = Ok (read_doc d).
Proof. apply shardmap_roundtrip_aux. Qed.

Lemma shardmap_roundtrip_witness :
  (let? b := Marshal_doc (mkDoc 1 [mkEntry 0 "decode" "pod-0"; mkEntry 1 "decode" emp]) in
   ParseShardMapJSON b)
  = Ok (mkShardMap 1 [mkAssignment 0 "decode" "pod-0"; mkAssignment 1 "decode" emp]).
Proof.
  apply (shardmap_roundtrip (mkDoc 1 [mkEntry 0 "decode" "pod-0"; mkEntry 1 "decode" emp])).
  vm_compute. reflexivity.
Defined.

(** ** Any document *)
Section Invariant.
Context {A : Type} (P : A → Prop).

Lemma decode_fields_inv (field : A → string → json → option A) cur m x :
  (∀ a k v a', P a → field a k v = Some a' → P a') →
  P cur → decode_fields field cur m = Some x → P x.
Proof.
  intros Hf. revert cur. induction m as [|[k v] m IH]; intros cur Hc; simpl; [by intros [= <-]|].
  destruct (field cur k v) as [a|] eqn:E; [|done]. apply IH. by eapply Hf.
Qed.

Lemma decode_struct_inv (field : A → string → json → option A) cur j x :
  (∀ a k v a', P a → field a k v = Some a' → P a') →
  P cur → decode_struct field cur j = Some x → P x.
Proof.
  intros Hf Hc. destruct j; simpl; try done; [by intros [= <-]|]. by apply decode_fields_inv.
Qed.

Lemma decode_elems_inv (elem : A → json → option A) zero back l xs :
  (∀ a j a', P a → elem a j = Some a' → P a') →
  P zero → Forall P back → decode_elems elem zero back l = Some xs → Forall P xs.
Proof.
  intros He Hz. revert back xs. induction l as [|j l IH]; intros back xs Hb; simpl; [by intros [= <-]|].
  destruct (elem _ j) as [x|] eqn:E; [|done].
  destruct (decode_elems _ _ _ l) as [ys|] eqn:El; [|done]. intros [= <-]. constructor.
  - eapply He; [|done]. by destruct Hb.
  - eapply IH; [|done]. by destruct Hb.
Qed.

Lemma decode_slice_inv (elem : A → json → option A) zero cur j s :
  (∀ a j a', P a → elem a j = Some a' → P a') →
  P zero → Forall P (backing cur) → decode_slice elem zero cur j = Some s → Forall P (backing s).
Proof.
  intros He Hz Hb. destruct j as [| | | |[|j l]|]; try done; [by intros [= <-]..|].
  unfold decode_slice. destruct (decode_elems _ _ _ _) as [b|] eqn:E; [|done].
  intros [= <-]. by eapply decode_elems_inv.
Qed.
End Invariant.

Definition id_typed (a : ShardAssignment) : Prop := is_int32 (ShardID a) = true.

Lemma decode_int_range rng cur j z :
  rng cur = true → decode_int rng cur j = Some z → rng z = true.
Proof. intros Hc. destruct j; simpl; try done; [by intros [= <-]|]. repeat case_match; naive_solver. Qed.

Lemma assignment_field_typed a k v a' :
  id_typed a → assignment_field a k v = Some a' → id_typed a'.
Proof.
  intros Ha. unfold assignment_field. repeat case_match; try done.
  - intros (z & Hz & ->)%fmap_Some. by eapply (decode_int_range is_int32).
  - intros (z & Hz & ->)%fmap_Some. done.
  - intros (z & Hz & ->)%fmap_Some. done.
  - by intros [= <-].
Qed.

Lemma raw_field_typed r k v r' :
  Forall id_typed (backing (raw_Shards r)) → raw_field r k v = Some r' →
  Forall id_typed (backing (raw_Shards r')).
Proof.
  intros Hr. unfold raw_field. repeat case_match; try done.
  - by intros (z & _ & ->)%fmap_Some.
  - intros (l & Hl & ->)%fmap_Some. eapply (decode_slice_inv id_typed _ zero_assignment); [|reflexivity|exact Hr|exact Hl].
    intros a j a' Ha. eapply (decode_struct_inv id_typed); [|done]. apply assignment_field_typed.
  - by intros [= <-].
Qed.

Lemma ParseShardMapJSON_typed b m : ParseShardMapJSON b = Ok m → Forall id_typed (Shards m).
Proof.
  unfold ParseShardMapJSON. case_match; [done|]. intros (raw & Hraw & [= <-])%rbind_ok. simpl.
  apply Forall_fmap. unfold Unmarshal in Hraw. destruct (json_parse b) as [j|]; [|done].
  destruct (decode_struct _ _ j) as [v|] eqn:E; [|done]. injection Hraw as <-.
  eapply Forall_take. eapply (decode_struct_inv (λ r, Forall id_typed (backing (raw_Shards r))));
    [apply raw_field_typed| |exact E]; apply Forall_nil_2.
Qed.

(** [ParseShardMapJSON] is safe on any bytes that end up in the
    ConfigMap: it never panics, refuses the empty document, and whatever it
    accepts has shard identifiers in the range of int32. *)
Lemma parse_is_safe (b : string) :
  panics (ParseShardMapJSON b) = false ∧
  is_ok (ParseShardMapJSON emp) = false ∧
  ∀ m, ParseShardMapJSON b = Ok m → Forall id_typed (Shards m).
Proof.
  split_and!; [|done|apply ParseShardMapJSON_typed].
  unfold ParseShardMapJSON, Unmarshal. by repeat case_match.
Qed.
