(* ===== verification/Float64.v ===== *)
(** * float64 and strconv.ParseFloat

    Signals are IEEE 754 binary64 values: the specification floats of the
    standard library at precision 53 and exponent bound 1024, compared as Go
    compares [float64].  [ParseFloat] is [strconv.ParseFloat(s, 64)]: the
    accepted syntax (decimal and hexadecimal literals, underscores between
    digits, infinities and NaN), rounding to nearest even, and the range
    error on overflow. *)
From S2P Require Import Prelude Strconv.
From Stdlib Require Import SpecFloat.
From stdpp Require Import options.

Abbreviation float64 := spec_float.
Definition prec64 : Z := 53.
Definition emax64 : Z := 1024.

Definition f64_of_Z (z : Z) : float64 := binary_normalize prec64 emax64 z 0 false.
Definition f64_zero : float64 := S754_zero false.

(** [x < y] and [x > y]; false when an operand is NaN. *)
Definition f64_lt (x y : float64) : bool := SFltb x y.
Definition f64_gt (x y : float64) : bool := SFltb y x.

(** ** ParseFloat *)
Inductive parse_result :=
| PF_ok (f : float64)
| PF_syntax
| PF_range.

Definition lower (v : Z) : Z := Z.lor v 32.
Definition is_sign (c : Ascii.ascii) : bool := (byte_val c =? 43) || (byte_val c =? 45).

(** Split off an optional sign: is it a minus, and the rest. *)
Definition split_sign (s : string) : bool * string :=
  match s with
  | String c s' => if is_sign c then (byte_val c =? 45, s') else (false, s)
  | EmptyString => (false, emp)
  end.

Fixpoint lower_string (s : string) : string :=
  match s with
  | EmptyString => emp
  | String c s' =>
      let v := byte_val c in
      String (if (65 <=? v) && (v <=? 90) then byte_chr (v + 32) else c) (lower_string s')
  end.

(** [special]: [inf], [infinity] with an optional sign, and [nan]. *)
Definition special (s : string) : option float64 :=
  let '(neg, t) := split_sign s in
  let l := lower_string t in
  if bool_decide (l = "inf") || bool_decide (l = "infinity") then Some (S754_infinity neg)
  else if bool_decide (lower_string s = "nan") then Some S754_nan
  else None.

Definition base_digit (hex : bool) (c : Ascii.ascii) : option Z :=
  let v := byte_val c in
  if (48 <=? v) && (v <=? 57) then Some (v - 48)
  else if hex && (97 <=? lower v) && (lower v <=? 102) then Some (lower v - 87)
  else None.

(** The state of the digit loop of [readFloat]: the digits read so far as one
    integer, how many of them follow the point, and the flags. *)
Record mantissa := mkMant {
  mant : Z; nfrac : Z; sawdot : bool; sawdigits : bool; underscores : bool }.

Fixpoint read_digits (hex : bool) (m : mantissa) (s : string) : mantissa * string :=
  match s with
  | EmptyString => (m, emp)
  | String c s' =>
      if byte_val c =? 95 then
        read_digits hex (mkMant (mant m) (nfrac m) (sawdot m) (sawdigits m) true) s'
      else if byte_val c =? 46 then
        if sawdot m then (m, s)
        else read_digits hex (mkMant (mant m) (nfrac m) true (sawdigits m) (underscores m)) s'
      else
        match base_digit hex c with
        | Some d =>
            read_digits hex
              (mkMant (mant m * (if hex then 16 else 10) + d)
                 (if sawdot m then nfrac m + 1 else nfrac m)
                 (sawdot m) true (underscores m)) s'
        | None => (m, s)
        end
  end.

(** The exponent digits; the accumulator stops growing at 10000. *)
Fixpoint read_exp (e : Z) (us : bool) (s : string) : Z * bool * string :=
  match s with
  | EmptyString => (e, us, emp)
  | String c s' =>
      if byte_val c =? 95 then read_exp e true s'
      else if is_digit c then
        read_exp (if e <? 10000 then e * 10 + (byte_val c - 48) else e) us s'
      else (e, us, s)
  end.

(** [underscoreOK]: underscores only between digits, or between the base
    prefix and a digit. *)
Inductive seen := SeenStart | SeenDigit | SeenUnderscore | SeenOther.

Definition is_us (x : seen) : bool := match x with SeenUnderscore => true | _ => false end.
Definition is_dig (x : seen) : bool := match x with SeenDigit => true | _ => false end.

Fixpoint underscore_loop (hex : bool) (saw : seen) (s : string) : bool :=
  match s with
  | EmptyString => negb (is_us saw)
  | String c s' =>
      if bool_decide (is_Some (base_digit hex c)) then underscore_loop hex SeenDigit s'
      else if byte_val c =? 95 then
        if is_dig saw then underscore_loop hex SeenUnderscore s' else false
      else if is_us saw then false
      else underscore_loop hex SeenOther s'
  end.

Definition underscoreOK (s : string) : bool :=
  let '(_, t) := split_sign s in
  match t with
  | String z (String x t') =>
      if (byte_val z =? 48) &&
         ((lower (byte_val x) =? 98) || (lower (byte_val x) =? 111) || (lower (byte_val x) =? 120))
      then underscore_loop (lower (byte_val x) =? 120) SeenDigit t'
      else underscore_loop false SeenStart t
  | _ => underscore_loop false SeenStart t
  end.

(** ** Rounding to binary64 *)
Definition sign_zero (neg : bool) : float64 := S754_zero neg.

(** The number of decimal digits of a positive integer. *)
Definition num_digits (m : Z) : Z := Z.of_nat (String.length (udec m)).

(** The binary64 value nearest to [m * 10^e]; [floatBits] answers directly
    when the decimal point is beyond the exponent range. *)
Definition round_decimal (neg : bool) (m e : Z) : float64 :=
  match m with
  | Zpos p =>
      let dp := num_digits m + e in
      if 310 <? dp then S754_infinity neg
      else if dp <? -330 then sign_zero neg
      else if 0 <=? e then binary_round prec64 emax64 neg (Z.to_pos (m * 10 ^ e)) 0
      else SFdiv prec64 emax64 (S754_finite neg p 0) (S754_finite false (Z.to_pos (10 ^ (- e))) 0)
  | _ => sign_zero neg
  end.

(** The binary64 value nearest to [m * 2^e]. *)
Definition round_hex (neg : bool) (m e : Z) : float64 :=
  match m with
  | Zpos p => binary_round prec64 emax64 neg p e
  | _ => sign_zero neg
  end.

Definition check_range (f : float64) : parse_result :=
  match f with S754_infinity _ => PF_range | _ => PF_ok f end.

Definition strip_hex (s : string) : option string :=
  match s with
  | String z (String x (String c t)) =>
      if (byte_val z =? 48) && (lower (byte_val x) =? 120) then Some (String c t) else None
  | _ => None
  end.

(** The optional exponent: its value and whether it holds underscores, or
    [None] for a syntax error.  The whole string must be consumed. *)
Definition read_exponent (hex : bool) (s : string) : option (Z * bool) :=
  match s with
  | EmptyString => if hex then None else Some (0, false)
  | String c s' =>
      if lower (byte_val c) =? (if hex then 112 else 101) then
        let '(neg, t) := split_sign s' in
        match t with
        | EmptyString => None
        | String d _ =>
            if is_digit d then
              let '(e, us, r) := read_exp 0 false t in
              match r with
              | EmptyString => Some ((if neg then - e else e), us)
              | String _ _ => None
              end
            else None
        end
      else None
  end.

Definition ParseFloat (s : string) : parse_result :=
  match special s with
  | Some f => PF_ok f
  | None =>
      let '(neg, t) := split_sign s in
      let '(hex, body) := match strip_hex t with Some b => (true, b) | None => (false, t) end in
      let '(m, r) := read_digits hex (mkMant 0 0 false false false) body in
      if sawdigits m then
        match read_exponent hex r with
        | None => PF_syntax
        | Some (e, us) =>
            if (underscores m || us) && negb (underscoreOK s) then PF_syntax
            else check_range
                   (if hex then round_hex neg (mant m) (e - 4 * nfrac m)
                    else round_decimal neg (mant m) (e - nfrac m))
        end
      else PF_syntax
  end.

Example pf_int : ParseFloat "250" = PF_ok (f64_of_Z 250).
Proof. vm_compute. reflexivity. Qed.
Example pf_frac : ParseFloat "0.1" = PF_ok (S754_finite false 7205759403792794 (-56)).
Proof. vm_compute. reflexivity. Qed.
Example pf_exp : ParseFloat "1.5e2" = PF_ok (f64_of_Z 150).
Proof. vm_compute. reflexivity. Qed.
Example pf_hex : ParseFloat "0x1.8p+1" = PF_ok (f64_of_Z 3).
Proof. vm_compute. reflexivity. Qed.
Example pf_underscore : ParseFloat "1_000" = PF_ok (f64_of_Z 1000).
Proof. vm_compute. reflexivity. Qed.
Example pf_bad_underscore : ParseFloat "1__0" = PF_syntax.
Proof. vm_compute. reflexivity. Qed.
Example pf_inf : ParseFloat "-Inf" = PF_ok (S754_infinity true).
Proof. vm_compute. reflexivity. Qed.
Example pf_overflow : ParseFloat "1e400" = PF_range.
Proof. vm_compute. reflexivity. Qed.
Example pf_space : ParseFloat " 12" = PF_syntax.
Proof. vm_compute. reflexivity. Qed.
Example pf_subnormal : ParseFloat "4.9e-324" = PF_ok (S754_finite false 1 (-1074)).
Proof. vm_compute. reflexivity. Qed.

(** ** Integers below 2^53 are represented exactly *)
Lemma digits2_bounds p :
  2 ^ (Zpos (digits2_pos p) - 1) <= Zpos p < 2 ^ Zpos (digits2_pos p).
Proof.
  induction p as [p IH|p IH|]; simpl digits2_pos; [..|done];
    rewrite Pos2Z.inj_succ; set (d := Zpos (digits2_pos p)) in *;
    replace (Z.succ d - 1) with (d - 1 + 1) by lia; unfold Z.succ;
    rewrite !Z.pow_add_r by lia; lia.
Qed.

Lemma digits2_iter_xO p k : digits2_pos (Pos.iter xO p k) = (digits2_pos p + k)%positive.
Proof.
  induction k as [|k IH] using Pos.peano_ind; [simpl; lia|].
  rewrite Pos.iter_succ. simpl. rewrite IH. lia.
Qed.

Lemma iter_xO_val p k : Zpos (Pos.iter xO p k) = Zpos p * 2 ^ Zpos k.
Proof.
  induction k as [|k IH] using Pos.peano_ind; [simpl; lia|].
  rewrite Pos.iter_succ, Pos2Z.inj_succ, Z.pow_succ_r, Pos2Z.inj_xO, IH by lia. lia.
Qed.

(** A mantissa of exactly 53 bits with an exponent in range rounds to itself. *)
Lemma binary_round_aux_exact m e :
  digits2_pos m = 53%positive → -1074 <= e <= 971 →
  binary_round_aux prec64 emax64 false (Zpos m) e loc_Exact = S754_finite false m e.
Proof.
  intros Hd He.
  assert (Hs : shr_fexp prec64 emax64 (Zpos m) e loc_Exact
               = (Build_shr_record (Zpos m) false false, e)).
  { unfold shr_fexp, fexp, emin, prec64, emax64. simpl Zdigits2. rewrite Hd.
    replace (Z.max _ _ - e) with 0 by lia. done. }
  unfold binary_round_aux. rewrite Hs. simpl. rewrite Hs. simpl.
  unfold emax64, prec64. destruct (Z.leb_spec e (1024 - 53)); [done|lia].
Qed.

Lemma f64_of_pos p :
  Zpos p < 2 ^ 53 →
  ∃ m, f64_of_Z (Zpos p) = S754_finite false m (Zpos (digits2_pos p) - 53) ∧
       Zpos m = Zpos p * 2 ^ (53 - Zpos (digits2_pos p)).
Proof.
  intros Hp. pose proof (digits2_bounds p) as [Hlo Hhi].
  assert (Hd : Zpos (digits2_pos p) <= 53).
  { apply Z.lt_succ_r, Z.nle_gt. intros Hge. simpl in Hge.
    pose proof (Z.pow_le_mono_r 2 53 (Zpos (digits2_pos p) - 1)). lia. }
  unfold f64_of_Z, binary_normalize, binary_round.
  replace (fexp prec64 emax64 (Zpos (digits2_pos p) + 0)) with (Zpos (digits2_pos p) - 53)
    by (unfold fexp, emin, prec64, emax64; lia).
  unfold shl_align. rewrite Z.sub_0_r.
  destruct (Z.pos (digits2_pos p) - 53) as [|k|k] eqn:E; [|lia|].
  - rewrite binary_round_aux_exact by lia. exists p. split; [done|].
    replace (53 - _) with 0 by lia. lia.
  - rewrite binary_round_aux_exact by (rewrite ?digits2_iter_xO; lia).
    eexists. split; [done|]. rewrite iter_xO_val. do 2 f_equal. lia.
Qed.

(** Exact integers compare as integers. *)
Lemma f64_compare_pos p q :
  Zpos p < 2 ^ 53 → Zpos q < 2 ^ 53 →
  SFcompare (f64_of_Z (Zpos p)) (f64_of_Z (Zpos q)) = Some (Zpos p ?= Zpos q).
Proof.
  intros Hp Hq. destruct (f64_of_pos p Hp) as (m & -> & Em).
  destruct (f64_of_pos q Hq) as (n & -> & En). cbn [SFcompare]. f_equal.
  pose proof (digits2_bounds p) as [Hlp Hhp]. pose proof (digits2_bounds q) as [Hlq Hhq].
  set (a := Zpos (digits2_pos p)) in *. set (b := Zpos (digits2_pos q)) in *.
  destruct (Z.compare_spec (a - 53) (b - 53)) as [E|L|G].
  - assert (a = b) as Eab by lia. rewrite Eab in Em.
    change (Pos.compare_cont Eq m n) with (Zpos m ?= Zpos n).
    rewrite Em, En, <- Zmult_compare_compat_r; [done|].
    apply Z.lt_gt, Z.pow_pos_nonneg; [lia|].
    destruct (Z.le_gt_cases 0 (53 - b)); [done|]. rewrite Z.pow_neg_r in En by lia. lia.
  - symmetry. apply Z.compare_lt_iff.
    pose proof (Z.pow_le_mono_r 2 a (b - 1)). lia.
  - symmetry. apply Z.compare_gt_iff.
    pose proof (Z.pow_le_mono_r 2 b (a - 1)). lia.
Qed.

Lemma f64_lt_int n k :
  0 <= n < 2 ^ 53 → 0 < k < 2 ^ 53 → f64_lt (f64_of_Z n) (f64_of_Z k) = (n <? k).
Proof.
  intros Hn Hk. destruct k as [|k|k]; try lia. unfold f64_lt, SFltb, Z.ltb.
  destruct n as [|n|n]; [|rewrite f64_compare_pos by lia; by destruct (_ ?= _)|lia].
  destruct (f64_of_pos k) as (m & -> & _); [lia|]. done.
Qed.

Lemma f64_gt_int n k :
  0 <= n < 2 ^ 53 → 0 < k < 2 ^ 53 → f64_gt (f64_of_Z n) (f64_of_Z k) = (k <? n).
Proof.
  intros Hn Hk. destruct k as [|k|k]; try lia. unfold f64_gt, SFltb, Z.ltb.
  destruct n as [|n|n]; [|rewrite f64_compare_pos by lia; by destruct (_ ?= _)|lia].
  destruct (f64_of_pos k) as (m & -> & _); [lia|]. done.
Qed.

(** ** Reading a printed integer *)
Lemma base_digit_dec c : is_digit c = true → base_digit false c = Some (byte_val c - 48).
Proof. unfold is_digit, base_digit. intros H. by rewrite H. Qed.

Lemma read_digits_dec s v m :
  all_digits s = true → sawdot m = false → parse_digits (mant m) s = Some v →
  read_digits false m s =
    (mkMant v (nfrac m) false (sawdigits m || negb (bool_decide (s = emp))) (underscores m), emp).
Proof.
  revert m. induction s as [|c s IH]; intros m Hs Hdot Hp.
  - simpl in *. simplify_eq. destruct m; simpl in *. subst. by rewrite orb_false_r.
  - simpl in Hs. apply andb_prop in Hs as [Hc Hs]. simpl in Hp. rewrite Hc in Hp.
    cbn [read_digits]. pose proof Hc as Hc'. unfold is_digit in Hc'.
    rewrite (proj2 (Z.eqb_neq _ 95)), (proj2 (Z.eqb_neq _ 46)) by lia.
    rewrite base_digit_dec, Hdot by done. rewrite IH by done. simpl.
    by rewrite orb_true_r.
Qed.

Lemma dec_go_length f n acc :
  (String.length (dec_go f n acc) <= f + String.length acc)%nat.
Proof.
  revert n acc. induction f as [|f IH]; intros n acc; simpl; [lia|].
  case_match; simpl; [lia|]. etrans; [apply IH|]. simpl. lia.
Qed.

Lemma num_digits_bound n : 0 <= n < 2 ^ 53 → 0 <= num_digits n <= 54.
Proof.
  intros Hn. unfold num_digits, udec.
  pose proof (dec_go_length (S (Z.to_nat (Z.log2 n))) n emp) as Hl. simpl String.length in Hl at 2.
  assert (Z.log2 n < 54).
  { destruct (Z.eq_dec n 0) as [->|]; [done|]. apply Z.log2_lt_pow2; [lia|].
    pose proof (Z.pow_lt_mono_r 2 53 54). lia. }
  pose proof (Z.log2_nonneg n). lia.
Qed.

Lemma digit_head_not_special c s : is_digit c = true → special (String c s) = None.
Proof.
  unfold is_digit. intros Hc. unfold special, split_sign, is_sign.
  rewrite (proj2 (Z.eqb_neq _ 43)), (proj2 (Z.eqb_neq _ 45)) by lia. cbn [orb lower_string].
  rewrite (proj2 (andb_false_iff _ _)) by lia.
  assert (Hne : ∀ y s' t, (48 <=? byte_val y) && (byte_val y <=? 57) = false →
             bool_decide (String c s' = String y t) = false).
  { intros y s' t Hy. apply bool_decide_eq_false_2. intros ?. simplify_eq. by rewrite Hc in Hy. }
  by rewrite !Hne.
Qed.

Lemma strip_hex_digits s : all_digits s = true → strip_hex s = None.
Proof.
  destruct s as [|z [|x [|c t]]]; try done. simpl.
  intros (_ & [Hx _]%andb_prop)%andb_prop. unfold is_digit in Hx.
  assert (lower (byte_val x) ≠ 120).
  { generalize dependent (byte_val x). intros v Hv E.
    assert (v = 48 ∨ v = 49 ∨ v = 50 ∨ v = 51 ∨ v = 52 ∨ v = 53 ∨ v = 54 ∨ v = 55 ∨ v = 56 ∨ v = 57)
      as Hc by lia.
    destruct_or! Hc; subst v; vm_compute in E; discriminate E. }
  rewrite (proj2 (Z.eqb_neq _ 120)), andb_false_r by done. done.
Qed.

Lemma ParseFloat_Itoa n : 0 <= n < 2 ^ 53 → ParseFloat (Itoa n) = PF_ok (f64_of_Z n).
Proof.
  intros Hn. unfold Itoa. rewrite (proj2 (Z.ltb_ge n 0)) by lia.
  pose proof (canonical_nat_digits _ (udec_canonical n ltac:(lia))) as Hd.
  pose proof (udec_parse n ltac:(lia)) as Hp. pose proof (udec_nonempty n ltac:(lia)) as Hne.
  pose proof (num_digits_bound n Hn) as Hnd.
  unfold num_digits in Hnd. destruct (udec n) as [|c s] eqn:E; [done|].
  assert (is_digit c = true) as Hc by (simpl in Hd; by apply andb_prop in Hd as [? _]).
  unfold ParseFloat. rewrite digit_head_not_special by done.
  replace (split_sign (String c s)) with (false, String c s).
  2: { unfold split_sign, is_sign. unfold is_digit in Hc.
       by rewrite (proj2 (Z.eqb_neq _ 43)), (proj2 (Z.eqb_neq _ 45)) by lia. }
  rewrite strip_hex_digits by done.
  rewrite (read_digits_dec _ n) by done. rewrite bool_decide_eq_false_2 by done. simpl.
  destruct n as [|n|n]; [done| |lia]. unfold round_decimal, num_digits. rewrite E.
  rewrite Z.add_0_r, (proj2 (Z.ltb_ge 310 _)), (proj2 (Z.ltb_ge _ (-330))) by lia. simpl.
  rewrite Pos.mul_1_r. change (binary_round _ _ _ _ _) with (f64_of_Z (Zpos n)).
  by destruct (f64_of_pos n) as (m & -> & _); [lia|].
Qed.
