(* ===== verification/Types.v ===== *)
(** * The LLMInferenceCluster API

    src/api/v1alpha1/llminferencecluster_types.go: the custom resource that
    the operator reconciles.  A Go pointer field is an [option] (nil is
    [None]), an enumeration is its string type, int32 and int64 fields are
    [Z], and a map is a [gmap].  [metav1.ObjectMeta] and [metav1.Condition]
    keep the fields that the operator reads or writes; [om_other] stands for
    the rest, which it never touches. *)
From S2P Require Import Prelude.
From stdpp Require Import options.

(** ** Kubernetes metadata *)
Abbreviation Time := Z (only parsing).

Record OwnerReference := mkOwnerRef {
  or_APIVersion : string; or_Kind : string; or_Name : string; or_UID : string; or_Controller : bool }.

Record ObjectMeta := mkMeta {
  om_Name : string;
  om_Namespace : string;
  om_UID : string;
  om_Labels : gmap string string;
  om_Generation : Z;
  om_DeletionTimestamp : option Time;
  om_Finalizers : list string;
  om_OwnerReferences : list OwnerReference;
  om_other : list (string * string) }.

Inductive ConditionStatus := ConditionTrue | ConditionFalse | ConditionUnknown.

#[export] Instance ConditionStatus_eq_dec : EqDecision ConditionStatus.
Proof. solve_decision. Defined.

Record Condition := mkCondition {
  cond_Type : string;
  cond_Status : ConditionStatus;
  cond_ObservedGeneration : Z;
  cond_LastTransitionTime : Time;
  cond_Reason : string;
  cond_Message : string }.

(** ** Spec *)
Definition EvictionPolicyLRU : string := "lru".
Definition EvictionPolicyTTL : string := "ttl".
Definition EvictionPolicyAttentionAwareStub : string := "attentionAwareStub".
Definition WarmCacheNone : string := "none".
Definition WarmCacheMemory : string := "memory".
Definition WarmCacheDiskStub : string := "diskStub".
Definition KVCacheStrategySharded : string := "sharded".
Definition RoutingModeSessionAffinity : string := "sessionAffinity".
Definition SignalsSourceFake : string := "fake".
Definition SignalsSourcePrometheus : string := "prometheus".
Definition ShardPhasePending : string := "Pending".
Definition ShardPhaseReady : string := "Ready".
Definition ShardPhaseDegraded : string := "Degraded".

Record EnvVar := mkEnvVar { env_Name : string; env_Value : string }.

Record ModelSpec := mkModelSpec {
  model_Name : string;
  model_Image : string;
  model_Args : list string;
  model_Env : list EnvVar }.

Record WorkloadRoleSpec := mkWorkloadRoleSpec {
  role_Replicas : option Z;
  role_ServicePort : option Z;
  role_PodLabels : gmap string string }.

Record RuntimeSpec := mkRuntimeSpec {
  rt_Prefill : WorkloadRoleSpec;
  rt_Decode : WorkloadRoleSpec }.

Record KVCacheSpec := mkKVCacheSpec {
  kv_Strategy : string;
  kv_NumShards : option Z;
  kv_EvictionPolicy : string;
  kv_WarmCache : string }.

Record RoutingSpec := mkRoutingSpec {
  routing_Mode : string;
  routing_HashKey : option string;
  routing_RouterReplicas : option Z }.

Record AutoscalingSignalsSpec := mkSignalsSpec {
  sig_Source : string;
  sig_PrometheusURL : option string }.

Record AutoscalingSpec := mkAutoscalingSpec {
  as_Enabled : option bool;
  as_MinReplicas : option Z;
  as_MaxReplicas : option Z;
  as_Signals : AutoscalingSignalsSpec }.

Record LLMInferenceClusterSpec := mkSpec {
  spec_Model : ModelSpec;
  spec_Runtime : RuntimeSpec;
  spec_KVCache : KVCacheSpec;
  spec_Routing : RoutingSpec;
  spec_Autoscaling : AutoscalingSpec }.

(** ** Status *)
Record ShardStatus := mkShardStatus {
  ss_ShardID : Z;
  ss_Role : string;
  ss_OwnerPod : string;
  ss_Phase : string;
  ss_LastHeartbeat : Time }.

Record ClusterEndpointsStatus := mkEndpoints {
  ep_RouterURL : string;
  ep_DecodeService : string;
  ep_PrefillService : string }.

Record LLMInferenceClusterStatus := mkStatus {
  st_ObservedGeneration : Z;
  st_Endpoints : ClusterEndpointsStatus;
  st_Shards : list ShardStatus;
  st_Conditions : list Condition }.

Record LLMInferenceCluster := mkCluster {
  lic_Meta : ObjectMeta;
  lic_Spec : LLMInferenceClusterSpec;
  lic_Status : LLMInferenceClusterStatus }.

(** ** Field updates *)
Definition set_labels (l : gmap string string) (m : ObjectMeta) : ObjectMeta :=
  mkMeta (om_Name m) (om_Namespace m) (om_UID m) l (om_Generation m) (om_DeletionTimestamp m)
    (om_Finalizers m) (om_OwnerReferences m) (om_other m).

Definition set_finalizers (f : list string) (m : ObjectMeta) : ObjectMeta :=
  mkMeta (om_Name m) (om_Namespace m) (om_UID m) (om_Labels m) (om_Generation m)
    (om_DeletionTimestamp m) f (om_OwnerReferences m) (om_other m).

Definition set_owners (o : list OwnerReference) (m : ObjectMeta) : ObjectMeta :=
  mkMeta (om_Name m) (om_Namespace m) (om_UID m) (om_Labels m) (om_Generation m)
    (om_DeletionTimestamp m) (om_Finalizers m) o (om_other m).

Definition with_meta (f : ObjectMeta → ObjectMeta) (c : LLMInferenceCluster) : LLMInferenceCluster :=
  mkCluster (f (lic_Meta c)) (lic_Spec c) (lic_Status c).
Definition with_spec (s : LLMInferenceClusterSpec) (c : LLMInferenceCluster) : LLMInferenceCluster :=
  mkCluster (lic_Meta c) s (lic_Status c).
Definition with_status (s : LLMInferenceClusterStatus) (c : LLMInferenceCluster)
  : LLMInferenceCluster := mkCluster (lic_Meta c) (lic_Spec c) s.

Definition set_conditions (l : list Condition) (c : LLMInferenceCluster) : LLMInferenceCluster :=
  let s := lic_Status c in
  with_status (mkStatus (st_ObservedGeneration s) (st_Endpoints s) (st_Shards s) l) c.
Definition set_shards (l : list ShardStatus) (c : LLMInferenceCluster) : LLMInferenceCluster :=
  let s := lic_Status c in
  with_status (mkStatus (st_ObservedGeneration s) (st_Endpoints s) l (st_Conditions s)) c.
Definition set_observed (g : Z) (e : ClusterEndpointsStatus) (c : LLMInferenceCluster)
  : LLMInferenceCluster :=
  let s := lic_Status c in
  with_status (mkStatus g e (st_Shards s) (st_Conditions s)) c.

(** ** Validation

    The kubebuilder markers, which the API server enforces on every write of
    the resource: bounds on the integers and the enumerations. *)
Definition opt_all {A : Type} (P : A → bool) (o : option A) : bool :=
  match o with Some a => P a | None => true end.

Definition one_of (l : list string) (s : string) : bool := bool_decide (s ∈ l).

Definition valid_role (r : WorkloadRoleSpec) : bool :=
  opt_all (λ z, (0 <=? z) && is_int32 z) (role_Replicas r)
  && opt_all (λ z, (1 <=? z) && (z <=? 65535)) (role_ServicePort r).

Definition valid_spec (s : LLMInferenceClusterSpec) : bool :=
  negb (bool_decide (model_Name (spec_Model s) = emp))
  && negb (bool_decide (model_Image (spec_Model s) = emp))
  && forallb (λ e, negb (bool_decide (env_Name e = emp))) (model_Env (spec_Model s))
  && valid_role (rt_Prefill (spec_Runtime s)) && valid_role (rt_Decode (spec_Runtime s))
  && one_of [emp; KVCacheStrategySharded] (kv_Strategy (spec_KVCache s))
  && opt_all (λ z, (1 <=? z) && is_int32 z) (kv_NumShards (spec_KVCache s))
  && one_of [emp; EvictionPolicyLRU; EvictionPolicyTTL; EvictionPolicyAttentionAwareStub]
       (kv_EvictionPolicy (spec_KVCache s))
  && one_of [emp; WarmCacheNone; WarmCacheMemory; WarmCacheDiskStub] (kv_WarmCache (spec_KVCache s))
  && one_of [emp; RoutingModeSessionAffinity] (routing_Mode (spec_Routing s))
  && opt_all (λ k, negb (bool_decide (k = emp))) (routing_HashKey (spec_Routing s))
  && opt_all (λ z, (1 <=? z) && is_int32 z) (routing_RouterReplicas (spec_Routing s))
  && opt_all (λ z, (0 <=? z) && is_int32 z) (as_MinReplicas (spec_Autoscaling s))
  && opt_all (λ z, (1 <=? z) && is_int32 z) (as_MaxReplicas (spec_Autoscaling s))
  && one_of [emp; SignalsSourceFake; SignalsSourcePrometheus] (sig_Source (as_Signals (spec_Autoscaling s))).
