(* ===== verification/Defaults.v ===== *)
(** * Defaulting of the spec

    The block of [Reconcile]
    (src/internal/controller/llminferencecluster_controller.go) that fills
    the fields of the spec that were left empty, before they are persisted. *)
From S2P Require Import Prelude Types.
From stdpp Require Import options.

Definition default_str (d s : string) : string := if bool_decide (s = emp) then d else s.
Definition default_ptr {A : Type} (d : A) (o : option A) : option A :=
  match o with None => Some d | Some a => Some a end.

Definition default_routing (r : RoutingSpec) : RoutingSpec :=
  mkRoutingSpec (default_str RoutingModeSessionAffinity (routing_Mode r))
    (default_ptr "conversationId" (routing_HashKey r))
    (default_ptr 1 (routing_RouterReplicas r)).

Definition default_port (p : Z) (r : WorkloadRoleSpec) : WorkloadRoleSpec :=
  mkWorkloadRoleSpec (role_Replicas r) (default_ptr p (role_ServicePort r)) (role_PodLabels r).

Definition default_runtime (r : RuntimeSpec) : RuntimeSpec :=
  mkRuntimeSpec (default_port 8001 (rt_Prefill r)) (default_port 8000 (rt_Decode r)).

Definition default_kvcache (k : KVCacheSpec) : KVCacheSpec :=
  mkKVCacheSpec (default_str KVCacheStrategySharded (kv_Strategy k))
    (default_ptr 8 (kv_NumShards k))
    (default_str EvictionPolicyLRU (kv_EvictionPolicy k))
    (default_str WarmCacheNone (kv_WarmCache k)).

Definition default_spec (s : LLMInferenceClusterSpec) : LLMInferenceClusterSpec :=
  mkSpec (spec_Model s) (default_runtime (spec_Runtime s)) (default_kvcache (spec_KVCache s))
    (default_routing (spec_Routing s)) (spec_Autoscaling s).

Definition apply_defaults (c : LLMInferenceCluster) : LLMInferenceCluster :=
  with_spec (default_spec (lic_Spec c)) c.

(** ** A defaulted spec *)

(** The fields that the rest of [Reconcile] dereferences are set. *)
Definition defaulted (s : LLMInferenceClusterSpec) : bool :=
  bool_decide (is_Some (role_ServicePort (rt_Decode (spec_Runtime s))))
  && bool_decide (is_Some (role_ServicePort (rt_Prefill (spec_Runtime s))))
  && bool_decide (is_Some (kv_NumShards (spec_KVCache s)))
  && bool_decide (is_Some (routing_HashKey (spec_Routing s)))
  && bool_decide (is_Some (routing_RouterReplicas (spec_Routing s)))
  && negb (bool_decide (routing_Mode (spec_Routing s) = emp))
  && negb (bool_decide (kv_Strategy (spec_KVCache s) = emp))
  && negb (bool_decide (kv_EvictionPolicy (spec_KVCache s) = emp))
  && negb (bool_decide (kv_WarmCache (spec_KVCache s) = emp)).

Lemma default_ptr_some {A} (d : A) o : is_Some (default_ptr d o).
Proof. destruct o; simpl; eauto. Qed.

Lemma default_ptr_id {A} (d : A) o : is_Some o → default_ptr d o = o.
Proof. by intros [? ->]. Qed.

Lemma default_str_ne d s : d ≠ emp → default_str d s ≠ emp.
Proof. intros. unfold default_str. by case_bool_decide. Qed.

Lemma default_str_id d s : s ≠ emp → default_str d s = s.
Proof. intros. unfold default_str. by case_bool_decide. Qed.

Lemma default_spec_defaulted s : defaulted (default_spec s) = true.
Proof.
  unfold defaulted. rewrite !andb_true_iff, !negb_true_iff, !bool_decide_eq_true,
    !bool_decide_eq_false.
  split_and!; first [apply default_ptr_some | by apply default_str_ne].
Qed.

Lemma defaulted_fixpoint s : defaulted s = true → default_spec s = s.
Proof.
  unfold defaulted. rewrite !andb_true_iff, !negb_true_iff, !bool_decide_eq_true,
    !bool_decide_eq_false. intros H. destruct_and! H.
  destruct s as [? [[] []] [] [] ?]. unfold default_spec, default_runtime, default_port,
    default_kvcache, default_routing. simpl in *.
  by rewrite !default_ptr_id, !default_str_id by done.
Qed.

Lemma opt_all_default {A} (P : A → bool) d o :
  P d = true → opt_all P o = true → opt_all P (default_ptr d o) = true.
Proof. by destruct o. Qed.

Lemma one_of_default l d s : d ∈ l → one_of l s = true → one_of l (default_str d s) = true.
Proof.
  unfold one_of, default_str. destruct (bool_decide (s = emp)); [|done].
  intros. by apply bool_decide_eq_true_2.
Qed.

Lemma default_spec_valid s : valid_spec s = true → valid_spec (default_spec s) = true.
Proof.
  unfold valid_spec. rewrite !andb_true_iff. intros Hv. destruct_and! Hv.
  unfold valid_role in *. rewrite !andb_true_iff in *. destruct_and!.
  split_and!; simpl; try done;
    first [apply opt_all_default; [reflexivity|done] | apply one_of_default; [set_solver|done]].
Qed.

(** What the rest of [Reconcile] relies on. *)
Lemma default_spec_usable s :
  valid_spec s = true →
  (∃ dp, role_ServicePort (rt_Decode (spec_Runtime (default_spec s))) = Some dp ∧ 1 <= dp <= 65535) ∧
  (∃ pp, role_ServicePort (rt_Prefill (spec_Runtime (default_spec s))) = Some pp ∧ 1 <= pp <= 65535) ∧
  ∃ n, kv_NumShards (spec_KVCache (default_spec s)) = Some n ∧ 1 <= n ∧ is_int32 n = true.
Proof.
  intros Hv%default_spec_valid.
  destruct (default_ptr_some 8 (kv_NumShards (spec_KVCache s))) as [n Hn].
  destruct (default_ptr_some 8000 (role_ServicePort (rt_Decode (spec_Runtime s)))) as [dp Hd].
  destruct (default_ptr_some 8001 (role_ServicePort (rt_Prefill (spec_Runtime s)))) as [pp Hp].
  unfold valid_spec, valid_role in Hv. rewrite !andb_true_iff in Hv. simpl in Hv.
  rewrite Hn, Hd, Hp in Hv. destruct_and! Hv. simpl in *. unfold is_int32 in *.
  split_and!; [exists dp|exists pp|exists n]; split; try done; lia.
Qed.

Lemma defaults_idempotent s : default_spec (default_spec s) = default_spec s.
Proof. apply defaulted_fixpoint, default_spec_defaulted. Qed.

Lemma default_port_keeps r q p :
  role_ServicePort r = Some p → role_ServicePort (default_port q r) = Some p.
Proof. intros E. unfold default_port. simpl. by rewrite E. Qed.

(** A field that was set keeps its value. *)
Definition kept {A : Type} (o o' : option A) : Prop := ∀ a, o = Some a → o' = Some a.
Definition kept_string (s s' : string) : Prop := s ≠ emp → s' = s.

Lemma default_ptr_keeps {A} (d : A) o : kept o (default_ptr d o).
Proof. intros a ->. done. Qed.

Lemma default_str_keeps d s : kept_string s (default_str d s).
Proof. exact (default_str_id d s). Qed.

(** C31: the defaulting block. It completes a spec (every field that the rest
    of [Reconcile] dereferences is set afterwards), leaves a complete spec
    alone and is therefore idempotent; it keeps a valid spec valid, so that
    writing it back passes the validation markers; and it changes no field
    that was set: the model, the autoscaling block, the replica counts and the
    pod labels are untouched, and each defaulted field keeps a value the user
    gave. *)
Theorem defaults_correct (s : LLMInferenceClusterSpec) :
  defaulted (default_spec s) = true ∧
  (defaulted s = true → default_spec s = s) ∧
  default_spec (default_spec s) = default_spec s ∧
  (valid_spec s = true → valid_spec (default_spec s) = true) ∧
  spec_Model (default_spec s) = spec_Model s ∧
  spec_Autoscaling (default_spec s) = spec_Autoscaling s ∧
  (∀ role, role = rt_Decode ∨ role = rt_Prefill →
     role_Replicas (role (spec_Runtime (default_spec s))) = role_Replicas (role (spec_Runtime s)) ∧
     role_PodLabels (role (spec_Runtime (default_spec s))) = role_PodLabels (role (spec_Runtime s)) ∧
     kept (role_ServicePort (role (spec_Runtime s)))
          (role_ServicePort (role (spec_Runtime (default_spec s))))) ∧
  (let k := spec_KVCache s in let k' := spec_KVCache (default_spec s) in
   kept_string (kv_Strategy k) (kv_Strategy k') ∧ kept (kv_NumShards k) (kv_NumShards k') ∧
   kept_string (kv_EvictionPolicy k) (kv_EvictionPolicy k') ∧
   kept_string (kv_WarmCache k) (kv_WarmCache k')) ∧
  (let r := spec_Routing s in let r' := spec_Routing (default_spec s) in
   kept_string (routing_Mode r) (routing_Mode r') ∧ kept (routing_HashKey r) (routing_HashKey r') ∧
   kept (routing_RouterReplicas r) (routing_RouterReplicas r')).
Proof.
  cbv zeta. split_and!; auto using default_spec_defaulted, defaulted_fixpoint, defaults_idempotent,
    default_spec_valid; first [apply default_ptr_keeps|apply default_str_keeps|idtac].
  intros role [-> | ->]; split_and!; try done; intros p; apply default_port_keeps.
Qed.

Lemma defaults_correct_witness :
  let s := mkSpec (mkModelSpec "m" "i" [] [])
             (mkRuntimeSpec (mkWorkloadRoleSpec None None ∅) (mkWorkloadRoleSpec (Some 2) (Some 9000) ∅))
             (mkKVCacheSpec emp (Some 16) emp emp) (mkRoutingSpec emp (Some "user") None)
             (mkAutoscalingSpec None None None (mkSignalsSpec emp None)) in
  valid_spec (default_spec s) = true ∧ kv_NumShards (spec_KVCache (default_spec s)) = Some 16 ∧
  routing_HashKey (spec_Routing (default_spec s)) = Some "user".
Proof.
  intros s. destruct (defaults_correct s) as (_ & _ & _ & Hv & _ & _ & _ & (_ & Hn & _) & _ & Hk & _).
  split_and!; [apply Hv; vm_compute; reflexivity|apply Hn; reflexivity|apply Hk; reflexivity].
Defined.
