(* ===== verification/Kube.v ===== *)
(** * Kubernetes objects and the client interface

    The objects the operator manages ([corev1], [appsv1], [rbacv1]) with the
    fields it reads or writes, and the two interfaces of code outside the
    repository that it calls: the API client of controller-runtime
    ([client.Client] with [controllerutil.CreateOrUpdate]) and the pure
    helpers of apimachinery and controllerutil.  Both are classes; their
    documented behaviour is stated in separate law classes, which only the
    theorems that need them assume. *)
From S2P Require Import Prelude Types.
From stdpp Require Import options.

(** ** Objects *)
Inductive Protocol := ProtocolTCP | ProtocolUDP | ProtocolSCTP.
Inductive IntOrString := IntVal (z : Z) | StrVal (s : string).
Inductive PullPolicy := PullUnset | PullAlways | PullIfNotPresent | PullNever.

Record ServicePort := mkServicePort {
  sp_Name : string; sp_Port : Z; sp_Protocol : Protocol; sp_TargetPort : IntOrString }.

(** [*_other] holds the fields that the operator neither reads nor writes. *)
Record Service := mkService {
  svc_Meta : ObjectMeta;
  svc_Selector : gmap string string;
  svc_Ports : list ServicePort;
  svc_other : list (string * string) }.

Record ContainerPort := mkContainerPort { cp_Name : string; cp_ContainerPort : Z }.

(** [Value], or [ValueFrom.FieldRef.FieldPath]. *)
Record CoreEnvVar := mkCoreEnvVar {
  cenv_Name : string; cenv_Value : string; cenv_FieldPath : option string }.

Record Container := mkContainer {
  ct_Name : string;
  ct_Image : string;
  ct_ImagePullPolicy : PullPolicy;
  ct_Args : list string;
  ct_Env : list CoreEnvVar;
  ct_Ports : list ContainerPort;
  ct_other : list (string * string) }.

(** [Containers] distinguishes the nil slice from the empty one, as the code
    tests for nil and then indexes. *)
Record Deployment := mkDeployment {
  dep_Meta : ObjectMeta;
  dep_Replicas : option Z;
  dep_Selector : option (gmap string string);
  dep_TemplateLabels : gmap string string;
  dep_ServiceAccountName : string;
  dep_Containers : option (list Container);
  dep_other : list (string * string) }.

Record ConfigMap := mkConfigMap {
  cm_Meta : ObjectMeta;
  cm_Data : option (gmap string string);
  cm_other : list (string * string) }.

Record ServiceAccount := mkServiceAccount {
  sa_Meta : ObjectMeta; sa_other : list (string * string) }.

Record PolicyRule := mkPolicyRule {
  pr_APIGroups : list string; pr_Resources : list string; pr_Verbs : list string }.

Record RBACRole := mkRBACRole { ro_Meta : ObjectMeta; ro_Rules : list PolicyRule }.

Record RoleRef := mkRoleRef { rr_APIGroup : string; rr_Kind : string; rr_Name : string }.
Record Subject := mkSubject { su_Kind : string; su_Name : string; su_Namespace : string }.
Record RoleBinding := mkRoleBinding {
  rb_Meta : ObjectMeta; rb_RoleRef : RoleRef; rb_Subjects : list Subject }.

Record PodCondition := mkPodCondition { pc_Type : string; pc_Status : ConditionStatus }.
Record Pod := mkPod {
  pod_Name : string; pod_Labels : gmap string string; pod_Conditions : list PodCondition }.

(** ** Kinds *)
Inductive kind := KService | KDeployment | KConfigMap | KServiceAccount | KRole | KRoleBinding.

#[export] Instance kind_eq_dec : EqDecision kind.
Proof. solve_decision. Defined.

Definition obj (k : kind) : Type :=
  match k with
  | KService => Service
  | KDeployment => Deployment
  | KConfigMap => ConfigMap
  | KServiceAccount => ServiceAccount
  | KRole => RBACRole
  | KRoleBinding => RoleBinding
  end.

(** [metav1.ObjectMeta{Name: name, Namespace: ns}]. *)
Definition new_meta (name ns : string) : ObjectMeta :=
  mkMeta name ns emp ∅ 0 None [] [] [].

(** The object a handler passes to [CreateOrUpdate]: name and namespace set,
    every other field at its zero value. *)
Definition new_obj (k : kind) (name ns : string) : obj k :=
  match k with
  | KService => mkService (new_meta name ns) ∅ [] []
  | KDeployment => mkDeployment (new_meta name ns) None None ∅ emp None []
  | KConfigMap => mkConfigMap (new_meta name ns) None []
  | KServiceAccount => mkServiceAccount (new_meta name ns) []
  | KRole => mkRBACRole (new_meta name ns) []
  | KRoleBinding => mkRoleBinding (new_meta name ns) (mkRoleRef emp emp emp) []
  end.

Definition obj_meta {k : kind} : obj k → ObjectMeta :=
  match k with
  | KService => svc_Meta
  | KDeployment => dep_Meta
  | KConfigMap => cm_Meta
  | KServiceAccount => sa_Meta
  | KRole => ro_Meta
  | KRoleBinding => rb_Meta
  end.

Record NamespacedName := mkNN { nn_Namespace : string; nn_Name : string }.

(** ** Effects

    A computation that calls the API: it threads the world [W] of the client
    and ends in a [result]. *)
Definition M (W A : Type) : Type := W → W * result A.

Definition mret {W A : Type} (a : A) : M W A := λ w, (w, Ok a).
Definition mlift {W A : Type} (r : result A) : M W A := λ w, (w, r).

Definition mbind' {W A B : Type} (m : M W A) (k : A → M W B) : M W B :=
  λ w, match m w with
       | (w', Ok a) => k a w'
       | (w', Err e) => (w', Err e)
       | (w', Panic p) => (w', Panic p)
       end.

(** [x, err := m(); if err != nil { return h(err) }; k(x)]. *)
Definition mtry {W A B : Type} (m : M W A) (h : error → M W B) (k : A → M W B) : M W B :=
  λ w, match m w with
       | (w', Ok a) => k a w'
       | (w', Err e) => h e w'
       | (w', Panic p) => (w', Panic p)
       end.

Notation "'let!' x := m 'in' k" := (mbind' m (λ x, k))
  (at level 10, x pattern, m at level 100, k at level 200) : go_scope.
Notation "'let!' x := m 'onerr' e '=>' h 'in' k" := (mtry m (λ e, h) (λ x, k))
  (at level 10, x pattern, m at level 100, e name, h at level 100, k at level 200) : go_scope.

(** ** The API client *)
Class Client (W : Type) := {
  (** [r.Get(ctx, key, &cluster)] *)
  get_cluster : NamespacedName → M W LLMInferenceCluster;
  (** [r.Patch(ctx, &cluster, client.MergeFrom(original))]: the object as the
      server returns it is decoded into [cluster] *)
  patch_cluster : LLMInferenceCluster → LLMInferenceCluster → M W LLMInferenceCluster;
  (** [r.Update(ctx, &cluster)] *)
  update_cluster : LLMInferenceCluster → M W LLMInferenceCluster;
  (** [r.Status().Patch(ctx, &cluster, client.MergeFrom(original))] *)
  status_patch : LLMInferenceCluster → LLMInferenceCluster → M W LLMInferenceCluster;
  (** [r.Status().Update(ctx, cluster)] *)
  status_update : LLMInferenceCluster → M W LLMInferenceCluster;
  (** [controllerutil.CreateOrUpdate(ctx, r.Client, obj, mutate)] on the object
      of the kind, name and namespace *)
  create_or_update : ∀ k : kind, string → string → (obj k → result (obj k)) → M W (obj k);
  (** [client.Get] on a ConfigMap *)
  get_configmap : NamespacedName → M W ConfigMap;
  (** [r.List(ctx, &pods, client.InNamespace(ns), client.MatchingLabels(l))] *)
  list_pods : string → gmap string string → M W (list Pod);
  (** [metav1.Now()] *)
  now : W → W * Time
}.

Definition mnow {W : Type} `{!Client W} : M W Time := λ w, let '(w', t) := now w in (w', Ok t).

(** ** Pure helpers of apimachinery and controllerutil *)
Class Machinery := {
  (** [meta.SetStatusCondition] *)
  SetStatusCondition : list Condition → Condition → list Condition;
  (** [controllerutil.ContainsFinalizer], [AddFinalizer], [RemoveFinalizer] *)
  ContainsFinalizer : LLMInferenceCluster → string → bool;
  AddFinalizer : LLMInferenceCluster → string → LLMInferenceCluster;
  RemoveFinalizer : LLMInferenceCluster → string → LLMInferenceCluster;
  (** [controllerutil.SetControllerReference(cluster, obj, r.Scheme)] on the
      metadata of [obj] *)
  SetControllerReference : LLMInferenceCluster → ObjectMeta → result ObjectMeta;
  (** [sort.Slice(out, less)] by name: not stable, so only its contract is
      known *)
  sort_Slice : list CoreEnvVar → list CoreEnvVar
}.
