(* ===== verification/Signals.v ===== *)
(** * Autoscaling signals

    src/internal/signals: the [Adapter] interface and its two
    implementations. *)
From S2P Require Import Prelude Strconv Float64 Types Kube.
From stdpp Require Import options.

Record Signals := mkSignals {
  QueueDepth : float64; TokensPerSecond : float64; MemPressure : float64 }.

(** The implementations of the [Adapter] interface (adapter.go). *)
Inductive Adapter :=
| FakeConfigMapAdapter (Namespace Name : string)
| PrometheusAdapter (BaseURL : string).

(** [parseFloat] (fake.go): an empty, malformed or out-of-range value is 0. *)
Definition parseFloat (v : string) : float64 :=
  if bool_decide (v = emp) then f64_zero
  else match ParseFloat v with
       | PF_ok f => f
       | PF_syntax | PF_range => f64_zero
       end.

(** [cm.Data[key]]: a missing key, or a nil map, reads as the empty string. *)
Definition data_get (d : option (gmap string string)) (key : string) : string :=
  default emp (default ∅ d !! key).

Section Read.
Context {W : Type} `{!Client W}.

Definition Fake_Read (ns name : string) : M W Signals :=
  let! cm := get_configmap (mkNN ns name) in
  mret (mkSignals (parseFloat (data_get (cm_Data cm) "queueDepth"))
          (parseFloat (data_get (cm_Data cm) "tokensPerSecond"))
          (parseFloat (data_get (cm_Data cm) "memPressure"))).

Definition Prometheus_Read (baseURL : string) : M W Signals :=
  mlift (Err (errors_New "prometheus adapter not implemented in v1")).

Definition Read (a : Adapter) : M W Signals :=
  match a with
  | FakeConfigMapAdapter ns name => Fake_Read ns name
  | PrometheusAdapter url => Prometheus_Read url
  end.
End Read.

(** ** parseFloat *)
Lemma parseFloat_Itoa n : 0 <= n < 2 ^ 53 → parseFloat (Itoa n) = f64_of_Z n.
Proof.
  intros Hn. unfold parseFloat. rewrite ParseFloat_Itoa by done.
  rewrite bool_decide_eq_false_2; [done|].
  unfold Itoa. rewrite (proj2 (Z.ltb_ge n 0)) by lia. apply udec_nonempty. lia.
Qed.

(** C33: a signal written as a decimal integer below 2^53 is read exactly, so
    the thresholds of the autoscaler compare integers: the parsed value is
    above (below) a positive integer threshold exactly when the integer is. *)
Theorem signal_thresholds_exact (n k : Z) :
  0 <= n < 2 ^ 53 → 0 < k < 2 ^ 53 →
  f64_gt (parseFloat (Itoa n)) (f64_of_Z k) = (k <? n) ∧
  f64_lt (parseFloat (Itoa n)) (f64_of_Z k) = (n <? k).
Proof.
  intros Hn Hk. rewrite parseFloat_Itoa by done. by rewrite f64_gt_int, f64_lt_int.
Qed.

Lemma signal_thresholds_exact_witness :
  f64_gt (parseFloat "250") (f64_of_Z 100) = true ∧
  f64_lt (parseFloat "250") (f64_of_Z 100) = false.
Proof. apply (signal_thresholds_exact 250 100); split; vm_compute; done. Defined.

(** [parseFloat] fails safe: what is not a number, and what overflows, is
    zero; it never returns an infinity for finite syntax out of range. *)
Lemma parseFloat_unreadable v :
  ParseFloat v = PF_syntax ∨ ParseFloat v = PF_range ∨ v = emp → parseFloat v = f64_zero.
Proof.
  intros H. unfold parseFloat. case_bool_decide as Hv; [done|].
  destruct H as [-> | [-> | ?]]; done.
Qed.
