(* ===== verification/Autoscale.v ===== *)
(** * Autoscaling of the decode role

    [computeDecodeReplicas] of
    src/internal/controller/llminferencecluster_controller.go. *)
From S2P Require Import Prelude Strconv Float64 Types Kube Signals.
From stdpp Require Import options.

(** [current], [min] and [max] before the signals are read. *)
Record bounds := mkBounds { b_current : Z; b_min : Z; b_max : Z }.

Definition scaling_bounds (c : LLMInferenceCluster) : bounds :=
  let current := default 1 (role_Replicas (rt_Decode (spec_Runtime (lic_Spec c)))) in
  let min := default 0 (as_MinReplicas (spec_Autoscaling (lic_Spec c))) in
  let max := default 10 (as_MaxReplicas (spec_Autoscaling (lic_Spec c))) in
  let max := if max <? 1 then 1 else max in
  let current := if current <? min then min else current in
  let current := if max <? current then max else current in
  mkBounds current min max.

(** The switch on the source; any other value falls back to the ConfigMap. *)
Definition signals_adapter (c : LLMInferenceCluster) (signalsCMName : string) : Adapter :=
  let spec := as_Signals (spec_Autoscaling (lic_Spec c)) in
  let ns := om_Namespace (lic_Meta c) in
  let source := if bool_decide (sig_Source spec = emp) then SignalsSourceFake else sig_Source spec in
  if bool_decide (source = SignalsSourceFake) then FakeConfigMapAdapter ns signalsCMName
  else if bool_decide (source = SignalsSourcePrometheus) then
    PrometheusAdapter (default emp (sig_PrometheusURL spec))
  else FakeConfigMapAdapter ns signalsCMName.

(** One step up above 100 queued requests, one step down below 10, then
    clamped; [current + 1] and [current - 1] wrap at 32 bits. *)
Definition desired_replicas (b : bounds) (s : Signals) : Z :=
  let desired :=
    if f64_gt (QueueDepth s) (f64_of_Z 100) then int32 (b_current b + 1)
    else if f64_lt (QueueDepth s) (f64_of_Z 10) && (b_min b <? b_current b)
    then int32 (b_current b - 1)
    else b_current b in
  let desired := if desired <? b_min b then b_min b else desired in
  if b_max b <? desired then b_max b else desired.

Definition computeDecodeReplicas {W : Type} `{!Client W} (c : LLMInferenceCluster)
    (signalsCMName : string) : M W (Z * bool) :=
  let b := scaling_bounds c in
  let! s := Read (signals_adapter c signalsCMName) in
  let desired := desired_replicas b s in
  mret (desired, negb (desired =? b_current b)).

(** ** Bounds *)
Definition int32_opt (o : option Z) : bool := opt_all is_int32 o.

(** The integers of the spec have their Go type. *)
Definition scaling_typed (c : LLMInferenceCluster) : bool :=
  int32_opt (role_Replicas (rt_Decode (spec_Runtime (lic_Spec c))))
  && int32_opt (as_MinReplicas (spec_Autoscaling (lic_Spec c)))
  && int32_opt (as_MaxReplicas (spec_Autoscaling (lic_Spec c))).

Lemma int32_opt_default o d :
  int32_opt o = true → is_int32 d = true → is_int32 (default d o) = true.
Proof. by destruct o. Qed.

Lemma scaling_bounds_typed c :
  scaling_typed c = true →
  is_int32 (b_current (scaling_bounds c)) = true ∧ is_int32 (b_min (scaling_bounds c)) = true ∧
  is_int32 (b_max (scaling_bounds c)) = true ∧
  1 <= b_max (scaling_bounds c) ∧ b_current (scaling_bounds c) <= b_max (scaling_bounds c).
Proof.
  unfold scaling_typed. intros [[Hc Hm]%andb_prop HM]%andb_prop.
  pose proof (int32_opt_default _ 1 Hc eq_refl). pose proof (int32_opt_default _ 0 Hm eq_refl).
  pose proof (int32_opt_default _ 10 HM eq_refl). unfold scaling_bounds. cbn.
  repeat case_match; unfold is_int32 in *; lia.
Qed.

(** The answer, by cases on the queue depth. *)
Definition spec_desired (b : bounds) (up down : bool) : Z :=
  let step := if up then b_current b + 1 else if down then b_current b - 1 else b_current b in
  Z.min (Z.max step (b_min b)) (b_max b).

Lemma desired_replicas_spec b s :
  is_int32 (b_current b) = true → is_int32 (b_min b) = true → b_current b < 2147483647 →
  desired_replicas b s =
    spec_desired b (f64_gt (QueueDepth s) (f64_of_Z 100))
      (f64_lt (QueueDepth s) (f64_of_Z 10) && (b_min b <? b_current b)).
Proof.
  intros Hc Hm Hlt. unfold desired_replicas, spec_desired.
  assert (int32 (b_current b + 1) = b_current b + 1) as ->
    by (apply int32_small; unfold is_int32 in *; lia).
  destruct (f64_gt _ _); [repeat case_match; lia|].
  destruct (_ && _) eqn:E; [|repeat case_match; lia].
  apply andb_prop in E as [_ E].
  assert (int32 (b_current b - 1) = b_current b - 1) as ->
    by (apply int32_small; unfold is_int32 in *; lia).
  repeat case_match; lia.
Qed.

(** The replica count that autoscaling asks for never exceeds
    [maxReplicas] (taken as at least 1) and never falls below [minReplicas]
    when the two bounds are consistent, whatever the signals are, NaN and
    infinities included. *)
Lemma desired_within_bounds (c : LLMInferenceCluster) (s : Signals) :
  desired_replicas (scaling_bounds c) s <= b_max (scaling_bounds c) ∧
  (b_min (scaling_bounds c) <= b_max (scaling_bounds c) →
   b_min (scaling_bounds c) <= desired_replicas (scaling_bounds c) s).
Proof. unfold desired_replicas. repeat case_match; lia. Qed.

(** Without an increment nothing wraps. *)
Lemma desired_replicas_no_up b s :
  is_int32 (b_current b) = true → is_int32 (b_min b) = true →
  f64_gt (QueueDepth s) (f64_of_Z 100) = false →
  desired_replicas b s =
    spec_desired b false (f64_lt (QueueDepth s) (f64_of_Z 10) && (b_min b <? b_current b)).
Proof.
  intros Hc Hm Hup. unfold desired_replicas, spec_desired. rewrite Hup.
  destruct (_ && _) eqn:E; [|repeat case_match; lia]. apply andb_prop in E as [_ E].
  rewrite int32_small by (unfold is_int32 in *; lia). repeat case_match; lia.
Qed.

(** C25: one reconciliation moves the replica count by at most one step: the
    result is the current count plus one above 100 queued requests, minus one
    below 10 (not under the minimum), and the count itself in between, clamped
    to the bounds; it is never above the maximum, nor below the minimum when
    the bounds are consistent.  The one exception is a count that is the
    largest int32 already: there a long queue makes the increment wrap, and
    the count falls to the minimum. *)
Theorem desired_replicas_step (c : LLMInferenceCluster) (s : Signals) :
  scaling_typed c = true →
  let b := scaling_bounds c in
  let up := f64_gt (QueueDepth s) (f64_of_Z 100) in
  let down := f64_lt (QueueDepth s) (f64_of_Z 10) && (b_min b <? b_current b) in
  desired_replicas b s =
    (if up && (b_current b =? 2147483647) then Z.min (b_min b) (b_max b) else spec_desired b up down) ∧
  desired_replicas b s <= b_max b ∧
  (b_min b <= b_max b → b_min b <= desired_replicas b s).
Proof.
  intros Ht b up down. destruct (scaling_bounds_typed c Ht) as (Hc & Hm & HM & _ & Hle).
  split; [|apply desired_within_bounds].
  fold b in Hc, Hm, HM, Hle. unfold is_int32 in Hm, HM.
  destruct up eqn:Eup; cbn [andb]; [|by apply desired_replicas_no_up].
  destruct (Z.eqb_spec (b_current b) 2147483647) as [E|E].
  - unfold desired_replicas. fold up. rewrite Eup, E. change (int32 (2147483647 + 1)) with (-2147483648).
    repeat case_match; lia.
  - rewrite desired_replicas_spec; [by fold up; rewrite Eup|done|done|lia].
Qed.

Lemma desired_replicas_step_witness :
  let c := mkCluster (mkMeta "a" "b" "c" ∅ 1 None [] [] [])
    (mkSpec (mkModelSpec "m" "i" [] [])
       (mkRuntimeSpec (mkWorkloadRoleSpec None None ∅) (mkWorkloadRoleSpec (Some 4) None ∅))
       (mkKVCacheSpec emp None emp emp) (mkRoutingSpec emp None None)
       (mkAutoscalingSpec (Some true) (Some 1) (Some 5) (mkSignalsSpec emp None)))
    (mkStatus 0 (mkEndpoints emp emp emp) [] []) in
  desired_replicas (scaling_bounds c) (mkSignals (parseFloat "250") f64_zero f64_zero) = 5 ∧
  desired_replicas (scaling_bounds c) (mkSignals (parseFloat "3.5") f64_zero f64_zero) = 3.
Proof.
  intros c. split.
  - rewrite (proj1 (desired_replicas_step c _ eq_refl)). reflexivity.
  - rewrite (proj1 (desired_replicas_step c _ eq_refl)). reflexivity.
Defined.

(** A broken signal never scales up: when the queue depth is missing, is
    not a number or overflows, it is read as an empty queue, so the count
    goes down by one step, and stays where it is at the minimum. *)
Lemma unreadable_signal_scales_down (c : LLMInferenceCluster) (v : string) (tps mem : float64) :
  scaling_typed c = true → b_min (scaling_bounds c) <= b_max (scaling_bounds c) →
  ParseFloat v = PF_syntax ∨ ParseFloat v = PF_range ∨ v = emp →
  desired_replicas (scaling_bounds c) (mkSignals (parseFloat v) tps mem) =
    if b_min (scaling_bounds c) <? b_current (scaling_bounds c)
    then b_current (scaling_bounds c) - 1 else b_current (scaling_bounds c).
Proof.
  intros Ht Hle Hv. rewrite (parseFloat_unreadable v Hv).
  destruct (scaling_bounds_typed c Ht) as (Hc & Hm & _ & _ & Hmax).
  assert (b_min (scaling_bounds c) <= b_current (scaling_bounds c)) as Hmin
    by (unfold scaling_bounds in *; cbn in *; repeat case_match; lia).
  unfold desired_replicas. cbn [QueueDepth].
  change (f64_gt f64_zero (f64_of_Z 100)) with false. change (f64_lt f64_zero (f64_of_Z 10)) with true.
  cbn [andb]. destruct (Z.ltb_spec (b_min (scaling_bounds c)) (b_current (scaling_bounds c))).
  - rewrite int32_small by (unfold is_int32 in *; lia). repeat case_match; lia.
  - repeat case_match; lia.
Qed.

Lemma unreadable_signal_scales_down_witness :
  let c := mkCluster (mkMeta "a" "b" "c" ∅ 1 None [] [] [])
    (mkSpec (mkModelSpec "m" "i" [] [])
       (mkRuntimeSpec (mkWorkloadRoleSpec None None ∅) (mkWorkloadRoleSpec (Some 4) None ∅))
       (mkKVCacheSpec emp None emp emp) (mkRoutingSpec emp None None)
       (mkAutoscalingSpec (Some true) (Some 1) (Some 5) (mkSignalsSpec emp None)))
    (mkStatus 0 (mkEndpoints emp emp emp) [] []) in
  desired_replicas (scaling_bounds c) (mkSignals (parseFloat "1e999") f64_zero f64_zero) = 3 ∧
  desired_replicas (scaling_bounds c) (mkSignals (parseFloat "12 requests") f64_zero f64_zero) = 3.
Proof.
  intros c. split.
  - apply (unreadable_signal_scales_down c "1e999"); [reflexivity|vm_compute; discriminate|].
    right; left. vm_compute. reflexivity.
  - apply (unreadable_signal_scales_down c "12 requests"); [reflexivity|vm_compute; discriminate|].
    left. vm_compute. reflexivity.
Defined.

(** ** Limits of the step *)

(** Each reconciliation starts from the replicas of the spec, which it never
    writes, so a cluster is never scaled further than one above them (or its
    minimum), however large [maxReplicas] is. *)
Lemma desired_at_most_one_above c s :
  scaling_typed c = true → b_max (scaling_bounds c) < 2147483647 →
  desired_replicas (scaling_bounds c) s <=
    Z.max (default 1 (role_Replicas (rt_Decode (spec_Runtime (lic_Spec c)))) + 1)
          (b_min (scaling_bounds c) + 1).
Proof.
  intros Ht Hmax. destruct (scaling_bounds_typed c Ht) as (? & ? & ? & ? & ?).
  rewrite desired_replicas_spec by (done || lia). unfold spec_desired, scaling_bounds in *. cbn in *.
  repeat case_match; lia.
Qed.

(** At the largest int32 the increment wraps and the count falls to the
    minimum. *)
Example increment_wraps :
  desired_replicas (mkBounds 2147483647 1 2147483647)
    (mkSignals (f64_of_Z 500) f64_zero f64_zero) = 1.
Proof. vm_compute. reflexivity. Qed.

(** With [minReplicas] above [maxReplicas] the maximum wins. *)
Example min_above_max :
  desired_replicas (mkBounds 3 5 3) (mkSignals (f64_of_Z 500) f64_zero f64_zero) = 3.
Proof. vm_compute. reflexivity. Qed.
