(* ===== verification/Resources.v ===== *)
(** * Child resources

    The helpers and the [reconcile*] methods of
    src/internal/controller/llminferencecluster_controller.go that create or
    update Services, Deployments, RBAC objects and ConfigMaps.  Each Go
    closure passed to [CreateOrUpdate] is a [mutate_*] function on the
    object; the method around it is the [reconcile*] computation. *)
From S2P Require Import Prelude Strconv Types Kube.
From stdpp Require Import options.

Definition rolePrefill : string := "prefill".
Definition roleDecode : string := "decode".
Definition roleRouter : string := "router".

(** ** Labels *)
Definition baseLabels (c : LLMInferenceCluster) : gmap string string :=
  <["app.kubernetes.io/name" := "llm-inference-operator"]>
  (<["app.kubernetes.io/part-of" := "llm-inference-operator"]>
  (<["inference.llm.io/cluster" := om_Name (lic_Meta c)]> ∅)).

Definition roleLabels (base : gmap string string) (role : string) : gmap string string :=
  <["inference.llm.io/role" := role]> base.

(** ** Small helpers *)
Definition derefInt32 (v : option Z) (def : Z) : Z := default def v.
Definition derefString (v : option string) (def : string) : string := default def v.
Definition intstrFromInt (i : Z) : IntOrString := IntVal (int32 i).

Definition servicePortForRole (c : LLMInferenceCluster) (role : string) : Z :=
  let rt := spec_Runtime (lic_Spec c) in
  match (if bool_decide (role = roleDecode) then role_ServicePort (rt_Decode rt) else None) with
  | Some p => p
  | None =>
      match (if bool_decide (role = rolePrefill) then role_ServicePort (rt_Prefill rt) else None) with
      | Some p => p
      | None => 8000
      end
  end.

Section Children.
Context {W : Type} `{!Client W} `{!Machinery}.

Definition buildEnvVars (env : list EnvVar) : list CoreEnvVar :=
  sort_Slice ((λ e, mkCoreEnvVar (env_Name e) (env_Value e) None) <$> env).

(** ** Services *)
Definition mutate_service (c : LLMInferenceCluster) (labels : gmap string string)
    (ports : list ServicePort) (svc : Service) : result Service :=
  let? m := SetControllerReference c (set_labels labels (svc_Meta svc)) in
  Ok (mkService m labels ports (svc_other svc)).

Definition role_ports (port : Z) : list ServicePort :=
  [mkServicePort "http" port ProtocolTCP (intstrFromInt port)].

Definition router_ports : list ServicePort :=
  [mkServicePort "http" 8080 ProtocolTCP (intstrFromInt 8080);
   mkServicePort "metrics" 9090 ProtocolTCP (intstrFromInt 9090)].

Definition reconcileRoleService (c : LLMInferenceCluster) (role name : string) (port : Z)
    (base : gmap string string) : M W unit :=
  let! _ := create_or_update KService name (om_Namespace (lic_Meta c))
              (mutate_service c (roleLabels base role) (role_ports port)) in
  mret tt.

Definition reconcileRouterService (c : LLMInferenceCluster) (name : string)
    (base : gmap string string) : M W unit :=
  let! _ := create_or_update KService name (om_Namespace (lic_Meta c))
              (mutate_service c (roleLabels base roleRouter) router_ports) in
  mret tt.

(** ** Deployments *)
Definition role_replicas (c : LLMInferenceCluster) (role : string) (override : option Z) : Z :=
  let rt := spec_Runtime (lic_Spec c) in
  let replicas := 1 in
  let replicas := if bool_decide (role = roleDecode)
                  then default replicas (role_Replicas (rt_Decode rt)) else replicas in
  let replicas := if bool_decide (role = rolePrefill)
                  then default replicas (role_Replicas (rt_Prefill rt)) else replicas in
  if bool_decide (role = roleDecode) then default replicas override else replicas.

(** [if Containers == nil { Containers = []corev1.Container{{Name: n}} };
    c := &Containers[0]; ...]: the first container is updated in place and an
    empty, non-nil slice panics. *)
Definition named_container (n : string) : Container :=
  mkContainer n emp PullUnset [] [] [] [].

Definition update_first (n : string) (f : Container → result Container)
    (cs : option (list Container)) : result (option (list Container)) :=
  match default [named_container n] cs with
  | [] => Panic "index out of range"
  | x :: l => let? y := f x in Ok (Some (y :: l))
  end.

Definition worker_env (c : LLMInferenceCluster) (role serviceName : string) : list CoreEnvVar :=
  buildEnvVars (model_Env (spec_Model (lic_Spec c))) ++
  [mkCoreEnvVar "INFERENCE_ROLE" role None;
   mkCoreEnvVar "SERVICE_NAME" serviceName None;
   mkCoreEnvVar "KV_SHARDS" (Itoa (derefInt32 (kv_NumShards (spec_KVCache (lic_Spec c))) 8)) None].

Definition worker_container (c : LLMInferenceCluster) (role serviceName : string)
    (x : Container) : result Container :=
  Ok (mkContainer "worker" (model_Image (spec_Model (lic_Spec c))) PullIfNotPresent
        (model_Args (spec_Model (lic_Spec c))) (worker_env c role serviceName)
        [mkContainerPort "http" (servicePortForRole c role)] (ct_other x)).

Definition mutate_role_deployment (c : LLMInferenceCluster) (role serviceName : string)
    (base : gmap string string) (override : option Z) (d : Deployment) : result Deployment :=
  let labels := roleLabels base role in
  let? cs := update_first "worker" (worker_container c role serviceName) (dep_Containers d) in
  let? m := SetControllerReference c (set_labels labels (dep_Meta d)) in
  Ok (mkDeployment m (Some (role_replicas c role override)) (Some labels) labels
        (dep_ServiceAccountName d) cs (dep_other d)).

Definition reconcileRoleDeployment (c : LLMInferenceCluster) (role serviceName : string)
    (base : gmap string string) (override : option Z) : M W unit :=
  let name := om_Name (lic_Meta c) +:+ "-" +:+ role in
  let! _ := create_or_update KDeployment name (om_Namespace (lic_Meta c))
              (mutate_role_deployment c role serviceName base override) in
  mret tt.

(** [fmt.Sprintf("%s.%s.svc.cluster.local:%d", name, namespace, port)]. *)
Definition service_dns (name ns : string) (port : Z) : string :=
  name +:+ "." +:+ ns +:+ ".svc.cluster.local:" +:+ Itoa port.

Definition router_container (c : LLMInferenceCluster) (shardMapName : string)
    (x : Container) : result Container :=
  let name := om_Name (lic_Meta c) in
  let ns := om_Namespace (lic_Meta c) in
  let rt := spec_Runtime (lic_Spec c) in
  let? dp := go_deref (role_ServicePort (rt_Decode rt)) in
  let? pp := go_deref (role_ServicePort (rt_Prefill rt)) in
  Ok (mkContainer "router" "llm-inference-router:latest" PullIfNotPresent
        ["--shardmap-configmap"; shardMapName;
         "--hash-key"; derefString (routing_HashKey (spec_Routing (lic_Spec c))) "conversationId"]
        [mkCoreEnvVar "NAMESPACE" emp (Some "metadata.namespace");
         mkCoreEnvVar "DECODE_SERVICE_DNS" (service_dns (name +:+ "-decode") ns dp) None;
         mkCoreEnvVar "PREFILL_SERVICE_DNS" (service_dns (name +:+ "-prefill") ns pp) None]
        [mkContainerPort "http" 8080; mkContainerPort "metrics" 9090] (ct_other x)).

Definition mutate_router_deployment (c : LLMInferenceCluster) (shardMapName saName : string)
    (base : gmap string string) (d : Deployment) : result Deployment :=
  let labels := roleLabels base roleRouter in
  let? cs := update_first "router" (router_container c shardMapName) (dep_Containers d) in
  let? m := SetControllerReference c (set_labels labels (dep_Meta d)) in
  Ok (mkDeployment m (routing_RouterReplicas (spec_Routing (lic_Spec c))) (Some labels) labels
        saName cs (dep_other d)).

Definition reconcileRouterDeployment (c : LLMInferenceCluster) (shardMapName saName : string)
    (base : gmap string string) : M W unit :=
  let name := om_Name (lic_Meta c) +:+ "-router" in
  let! _ := create_or_update KDeployment name (om_Namespace (lic_Meta c))
              (mutate_router_deployment c shardMapName saName base) in
  mret tt.

(** ** RBAC of the router *)
Definition mutate_sa (c : LLMInferenceCluster) (base : gmap string string) (sa : ServiceAccount)
  : result ServiceAccount :=
  let? m := SetControllerReference c (set_labels (roleLabels base roleRouter) (sa_Meta sa)) in
  Ok (mkServiceAccount m (sa_other sa)).

Definition mutate_role (c : LLMInferenceCluster) (base : gmap string string) (r : RBACRole)
  : result RBACRole :=
  let? m := SetControllerReference c (set_labels (roleLabels base roleRouter) (ro_Meta r)) in
  Ok (mkRBACRole m [mkPolicyRule [emp] ["configmaps"] ["get"; "list"; "watch"]]).

Definition mutate_rolebinding (c : LLMInferenceCluster) (base : gmap string string)
    (role : RBACRole) (sa : ServiceAccount) (rb : RoleBinding) : result RoleBinding :=
  let? m := SetControllerReference c (set_labels (roleLabels base roleRouter) (rb_Meta rb)) in
  Ok (mkRoleBinding m (mkRoleRef "rbac.authorization.k8s.io" "Role" (om_Name (ro_Meta role)))
        [mkSubject "ServiceAccount" (om_Name (sa_Meta sa)) (om_Namespace (sa_Meta sa))]).

Definition reconcileRouterRBAC (c : LLMInferenceCluster) (saName : string)
    (base : gmap string string) : M W unit :=
  let ns := om_Namespace (lic_Meta c) in
  let! sa := create_or_update KServiceAccount saName ns (mutate_sa c base) in
  let! role := create_or_update KRole saName ns (mutate_role c base) in
  let! _ := create_or_update KRoleBinding saName ns (mutate_rolebinding c base role sa) in
  mret tt.

(** ** ConfigMaps *)
Definition mutate_shardmap (c : LLMInferenceCluster) (base : gmap string string)
    (shardMapJSON : string) (cm : ConfigMap) : result ConfigMap :=
  let data := <["shardmap.json" := shardMapJSON]> (default ∅ (cm_Data cm)) in
  let? m := SetControllerReference c (set_labels (roleLabels base "shardmap") (cm_Meta cm)) in
  Ok (mkConfigMap m (Some data) (cm_other cm)).

Definition reconcileShardMapConfigMap (c : LLMInferenceCluster) (name : string)
    (base : gmap string string) (shardMapJSON : string) : M W unit :=
  let! _ := create_or_update KConfigMap name (om_Namespace (lic_Meta c))
              (mutate_shardmap c base shardMapJSON) in
  mret tt.

(** [if _, ok := cm.Data[key]; !ok { cm.Data[key] = "0" }]. *)
Definition init_key (key : string) (data : gmap string string) : gmap string string :=
  match data !! key with
  | Some _ => data
  | None => <[key := "0"]> data
  end.

Definition mutate_signals (c : LLMInferenceCluster) (base : gmap string string) (cm : ConfigMap)
  : result ConfigMap :=
  let data := init_key "memPressure" (init_key "tokensPerSecond"
                (init_key "queueDepth" (default ∅ (cm_Data cm)))) in
  let? m := SetControllerReference c (set_labels (roleLabels base "signals") (cm_Meta cm)) in
  Ok (mkConfigMap m (Some data) (cm_other cm)).

Definition reconcileSignalsConfigMap (c : LLMInferenceCluster) (name : string)
    (base : gmap string string) : M W unit :=
  let! _ := create_or_update KConfigMap name (om_Namespace (lic_Meta c)) (mutate_signals c base) in
  mret tt.

End Children.
