(* ===== verification/Shards.v ===== *)
(** * Shard ownership

    [computeShardMap] and [isPodReady] of
    src/internal/controller/llminferencecluster_controller.go: from the pods
    of the decode role to [status.shards] and the published document. *)
From S2P Require Import Prelude Strconv Utf8 Json ShardMap Ring Types Kube Resources.
From stdpp Require Import options.

Definition PodReady : string := "Ready".

Definition is_true (s : ConditionStatus) : bool :=
  match s with ConditionTrue => true | _ => false end.

Fixpoint any_ready (l : list PodCondition) : bool :=
  match l with
  | [] => false
  | c :: l' =>
      if bool_decide (pc_Type c = PodReady) && is_true (pc_Status c) then true else any_ready l'
  end.

Definition isPodReady (p : Pod) : bool := any_ready (pod_Conditions p).

(** The names of the ready pods, or of all pods when none is ready. *)
Definition shard_candidates (pods : list Pod) : list string :=
  let ready := pod_Name <$> filter (λ p, isPodReady p = true) pods in
  match ready with
  | [] => pod_Name <$> pods
  | _ => ready
  end.

(** [for i := int32(0); i < numShards; i++]: the status entry and the document
    entry of each shard. [shard_body] is the owner and the phase of one
    shard. *)
Definition shard_body (ring : Ring) (i : Z) : result (string * string) :=
  if Empty ring then Ok (emp, ShardPhasePending)
  else let? o := Pick ring i in Ok (o, ShardPhaseReady).

Fixpoint shard_loop (fuel : nat) (ring : Ring) (now numShards i : Z)
  : result (list ShardStatus * list shardMapEntry) :=
  match fuel with
  | O => Ok ([], [])
  | S f =>
      if i <? numShards then
        let? (owner, phase) := shard_body ring i in
        let? (shards, entries) := shard_loop f ring now numShards (int32 (i + 1)) in
        Ok (mkShardStatus i roleDecode owner phase now :: shards,
            mkEntry i roleDecode owner :: entries)
      else Ok ([], [])
  end.

(** [make([]T, 0, n)] panics when [n] is negative. *)
Definition go_make_cap (n : Z) : result unit :=
  if n <? 0 then Panic "makeslice: cap out of range" else Ok tt.

(** The pure part, after the pods have been listed. *)
Definition shard_map_of (pods : list Pod) (numShards now : Z)
  : result (list ShardStatus * string) :=
  let ring := NewRing (shard_candidates pods) in
  let? _ := go_make_cap numShards in
  let? (shards, entries) := shard_loop (Z.to_nat numShards) ring now numShards 0 in
  let? b := Marshal_doc (mkDoc 1 entries) in
  Ok (shards, b).

Definition computeShardMap {W : Type} `{!Client W} (c : LLMInferenceCluster)
    (base : gmap string string) : M W (list ShardStatus * string) :=
  let! pods := list_pods (om_Namespace (lic_Meta c)) (roleLabels base roleDecode) in
  let numShards := derefInt32 (kv_NumShards (spec_KVCache (lic_Spec c))) 8 in
  let! t := mnow in
  mlift (shard_map_of pods numShards t).

(** ** Reference definition: shard [i] belongs to the pod the ring picks *)
Definition shard_owner (pods : list Pod) (i : Z) : string :=
  match Pick (NewRing (shard_candidates pods)) i with Ok o => o | _ => emp end.

Definition shard_phase (pods : list Pod) : string :=
  match pods with [] => ShardPhasePending | _ => ShardPhaseReady end.

Definition shard_ids (n : Z) : list Z := seqZ 0 n.

Definition shards_spec (pods : list Pod) (n now : Z) : list ShardStatus :=
  (λ i, mkShardStatus i roleDecode (shard_owner pods i) (shard_phase pods) now) <$> shard_ids n.

Definition doc_spec (pods : list Pod) (n : Z) : shardMapDoc :=
  mkDoc 1 ((λ i, mkEntry i roleDecode (shard_owner pods i)) <$> shard_ids n).

Lemma shard_candidates_nil pods : shard_candidates pods = [] ↔ pods = [].
Proof.
  unfold shard_candidates. case_match eqn:E.
  - destruct pods; simpl; split; done.
  - split; [done|intros ->; done].
Qed.

Lemma elem_of_candidates pods n : n ∈ shard_candidates pods → n ∈ pod_Name <$> pods.
Proof.
  unfold shard_candidates. case_match eqn:E; [done|]. rewrite <- E. intros (p & -> & Hp)%list_elem_of_fmap.
  apply list_elem_of_filter in Hp as [_ Hp]. by apply list_elem_of_fmap_2.
Qed.

Lemma candidates_ready pods n :
  existsb isPodReady pods = true → n ∈ shard_candidates pods →
  ∃ p, p ∈ pods ∧ pod_Name p = n ∧ isPodReady p = true.
Proof.
  intros (p & Hp & Hr)%existsb_exists. unfold shard_candidates. case_match eqn:E.
  - apply fmap_nil_inv in E. exfalso.
    assert (p ∈ filter (λ p, isPodReady p = true) pods) as Hin.
    { apply list_elem_of_filter. split; [done|]. by apply list_elem_of_In. }
    rewrite E in Hin. by apply elem_of_nil in Hin.
  - rewrite <- E. intros (q & -> & [??]%list_elem_of_filter)%list_elem_of_fmap. by exists q.
Qed.

(** One iteration of the loop. *)
Lemma shard_step pods i :
  shard_body (NewRing (shard_candidates pods)) i = Ok (shard_owner pods i, shard_phase pods).
Proof.
  unfold shard_body, shard_owner, shard_phase. destruct (Empty _) eqn:E.
  - apply Empty_NewRing, shard_candidates_nil in E as ->. done.
  - destruct (Pick_total (NewRing (shard_candidates pods)) i) as (o & -> & _).
    { intros H%Empty_spec. by rewrite H in E. }
    destruct pods; [|done]. done.
Qed.

(** The loop produces the reference lists, with the fuel it is given. *)
Lemma shard_loop_spec pods now n f i :
  0 <= i → i + Z.of_nat f = n → is_int32 n = true →
  shard_loop f (NewRing (shard_candidates pods)) now n i =
    Ok ((λ i, mkShardStatus i roleDecode (shard_owner pods i) (shard_phase pods) now) <$> seqZ i (Z.of_nat f),
        (λ i, mkEntry i roleDecode (shard_owner pods i)) <$> seqZ i (Z.of_nat f)).
Proof.
  revert i. induction f as [|f IH]; intros i Hi Hn Hr; [done|]. cbn [shard_loop].
  rewrite (proj2 (Z.ltb_lt i n)) by lia. rewrite shard_step. cbn [rbind].
  rewrite int32_small by (unfold is_int32 in *; lia).
  rewrite IH by (done || lia). cbn [rbind].
  rewrite (seqZ_cons i (Z.of_nat (S f))) by lia.
  replace (Z.pred (Z.of_nat (S f))) with (Z.of_nat f) by lia.
  by replace (Z.succ i) with (i + 1) by lia.
Qed.

Lemma shard_map_of_spec pods n now :
  0 <= n → is_int32 n = true →
  shard_map_of pods n now =
    (let? b := Marshal_doc (doc_spec pods n) in Ok (shards_spec pods n now, b)).
Proof.
  intros Hn Hr. unfold shard_map_of, go_make_cap.
  rewrite (proj2 (Z.ltb_ge n 0)) by lia. cbn [rbind].
  rewrite (shard_loop_spec pods now n) by (done || lia).
  unfold shards_spec, doc_spec, shard_ids. by rewrite Z2Nat.id by lia.
Qed.

Lemma doc_spec_ok pods n : is_int32 n = true → doc_ok (doc_spec pods n) = true.
Proof.
  intros Hn. unfold doc_ok, doc_spec. simpl. apply forallb_forall. intros e He.
  apply list_elem_of_In, list_elem_of_fmap in He as (i & -> & Hi%elem_of_seqZ).
  unfold entry_ok, is_int32 in *. simpl. lia.
Qed.

(** ** The published map *)
Definition assignment_of (s : ShardStatus) : ShardAssignment :=
  mkAssignment (ss_ShardID s) (utf8_sanitize (ss_Role s)) (utf8_sanitize (ss_OwnerPod s)).

Lemma read_doc_spec pods n now :
  read_doc (doc_spec pods n) = mkShardMap 1 (assignment_of <$> shards_spec pods n now).
Proof.
  unfold read_doc, doc_spec, shards_spec. simpl. f_equal. by rewrite <- !list_fmap_compose.
Qed.

(** C9: for every pod list and every shard count a valid spec allows,
    [computeShardMap] succeeds, reports exactly the shards 0 .. n-1 in order,
    and publishes a document from which [ParseShardMapJSON] recovers those
    same shards: the status of the resource and the map the router reads
    never disagree. *)
Theorem shard_map_published (pods : list Pod) (n now : Z) :
  0 <= n → is_int32 n = true →
  ∃ b, shard_map_of pods n now = Ok (shards_spec pods n now, b) ∧
       ss_ShardID <$> shards_spec pods n now = seqZ 0 n ∧
       ParseShardMapJSON b = Ok (mkShardMap 1 (assignment_of <$> shards_spec pods n now)).
Proof.
  intros Hn Hr. destruct (Marshal_doc_reads_back _ (doc_spec_ok pods n Hr)) as (b & Hm & Hp).
  exists b. rewrite shard_map_of_spec, Hm by done. split_and!; [reflexivity| |].
  - unfold shards_spec, shard_ids. rewrite <- list_fmap_compose. apply list_fmap_id.
  - by rewrite Hp, (read_doc_spec pods n now).
Qed.

Lemma shard_map_published_witness :
  ∃ b, shard_map_of [mkPod "d-0" ∅ [mkPodCondition "Ready" ConditionTrue]; mkPod "d-1" ∅ []] 2 77
       = Ok ([mkShardStatus 0 "decode" "d-0" "Ready" 77; mkShardStatus 1 "decode" "d-0" "Ready" 77], b)
       ∧ ParseShardMapJSON b
         = Ok (mkShardMap 1 [mkAssignment 0 "decode" "d-0"; mkAssignment 1 "decode" "d-0"]).
Proof.
  destruct (shard_map_published
    [mkPod "d-0" ∅ [mkPodCondition "Ready" ConditionTrue]; mkPod "d-1" ∅ []] 2 77)
    as (b & H & _ & Hp); [lia|reflexivity|].
  exists b. split; [exact H|exact Hp].
Defined.

Lemma owner_is_pod pods n now s :
  s ∈ shards_spec pods n now → pods ≠ [] → ∃ p, p ∈ pods ∧ pod_Name p = ss_OwnerPod s.
Proof.
  intros (i & -> & _)%list_elem_of_fmap Hne. simpl. unfold shard_owner.
  destruct (Pick_total (NewRing (shard_candidates pods)) i) as (o & -> & Ho).
  { by intros ?%Empty_spec%Empty_NewRing%shard_candidates_nil. }
  rewrite elem_of_NewRing in Ho.
  destruct (proj1 (list_elem_of_fmap _ _ _) (elem_of_candidates _ _ Ho)) as (p & -> & Hp). by exists p.
Qed.

Lemma spec_owners_are_pods pods n now s :
  s ∈ shards_spec pods n now →
  (pods = [] ∧ ss_OwnerPod s = emp ∧ ss_Phase s = ShardPhasePending) ∨
  (∃ p, p ∈ pods ∧ pod_Name p = ss_OwnerPod s ∧ ss_Phase s = ShardPhaseReady ∧
        (existsb isPodReady pods = true → ∃ q, q ∈ pods ∧ pod_Name q = ss_OwnerPod s ∧
                                               isPodReady q = true)).
Proof.
  intros (i & -> & _)%list_elem_of_fmap. simpl. destruct pods as [|p0 pods']; [by left|].
  right. set (pods := p0 :: pods'). unfold shard_owner.
  destruct (Pick_total (NewRing (shard_candidates pods)) i) as (o & -> & Ho).
  { by intros ?%Empty_spec%Empty_NewRing%shard_candidates_nil. }
  rewrite elem_of_NewRing in Ho.
  destruct (proj1 (list_elem_of_fmap _ _ _) (elem_of_candidates _ _ Ho)) as (p & -> & Hp).
  exists p. split_and!; try done. intros Hr. destruct (candidates_ready _ _ Hr Ho) as (q & ?).
  exists q. tauto.
Qed.

(** The reference lists are what the computation returns. *)
Lemma shard_map_of_shards pods n now shards b :
  is_int32 n = true → shard_map_of pods n now = Ok (shards, b) → shards = shards_spec pods n now.
Proof.
  intros Hr E. destruct (Z.ltb_spec n 0) as [Hn|Hn].
  - unfold shard_map_of, go_make_cap in E. by rewrite (proj2 (Z.ltb_lt n 0) Hn) in E.
  - rewrite shard_map_of_spec in E by done. by apply rbind_ok in E as (? & _ & [= <- _]).
Qed.

(** C27: ownership is meaningful.  In what [computeShardMap] reports for a list
    of pods, with no decode pod every shard is [Pending] and unowned;
    otherwise every shard is [Ready] and its owner is one of the listed pods,
    a ready one whenever some pod is ready. *)
Theorem shard_owners_are_pods (pods : list Pod) (n now : Z) (shards : list ShardStatus) (b : string)
    (s : ShardStatus) :
  is_int32 n = true → shard_map_of pods n now = Ok (shards, b) → s ∈ shards →
  (pods = [] ∧ ss_OwnerPod s = emp ∧ ss_Phase s = ShardPhasePending) ∨
  (∃ p, p ∈ pods ∧ pod_Name p = ss_OwnerPod s ∧ ss_Phase s = ShardPhaseReady ∧
        (existsb isPodReady pods = true → ∃ q, q ∈ pods ∧ pod_Name q = ss_OwnerPod s ∧
                                               isPodReady q = true)).
Proof. intros Hr E. rewrite (shard_map_of_shards _ _ _ _ _ Hr E). apply spec_owners_are_pods. Qed.

Lemma shard_owners_are_pods_witness :
  ∃ shards b s, shard_map_of [mkPod "d-0" ∅ []] 1 5 = Ok (shards, b) ∧ s ∈ shards ∧
    ∃ p, p ∈ [mkPod "d-0" ∅ []] ∧ pod_Name p = ss_OwnerPod s ∧ ss_Phase s = "Ready".
Proof.
  eexists _, _, (mkShardStatus 0 "decode" "d-0" "Ready" 5).
  split; [vm_compute; reflexivity|]. split; [left|].
  edestruct (shard_owners_are_pods [mkPod "d-0" ∅ []] 1 5) as [[H _]|(p & Hp & Hn & Hr & _)];
    [reflexivity|vm_compute; reflexivity|left|discriminate H|].
  exists p. split_and!; [exact Hp|exact Hn|exact Hr].
Defined.

(** The only way to crash the shard computation is a negative shard
    count, which [make] rejects; the CRD's [minimum: 1] excludes it. *)
Lemma shard_map_panics_iff (pods : list Pod) (n now : Z) :
  is_int32 n = true → panics (shard_map_of pods n now) = (n <? 0).
Proof.
  intros Hr. destruct (Z.ltb_spec n 0).
  - unfold shard_map_of, go_make_cap. by rewrite (proj2 (Z.ltb_lt n 0)).
  - by rewrite shard_map_of_spec.
Qed.

Lemma shard_map_panics_iff_witness :
  panics (shard_map_of [] (-1) 0) = true ∧ panics (shard_map_of [] 8 0) = false.
Proof. split; [apply (shard_map_panics_iff [] (-1) 0)|apply (shard_map_panics_iff [] 8 0)]; reflexivity. Defined.

(** ** Termination of the loop

    The loop as the code has it, with no fuel: a derivation of [loop_runs i r]
    is a finite execution from [i] that ends with the lists or the failure
    [r]. The counter is an int32, so that the bound on it has to be shown. *)
Inductive loop_runs (ring : Ring) (now numShards : Z)
  : Z → result (list ShardStatus * list shardMapEntry) → Prop :=
| runs_done i :
    numShards <= i → loop_runs ring now numShards i (Ok ([], []))
| runs_next i owner phase r :
    i < numShards → shard_body ring i = Ok (owner, phase) →
    loop_runs ring now numShards (int32 (i + 1)) r →
    loop_runs ring now numShards i
      (let? (shards, entries) := r in
       Ok (mkShardStatus i roleDecode owner phase now :: shards,
           mkEntry i roleDecode owner :: entries))
| runs_panic i m :
    i < numShards → shard_body ring i = Panic m → loop_runs ring now numShards i (Panic m).
#[export] Hint Constructors loop_runs : core.

Lemma shard_body_cases ring i :
  (∃ owner phase, shard_body ring i = Ok (owner, phase)) ∨ (∃ m, shard_body ring i = Panic m).
Proof.
  unfold shard_body. destruct (Empty ring) eqn:E; [eauto|].
  destruct (Pick_total ring i) as (o & -> & _); [|simpl; eauto].
  intros H%Empty_spec. by rewrite H in E.
Qed.

Lemma loop_runs_det ring now n i r r' :
  loop_runs ring now n i r → loop_runs ring now n i r' → r = r'.
Proof.
  intros H. revert r'. induction H; inversion 1; simplify_eq; try (lia || congruence).
  assert (owner0 = owner ∧ phase0 = phase) as [-> ->] by (split; congruence).
  erewrite IHloop_runs by eassumption. done.
Qed.

Lemma shard_loop_runs ring now n fuel i :
  is_int32 n = true → is_int32 i = true → n - i <= Z.of_nat fuel →
  loop_runs ring now n i (shard_loop fuel ring now n i).
Proof.
  intros Hn. revert i. induction fuel as [|f IH]; intros i Hi Hf; cbn [shard_loop].
  { apply runs_done. lia. }
  destruct (Z.ltb_spec i n); [|by apply runs_done].
  assert (int32 (i + 1) = i + 1) as E by (apply int32_small; unfold is_int32 in *; lia).
  destruct (shard_body_cases ring i) as [(o & p & Hb)|(m & Hb)]; rewrite Hb; cbn [rbind]; [|auto].
  apply runs_next; [done..|]. apply IH; rewrite E; unfold is_int32 in *; lia.
Qed.

(** C28: the loop over the shards terminates for every shard count an int32
    can hold and every ring: its execution from 0 is finite, has exactly one
    outcome, and that is what the model computes with the fuel [shard_map_of]
    gives it or with any more, so the fuel never cuts a result short. *)
Theorem shard_loop_terminates (ring : Ring) (now n : Z) (fuel : nat) :
  is_int32 n = true → (Z.to_nat n <= fuel)%nat →
  ∀ r, loop_runs ring now n 0 r ↔ r = shard_loop fuel ring now n 0.
Proof.
  intros Hn Hf. assert (loop_runs ring now n 0 (shard_loop fuel ring now n 0)) as Hr.
  { apply shard_loop_runs; [done..|lia]. }
  intros r. split; [|by intros ->]. intros H. by eapply loop_runs_det.
Qed.

Lemma shard_loop_terminates_witness :
  loop_runs (NewRing ["d-0"]) 7 2 0
    (Ok ([mkShardStatus 0 "decode" "d-0" "Ready" 7; mkShardStatus 1 "decode" "d-0" "Ready" 7],
         [mkEntry 0 "decode" "d-0"; mkEntry 1 "decode" "d-0"])).
Proof.
  apply (shard_loop_terminates (NewRing ["d-0"]) 7 2 2); [reflexivity|lia|].
  vm_compute. reflexivity.
Defined.
