(* ===== verification/Reconcile.v ===== *)
(** * The reconciler

    [Reconcile], [setCondition] and [requeueDegraded] of
    src/internal/controller/llminferencecluster_controller.go: the whole
    handler, over any API client. *)
From S2P Require Import Prelude Strconv Types Defaults Kube Signals Autoscale Resources Shards.
From stdpp Require Import options.

Definition llmInferenceClusterFinalizer : string := "inference.llm.io/finalizer".
Definition conditionReady : string := "Ready".
Definition conditionDegraded : string := "Degraded".
Definition conditionScaling : string := "Scaling".

(** [ctrl.Result], with [RequeueAfter] in nanoseconds. *)
Record Result := mkResult { RequeueAfter : Z }.
Definition Second : Z := 1000000000.
Definition no_requeue : Result := mkResult 0.

Section Reconcile.
Context {W : Type} `{!Client W} `{!Machinery}.

Definition setCondition (c : LLMInferenceCluster) (cond : Condition) : LLMInferenceCluster :=
  set_conditions (SetStatusCondition (st_Conditions (lic_Status c)) cond) c.

(** [setCondition(cluster, metav1.Condition{..., LastTransitionTime:
    metav1.Now()})]. *)
Definition condition_now (c : LLMInferenceCluster) (type : string) (status : ConditionStatus)
    (reason message : string) : M W LLMInferenceCluster :=
  let! t := mnow in
  mret (setCondition c (mkCondition type status (om_Generation (lic_Meta c)) t reason message)).

(** The error of the status update is dropped. *)
Definition requeueDegraded (c : LLMInferenceCluster) (err : error) : M W (Result * option error) :=
  let! c := condition_now c conditionReady ConditionFalse "Error" (Error err) in
  let! c := condition_now c conditionDegraded ConditionTrue "ReconcileError" (Error err) in
  let! _ := status_update c onerr _ => mret (mkResult (5 * Second), Some err) in
  mret (mkResult (5 * Second), Some err).

Definition autoscaling_enabled (c : LLMInferenceCluster) : bool :=
  match as_Enabled (spec_Autoscaling (lic_Spec c)) with Some b => b | None => false end.

(** The autoscaling block: the replicas it overrides the decode role with,
    and the cluster with its [Scaling] condition. *)
Definition reconcileAutoscaling (c : LLMInferenceCluster) (signalsCMName : string)
    (labels : gmap string string) : M W (LLMInferenceCluster * option Z) :=
  if autoscaling_enabled c then
    let! _ := reconcileSignalsConfigMap c signalsCMName labels in
    let! (replicas, scaling) := computeDecodeReplicas c signalsCMName in
    let! c' :=
      (if scaling : bool then
         condition_now c conditionScaling ConditionTrue "Autoscaling"
           ("Autoscaling decode replicas to " +:+ Itoa replicas)
       else
         condition_now c conditionScaling ConditionFalse "Stable" "No autoscaling change required") in
    mret (c', Some replicas)
  else mret (c, None).

Definition endpoints_of (c : LLMInferenceCluster) (dp pp : Z) : ClusterEndpointsStatus :=
  let name := om_Name (lic_Meta c) in
  let ns := om_Namespace (lic_Meta c) in
  mkEndpoints ("http://" +:+ name +:+ "-router" +:+ "." +:+ ns +:+ ".svc.cluster.local:8080")
    (service_dns (name +:+ "-decode") ns dp) (service_dns (name +:+ "-prefill") ns pp).

(** The part of [Reconcile] after the finalizer has been ensured. *)
Definition reconcileActive (original cluster : LLMInferenceCluster) : M W (Result * option error) :=
  let labels := baseLabels cluster in
  let name := om_Name (lic_Meta cluster) in
  let decodeSvcName := name +:+ "-decode" in
  let prefillSvcName := name +:+ "-prefill" in
  let routerSvcName := name +:+ "-router" in
  let shardMapName := name +:+ "-shardmap" in
  let signalsCMName := name +:+ "-signals" in
  let! (cluster, decodeOverrideReplicas) := reconcileAutoscaling cluster signalsCMName labels
    onerr err => requeueDegraded cluster err in
  let! dp := mlift (go_deref (role_ServicePort (rt_Decode (spec_Runtime (lic_Spec cluster))))) in
  let! _ := reconcileRoleService cluster roleDecode decodeSvcName dp labels
    onerr err => requeueDegraded cluster err in
  let! pp := mlift (go_deref (role_ServicePort (rt_Prefill (spec_Runtime (lic_Spec cluster))))) in
  let! _ := reconcileRoleService cluster rolePrefill prefillSvcName pp labels
    onerr err => requeueDegraded cluster err in
  let! _ := reconcileRouterService cluster routerSvcName labels
    onerr err => requeueDegraded cluster err in
  let routerSAName := name +:+ "-router" in
  let! _ := reconcileRouterRBAC cluster routerSAName labels
    onerr err => requeueDegraded cluster err in
  let! _ := reconcileRoleDeployment cluster roleDecode decodeSvcName labels decodeOverrideReplicas
    onerr err => requeueDegraded cluster err in
  let! _ := reconcileRoleDeployment cluster rolePrefill prefillSvcName labels None
    onerr err => requeueDegraded cluster err in
  let! _ := reconcileRouterDeployment cluster shardMapName routerSAName labels
    onerr err => requeueDegraded cluster err in
  let! (shards, shardMapJSON) := computeShardMap cluster labels
    onerr err => requeueDegraded cluster err in
  let cluster := set_shards shards cluster in
  let! _ := reconcileShardMapConfigMap cluster shardMapName labels shardMapJSON
    onerr err => requeueDegraded cluster err in
  let cluster := set_observed (om_Generation (lic_Meta cluster)) (endpoints_of cluster dp pp) cluster in
  let! cluster := condition_now cluster conditionReady ConditionTrue "Reconciled"
                    "Resources are reconciled" in
  let! cluster := condition_now cluster conditionDegraded ConditionFalse "Healthy"
                    "No reconciliation errors" in
  let! _ := status_patch cluster original onerr err => mret (no_requeue, Some err) in
  mret (mkResult (30 * Second), None).

Definition Reconcile (req : NamespacedName) : M W (Result * option error) :=
  let! cluster := get_cluster req
    onerr err => mret (no_requeue, if IsNotFound err then None else Some err) in
  let original := cluster in
  let cluster := apply_defaults cluster in
  let! cluster := patch_cluster cluster original onerr err => mret (no_requeue, Some err) in
  match om_DeletionTimestamp (lic_Meta cluster) with
  | Some _ =>
      if ContainsFinalizer cluster llmInferenceClusterFinalizer then
        let! _ := update_cluster (RemoveFinalizer cluster llmInferenceClusterFinalizer)
          onerr err => mret (no_requeue, Some err) in
        mret (no_requeue, None)
      else mret (no_requeue, None)
  | None =>
      if ContainsFinalizer cluster llmInferenceClusterFinalizer
      then reconcileActive original cluster
      else
        let! cluster := update_cluster (AddFinalizer cluster llmInferenceClusterFinalizer)
          onerr err => mret (no_requeue, Some err) in
        reconcileActive original cluster
  end.

End Reconcile.
