(* ===== verification/Laws.v ===== *)
(** * What the operator relies on

    The documented behaviour of the code outside the repository, as laws of
    the two interfaces of Kube.v.  [MachineryLaws] states what the helpers of
    apimachinery and controllerutil do; [StoreLaws] states what the API
    server keeps, for a run in which no other writer interferes and the server
    stores the objects as they are written (no admission webhook or
    server-side default rewrites them). *)
From S2P Require Import Prelude Types Kube.
From stdpp Require Import options.

(** The condition of a type: [meta.FindStatusCondition]. *)
Fixpoint find_condition (t : string) (l : list Condition) : option Condition :=
  match l with
  | [] => None
  | c :: l' => if bool_decide (cond_Type c = t) then Some c else find_condition t l'
  end.

(** Equal up to the transition time, which [SetStatusCondition] decides. *)
Definition same_condition (c c' : Condition) : Prop :=
  cond_Type c' = cond_Type c ∧ cond_Status c' = cond_Status c ∧
  cond_ObservedGeneration c' = cond_ObservedGeneration c ∧
  cond_Reason c' = cond_Reason c ∧ cond_Message c' = cond_Message c.

(** The identity of an owner: what a controller reference is made from. *)
Definition same_owner (c c' : LLMInferenceCluster) : Prop :=
  om_Name (lic_Meta c') = om_Name (lic_Meta c) ∧
  om_Namespace (lic_Meta c') = om_Namespace (lic_Meta c) ∧
  om_UID (lic_Meta c') = om_UID (lic_Meta c).

Definition env_le (a b : CoreEnvVar) : Prop := String.le (cenv_Name a) (cenv_Name b).

(** [metav1.GetControllerOf]: the first reference that is a controller. *)
Definition controller_of (m : ObjectMeta) : option OwnerReference :=
  List.find or_Controller (om_OwnerReferences m).

(** The group of an API version, [group/version] or [version] alone
    ([schema.ParseGroupVersion]). *)
Fixpoint before_slash (s : string) : option string :=
  match s with
  | String c s' => if byte_val c =? 47 then Some emp else String c <$> before_slash s'
  | EmptyString => None
  end.
Definition api_group (v : string) : string := default emp (before_slash v).

(** The cluster controls the object. *)
Definition controls (c : LLMInferenceCluster) (m : ObjectMeta) : Prop :=
  ∃ r, controller_of m = Some r ∧ or_APIVersion r = "inference.llm.io/v1alpha1" ∧
       or_Kind r = "LLMInferenceCluster" ∧
       or_Name r = om_Name (lic_Meta c) ∧ or_UID r = om_UID (lic_Meta c).

(** No other controller owns the object. *)
Definition adoptable (c : LLMInferenceCluster) (m : ObjectMeta) : Prop :=
  ∀ r, controller_of m = Some r → api_group (or_APIVersion r) = "inference.llm.io" ∧
       or_Kind r = "LLMInferenceCluster" ∧ or_Name r = om_Name (lic_Meta c).

Class MachineryLaws `{!Machinery} := {
  (** [SetStatusCondition] stores the condition under its type ... *)
  ssc_found l c : ∃ c', find_condition (cond_Type c) (SetStatusCondition l c) = Some c' ∧
                        same_condition c c';
  (** ... and leaves the conditions of other types alone *)
  ssc_other l c t : t ≠ cond_Type c →
    find_condition t (SetStatusCondition l c) = find_condition t l;
  ssc_nodup l c : NoDup (cond_Type <$> l) → NoDup (cond_Type <$> SetStatusCondition l c);
  contains_finalizer c f :
    ContainsFinalizer c f = bool_decide (f ∈ om_Finalizers (lic_Meta c));
  add_finalizer c f : ∃ fs, AddFinalizer c f = with_meta (set_finalizers fs) c ∧
    ∀ g, g ∈ fs ↔ g = f ∨ g ∈ om_Finalizers (lic_Meta c);
  remove_finalizer c f : ∃ fs, RemoveFinalizer c f = with_meta (set_finalizers fs) c ∧
    ∀ g, g ∈ fs ↔ g ≠ f ∧ g ∈ om_Finalizers (lic_Meta c);
  (** [SetControllerReference] only writes owner references, records the
      cluster as the controller, reads nothing of the owner but its identity,
      and is a no-op on an object that the same owner already controls *)
  scr_owner c m m' : SetControllerReference c m = Ok m' →
    ∃ os, m' = set_owners os m ∧ controls c m';
  scr_ext c c' m : same_owner c c' → SetControllerReference c' m = SetControllerReference c m;
  scr_again c m m' : SetControllerReference c m = Ok m' → SetControllerReference c m' = Ok m';
  scr_no_panic c m : panics (SetControllerReference c m) = false;
  (** it fails only on an object in another namespace or with another controller *)
  scr_adopts c m : adoptable c m → om_Namespace m = om_Namespace (lic_Meta c) →
    is_ok (SetControllerReference c m) = true;
  sort_Slice_perm l : sort_Slice l ≡ₚ l;
  sort_Slice_sorted l : Sorted env_le (sort_Slice l)
}.

(** ** The API server as a store of objects *)
Class StoreLaws (W : Type) `{!Client W} := {
  stored : ∀ k : kind, W → string → string → option (obj k);
  (** a successful [CreateOrUpdate] mutated the stored object, or a new one,
      and stored the outcome *)
  cou_stored k n ns f w w' y :
    create_or_update k n ns f w = (w', Ok y) →
    f (default (new_obj k n ns) (stored k w n ns)) = Ok y ∧ stored k w' n ns = Some y;
  (** no other object changes *)
  cou_frame k n ns f w w' r k' n' ns' :
    create_or_update k n ns f w = (w', r) → (k', n', ns') ≠ (k, n, ns) →
    stored k' w' n' ns' = stored k' w n' ns';
  (** it panics only when the mutation does *)
  cou_panic k n ns f w w' p :
    create_or_update k n ns f w = (w', Panic p) →
    ∃ p', f (default (new_obj k n ns) (stored k w n ns)) = Panic p';
  (** reads and writes of the custom resource change no child object and do
      not panic *)
  get_stored nn w w' r : get_cluster nn w = (w', r) →
    panics r = false ∧ ∀ k n ns, stored k w' n ns = stored k w n ns;
  patch_stored c o w w' r : patch_cluster c o w = (w', r) →
    panics r = false ∧ ∀ k n ns, stored k w' n ns = stored k w n ns;
  update_stored c w w' r : update_cluster c w = (w', r) →
    panics r = false ∧ ∀ k n ns, stored k w' n ns = stored k w n ns;
  spatch_stored c o w w' r : status_patch c o w = (w', r) →
    panics r = false ∧ ∀ k n ns, stored k w' n ns = stored k w n ns;
  supdate_stored c w w' r : status_update c w = (w', r) →
    panics r = false ∧ ∀ k n ns, stored k w' n ns = stored k w n ns;
  getcm_stored nn w w' r : get_configmap nn w = (w', r) →
    panics r = false ∧ ∀ k n ns, stored k w' n ns = stored k w n ns;
  list_stored ns l w w' r : list_pods ns l w = (w', r) →
    panics r = false ∧ ∀ k n ns, stored k w' n ns = stored k w n ns;
  now_stored w w' t : now w = (w', t) → ∀ k n ns, stored k w' n ns = stored k w n ns;
  (** a write returns the object it wrote: same spec, same identity *)
  patch_returns c o w w' c' : patch_cluster c o w = (w', Ok c') →
    lic_Spec c' = lic_Spec c ∧ same_owner c c' ∧
    om_DeletionTimestamp (lic_Meta c') = om_DeletionTimestamp (lic_Meta c) ∧
    om_Finalizers (lic_Meta c') = om_Finalizers (lic_Meta c);
  update_returns c w w' c' : update_cluster c w = (w', Ok c') →
    lic_Spec c' = lic_Spec c ∧ same_owner c c' ∧
    om_DeletionTimestamp (lic_Meta c') = om_DeletionTimestamp (lic_Meta c);
  (** objects are stored under their own name and namespace *)
  stored_named k w n ns y : stored k w n ns = Some y →
    om_Name (obj_meta y) = n ∧ om_Namespace (obj_meta y) = ns;
  (** a stored Deployment has a container: the API server rejects others *)
  deployment_containers w n ns d :
    stored KDeployment w n ns = Some d → dep_Containers d ≠ Some []
}.
