(* ===== verification/Trace.v ===== *)
(** * Recording API calls

    A client that runs another client and records each call.  The reconciler
    is written for any client, so running it on a recording one shows which
    calls it makes and in which order, whatever the API server answers. *)
From S2P Require Import Prelude Types Kube.
From stdpp Require Import options.

Inductive call :=
| CGet (nn : NamespacedName)
| CPatch (c : LLMInferenceCluster)
| CUpdate (c : LLMInferenceCluster)
| CStatusPatch (c : LLMInferenceCluster)
| CStatusUpdate (c : LLMInferenceCluster)
| CApply (k : kind) (name ns : string)
| CGetConfigMap (nn : NamespacedName)
| CListPods (ns : string) (labels : gmap string string)
| CNow.

Definition is_apply (x : call) : bool := match x with CApply _ _ _ => true | _ => false end.

Definition record {W A : Type} (x : call) (m : M W A) : M (W * list call) A :=
  λ '(w, l), let '(w', r) := m w in ((w', l ++ [x]), r).

#[export] Instance recording {W : Type} `{!Client W} : Client (W * list call) := {|
  get_cluster nn := record (CGet nn) (get_cluster nn);
  patch_cluster c o := record (CPatch c) (patch_cluster c o);
  update_cluster c := record (CUpdate c) (update_cluster c);
  status_patch c o := record (CStatusPatch c) (status_patch c o);
  status_update c := record (CStatusUpdate c) (status_update c);
  create_or_update k n ns f := record (CApply k n ns) (create_or_update k n ns f);
  get_configmap nn := record (CGetConfigMap nn) (get_configmap nn);
  list_pods ns l := record (CListPods ns l) (list_pods ns l);
  now := λ '(w, l), let '(w', t) := now w in ((w', l ++ [CNow]), t)
|}.
