(* ===== verification/Memory.v ===== *)
(** * An in-memory API server

    A concrete client and concrete helpers that satisfy the laws of Laws.v,
    so that every theorem stated under those laws has an instance, and
    [Reconcile] can be run. *)
From S2P Require Import Prelude Types Kube Laws.
From stdpp Require Import options.

Abbreviation objkey := (string * string)%type.

Record memory := mkMemory {
  mem_clusters : gmap objkey LLMInferenceCluster;
  mem_services : gmap objkey Service;
  mem_deployments : gmap objkey Deployment;
  mem_configmaps : gmap objkey ConfigMap;
  mem_accounts : gmap objkey ServiceAccount;
  mem_roles : gmap objkey RBACRole;
  mem_bindings : gmap objkey RoleBinding;
  mem_pods : list (string * Pod);
  mem_clock : Z }.

Definition mem_lookup (k : kind) (w : memory) (n ns : string) : option (obj k) :=
  match k with
  | KService => mem_services w !! (n, ns)
  | KDeployment => mem_deployments w !! (n, ns)
  | KConfigMap => mem_configmaps w !! (n, ns)
  | KServiceAccount => mem_accounts w !! (n, ns)
  | KRole => mem_roles w !! (n, ns)
  | KRoleBinding => mem_bindings w !! (n, ns)
  end.

Definition mem_put (k : kind) (n ns : string) : obj k → memory → memory :=
  match k return obj k → memory → memory with
  | KService => λ y w, mkMemory (mem_clusters w) (<[(n, ns) := y]> (mem_services w))
      (mem_deployments w) (mem_configmaps w) (mem_accounts w) (mem_roles w) (mem_bindings w)
      (mem_pods w) (mem_clock w)
  | KDeployment => λ y w, mkMemory (mem_clusters w) (mem_services w)
      (<[(n, ns) := y]> (mem_deployments w)) (mem_configmaps w) (mem_accounts w) (mem_roles w)
      (mem_bindings w) (mem_pods w) (mem_clock w)
  | KConfigMap => λ y w, mkMemory (mem_clusters w) (mem_services w) (mem_deployments w)
      (<[(n, ns) := y]> (mem_configmaps w)) (mem_accounts w) (mem_roles w) (mem_bindings w)
      (mem_pods w) (mem_clock w)
  | KServiceAccount => λ y w, mkMemory (mem_clusters w) (mem_services w) (mem_deployments w)
      (mem_configmaps w) (<[(n, ns) := y]> (mem_accounts w)) (mem_roles w) (mem_bindings w)
      (mem_pods w) (mem_clock w)
  | KRole => λ y w, mkMemory (mem_clusters w) (mem_services w) (mem_deployments w)
      (mem_configmaps w) (mem_accounts w) (<[(n, ns) := y]> (mem_roles w)) (mem_bindings w)
      (mem_pods w) (mem_clock w)
  | KRoleBinding => λ y w, mkMemory (mem_clusters w) (mem_services w) (mem_deployments w)
      (mem_configmaps w) (mem_accounts w) (mem_roles w) (<[(n, ns) := y]> (mem_bindings w))
      (mem_pods w) (mem_clock w)
  end.

Definition put_cluster (c : LLMInferenceCluster) (w : memory) : memory :=
  mkMemory (<[(om_Name (lic_Meta c), om_Namespace (lic_Meta c)) := c]> (mem_clusters w))
    (mem_services w) (mem_deployments w) (mem_configmaps w) (mem_accounts w) (mem_roles w)
    (mem_bindings w) (mem_pods w) (mem_clock w).

Definition tick (w : memory) : memory :=
  mkMemory (mem_clusters w) (mem_services w) (mem_deployments w) (mem_configmaps w)
    (mem_accounts w) (mem_roles w) (mem_bindings w) (mem_pods w) (mem_clock w + 1).

(** A Deployment without containers is rejected, and so is a write that
    renames the object. *)
Definition has_container (k : kind) : obj k → bool :=
  match k return obj k → bool with
  | KDeployment => λ d, match dep_Containers d with Some [] => false | _ => true end
  | _ => λ _, true
  end.

Definition mem_valid (k : kind) (n ns : string) (y : obj k) : bool :=
  has_container k y && bool_decide (om_Name (obj_meta y) = n)
  && bool_decide (om_Namespace (obj_meta y) = ns).

Definition mem_stored (k : kind) (w : memory) (n ns : string) : option (obj k) :=
  match mem_lookup k w n ns with
  | Some y => if mem_valid k n ns y then Some y else None
  | None => None
  end.

Definition not_found : error := mkError "not found" true.

Definition mem_create_or_update (k : kind) (n ns : string) (f : obj k → result (obj k))
  : M memory (obj k) :=
  λ w, match f (default (new_obj k n ns) (mem_stored k w n ns)) with
       | Ok y => if mem_valid k n ns y then (mem_put k n ns y w, Ok y)
                 else (w, Err (errors_New "invalid object"))
       | Err e => (w, Err e)
       | Panic p => (w, Panic p)
       end.

Definition mem_find (c : LLMInferenceCluster) (w : memory) : option LLMInferenceCluster :=
  mem_clusters w !! (om_Name (lic_Meta c), om_Namespace (lic_Meta c)).

(** A write of the resource keeps the stored status; a write of the status
    keeps the stored metadata and spec. *)
Definition mem_write (c : LLMInferenceCluster) : M memory LLMInferenceCluster :=
  λ w, match mem_find c w with
       | None => (w, Err not_found)
       | Some s => let c' := with_status (lic_Status s) c in (put_cluster c' w, Ok c')
       end.

Definition mem_write_status (c : LLMInferenceCluster) : M memory LLMInferenceCluster :=
  λ w, match mem_find c w with
       | None => (w, Err not_found)
       | Some s => let c' := with_status (lic_Status c) s in (put_cluster c' w, Ok c')
       end.

Definition labels_match (sel labels : gmap string string) : bool := bool_decide (sel ⊆ labels).

#[export] Instance memory_client : Client memory := {|
  get_cluster nn := λ w, match mem_clusters w !! (nn_Name nn, nn_Namespace nn) with
                         | Some c => (w, Ok c)
                         | None => (w, Err not_found)
                         end;
  patch_cluster c _ := mem_write c;
  update_cluster c := mem_write c;
  status_patch c _ := mem_write_status c;
  status_update c := mem_write_status c;
  create_or_update := mem_create_or_update;
  get_configmap nn := λ w, match mem_configmaps w !! (nn_Name nn, nn_Namespace nn) with
                           | Some c => (w, Ok c)
                           | None => (w, Err not_found)
                           end;
  list_pods ns l := λ w, (w, Ok (snd <$> filter (λ p, p.1 = ns ∧ labels_match l (pod_Labels p.2) = true)
                                     (mem_pods w)));
  now := λ w, (tick w, mem_clock w)
|}.

(** ** The laws hold *)
Lemma mem_lookup_put k n ns y w : mem_lookup k (mem_put k n ns y w) n ns = Some y.
Proof. destruct k; simpl; apply lookup_insert_eq. Qed.

Lemma mem_lookup_put_ne k n ns y w k' n' ns' :
  (k', n', ns') ≠ (k, n, ns) →
  mem_lookup k' (mem_put k n ns y w) n' ns' = mem_lookup k' w n' ns'.
Proof.
  intros Hne. destruct k, k'; simpl; try done; apply lookup_insert_ne; congruence.
Qed.

Lemma mem_write_frame c w w' r :
  mem_write c w = (w', r) →
  panics r = false ∧ ∀ k n ns, mem_stored k w' n ns = mem_stored k w n ns.
Proof. unfold mem_write. case_match; intros; simplify_eq; split; try done; by intros []. Qed.

Lemma mem_write_status_frame c w w' r :
  mem_write_status c w = (w', r) →
  panics r = false ∧ ∀ k n ns, mem_stored k w' n ns = mem_stored k w n ns.
Proof. unfold mem_write_status. case_match; intros; simplify_eq; split; try done; by intros []. Qed.

Lemma mem_write_returns c w w' c' :
  mem_write c w = (w', Ok c') → lic_Meta c' = lic_Meta c ∧ lic_Spec c' = lic_Spec c.
Proof. unfold mem_write. case_match; intros; by simplify_eq. Qed.

#[export] Program Instance memory_laws : StoreLaws memory := {| stored := mem_stored |}.
Next Obligation.
  intros k n ns f w w' y. simpl. unfold mem_create_or_update. repeat case_match; intros; simplify_eq.
  split; [done|]. unfold mem_stored. rewrite mem_lookup_put. by case_match.
Qed.
Next Obligation.
  intros k n ns f w w' r k' n' ns' E Hne. simpl in E. unfold mem_create_or_update in E.
  repeat case_match; simplify_eq; try done. unfold mem_stored. by rewrite mem_lookup_put_ne.
Qed.
Next Obligation.
  intros k n ns f w w' p. simpl. unfold mem_create_or_update. repeat case_match; intros; simplify_eq. eauto.
Qed.
Next Obligation. intros nn w w' r. simpl. case_match; intros; simplify_eq; done. Qed.
Next Obligation. intros c o w w' r. apply mem_write_frame. Qed.
Next Obligation. intros c w w' r. apply mem_write_frame. Qed.
Next Obligation. intros c o w w' r. apply mem_write_status_frame. Qed.
Next Obligation. intros c w w' r. apply mem_write_status_frame. Qed.
Next Obligation. intros nn w w' r. simpl. case_match; intros; simplify_eq; done. Qed.
Next Obligation. intros ns l w w' r. simpl. intros; simplify_eq; done. Qed.
Next Obligation. intros w w' t E k n ns. simpl in E. simplify_eq. by destruct k. Qed.
Next Obligation.
  intros c o w w' c' [Hm Hs]%mem_write_returns. unfold same_owner. by rewrite Hm, Hs.
Qed.
Next Obligation.
  intros c w w' c' [Hm Hs]%mem_write_returns. unfold same_owner. by rewrite Hm, Hs.
Qed.
Next Obligation.
  intros k w n ns y. simpl. unfold mem_stored, mem_valid. repeat case_match; intros [= <-].
  by repeat match goal with
    | H : _ && _ = true |- _ => apply andb_prop in H as [??]
    | H : bool_decide _ = true |- _ => apply bool_decide_eq_true in H
    end.
Qed.
Next Obligation.
  intros w n ns d. simpl. unfold mem_stored, mem_valid. simpl. destruct (_ !! _); [|done].
  case_match eqn:E; [|done]. intros [= <-] Hd. by rewrite Hd in E.
Qed.

(** ** The helpers, as their documentation describes them *)
Fixpoint set_condition (l : list Condition) (c : Condition) : list Condition :=
  match l with
  | [] => [c]
  | x :: l' =>
      if bool_decide (cond_Type x = cond_Type c) then
        mkCondition (cond_Type c) (cond_Status c) (cond_ObservedGeneration c)
          (if bool_decide (cond_Status x = cond_Status c) then cond_LastTransitionTime x
           else cond_LastTransitionTime c) (cond_Reason c) (cond_Message c) :: l'
      else x :: set_condition l' c
  end.

Definition owner_ref (c : LLMInferenceCluster) : OwnerReference :=
  mkOwnerRef "inference.llm.io/v1alpha1" "LLMInferenceCluster" (om_Name (lic_Meta c)) (om_UID (lic_Meta c)) true.

(** References are matched by group, kind and name. *)
Definition same_ref (a b : OwnerReference) : bool :=
  bool_decide (api_group (or_APIVersion a) = api_group (or_APIVersion b) ∧
               or_Kind a = or_Kind b ∧ or_Name a = or_Name b).

Fixpoint upsert_owner (r : OwnerReference) (l : list OwnerReference) : list OwnerReference :=
  match l with
  | [] => [r]
  | x :: l' => if same_ref x r then r :: l' else x :: upsert_owner r l'
  end.

Definition foreign_controller (r : OwnerReference) (m : ObjectMeta) : bool :=
  match controller_of m with Some x => negb (same_ref x r) | None => false end.

Definition set_controller (c : LLMInferenceCluster) (m : ObjectMeta) : result ObjectMeta :=
  if foreign_controller (owner_ref c) m
  then Err (errors_New "already owned by another controller")
  else Ok (set_owners (upsert_owner (owner_ref c) (om_OwnerReferences m)) m).

#[local] Instance env_le_dec : RelDecision env_le.
Proof. intros a b. unfold env_le. apply _. Defined.
#[local] Instance env_le_total : Total env_le.
Proof. intros a b. apply (total String.le). Qed.

#[export] Instance machinery : Machinery := {|
  SetStatusCondition := set_condition;
  ContainsFinalizer c f := bool_decide (f ∈ om_Finalizers (lic_Meta c));
  AddFinalizer c f :=
    with_meta (λ m, set_finalizers (if bool_decide (f ∈ om_Finalizers m) then om_Finalizers m
                                    else om_Finalizers m ++ [f]) m) c;
  RemoveFinalizer c f :=
    with_meta (λ m, set_finalizers (filter (λ g, g ≠ f) (om_Finalizers m)) m) c;
  SetControllerReference := set_controller;
  sort_Slice := merge_sort env_le
|}.

Lemma set_condition_found l c :
  ∃ c', find_condition (cond_Type c) (set_condition l c) = Some c' ∧ same_condition c c'.
Proof.
  induction l as [|x l IH]; simpl.
  - rewrite bool_decide_eq_true_2 by done. by exists c.
  - destruct (bool_decide (cond_Type x = cond_Type c)) eqn:E; simpl.
    + rewrite bool_decide_eq_true_2 by done. eexists. split; [done|]. done.
    + by rewrite E.
Qed.

Lemma set_condition_other l c t :
  t ≠ cond_Type c → find_condition t (set_condition l c) = find_condition t l.
Proof.
  intros Hne. induction l as [|x l IH]; simpl.
  - by rewrite bool_decide_eq_false_2 by done.
  - destruct (bool_decide (cond_Type x = cond_Type c)) eqn:E; simpl; [|by rewrite IH].
    apply bool_decide_eq_true in E. by rewrite !bool_decide_eq_false_2 by congruence.
Qed.

Lemma set_condition_types l c :
  cond_Type <$> set_condition l c =
    (cond_Type <$> l) ++ (if bool_decide (cond_Type c ∈ cond_Type <$> l) then [] else [cond_Type c]).
Proof.
  induction l as [|x l IH]; [done|]. cbn [set_condition]. rewrite fmap_cons.
  destruct (decide (cond_Type x = cond_Type c)) as [E|E]; [rewrite (bool_decide_eq_true_2 _ E)|rewrite (bool_decide_eq_false_2 _ E)].
  - rewrite (bool_decide_eq_true_2 (cond_Type c ∈ cond_Type x :: (cond_Type <$> l)))
      by (rewrite E; set_solver).
    rewrite fmap_cons, app_nil_r. by f_equal.
  - rewrite fmap_cons, IH, <- app_comm_cons. f_equal. f_equal.
    by rewrite (bool_decide_ext (cond_Type c ∈ cond_Type x :: (cond_Type <$> l))
                  (cond_Type c ∈ cond_Type <$> l)) by set_solver.
Qed.

Lemma upsert_owner_idem r l : upsert_owner r (upsert_owner r l) = upsert_owner r l.
Proof.
  assert (same_ref r r = true) as Hr by (by apply bool_decide_eq_true_2).
  induction l as [|x l IH]; simpl; [by rewrite Hr|].
  destruct (same_ref x r) eqn:E; simpl; [by rewrite Hr|]. by rewrite E, IH.
Qed.

(** The owner becomes the controller. *)
Lemma upsert_owner_find r l :
  or_Controller r = true →
  (∀ x, List.find or_Controller l = Some x → same_ref x r = true) →
  List.find or_Controller (upsert_owner r l) = Some r.
Proof.
  intros Hr. induction l as [|x l IH]; simpl; [by rewrite Hr|]. intros Hx.
  destruct (same_ref x r) eqn:E; simpl; [by rewrite Hr|].
  destruct (or_Controller x) eqn:Ex; [by rewrite Hx in E|by apply IH].
Qed.

Lemma set_controller_controls c m :
  foreign_controller (owner_ref c) m = false →
  controller_of (set_owners (upsert_owner (owner_ref c) (om_OwnerReferences m)) m) = Some (owner_ref c).
Proof.
  intros Hf. apply upsert_owner_find; [done|]. intros x Hx. unfold foreign_controller, controller_of in Hf.
  rewrite Hx in Hf. by apply negb_false_iff in Hf.
Qed.

Lemma set_controller_ext c c' m : same_owner c c' → set_controller c' m = set_controller c m.
Proof. intros (Hn & _ & Hu). unfold set_controller, owner_ref. by rewrite Hn, Hu. Qed.

Lemma set_controller_again c m m' :
  set_controller c m = Ok m' → set_controller c m' = Ok m'.
Proof.
  unfold set_controller. case_match eqn:E; [done|]. intros [= <-].
  unfold foreign_controller. rewrite set_controller_controls by done.
  unfold same_ref. rewrite bool_decide_eq_true_2 by done. simpl. by rewrite upsert_owner_idem.
Qed.

#[export] Instance machinery_laws : MachineryLaws.
Proof.
  split; simpl.
  - apply set_condition_found.
  - apply set_condition_other.
  - intros l c Hl. rewrite set_condition_types. case_bool_decide; [by rewrite app_nil_r|].
    apply list.NoDup_app. split_and!; [done| |apply NoDup_singleton]. set_solver.
  - done.
  - intros c f. eexists. split; [done|]. intros g. case_bool_decide; set_solver.
  - intros c f. eexists. split; [done|]. intros g. by rewrite list_elem_of_filter.
  - unfold set_controller. intros c m m' H. case_match; [done|]. simplify_eq.
    eexists. split; [done|]. exists (owner_ref c). split_and!; try done. by apply set_controller_controls.
  - apply set_controller_ext.
  - apply set_controller_again.
  - intros c m. unfold set_controller. by case_match.
  - intros c m Ha _. unfold set_controller, foreign_controller.
    destruct (controller_of m) as [r|] eqn:E; [|done]. destruct (Ha r E) as (Hg & Hk & Hn).
    unfold same_ref. by rewrite bool_decide_eq_true_2 by (simpl; by rewrite Hg, Hk, Hn).
  - apply merge_sort_Permutation.
  - apply Sorted_merge_sort. apply _.
Qed.
