(* ===== verification/Hoare.v ===== *)
(** * Reasoning about API computations

    Weakest preconditions for the computations of Kube.v: [wp m Q w] holds
    when running [m] from the world [w] ends in a world and a result that
    satisfy [Q].  Every outcome is covered, errors and panics included, so a
    proved [wp] is a statement about each run and not only about the
    successful ones. *)
From S2P Require Import Prelude Types Kube.
From stdpp Require Import options.

Section Wp.
Context {W : Type}.

Definition wp {A : Type} (m : M W A) (Q : W → result A → Prop) (w : W) : Prop :=
  Q (m w).1 (m w).2.

Lemma wp_run {A} (m : M W A) Q w w' r : wp m Q w → m w = (w', r) → Q w' r.
Proof. unfold wp. intros H E. by rewrite E in H. Qed.

Lemma wp_intro {A} (m : M W A) (Q : W → result A → Prop) w :
  (∀ w' r, m w = (w', r) → Q w' r) → wp m Q w.
Proof. intros H. apply H. by destruct (m w). Qed.

Lemma wp_mono {A} (m : M W A) (Q Q' : W → result A → Prop) w :
  wp m Q w → (∀ w' r, Q w' r → Q' w' r) → wp m Q' w.
Proof. unfold wp. auto. Qed.

Lemma wp_ret {A} (a : A) (Q : W → result A → Prop) w : Q w (Ok a) → wp (mret a) Q w.
Proof. done. Qed.

Lemma wp_lift {A} (r : result A) (Q : W → result A → Prop) w : Q w r → wp (mlift r) Q w.
Proof. done. Qed.

(** What remains to be shown of [let! x := m in k] after [m] ended in [r]. *)
Definition after {A B : Type} (k : A → M W B) (h : error → M W B) (Q : W → result B → Prop)
    (w : W) (r : result A) : Prop :=
  match r with
  | Ok a => wp (k a) Q w
  | Err e => wp (h e) Q w
  | Panic p => Q w (Panic p)
  end.

Lemma wp_try {A B} (m : M W A) (h : error → M W B) (k : A → M W B) Q w :
  wp m (after k h Q) w → wp (mtry m h k) Q w.
Proof. unfold wp, mtry, after. destruct (m w) as [w' [| |]]; done. Qed.

Lemma wp_bind {A B} (m : M W A) (k : A → M W B) Q w :
  wp m (after k (λ e, mlift (Err e)) Q) w → wp (mbind' m k) Q w.
Proof. unfold wp, mbind', after. destruct (m w) as [w' [| |]]; done. Qed.

End Wp.

Arguments wp : simpl never.
Arguments after : simpl never.

(** [wp_step]: one rule of the calculus, chosen by the head of the program. *)
Ltac wp_step :=
  lazymatch goal with
  | |- wp (mtry _ _ _) _ _ => apply wp_try
  | |- wp (mbind' _ _) _ _ => apply wp_bind
  | |- wp (mret _) _ _ => apply wp_ret
  | |- wp (mlift _) _ _ => apply wp_lift
  end.
