(* ===== verification/Sample.v ===== *)
(** * A sample cluster

    The resource of
    src/config/samples/inference_v1alpha1_llminferencecluster.yaml, with two
    environment variables added and some fields left to the defaults, in an
    in-memory API server, for running the handlers on concrete inputs. *)
From S2P Require Import Prelude Types Kube Laws Memory Reconcile Trace.
From stdpp Require Import options.

Definition sample_spec : LLMInferenceClusterSpec :=
  mkSpec (mkModelSpec "mock-llama3" "llm-inference-mock-worker:latest" []
            [mkEnvVar "ZETA" "1"; mkEnvVar "ALPHA" "2"])
    (mkRuntimeSpec (mkWorkloadRoleSpec (Some 1) (Some 8001) ∅)
                   (mkWorkloadRoleSpec (Some 2) (Some 8000) ∅))
    (mkKVCacheSpec emp (Some 8) "lru" emp)
    (mkRoutingSpec emp None (Some 1))
    (mkAutoscalingSpec (Some true) (Some 1) (Some 5) (mkSignalsSpec "fake" None)).

Definition sample_meta : ObjectMeta :=
  mkMeta "llminferencecluster-sample" "default" "uid-1" ∅ 3 None [] [] [].

Definition empty_status : LLMInferenceClusterStatus :=
  mkStatus 0 (mkEndpoints emp emp emp) [] [].

Definition sample_cluster : LLMInferenceCluster := mkCluster sample_meta sample_spec empty_status.

(** The same resource while it is being deleted. *)
Definition deleted_cluster : LLMInferenceCluster :=
  mkCluster (mkMeta "llminferencecluster-sample" "default" "uid-1" ∅ 3 (Some 99)
               [llmInferenceClusterFinalizer; "other/finalizer"] [] []) sample_spec empty_status.

Definition sample_req : NamespacedName := mkNN "default" "llminferencecluster-sample".

Definition decode_pod (name : string) (st : ConditionStatus) : string * Pod :=
  ("default", mkPod name {["inference.llm.io/role" := "decode";
                           "inference.llm.io/cluster" := "llminferencecluster-sample";
                           "app.kubernetes.io/name" := "llm-inference-operator";
                           "app.kubernetes.io/part-of" := "llm-inference-operator"]}
                [mkPodCondition "Ready" st]).

Definition empty_world : memory := mkMemory ∅ ∅ ∅ ∅ ∅ ∅ ∅ [] 0.

Definition world_of (c : LLMInferenceCluster) : memory :=
  mkMemory {[("llminferencecluster-sample", "default") := c]} ∅ ∅ ∅ ∅ ∅ ∅
    [decode_pod "decode-b" ConditionTrue; decode_pod "decode-a" ConditionTrue;
     decode_pod "decode-c" ConditionFalse] 100.

(** The world after a reconciliation of the sample request. *)
Definition reconciled (w : memory) : memory := (Reconcile sample_req w).1.

Example sample_reconciles :
  (Reconcile sample_req (world_of sample_cluster)).2 = Ok (mkResult (30 * Second), None).
Proof. vm_compute. reflexivity. Qed.
