(* ===== verification/Calls.v ===== *)
(** * Which API calls a reconciliation makes

    [Reconcile] run on a recording client (Trace.v) over an arbitrary API
    client: whatever the server answers, the calls, their order and the
    reported status are those stated here. *)
From S2P Require Import Prelude Strconv Types Defaults Kube Signals Autoscale Resources Shards Reconcile Laws Trace Hoare.
From stdpp Require Import options.

(** Calls that read, or apply a child object: no write of the resource. *)
Definition quiet (x : call) : bool :=
  match x with
  | CApply _ _ _ | CGetConfigMap _ | CListPods _ _ | CNow => true
  | _ => false
  end.

Definition applied (l : list call) : list call := filter (λ x, is_apply x = true) l.

Lemma applied_app l1 l2 : applied (l1 ++ l2) = applied l1 ++ applied l2.
Proof. apply list.filter_app. Qed.

Section Calls.
Context {W : Type} `{!Client W} `{!Machinery}.
Implicit Types (s : W * list call) (p q : list call).

(** The calls recorded since [l0] are quiet and apply the objects [p]. *)
Definition traced (l0 p : list call) s : Prop :=
  ∃ l, s.2 = l0 ++ l ∧ applied l = p ∧ forallb quiet l = true.

Lemma traced_start s : traced s.2 [] s.
Proof. exists []. by rewrite app_nil_r. Qed.

Lemma traced_call l0 p s w' x :
  quiet x = true → traced l0 p s → traced l0 (p ++ applied [x]) (w', s.2 ++ [x]).
Proof.
  intros Hx (l & Hl & Hp & Hq). exists (l ++ [x]). cbn [snd]. split_and!.
  - by rewrite Hl, app_assoc.
  - by rewrite applied_app, Hp.
  - rewrite forallb_app, Hq. simpl. by rewrite Hx.
Qed.

(** [emits m q]: [m] makes quiet calls only and applies the objects [q] in
    order; when it ends early, it has applied a prefix of them. *)
Definition emits {A : Type} (m : M (W * list call) A) q : Prop :=
  ∀ l0 p s, traced l0 p s →
    wp m (λ s' r, match r with
                  | Ok _ => traced l0 (p ++ q) s'
                  | _ => ∃ q', q' `prefix_of` q ∧ traced l0 (p ++ q') s'
                  end) s.

Lemma emits_record {A} x (m : M W A) : quiet x = true → emits (record x m) (applied [x]).
Proof.
  intros Hx l0 p [w l] Hs. apply wp_intro. unfold record. intros s' r E.
  destruct (m w) as [w' r'] eqn:Em. simplify_eq.
  pose proof (traced_call l0 p (w, l) w' x Hx Hs) as Ht. cbn [snd] in Ht.
  destruct r; [done| |]; by exists (applied [x]).
Qed.

Lemma emits_ret {A} (a : A) : emits (mret a) [].
Proof. intros l0 p s Hs. wp_step. by rewrite app_nil_r. Qed.

Lemma emits_lift {A} (r : result A) : emits (mlift r) [].
Proof.
  intros l0 p s Hs. wp_step. destruct r; [by rewrite app_nil_r| |];
    exists []; by rewrite app_nil_r.
Qed.

Lemma emits_bind {A B} (m : M (W * list call) A) (k : A → M (W * list call) B) q1 q2 :
  emits m q1 → (∀ a, emits (k a) q2) → ∀ q, q = q1 ++ q2 → emits (mbind' m k) q.
Proof.
  intros Hm Hk q -> l0 p s Hs. wp_step. eapply wp_mono; [by apply Hm|].
  intros s' [a|e|pm] Hr; unfold after.
  - eapply wp_mono; [by apply Hk|]. intros s'' [b|e|pm] Hr'; [by rewrite app_assoc| |].
    all: destruct Hr' as (q' & Hq & Ht); exists (q1 ++ q').
    all: split; [by apply prefix_app|by rewrite app_assoc].
  - wp_step. destruct Hr as (q' & Hq & Ht). exists q'. split; [by apply prefix_app_r|done].
  - destruct Hr as (q' & Hq & Ht). exists q'. split; [by apply prefix_app_r|done].
Qed.

Lemma emits_now : emits mnow [].
Proof.
  intros l0 p [w l] Hs. apply wp_intro. unfold mnow. intros s' r E. simpl in E.
  destruct (now w) as [w' t]. simplify_eq.
  by apply (traced_call l0 p (w, l) w' CNow eq_refl Hs).
Qed.

Lemma emits_apply k n ns (f : obj k → result (obj k)) :
  emits (create_or_update k n ns f) [CApply k n ns].
Proof. by apply (emits_record (CApply k n ns)). Qed.

Lemma emits_getcm nn : emits (get_configmap nn) [].
Proof. by apply (emits_record (CGetConfigMap nn)). Qed.

Lemma emits_list ns ls : emits (list_pods ns ls) [].
Proof. by apply (emits_record (CListPods ns ls)). Qed.

End Calls.

Create HintDb emits.
#[export] Hint Resolve emits_apply emits_getcm emits_list emits_now emits_ret emits_lift : emits.

(** Compose the calls of a straight-line computation. *)
Ltac emits_seq :=
  repeat lazymatch goal with
  | |- ∀ _, _ => intros ?
  | |- emits (let '_ := ?x in _) _ => destruct x
  | |- emits (match ?x with _ => _ end) _ => destruct x
  | |- emits (mbind' _ _) _ => eapply emits_bind
  | |- emits _ _ => solve [eauto with emits]
  end; try reflexivity.

Section Plan.
Context {W : Type} `{!Client W} `{!Machinery}.
Implicit Types (c : LLMInferenceCluster) (s : W * list call).

(** The objects a full reconciliation applies, in order. *)
Definition signals_calls c : list call :=
  if autoscaling_enabled c
  then [CApply KConfigMap (om_Name (lic_Meta c) +:+ "-signals") (om_Namespace (lic_Meta c))] else [].

Definition child_calls c : list call :=
  let name := om_Name (lic_Meta c) in
  let ns := om_Namespace (lic_Meta c) in
  signals_calls c ++
  [CApply KService (name +:+ "-decode") ns; CApply KService (name +:+ "-prefill") ns;
   CApply KService (name +:+ "-router") ns;
   CApply KServiceAccount (name +:+ "-router") ns; CApply KRole (name +:+ "-router") ns;
   CApply KRoleBinding (name +:+ "-router") ns;
   CApply KDeployment (name +:+ "-decode") ns; CApply KDeployment (name +:+ "-prefill") ns;
   CApply KDeployment (name +:+ "-router") ns;
   CApply KConfigMap (name +:+ "-shardmap") ns].

Lemma emits_Fake_Read ns n : emits (Fake_Read ns n) [].
Proof. unfold Fake_Read. emits_seq. Qed.

Lemma emits_Read a : emits (Read a) [].
Proof. destruct a; simpl; [apply emits_Fake_Read|apply emits_lift]. Qed.

Lemma emits_computeDecodeReplicas c n : emits (computeDecodeReplicas c n) [].
Proof. unfold computeDecodeReplicas. eapply emits_bind; [apply emits_Read| |done]. emits_seq. Qed.

Lemma emits_condition c t st re ms : emits (condition_now c t st re ms) [].
Proof. unfold condition_now. emits_seq. Qed.

Lemma emits_autoscaling c ls :
  emits (reconcileAutoscaling c (om_Name (lic_Meta c) +:+ "-signals") ls) (signals_calls c).
Proof.
  unfold reconcileAutoscaling, signals_calls. destruct (autoscaling_enabled c); [|apply emits_ret].
  unfold reconcileSignalsConfigMap.
  eapply emits_bind; [emits_seq| |by rewrite app_nil_r]. intros _.
  eapply emits_bind; [apply emits_computeDecodeReplicas| |done]. intros [r b].
  eapply emits_bind; [destruct b; apply emits_condition| |done]. emits_seq.
Qed.

Lemma emits_role_service c role n port ls :
  emits (reconcileRoleService c role n port ls) [CApply KService n (om_Namespace (lic_Meta c))].
Proof. unfold reconcileRoleService. emits_seq. Qed.

Lemma emits_router_service c n ls :
  emits (reconcileRouterService c n ls) [CApply KService n (om_Namespace (lic_Meta c))].
Proof. unfold reconcileRouterService. emits_seq. Qed.

Lemma emits_rbac c n ls :
  emits (reconcileRouterRBAC c n ls)
    [CApply KServiceAccount n (om_Namespace (lic_Meta c)); CApply KRole n (om_Namespace (lic_Meta c));
     CApply KRoleBinding n (om_Namespace (lic_Meta c))].
Proof. unfold reconcileRouterRBAC. emits_seq. Qed.

Lemma emits_role_deployment c role n ls o :
  emits (reconcileRoleDeployment c role n ls o)
    [CApply KDeployment (om_Name (lic_Meta c) +:+ "-" +:+ role) (om_Namespace (lic_Meta c))].
Proof. unfold reconcileRoleDeployment. emits_seq. Qed.

Lemma emits_router_deployment c sm sa ls :
  emits (reconcileRouterDeployment c sm sa ls)
    [CApply KDeployment (om_Name (lic_Meta c) +:+ "-router") (om_Namespace (lic_Meta c))].
Proof. unfold reconcileRouterDeployment. emits_seq. Qed.

Lemma emits_shard_map c ls : emits (computeShardMap c ls) [].
Proof. unfold computeShardMap. emits_seq. Qed.

Lemma emits_shardmap_cm c n ls j :
  emits (reconcileShardMapConfigMap c n ls j) [CApply KConfigMap n (om_Namespace (lic_Meta c))].
Proof. unfold reconcileShardMapConfigMap. emits_seq. Qed.

End Plan.
