(* ===== verification/Outcome.v ===== *)
(** * What a reconciliation reports

    The outcomes of [Reconcile] over an arbitrary API client: the result it
    returns, the status it writes and the calls it makes.  Only the helpers
    of apimachinery are assumed to behave as documented. *)
From S2P Require Import Prelude Strconv Types Defaults Kube Signals Autoscale Resources Shards Reconcile Laws Trace Memory Hoare Sample Calls.
From stdpp Require Import options.
#[local] Set Default Proof Using "Type*".

(** The cluster carries a condition of the type, with this status, reason and
    message, observed at its own generation. *)
Definition reports (c : LLMInferenceCluster) (t : string) (st : ConditionStatus)
    (reason message : string) : Prop :=
  ∃ cond, find_condition t (st_Conditions (lic_Status c)) = Some cond ∧
    cond_Status cond = st ∧ cond_Reason cond = reason ∧ cond_Message cond = message ∧
    cond_ObservedGeneration cond = om_Generation (lic_Meta c).

(** The same resource up to its status. *)
Definition same_source (c c' : LLMInferenceCluster) : Prop :=
  lic_Meta c' = lic_Meta c ∧ lic_Spec c' = lic_Spec c.

#[export] Instance same_source_equiv : Equivalence same_source.
Proof. split; repeat intros []; by split; [congruence|congruence]. Qed.

Lemma same_source_status c c' s : same_source c c' → same_source c (with_status s c').
Proof. by intros []. Qed.

Section Outcome.
Context {W : Type} `{!Client W} `{!Machinery} `{!MachineryLaws}.
Implicit Types (c cl : LLMInferenceCluster) (s : W * list call) (p q l : list call).

Lemma same_source_condition c c' cond : same_source c c' → same_source c (setCondition c' cond).
Proof. apply same_source_status. Qed.

Lemma reports_set c t st re ms tm :
  reports (setCondition c (mkCondition t st (om_Generation (lic_Meta c)) tm re ms)) t st re ms.
Proof.
  destruct (ssc_found (st_Conditions (lic_Status c))
    (mkCondition t st (om_Generation (lic_Meta c)) tm re ms)) as (c' & Hf & ? & ? & ? & ? & ?).
  by exists c'.
Qed.

Lemma reports_other c t st re ms cond :
  t ≠ cond_Type cond → reports c t st re ms → reports (setCondition c cond) t st re ms.
Proof.
  intros Hne (c' & Hf & Hr). exists c'. split; [|done]. simpl. by rewrite ssc_other.
Qed.

Lemma wp_condition_now {V : Type} `{!Client V} c t st re ms Q (v : V) :
  (∀ v' tm, now v = (v', tm) →
     Q v' (Ok (setCondition c (mkCondition t st (om_Generation (lic_Meta c)) tm re ms)))) →
  wp (condition_now c t st re ms) Q v.
Proof.
  intros HQ. apply wp_intro. unfold condition_now, mbind', mnow. intros v' r.
  destruct (now v) as [v'' tm] eqn:E. intros [= <- <-]. by apply HQ.
Qed.

Definition degraded_report (e : error) (cl : LLMInferenceCluster) : Prop :=
  reports cl conditionReady ConditionFalse "Error" (Error e) ∧
  reports cl conditionDegraded ConditionTrue "ReconcileError" (Error e).

Definition ready_report (cl : LLMInferenceCluster) : Prop :=
  reports cl conditionReady ConditionTrue "Reconciled" "Resources are reconciled" ∧
  reports cl conditionDegraded ConditionFalse "Healthy" "No reconciliation errors" ∧
  st_ObservedGeneration (lic_Status cl) = om_Generation (lic_Meta cl) ∧
  ∃ dp pp, role_ServicePort (rt_Decode (spec_Runtime (lic_Spec cl))) = Some dp ∧
           role_ServicePort (rt_Prefill (spec_Runtime (lic_Spec cl))) = Some pp ∧
           st_Endpoints (lic_Status cl) = endpoints_of cl dp pp.

(** The outcomes of [reconcileActive], with [l] the calls it made. *)
Definition active_outcome (c : LLMInferenceCluster) (l : list call)
    (r : result (Result * option error)) : Prop :=
  match r with
  | Err _ => False
  | Panic _ => applied l `prefix_of` child_calls c
  | Ok (res, err) =>
      (∃ l' cl e, l = l' ++ [CStatusUpdate cl] ∧ forallb quiet l' = true ∧
         applied l' `prefix_of` child_calls c ∧ same_source c cl ∧ degraded_report e cl ∧
         res = mkResult (5 * Second) ∧ err = Some e) ∨
      (∃ l' cl, l = l' ++ [CStatusPatch cl] ∧ forallb quiet l' = true ∧
         applied l' = child_calls c ∧ same_source c cl ∧ ready_report cl ∧
         ((res = mkResult (30 * Second) ∧ err = None) ∨ ∃ e, res = no_requeue ∧ err = Some e))
  end.

Definition active_post c l0 s (r : result (Result * option error)) : Prop :=
  ∃ l, s.2 = l0 ++ l ∧ active_outcome c l r.

Lemma wp_now_traced c t st re ms l0 p s Q :
  traced l0 p s →
  (∀ s' tm, traced l0 p s' →
     Q s' (Ok (setCondition c (mkCondition t st (om_Generation (lic_Meta c)) tm re ms)))) →
  wp (condition_now c t st re ms) Q s.
Proof.
  intros Ht HQ. apply wp_condition_now. intros s' tm E.
  assert (traced l0 p s'); [|eauto]. destruct s as [w l]. simpl in E.
  destruct (now w) as [w' t']. simplify_eq.
  pose proof (traced_call l0 p (w, l) w' CNow eq_refl Ht) as Hc. by rewrite app_nil_r in Hc.
Qed.

Lemma wp_requeueDegraded c cl e l0 p s :
  traced l0 p s → p `prefix_of` child_calls c → same_source c cl →
  wp (requeueDegraded cl e) (active_post c l0) s.
Proof.
  intros Ht Hp Hsrc. unfold requeueDegraded. wp_step. eapply wp_now_traced; [done|].
  intros s1 t1 Ht1. unfold after. wp_step. eapply wp_now_traced; [done|].
  intros s2 t2 Ht2. unfold after. wp_step.
  set (cl' := setCondition _ _). apply wp_intro. intros s3 r E.
  destruct s2 as [w2 l2]. simpl in E. destruct (status_update cl' w2) as [w3 r3]. simplify_eq.
  destruct Ht2 as (l & Hl & Ha & Hq). cbn [snd] in Hl. subst l2.
  assert (Hout : ∀ w, active_post c l0 (w, (l0 ++ l) ++ [CStatusUpdate cl'])
                        (Ok (mkResult (5 * Second), Some e))).
  { intros w. exists (l ++ [CStatusUpdate cl']). cbn [snd]. split; [by rewrite app_assoc|]. left.
    exists l, cl', e. split_and!; try done.
    - by rewrite Ha.
    - split; [apply reports_other; [done|]|]; apply reports_set. }
  destruct r; unfold after; [wp_step; apply Hout|wp_step; apply Hout|].
  exists (l ++ [CStatusUpdate cl']). cbn [snd]. split; [by rewrite app_assoc|]. simpl.
  by rewrite applied_app, app_nil_r, Ha.
Qed.

(** A step that is followed by [requeueDegraded] on an error. *)
Lemma wp_try_degraded {A} c cl (m : M (W * list call) A) k l0 p q s :
  emits m q → traced l0 p s → (p ++ q) `prefix_of` child_calls c → same_source c cl →
  (∀ s' a, m s = (s', Ok a) → traced l0 (p ++ q) s' → wp (k a) (active_post c l0) s') →
  wp (mtry m (λ e, requeueDegraded cl e) k) (active_post c l0) s.
Proof.
  intros Hm Ht Hp Hsrc Hk. wp_step. apply wp_intro. intros s' r E.
  pose proof (wp_run _ _ _ _ _ (Hm l0 p s Ht) E) as Hr. destruct r as [a|e|pm]; unfold after.
  - by eapply Hk.
  - destruct Hr as (q' & Hq & Ht'). eapply wp_requeueDegraded; [done| |done].
    etrans; [|done]. by apply prefix_app.
  - destruct Hr as (q' & Hq & l & Hl & Ha & _). exists l. split; [done|]. simpl. rewrite Ha.
    etrans; [|done]. by apply prefix_app.
Qed.

Lemma autoscaling_source {V : Type} `{!Client V} c n ls (v : V) :
  wp (reconcileAutoscaling c n ls)
    (λ _ r, ∀ c' o, r = Ok (c', o) → same_source c c') v.
Proof.
  unfold reconcileAutoscaling. destruct (autoscaling_enabled c); [|wp_step; by intros ?? [= <- _]].
  wp_step. apply wp_intro. intros v1 r1 _. destruct r1; unfold after; [|by wp_step|done].
  wp_step. apply wp_intro. intros v2 r2 _. destruct r2 as [[z b]| |]; unfold after; [|by wp_step|done].
  wp_step. destruct b; apply wp_condition_now; intros v3 tm _; unfold after; wp_step;
    intros ?? [= <- _]; by apply same_source_condition.
Qed.

(** The status that a complete reconciliation writes. *)
Lemma wp_report_ready orig c cl dp pp l0 s :
  traced l0 (child_calls c) s → same_source c cl →
  role_ServicePort (rt_Decode (spec_Runtime (lic_Spec cl))) = Some dp →
  role_ServicePort (rt_Prefill (spec_Runtime (lic_Spec cl))) = Some pp →
  wp (let cl' := set_observed (om_Generation (lic_Meta cl)) (endpoints_of cl dp pp) cl in
      let! c1 := condition_now cl' conditionReady ConditionTrue "Reconciled"
                   "Resources are reconciled" in
      let! c2 := condition_now c1 conditionDegraded ConditionFalse "Healthy"
                   "No reconciliation errors" in
      let! _ := status_patch c2 orig onerr err => mret (no_requeue, Some err) in
      mret (mkResult (30 * Second), None)) (active_post c l0) s.
Proof.
  intros Ht Hsrc Hd Hp. cbv zeta. wp_step. eapply wp_now_traced; [done|].
  intros s1 t1 Ht1. unfold after. wp_step. eapply wp_now_traced; [done|].
  intros s2 t2 Ht2. unfold after. wp_step.
  set (cl' := setCondition _ _). apply wp_intro. intros s3 r E.
  destruct s2 as [w2 l2]. simpl in E. destruct (status_patch cl' orig w2) as [w3 r3]. simplify_eq.
  destruct Ht2 as (l & Hl & Ha & Hq). cbn [snd] in Hl. subst l2.
  assert (same_source c cl') as Hsrc' by done.
  assert (ready_report cl') as Hrep.
  { split_and!; [apply reports_other; [done|]; apply reports_set|apply reports_set|done|].
    by exists dp, pp. }
  assert (Hout : ∀ w res err,
    ((res = mkResult (30 * Second) ∧ err = None) ∨ ∃ e, res = no_requeue ∧ err = Some e) →
    active_post c l0 (w, (l0 ++ l) ++ [CStatusPatch cl']) (Ok (res, err))).
  { intros w res err Hr. exists (l ++ [CStatusPatch cl']). cbn [snd].
    split; [by rewrite app_assoc|]. right. by exists l, cl'. }
  destruct r; unfold after; [wp_step; apply Hout; by left|wp_step; apply Hout; eauto|].
  exists (l ++ [CStatusPatch cl']). cbn [snd]. split; [by rewrite app_assoc|]. simpl.
  by rewrite applied_app, app_nil_r, Ha.
Qed.

(** [let! x := mlift (go_deref p) in k]: a nil pointer panics. *)
Lemma wp_deref {A B} (o : option A) (k : A → M (W * list call) B) s
    (Q : W * list call → result B → Prop) :
  (∀ pm, Q s (Panic pm)) → (∀ a, o = Some a → wp (k a) Q s) →
  wp (mbind' (mlift (go_deref o)) k) Q s.
Proof. intros HP Hk. wp_step. wp_step. destruct o as [a|]; simpl; [by apply Hk|apply HP]. Qed.

Lemma traced_panic c l0 p s pm :
  traced l0 p s → p `prefix_of` child_calls c → active_post c l0 s (Panic pm).
Proof. intros (l & Hl & Ha & _) Hp. exists l. split; [done|]. simpl. by rewrite Ha. Qed.

#[local] Ltac prefix_plan :=
  lazymatch goal with
  | Hm : lic_Meta _ = lic_Meta _ |- _ =>
    unfold child_calls; simpl; rewrite ?Hm, <- ?app_assoc;
    first [by eexists|apply prefix_app; by eexists]
  end.
#[local] Ltac degraded_step L :=
  lazymatch goal with
  | Ht : traced _ _ ?s1, c : LLMInferenceCluster |- _ =>
    eapply wp_try_degraded; [apply L|exact Ht|prefix_plan|done|];
    let s2 := fresh s1 in let Ht2 := fresh Ht in
    intros s2 [] _ Ht2; clear dependent s1
  end.

Lemma wp_reconcileActive orig c s :
  wp (reconcileActive orig c) (active_post c s.2) s.
Proof.
  unfold reconcileActive. cbv zeta.
  eapply wp_try_degraded; [apply emits_autoscaling|apply traced_start|by eexists|done|].
  intros s1 [cl ov] E1 Ht.
  pose proof (wp_run _ _ _ _ _ (autoscaling_source _ _ _ _) E1 cl ov eq_refl) as Hsrc.
  pose proof Hsrc as [Hm _]. clear E1. cbn [app] in Ht.
  apply wp_deref; [intros pm; eapply traced_panic; [done|prefix_plan]|intros dp Hdp].
  degraded_step emits_role_service.
  apply wp_deref; [intros pm; eapply traced_panic; [done|prefix_plan]|intros pp Hpp].
  degraded_step emits_role_service. degraded_step emits_router_service.
  degraded_step emits_rbac. degraded_step emits_role_deployment.
  degraded_step emits_role_deployment. degraded_step emits_router_deployment.
  eapply (wp_try_degraded c); [apply emits_shard_map|done|prefix_plan|done|].
  intros s9 [shards json] _ Ht9. rewrite app_nil_r in Ht9.
  degraded_step emits_shardmap_cm.
  eapply wp_report_ready; [|by apply same_source_status|done|done].
  lazymatch goal with H : traced _ _ ?x |- traced _ _ ?x => simpl in H; rename H into Hend end.
  unfold child_calls. rewrite Hm in Hend. by rewrite <- !app_assoc in Hend.
Qed.

(** ** The whole handler *)

(** The cluster that the children are reconciled for, and the calls made to
    get it: it is fetched, defaulted and written back, is not being deleted,
    and the finalizer is on it or has just been written. *)
Inductive active_cluster (req : NamespacedName) (w : W) : LLMInferenceCluster → list call → Prop :=
| active_has_finalizer c0 c1 w1 w2 :
    get_cluster req w = (w1, Ok c0) →
    patch_cluster (apply_defaults c0) c0 w1 = (w2, Ok c1) →
    om_DeletionTimestamp (lic_Meta c1) = None →
    ContainsFinalizer c1 llmInferenceClusterFinalizer = true →
    active_cluster req w c1 [CGet req; CPatch (apply_defaults c0)]
| active_added_finalizer c0 c1 c2 w1 w2 w3 :
    get_cluster req w = (w1, Ok c0) →
    patch_cluster (apply_defaults c0) c0 w1 = (w2, Ok c1) →
    om_DeletionTimestamp (lic_Meta c1) = None →
    ContainsFinalizer c1 llmInferenceClusterFinalizer = false →
    update_cluster (AddFinalizer c1 llmInferenceClusterFinalizer) w2 = (w3, Ok c2) →
    active_cluster req w c2
      [CGet req; CPatch (apply_defaults c0); CUpdate (AddFinalizer c1 llmInferenceClusterFinalizer)].

(** Calls that neither apply a child nor write the status. *)
Definition early (x : call) : bool :=
  match x with CGet _ | CPatch _ | CUpdate _ => true | _ => false end.

Inductive run (req : NamespacedName) (w : W) (calls : list call)
    (r : result (Result * option error)) : Prop :=
| run_early err : forallb early calls = true → r = Ok (no_requeue, err) → run req w calls r
| run_panic msg : forallb early calls = true → r = Panic msg → run req w calls r
| run_active c pre l : active_cluster req w c pre → calls = pre ++ l →
    active_outcome c l r → run req w calls r.

Lemma active_run req w c pre orig w1 w' calls r :
  active_cluster req w c pre →
  reconcileActive orig c (w1, pre) = ((w', calls), r) → run req w calls r.
Proof.
  intros Hc E. destruct (wp_run _ _ _ _ _ (wp_reconcileActive orig c (w1, pre)) E) as (l & Hl & Ho).
  by eapply run_active.
Qed.

Lemma Reconcile_run req w w' calls r :
  Reconcile req (w, []) = ((w', calls), r) → run req w calls r.
Proof.
  unfold Reconcile. unfold mtry at 1. simpl.
  destruct (get_cluster req w) as [w1 [c0|e|p]] eqn:E0; simpl.
  2: { intros [= <- <- <-]. by eapply run_early. }
  2: { intros [= <- <- <-]. by eapply run_panic. }
  unfold mtry at 1. simpl.
  destruct (patch_cluster (apply_defaults c0) c0 w1) as [w2 [c1|e|p]] eqn:E1; simpl.
  2: { intros [= <- <- <-]. by eapply run_early. }
  2: { intros [= <- <- <-]. by eapply run_panic. }
  destruct (om_DeletionTimestamp (lic_Meta c1)) eqn:Ed.
  - destruct (ContainsFinalizer _ _); [|intros [= <- <- <-]; by eapply run_early].
    unfold mtry at 1. simpl. destruct (update_cluster _ w2) as [w3 [c2|e|p]]; simpl;
      intros [= <- <- <-]; first [by eapply run_early|by eapply run_panic].
  - destruct (ContainsFinalizer _ _) eqn:Ef.
    { intros E. eapply active_run; [|exact E]. by econstructor. }
    unfold mtry at 1. simpl. destruct (update_cluster _ w2) as [w3 [c2|e|p]] eqn:E2; simpl.
    + intros E. eapply active_run; [|exact E]. by eapply active_added_finalizer.
    + intros [= <- <- <-]. by eapply run_early.
    + intros [= <- <- <-]. by eapply run_panic.
Qed.

Definition is_status (x : call) : bool :=
  match x with CStatusPatch _ | CStatusUpdate _ => true | _ => false end.

Lemma quiet_no_status l : forallb quiet l = true → existsb is_status l = false.
Proof.
  induction l as [|x l IH]; simpl; [done|]. intros [Hx Hl]%andb_prop.
  rewrite (IH Hl). by destruct x.
Qed.

Lemma active_cluster_early req w c pre :
  active_cluster req w c pre →
  existsb is_status pre = false ∧ applied pre = [] ∧ ∃ l, pre = CGet req :: l.
Proof. intros []; split_and!; try done; eauto. Qed.

Lemma early_applied l : forallb early l = true → applied l = [].
Proof.
  induction l as [|x l IH]; [done|]. simpl. intros [Hx Hl]%andb_prop.
  unfold applied in *. rewrite filter_cons, (IH Hl). by destruct x.
Qed.

(** C4: whatever the API server answers, a reconciliation that returns
    either stops early (no child applied, no status written, no requeue), or
    its last call is its only status write and the status agrees with the
    result: [Degraded] and not [Ready], with the error as message, when it
    requeues after 5 s with that error; [Ready] and not [Degraded], at the
    current generation and with the endpoints of the cluster, when it requeues
    after 30 s or that very status write failed.  It never ends in any other
    way. *)
Theorem reconcile_reports (req : NamespacedName) (w w' : W) (calls : list call)
    (r : result (Result * option error)) :
  Reconcile req (w, []) = ((w', calls), r) →
  match r with
  | Err _ => False
  | Panic _ => True
  | Ok (res, err) =>
      (res = no_requeue ∧ forallb early calls = true) ∨
      (∃ l cl e, calls = l ++ [CStatusUpdate cl] ∧ existsb is_status l = false ∧
         degraded_report e cl ∧ res = mkResult (5 * Second) ∧ err = Some e) ∨
      (∃ l cl, calls = l ++ [CStatusPatch cl] ∧ existsb is_status l = false ∧ ready_report cl ∧
         ((res = mkResult (30 * Second) ∧ err = None) ∨ ∃ e, res = no_requeue ∧ err = Some e))
  end.
Proof.
  intros E%Reconcile_run. destruct E as [err He ->|p He ->|c pre l Hc -> Ho]; [by left|done|].
  apply active_cluster_early in Hc as (Hpre & _ & _).
  destruct r as [[res err]| |]; simpl in Ho; [|done|done].
  destruct Ho as [(l' & cl & e & -> & Hq & _ & _ & Hr & -> & ->)|(l' & cl & -> & Hq & _ & _ & Hr & Hres)];
    right; [left; exists (pre ++ l'), cl, e|right; exists (pre ++ l'), cl];
    rewrite <- app_assoc, existsb_app, Hpre, (quiet_no_status _ Hq); done.
Qed.

(** C6: children are applied in one fixed order, for the cluster that was
    fetched, defaulted, persisted and given the finalizer, and only after
    those writes: at any stop the applied objects are a prefix of that list,
    and a reconciliation that requeues after 30 s has applied all of it. *)
Theorem reconcile_apply_order (req : NamespacedName) (w w' : W) (calls : list call)
    (r : result (Result * option error)) :
  Reconcile req (w, []) = ((w', calls), r) →
  (applied calls = [] ∨
   ∃ c pre, active_cluster req w c pre ∧ pre `prefix_of` calls ∧ applied pre = [] ∧
            applied calls `prefix_of` child_calls c) ∧
  (r = Ok (mkResult (30 * Second), None) →
   ∃ c pre, active_cluster req w c pre ∧ applied calls = child_calls c).
Proof.
  intros E%Reconcile_run. destruct E as [err He ->|p He ->|c pre l Hc -> Ho].
  1-2: split; [left; by apply early_applied|done].
  pose proof (active_cluster_early _ _ _ _ Hc) as (_ & Hpre & _).
  assert (applied l `prefix_of` child_calls c ∧
          (r = Ok (mkResult (30 * Second), None) → applied l = child_calls c)) as [Hp Hfull].
  { destruct r as [[res err]| |]; simpl in Ho; [|done|done].
    destruct Ho as [(l' & cl & e & -> & _ & Hp & _ & _ & -> & ->)|(l' & cl & -> & _ & Hp & _)];
      rewrite applied_app, app_nil_r; [done|]. by rewrite Hp. }
  rewrite applied_app, Hpre. split; [right|]; exists c, pre; split_and!; try done; eauto.
  by apply prefix_app_r.
Qed.

(** C17: a cluster that is being deleted gets no child and no status: after
    the fetch and the write of the defaults, the only call is one update that
    drops the operator's finalizer and keeps every other one, and only when
    the finalizer was there; a failed update is returned to be retried. *)
Theorem deletion_releases_finalizer (req : NamespacedName) (w w1 w2 : W)
    (c0 c1 : LLMInferenceCluster) :
  get_cluster req w = (w1, Ok c0) →
  patch_cluster (apply_defaults c0) c0 w1 = (w2, Ok c1) →
  om_DeletionTimestamp (lic_Meta c1) ≠ None →
  if bool_decide (llmInferenceClusterFinalizer ∈ om_Finalizers (lic_Meta c1)) then
    ∃ fs, let c2 := with_meta (set_finalizers fs) c1 in
      (∀ f, f ∈ fs ↔ f ≠ llmInferenceClusterFinalizer ∧ f ∈ om_Finalizers (lic_Meta c1)) ∧
      Reconcile req (w, []) =
        ((fst (update_cluster c2 w2), [CGet req; CPatch (apply_defaults c0); CUpdate c2]),
         match snd (update_cluster c2 w2) with
         | Ok _ => Ok (no_requeue, None)
         | Err e => Ok (no_requeue, Some e)
         | Panic p => Panic p
         end)
  else
    Reconcile req (w, []) =
      ((w2, [CGet req; CPatch (apply_defaults c0)]), Ok (no_requeue, None)).
Proof.
  intros E0 E1 Hd. destruct (om_DeletionTimestamp (lic_Meta c1)) as [t|] eqn:Ed; [clear Hd|done].
  destruct (remove_finalizer c1 llmInferenceClusterFinalizer) as (fs & Hfs & Hin).
  destruct (bool_decide _) eqn:Ef; [exists fs; split; [done|]|];
    unfold Reconcile, mtry; simpl; rewrite E0; simpl; rewrite E1; simpl;
    rewrite Ed, contains_finalizer, Ef; [|done].
  simpl. rewrite Hfs. destruct (update_cluster _ w2) as [w3 [| |]]; done.
Qed.

(** A resource that no longer exists is not an error: the handler makes
    no call besides the fetch and returns nothing to retry; any other failure
    of the fetch, or of persisting the defaults, is returned as it is. *)
Lemma fetch_failure (req : NamespacedName) (w : W) :
  (∀ w1 e, get_cluster req w = (w1, Err e) →
     Reconcile req (w, []) =
       ((w1, [CGet req]), Ok (no_requeue, if IsNotFound e then None else Some e))) ∧
  (∀ w1 w2 c0 e, get_cluster req w = (w1, Ok c0) →
     patch_cluster (apply_defaults c0) c0 w1 = (w2, Err e) →
     Reconcile req (w, []) =
       ((w2, [CGet req; CPatch (apply_defaults c0)]), Ok (no_requeue, Some e))).
Proof using Type.
  split.
  - intros w1 e E. unfold Reconcile, mtry. simpl. by rewrite E.
  - intros w1 w2 c0 e E0 E1. unfold Reconcile, mtry. simpl. rewrite E0. simpl. by rewrite E1.
Qed.

(** C26: the [Scaling] condition tells the truth: when autoscaling is enabled
    and its step succeeds, the replicas passed to the decode Deployment are
    the ones computed from some signals, and the condition is true with that
    number in its message exactly when it differs from the current count of
    the spec clamped to the bounds, and false otherwise; when autoscaling is
    disabled nothing is overridden and the resource is left alone. *)
Theorem scaling_condition_truthful (c c' : LLMInferenceCluster) (name : string)
    (ls : gmap string string) (w w' : W) (ov : option Z) :
  reconcileAutoscaling c name ls w = (w', Ok (c', ov)) →
  if autoscaling_enabled c then
    ∃ sig n, ov = Some n ∧ n = desired_replicas (scaling_bounds c) sig ∧ same_source c c' ∧
      if n =? b_current (scaling_bounds c)
      then reports c' conditionScaling ConditionFalse "Stable" "No autoscaling change required"
      else reports c' conditionScaling ConditionTrue "Autoscaling"
             ("Autoscaling decode replicas to " +:+ Itoa n)
  else c' = c ∧ ov = None.
Proof.
  intros E. unfold reconcileAutoscaling in E. destruct (autoscaling_enabled c);
    [|by injection E as _ <- <-].
  unfold mbind' at 1 in E. destruct (reconcileSignalsConfigMap c name ls w) as [w1 [[]| |]]; [|done|done].
  unfold mbind' at 1 in E. unfold computeDecodeReplicas, mbind' at 1 in E.
  destruct (Read _ w1) as [w2 [sig| |]]; [|done|done]. cbv [mret] in E.
  exists sig, (desired_replicas (scaling_bounds c) sig).
  set (n := desired_replicas (scaling_bounds c) sig) in *.
  unfold mbind' at 1 in E. destruct (n =? b_current (scaling_bounds c)); cbn [negb] in E;
    unfold condition_now, mbind', mnow in E; destruct (now w2) as [w3 tm]; cbv [mret] in E;
    injection E as _ <- <-; (split_and!; [done|done|done|]); apply reports_set.
Qed.

End Outcome.

(** ** Witnesses *)
Lemma run_split {A B C} (x : A * B * C) : x = ((x.1.1, x.1.2), x.2).
Proof. by destruct x as [[]]. Qed.

Lemma reconcile_reports_witness :
  ∃ l cl, (Reconcile sample_req (world_of sample_cluster, [])).1.2 = l ++ [CStatusPatch cl] ∧
          ready_report cl.
Proof.
  pose proof (reconcile_reports sample_req (world_of sample_cluster) _ _ _ (run_split _)) as Hr.
  destruct (Reconcile sample_req (world_of sample_cluster, [])).2 as [[res err]| |] eqn:E;
    [|vm_compute in E; discriminate E|vm_compute in E; discriminate E].
  destruct Hr as [[Hr _]|[(l & cl & e & _ & _ & _ & Hr & _)|(l & cl & Hc & _ & Hr & _)]].
  - exfalso. assert (Ok (res, err) = Ok (mkResult (30 * Second), None)) as [= -> _]
      by (rewrite <- E; vm_compute; reflexivity). discriminate Hr.
  - exfalso. assert (Ok (res, err) = Ok (mkResult (30 * Second), None)) as [= -> _]
      by (rewrite <- E; vm_compute; reflexivity). discriminate Hr.
  - exists l, cl. split; [exact Hc|exact Hr].
Defined.

Lemma reconcile_apply_order_witness :
  ∃ c pre, active_cluster sample_req (world_of sample_cluster) c pre ∧
    applied (Reconcile sample_req (world_of sample_cluster, [])).1.2 = child_calls c.
Proof.
  apply (reconcile_apply_order sample_req (world_of sample_cluster) _ _ _ (run_split _)).
  vm_compute. reflexivity.
Defined.

Lemma deletion_releases_finalizer_witness :
  ∃ fs, (llmInferenceClusterFinalizer ∉ fs) ∧ ("other/finalizer" ∈ fs) ∧
    (Reconcile sample_req (world_of deleted_cluster, [])).1.2 =
      [CGet sample_req; CPatch (apply_defaults deleted_cluster);
       CUpdate (with_meta (set_finalizers fs) (apply_defaults deleted_cluster))].
Proof.
  destruct (deletion_releases_finalizer sample_req (world_of deleted_cluster)
    (world_of deleted_cluster) (put_cluster (apply_defaults deleted_cluster) (world_of deleted_cluster))
    deleted_cluster (apply_defaults deleted_cluster)) as (fs & Hin & E);
    [vm_compute; reflexivity|vm_compute; reflexivity|discriminate|].
  exists fs. rewrite !Hin, E. split_and!; [naive_solver|naive_solver|set_solver|reflexivity].
Defined.

Lemma fetch_failure_witness :
  Reconcile sample_req (empty_world, []) =
    ((empty_world, [CGet sample_req]), Ok (no_requeue, None)).
Proof. exact (proj1 (fetch_failure sample_req empty_world) empty_world not_found eq_refl). Defined.

Lemma scaling_condition_truthful_witness :
  ∃ c' n, (reconcileAutoscaling sample_cluster "s" ∅ (world_of sample_cluster)).2 = Ok (c', Some n).
Proof.
  destruct (reconcileAutoscaling sample_cluster "s" ∅ (world_of sample_cluster)) as [w' r] eqn:E.
  destruct r as [[c' ov]| |];
    [|apply (f_equal snd) in E; vm_compute in E; discriminate E
     |apply (f_equal snd) in E; vm_compute in E; discriminate E].
  destruct (scaling_condition_truthful sample_cluster c' "s" ∅ _ w' ov E) as (sig & n & -> & _).
  exists c', n. reflexivity.
Defined.
