(* ===== verification/Plan.v ===== *)
(** * The desired state of a cluster

    The abstract specification of the reconciler: a plan is the list of the
    child objects with the change each one needs, and the store of objects
    after a reconciliation is the store before it with the plan applied.
    This file defines plans and proves that applying one is idempotent. *)
From S2P Require Import Prelude Strconv Types Defaults Kube Signals Autoscale Resources Shards Reconcile Laws Memory Sample.
From stdpp Require Import options.
#[local] Set Default Proof Using "Type*".

(** ** Stores *)
Definition store : Type := ∀ k : kind, string → string → option (obj k).

#[export] Instance store_equiv : Equiv store := λ s s', ∀ k n ns, s' k n ns = s k n ns.

#[export] Instance store_equivalence : Equivalence (≡@{store}).
Proof.
  split.
  - done.
  - intros s s' H k n ns. by rewrite H.
  - intros s1 s2 s3 H1 H2 k n ns. by rewrite H2, H1.
Qed.

(** An object of the plan: its kind, its name and how it is changed. *)
Record item := mkItem {
  it_kind : kind;
  it_name : string;
  it_mutate : obj it_kind → result (obj it_kind) }.

Definition key (it : item) : kind * string := (it_kind it, it_name it).

(** The object the change starts from: the stored one, or a new one. *)
Definition base_object (s : store) (k : kind) (n ns : string) : obj k :=
  default (new_obj k n ns) (s k n ns).

Definition item_applied (ns : string) (it : item) (s s' : store) : Prop :=
  (∃ y, it_mutate it (base_object s (it_kind it) (it_name it) ns) = Ok y ∧
        s' (it_kind it) (it_name it) ns = Some y) ∧
  ∀ k n ns', (k, n, ns') ≠ (it_kind it, it_name it, ns) → s' k n ns' = s k n ns'.

Fixpoint items_applied (ns : string) (its : list item) (s s' : store) : Prop :=
  match its with
  | [] => s ≡ s'
  | it :: its' => ∃ s1, item_applied ns it s s1 ∧ items_applied ns its' s1 s'
  end.

Lemma items_applied_app ns l1 l2 s1 s2 s3 :
  items_applied ns l1 s1 s2 → items_applied ns l2 s2 s3 → items_applied ns (l1 ++ l2) s1 s3.
Proof.
  revert s1. induction l1 as [|it l1 IH]; intros s1; simpl.
  - intros He. destruct l2 as [|it l2]; simpl; [by intros <-|].
    intros (s & (Hy & Hf) & Hl). exists s. split; [|done]. split.
    + unfold base_object in *. by rewrite <- He.
    + intros k n ns' Hne. by rewrite Hf, He.
  - intros (s & Hs & H1) H2. exists s. split; [done|]. by eapply IH.
Qed.

Lemma items_applied_equiv ns l s s1 s2 :
  items_applied ns l s s1 → s1 ≡ s2 → items_applied ns l s s2.
Proof. intros H1 H2. rewrite <- (app_nil_r l). by apply (items_applied_app ns l [] s s1 s2). Qed.

Lemma items_applied_frame ns its s s' k n ns' :
  items_applied ns its s s' → (∀ it, it ∈ its → (k, n, ns') ≠ (it_kind it, it_name it, ns)) →
  s' k n ns' = s k n ns'.
Proof.
  revert s. induction its as [|it its IH]; intros s; simpl; [intros He _; apply He|].
  intros (s1 & [_ Hf] & Hs) Hne. rewrite (IH s1) by (done || set_solver). apply Hf. set_solver.
Qed.

(** The objects outside the plan are as they were. *)
Definition untouched (ns : string) (its : list item) (s s' : store) : Prop :=
  ∀ k n ns', (∀ it, it ∈ its → (k, n, ns') ≠ (it_kind it, it_name it, ns)) → s' k n ns' = s k n ns'.

Lemma untouched_app ns l1 l2 s1 s2 s3 :
  items_applied ns l1 s1 s2 → untouched ns l2 s2 s3 → untouched ns (l1 ++ l2) s1 s3.
Proof.
  intros H1 H2 k n ns' Hne. rewrite H2 by set_solver.
  eapply items_applied_frame; [done|]. set_solver.
Qed.

(** With distinct keys, each object of the plan is changed once and the rest
    of the store is untouched. *)
Lemma items_applied_lookup ns its s s' it :
  NoDup (key <$> its) → items_applied ns its s s' → it ∈ its →
  ∃ y, it_mutate it (base_object s (it_kind it) (it_name it) ns) = Ok y ∧
       s' (it_kind it) (it_name it) ns = Some y.
Proof.
  revert s. induction its as [|i its IH]; intros s; [by intros _ _ ?%elem_of_nil|].
  rewrite fmap_cons. intros [Hnin Hnd]%list.NoDup_cons (s1 & [(y & Hy & Hs1) Hf] & Hs).
  assert (Hkey : ∀ j, j ∈ its → key j ≠ key i).
  { intros j Hj Hk. apply Hnin. rewrite <- Hk. by apply list_elem_of_fmap_2. }
  intros [->|Hin]%elem_of_cons.
  - exists y. split; [done|]. rewrite <- Hs1. eapply items_applied_frame; [done|].
    intros j Hj [= Hk Hn]. apply (Hkey j Hj). unfold key. by f_equal.
  - destruct (IH s1) as (z & Hz & Hs'); [done..|]. exists z. split; [|done].
    rewrite <- Hz. unfold base_object. rewrite Hf; [done|]. intros [= Hk Hn].
    apply (Hkey it Hin). unfold key. by f_equal.
Qed.

(** Items that make the same change. *)
Inductive item_equiv : item → item → Prop :=
| item_equiv_intro k n f g : (∀ x, g x = f x) → item_equiv (mkItem k n f) (mkItem k n g).

Lemma items_applied_ext ns l l' s s' :
  Forall2 item_equiv l l' → items_applied ns l s s' → items_applied ns l' s s'.
Proof.
  intros Hl. revert s. induction Hl as [|a b l l' [k n f g Hfg] _ IH]; intros s; [done|]. simpl.
  intros (s1 & [(y & Hy & Hs1) Hf] & Hl). exists s1. split; [|by apply IH]. simpl in *.
  split; [|done]. exists y. simpl. by rewrite Hfg.
Qed.

(** ** Running a list of items *)
Definition upd (s : store) (k : kind) (n ns : string) (y : obj k) : store :=
  λ k' n' ns',
    match decide (k = k') with
    | left e => if bool_decide (n = n' ∧ ns = ns') then Some (eq_rect k obj y k' e) else s k' n' ns'
    | right _ => s k' n' ns'
    end.

Fixpoint apply_items (ns : string) (its : list item) (s : store) : result store :=
  match its with
  | [] => Ok s
  | it :: its' =>
      let? y := it_mutate it (base_object s (it_kind it) (it_name it) ns) in
      apply_items ns its' (upd s (it_kind it) (it_name it) ns y)
  end.

Lemma upd_eq s k n ns y : upd s k n ns y k n ns = Some y.
Proof.
  unfold upd. destruct (decide (k = k)) as [e|]; [|done]. rewrite bool_decide_eq_true_2 by done.
  by rewrite (proof_irrel e eq_refl).
Qed.

Lemma upd_ne s k n ns y k' n' ns' :
  (k', n', ns') ≠ (k, n, ns) → upd s k n ns y k' n' ns' = s k' n' ns'.
Proof.
  intros Hne. unfold upd. destruct (decide (k = k')) as [->|]; [|done].
  rewrite bool_decide_eq_false_2; [done|]. intros [-> ->]. done.
Qed.

Lemma apply_items_spec ns its s s' : apply_items ns its s = Ok s' → items_applied ns its s s'.
Proof.
  revert s. induction its as [|it its IH]; intros s; simpl; [by intros [= ->]|].
  intros (y & Hy & Hs)%rbind_ok. eexists. split; [|by apply IH]. split.
  - exists y. split; [done|]. apply upd_eq.
  - intros. by apply upd_ne.
Qed.

(** ** Applying a plan again *)

(** [b] leaves alone what [a] has produced. *)
Inductive again : item → item → Prop :=
| again_intro k n f g : (∀ x y, f x = Ok y → g y = Ok y) → again (mkItem k n f) (mkItem k n g).

Lemma again_keys l l' : Forall2 again l l' → key <$> l' = key <$> l.
Proof. induction 1 as [|a b l l' [] _ IH]; [done|]. rewrite !fmap_cons. by rewrite IH. Qed.

Lemma items_applied_again ns l l' s s1 s2 :
  NoDup (key <$> l) → Forall2 again l l' →
  items_applied ns l s s1 → items_applied ns l' s1 s2 → s1 ≡ s2.
Proof.
  intros Hnd Hag H1 H2 k n ns'.
  destruct (decide (ns' = ns ∧ (k, n) ∈ key <$> l')) as [[-> Hin]|Hout].
  2: { eapply items_applied_frame; [done|]. intros it Hit [= -> -> ->]. apply Hout.
       split; [done|]. by apply (list_elem_of_fmap_2 key). }
  apply list_elem_of_fmap in Hin as (b & [= -> ->] & Hb).
  destruct (list_elem_of_lookup_1 _ _ Hb) as [i Hi].
  destruct (Forall2_lookup_r _ _ _ _ _ Hag Hi) as (a & Ha%list_elem_of_lookup_2 & Hab).
  destruct (items_applied_lookup ns l' s1 s2 b) as (y2 & Hy2 & Hs2); [by rewrite (again_keys l)|done..|].
  destruct (items_applied_lookup ns l s s1 a) as (y1 & Hy1 & Hs1); [done..|].
  destruct Hab as [k n f g Hfg]. simpl in *. rewrite Hs2, Hs1. unfold base_object in Hy2.
  rewrite Hs1 in Hy2. simpl in Hy2. rewrite (Hfg _ _ Hy1) in Hy2. congruence.
Qed.

(** ** The plan of a cluster *)
Section Plan.
Context `{!Machinery} `{!MachineryLaws}.
Implicit Types c : LLMInferenceCluster.

Definition child (c : LLMInferenceCluster) (suffix : string) : string :=
  om_Name (lic_Meta c) +:+ suffix.

Definition signals_items c : list item :=
  if autoscaling_enabled c
  then [mkItem KConfigMap (child c "-signals") (mutate_signals c (baseLabels c))] else [].

Definition service_item c (suffix role : string) (ports : list ServicePort) : item :=
  mkItem KService (child c suffix) (mutate_service c (roleLabels (baseLabels c) role) ports).

Definition rbac_items c : list item :=
  let sa := child c "-router" in
  let ns := om_Namespace (lic_Meta c) in
  [mkItem KServiceAccount sa (mutate_sa c (baseLabels c));
   mkItem KRole sa (mutate_role c (baseLabels c));
   mkItem KRoleBinding sa
     (mutate_rolebinding c (baseLabels c) (new_obj KRole sa ns) (new_obj KServiceAccount sa ns))].

Definition role_deployment c (suffix role : string) (override : option Z) : item :=
  mkItem KDeployment (child c suffix)
    (mutate_role_deployment c role (child c suffix) (baseLabels c) override).

Definition router_deployment c : item :=
  mkItem KDeployment (child c "-router")
    (mutate_router_deployment c (child c "-shardmap") (child c "-router") (baseLabels c)).

Definition deployment_items c (override : option Z) : list item :=
  [role_deployment c "-decode" roleDecode override; role_deployment c "-prefill" rolePrefill None;
   router_deployment c].

Definition shardmap_item c (json : string) : item :=
  mkItem KConfigMap (child c "-shardmap") (mutate_shardmap c (baseLabels c) json).

(** All children of a cluster, given the ports of its roles, the replicas
    that autoscaling asks for and the shard map to publish. *)
Definition role_items c (dp pp : Z) (override : option Z) (json : string) : list item :=
  [service_item c "-decode" roleDecode (role_ports dp);
   service_item c "-prefill" rolePrefill (role_ports pp);
   service_item c "-router" roleRouter router_ports] ++
  rbac_items c ++ deployment_items c override ++ [shardmap_item c json].

Definition plan c (dp pp : Z) (override : option Z) (json : string) : list item :=
  signals_items c ++ role_items c dp pp override json.

(** The keys of the plan. *)
Definition child_keys c : list (kind * string) :=
  (if autoscaling_enabled c then [(KConfigMap, child c "-signals")] else []) ++
  [(KService, child c "-decode"); (KService, child c "-prefill"); (KService, child c "-router");
   (KServiceAccount, child c "-router"); (KRole, child c "-router");
   (KRoleBinding, child c "-router");
   (KDeployment, child c "-decode"); (KDeployment, child c "-prefill");
   (KDeployment, child c "-router"); (KConfigMap, child c "-shardmap")].

Lemma plan_child_keys c dp pp o j : key <$> plan c dp pp o j = child_keys c.
Proof. unfold plan, signals_items, child_keys. by destruct (autoscaling_enabled c). Qed.

Lemma child_inj c a b : child c a = child c b → a = b.
Proof. apply (inj (String.append _)). Qed.

Lemma plan_keys c dp pp o j : NoDup (key <$> plan c dp pp o j).
Proof.
  unfold plan, signals_items. destruct (autoscaling_enabled c); simpl; unfold key; simpl;
    repeat (apply NoDup_cons_2; [rewrite ?elem_of_cons; intros Hin;
      destruct_or? Hin; try (apply elem_of_nil in Hin); try done;
      try (injection Hin as Hin%child_inj; done)|]);
    apply NoDup_nil_2.
Qed.

(** ** Changes are idempotent *)

(** An object that carries the labels and the owner keeps its metadata. *)
Lemma owned_again c L m m' :
  SetControllerReference c (set_labels L m) = Ok m' →
  SetControllerReference c (set_labels L m') = Ok m'.
Proof.
  intros Hm. destruct (scr_owner _ _ _ Hm) as (os & -> & _). exact (scr_again _ _ _ Hm).
Qed.

(** The metadata that a change leaves: name and namespace are kept, the
    labels are set and the cluster is the controller. *)
Lemma owned_meta c L m m' :
  SetControllerReference c (set_labels L m) = Ok m' →
  om_Name m' = om_Name m ∧ om_Namespace m' = om_Namespace m ∧ om_Labels m' = L ∧
  controls c m'.
Proof. intros Hm. by destruct (scr_owner _ _ _ Hm) as (os & -> & Hr). Qed.

#[local] Ltac mutated :=
  repeat match goal with
  | H : rbind _ _ = Ok _ |- _ => apply rbind_ok in H as (? & ? & ?)
  | H : Ok _ = Ok _ |- _ => injection H as <-
  end.
#[local] Ltac mutated_again :=
  mutated; simpl; erewrite owned_again by done; simpl; try done.

Lemma mutate_service_again c L ports x y :
  mutate_service c L ports x = Ok y → mutate_service c L ports y = Ok y.
Proof. unfold mutate_service. intros Hy. mutated_again. Qed.

Lemma mutate_sa_again c B x y : mutate_sa c B x = Ok y → mutate_sa c B y = Ok y.
Proof. unfold mutate_sa. intros Hy. mutated_again. Qed.

Lemma mutate_role_again c B x y : mutate_role c B x = Ok y → mutate_role c B y = Ok y.
Proof. unfold mutate_role. intros Hy. mutated_again. Qed.

Lemma mutate_rolebinding_again c B r a x y :
  mutate_rolebinding c B r a x = Ok y → mutate_rolebinding c B r a y = Ok y.
Proof. unfold mutate_rolebinding. intros Hy. mutated_again. Qed.

Lemma mutate_shardmap_again c B j x y :
  mutate_shardmap c B j x = Ok y → mutate_shardmap c B j y = Ok y.
Proof. unfold mutate_shardmap. intros Hy. mutated_again. by rewrite insert_insert_eq. Qed.

Lemma init_key_lookup k k' d :
  init_key k d !! k' = if bool_decide (k = k') then Some (default "0" (d !! k')) else d !! k'.
Proof.
  unfold init_key. case_bool_decide as E.
  - subst. destruct (d !! k') eqn:Ed; [by rewrite Ed|]. by rewrite lookup_insert_eq.
  - destruct (d !! k); [done|]. by rewrite lookup_insert_ne.
Qed.

Lemma init_key_id k d : is_Some (d !! k) → init_key k d = d.
Proof. intros [v E]. unfold init_key. by rewrite E. Qed.

Lemma init_key_some k k' d : k = k' ∨ is_Some (d !! k') → is_Some (init_key k d !! k').
Proof.
  rewrite init_key_lookup. case_bool_decide; [by eexists|]. by intros [?|?].
Qed.

Lemma mutate_signals_again c B x y :
  mutate_signals c B x = Ok y → mutate_signals c B y = Ok y.
Proof.
  unfold mutate_signals. intros Hy. mutated_again.
  match goal with |- _ = Ok (mkConfigMap _ (Some ?d) _) => set (D := d) end.
  assert (is_Some (D !! "queueDepth") ∧ is_Some (D !! "tokensPerSecond") ∧
          is_Some (D !! "memPressure")) as (Hq & Ht & Hm).
  { split_and!; repeat (apply init_key_some; first [by left|right]). }
  by rewrite (init_key_id _ _ Hq), (init_key_id _ _ Ht), (init_key_id _ _ Hm).
Qed.

Lemma update_first_again n f cs cs' :
  (∀ x y, f x = Ok y → f y = Ok y) →
  update_first n f cs = Ok cs' → update_first n f cs' = Ok cs'.
Proof.
  intros Hf. unfold update_first. destruct (default _ cs) as [|x l]; [done|].
  intros Hy. mutated. simpl. by erewrite Hf.
Qed.

Lemma worker_container_again c role n x y :
  worker_container c role n x = Ok y → worker_container c role n y = Ok y.
Proof. unfold worker_container. by intros [= <-]. Qed.

Lemma router_container_again c n x y :
  router_container c n x = Ok y → router_container c n y = Ok y.
Proof.
  unfold router_container. intros Hy. mutated.
  repeat match goal with H : go_deref _ = Ok _ |- _ => rewrite H end. done.
Qed.

Lemma mutate_role_deployment_again c role n B o x y :
  mutate_role_deployment c role n B o x = Ok y → mutate_role_deployment c role n B o y = Ok y.
Proof.
  unfold mutate_role_deployment. intros Hy. mutated. simpl.
  erewrite update_first_again by (done || apply worker_container_again). mutated_again.
Qed.

Lemma mutate_router_deployment_again c sm sa B x y :
  mutate_router_deployment c sm sa B x = Ok y → mutate_router_deployment c sm sa B y = Ok y.
Proof.
  unfold mutate_router_deployment. intros Hy. mutated. simpl.
  erewrite update_first_again by (done || apply router_container_again). mutated_again.
Qed.

#[local] Hint Resolve mutate_signals_again mutate_service_again mutate_sa_again mutate_role_again
  mutate_rolebinding_again mutate_shardmap_again mutate_role_deployment_again
  mutate_router_deployment_again : go.

(** ** The plan depends on the identity and the spec of the cluster only *)
Definition same_intent (c c' : LLMInferenceCluster) : Prop :=
  same_owner c c' ∧ lic_Spec c' = lic_Spec c.

#[export] Instance same_intent_equiv : Equivalence same_intent.
Proof.
  split.
  - done.
  - intros c c' [(?&?&?) ?]. by repeat split.
  - intros c1 c2 c3 [(?&?&?) ?] [(?&?&?) ?]. repeat split; congruence.
Qed.

#[local] Ltac intent :=
  intros [Hown Hspec]; pose proof Hown as (Hn & Hns & _);
  rewrite ?(scr_ext _ _ _ Hown), ?Hspec, ?Hn, ?Hns.

Lemma baseLabels_intent c c' : same_intent c c' → baseLabels c' = baseLabels c.
Proof. unfold baseLabels. intent. done. Qed.

Lemma mutate_service_intent c c' L ports x :
  same_intent c c' → mutate_service c' L ports x = mutate_service c L ports x.
Proof. unfold mutate_service. intent. done. Qed.

Lemma mutate_signals_intent c c' B x :
  same_intent c c' → mutate_signals c' B x = mutate_signals c B x.
Proof. unfold mutate_signals. intent. done. Qed.

Lemma mutate_shardmap_intent c c' B j x :
  same_intent c c' → mutate_shardmap c' B j x = mutate_shardmap c B j x.
Proof. unfold mutate_shardmap. intent. done. Qed.

Lemma mutate_sa_intent c c' B x : same_intent c c' → mutate_sa c' B x = mutate_sa c B x.
Proof. unfold mutate_sa. intent. done. Qed.

Lemma mutate_role_intent c c' B x : same_intent c c' → mutate_role c' B x = mutate_role c B x.
Proof. unfold mutate_role. intent. done. Qed.

Lemma mutate_rolebinding_intent c c' B r a x :
  same_intent c c' → mutate_rolebinding c' B r a x = mutate_rolebinding c B r a x.
Proof. unfold mutate_rolebinding. intent. done. Qed.

Lemma mutate_role_deployment_intent c c' role n B o x :
  same_intent c c' →
  mutate_role_deployment c' role n B o x = mutate_role_deployment c role n B o x.
Proof.
  unfold mutate_role_deployment, role_replicas, update_first, worker_container, worker_env,
    servicePortForRole. intent. destruct (default _ _); [done|]. simpl.
  by rewrite ?(scr_ext _ _ _ Hown).
Qed.

Lemma router_container_intent c c' n x :
  same_intent c c' → router_container c' n x = router_container c n x.
Proof. unfold router_container. intent. done. Qed.

Lemma mutate_router_deployment_intent c c' sm sa B x :
  same_intent c c' →
  mutate_router_deployment c' sm sa B x = mutate_router_deployment c sm sa B x.
Proof.
  intros Hc. unfold mutate_router_deployment, update_first. destruct (default _ _); [done|].
  rewrite (router_container_intent c c') by done. revert Hc. by intent.
Qed.

Lemma child_intent c c' a : same_intent c c' → child c' a = child c a.
Proof. unfold child. intent. done. Qed.

Lemma plan_again c c' dp pp o j :
  same_intent c c' → Forall2 again (plan c dp pp o j) (plan c' dp pp o j).
Proof.
  intros Hc. pose proof Hc as [(_ & Hns & _) Hspec].
  assert (autoscaling_enabled c' = autoscaling_enabled c) as Ha
    by (unfold autoscaling_enabled; by rewrite Hspec).
  unfold plan, role_items, signals_items, service_item, rbac_items, deployment_items, role_deployment,
    router_deployment, shardmap_item.
  rewrite Ha, (baseLabels_intent c c' Hc), Hns, !(child_intent c c' _ Hc).
  apply Forall2_app; [destruct (autoscaling_enabled c)|simpl]; repeat constructor;
    intros x y Hy;
    rewrite ?(mutate_signals_intent c c'), ?(mutate_service_intent c c'), ?(mutate_sa_intent c c'),
      ?(mutate_role_intent c c'), ?(mutate_rolebinding_intent c c'), ?(mutate_shardmap_intent c c'),
      ?(mutate_role_deployment_intent c c'), ?(mutate_router_deployment_intent c c') by done;
    eauto with go.
Qed.

(** C2: reconciling again changes nothing: for a cluster with the same
    identity and spec, the same replicas and the same shard map, applying the
    plan to a store where it has been applied leaves every object as it is,
    in particular the labels, owner references, containers and ConfigMap keys
    of the children are not rewritten, duplicated or dropped. *)
Theorem plan_converges (c c' : LLMInferenceCluster) (dp pp : Z) (ov : option Z) (json ns : string)
    (s s1 s2 : store) :
  same_intent c c' →
  items_applied ns (plan c dp pp ov json) s s1 →
  items_applied ns (plan c' dp pp ov json) s1 s2 →
  s1 ≡ s2.
Proof.
  intros Hc. apply items_applied_again; [apply plan_keys|by apply plan_again].
Qed.

End Plan.

(** ** Witness *)
Definition ok_or {A : Type} (d : A) (r : result A) : A := match r with Ok a => a | _ => d end.

Lemma is_ok_or {A} (d : A) r : is_ok r = true → r = Ok (ok_or d r).
Proof. by destruct r. Qed.

Definition empty_store : store := λ _ _ _, None.
Definition sample_plan : list item := plan (apply_defaults sample_cluster) 8000 8001 (Some 3) "{}".
Definition sample_once : store := ok_or empty_store (apply_items "default" sample_plan empty_store).
Definition sample_twice : store := ok_or sample_once (apply_items "default" sample_plan sample_once).

Lemma plan_converges_witness :
  sample_once ≡ sample_twice ∧
  is_Some (sample_twice KDeployment "llminferencecluster-sample-decode" "default").
Proof.
  split; [|vm_compute; eexists; reflexivity].
  apply (plan_converges (apply_defaults sample_cluster) (apply_defaults sample_cluster) 8000 8001
           (Some 3) "{}" "default" empty_store).
  - reflexivity.
  - apply apply_items_spec, is_ok_or. vm_compute. reflexivity.
  - apply apply_items_spec, is_ok_or. vm_compute. reflexivity.
Defined.
