(* ===== verification/Refine.v ===== *)
(** * The reconciler implements the plan

    For a client whose API server obeys the store laws: a reconciliation that
    ends without an error has applied exactly the plan of the cluster, one
    that fails has applied a prefix of it, and none panics. *)
From S2P Require Import Prelude Strconv ShardMap Types Defaults Kube Signals Autoscale Resources Shards Reconcile Laws Trace Memory Hoare Sample Calls Outcome Plan.
From stdpp Require Import options.
#[local] Set Default Proof Using "Type*".

#[local] Abbreviation any := (λ _ _ _, True).

Section Performs.
Context {W : Type} `{!Client W} `{!StoreLaws W}.
Implicit Types (c : LLMInferenceCluster) (w : W).

Definition store_of (w : W) : store := λ k, stored k w.

(** ** Runs

    One call of the API, whatever its arguments and its answer; a run makes
    such calls one after the other. *)
Inductive api_step : W → W → Prop :=
| step_get nn w w' r : get_cluster nn w = (w', r) → api_step w w'
| step_patch c o w w' r : patch_cluster c o w = (w', r) → api_step w w'
| step_update c w w' r : update_cluster c w = (w', r) → api_step w w'
| step_spatch c o w w' r : status_patch c o w = (w', r) → api_step w w'
| step_supdate c w w' r : status_update c w = (w', r) → api_step w w'
| step_cou k n ns f w w' r : create_or_update k n ns f w = (w', r) → api_step w w'
| step_getcm nn w w' r : get_configmap nn w = (w', r) → api_step w w'
| step_list ns l w w' r : list_pods ns l w = (w', r) → api_step w w'
| step_now w w' t : now w = (w', t) → api_step w w'.
#[local] Hint Constructors api_step : core.

(** Between [w] and [w'], a part of the run went from one world to another as
    [E] says. *)
Definition during (w w' : W) (E : W → W → Prop) : Prop :=
  ∃ w1 w2, rtc api_step w w1 ∧ E w1 w2 ∧ rtc api_step w2 w'.

Lemma during_extend w0 w w' w3 E :
  rtc api_step w0 w → rtc api_step w' w3 → during w w' E → during w0 w3 E.
Proof.
  intros H1 H3 (u & v & Hu & HE & Hv). exists u, v. split_and!; [by etrans|done|by etrans].
Qed.

Lemma during_now w w' (E : W → W → Prop) : E w w' → during w w' E.
Proof. intros HE. exists w, w'. split_and!; [apply rtc_refl|done|apply rtc_refl]. Qed.

(** [performs ns m its Q]: [m] runs by calls of the API, applies the items to
    the objects of the namespace and, from [w], ends in a world [w'] with a
    value [a] such that [Q w w' a]; on an error it has touched no other
    object; it does not panic. *)
Definition performs {A : Type} (ns : string) (m : M W A) (its : list item) (Q : W → W → A → Prop)
  : Prop :=
  ∀ w, wp m (λ w' r, rtc api_step w w' ∧
                     match r with
                     | Ok a => Q w w' a ∧ items_applied ns its (store_of w) (store_of w')
                     | Err _ => untouched ns its (store_of w) (store_of w')
                     | Panic _ => False
                     end) w.

Lemma performs_weaken {A} ns (m : M W A) l (Q Q' : W → W → A → Prop) :
  performs ns m l Q → (∀ w w' a, rtc api_step w w' → Q w w' a → Q' w w' a) → performs ns m l Q'.
Proof.
  intros Hm HQ w. eapply wp_mono; [apply Hm|]. intros w' r [Hr H]. split; [done|].
  destruct r; [|done|done]. destruct H. split; [by apply HQ|done].
Qed.

Lemma performs_ret {A} ns (a : A) (Q : W → W → A → Prop) :
  (∀ w, Q w w a) → performs ns (mret a) [] Q.
Proof. intros HQ w. wp_step. split; [apply rtc_refl|]. by split. Qed.

Lemma performs_lift {A} ns (r : result A) (Q : W → W → A → Prop) :
  panics r = false → (∀ w a, r = Ok a → Q w w a) → performs ns (mlift r) [] Q.
Proof.
  intros Hp HQ w. wp_step. split; [apply rtc_refl|]. destruct r; [by split; [apply HQ|]|done|done].
Qed.

(** A read: it changes no object. *)
Lemma performs_read {A} ns (m : M W A) :
  (∀ w w' r, m w = (w', r) → panics r = false ∧ ∀ k n ns, stored k w' n ns = stored k w n ns) →
  (∀ w w' r, m w = (w', r) → api_step w w') →
  performs ns m [] (λ w w' a, m w = (w', Ok a)).
Proof.
  intros Hm Hst w. apply wp_intro. intros w' r E. destruct (Hm _ _ _ E) as [Hp Hs].
  split; [by eapply rtc_once, Hst|]. destruct r; [done| |done]. intros k n ns' _. apply Hs.
Qed.

Lemma performs_now ns : performs ns mnow [] (λ w w' t, now w = (w', t)).
Proof.
  intros w. apply wp_intro. unfold mnow. destruct (now w) as [w' t] eqn:E. intros ? ? [= <- <-].
  split; [by eapply rtc_once, step_now|]. split; [done|]. intros k n ns'. by eapply now_stored.
Qed.

(** A change that does not panic on a stored or a new object. *)
Definition item_safe (ns : string) (it : item) : Prop :=
  ∀ w, panics (it_mutate it (base_object (store_of w) (it_kind it) (it_name it) ns)) = false.

Lemma performs_apply ns it :
  item_safe ns it →
  performs ns (create_or_update (it_kind it) (it_name it) ns (it_mutate it)) [it]
    (λ w _ y, it_mutate it (base_object (store_of w) (it_kind it) (it_name it) ns) = Ok y).
Proof.
  intros Hsafe w. apply wp_intro. intros w' r E. split; [by eapply rtc_once, step_cou|].
  destruct r as [y|e|p].
  - destruct (cou_stored _ _ _ _ _ _ _ E) as [Hy Hs]. split; [done|].
    exists (store_of w'). split; [|done]. split; [by exists y|].
    intros k n ns' Hne. by eapply cou_frame.
  - intros k n ns' Hne. eapply cou_frame; [done|]. apply Hne. set_solver.
  - destruct (cou_panic _ _ _ _ _ _ _ E) as [p' Hp]. specialize (Hsafe w).
    unfold base_object, store_of in Hsafe. by rewrite Hp in Hsafe.
Qed.

Lemma performs_bind {A B} ns (m : M W A) (k : A → M W B) l1 l2
    (Q1 : W → W → A → Prop) (Q : W → W → B → Prop) :
  performs ns m l1 Q1 →
  (∀ w w1 a, rtc api_step w w1 → Q1 w w1 a →
     performs ns (k a) l2 (λ u w2 b, u = w1 → Q w w2 b)) →
  ∀ l, l = l1 ++ l2 → performs ns (mbind' m k) l Q.
Proof.
  intros Hm Hk l -> w. wp_step. eapply wp_mono; [apply Hm|].
  intros w' [a|e|p] [Hw Hr]; unfold after.
  - destruct Hr as [HQ H1]. eapply wp_mono; [by eapply Hk|].
    intros w'' r [Hw' H]. split; [by etrans|]. destruct r as [b|e|p]; [|by eapply untouched_app|done].
    destruct H as [Hb H2]. split; [by apply Hb|]. by eapply items_applied_app.
  - wp_step. split; [done|]. intros k' n ns' Hne. apply Hr. set_solver.
  - done.
Qed.

End Performs.

Section Refine.
Context {W : Type} `{!Client W} `{!StoreLaws W} `{!Machinery} `{!MachineryLaws}.
Implicit Types (c : LLMInferenceCluster) (w : W).

(** ** No change panics *)
Lemma owned_panics {A} c m (f : ObjectMeta → A) :
  panics (let? m' := SetControllerReference c m in Ok (f m')) = false.
Proof. pose proof (scr_no_panic c m). by destruct (SetControllerReference c m). Qed.

Lemma base_containers w n ns :
  ∃ x l, default [named_container "worker"]
           (dep_Containers (base_object (store_of w) KDeployment n ns)) = x :: l ∧
         ∃ y l', default [named_container "router"]
           (dep_Containers (base_object (store_of w) KDeployment n ns)) = y :: l'.
Proof.
  unfold base_object, store_of. destruct (stored KDeployment w n ns) as [d|] eqn:E; simpl; [|by repeat eexists].
  apply deployment_containers in E. destruct (dep_Containers d) as [[|x l]|]; simpl; [done|by repeat eexists..].
Qed.

Lemma role_deployment_safe ns c role n sn B o :
  item_safe ns (mkItem KDeployment n (mutate_role_deployment c role sn B o)).
Proof.
  intros w. simpl. unfold mutate_role_deployment, update_first.
  destruct (base_containers w n ns) as (x & l & -> & _). apply owned_panics.
Qed.

Lemma router_deployment_safe ns c n sm sa B :
  is_Some (role_ServicePort (rt_Decode (spec_Runtime (lic_Spec c)))) →
  is_Some (role_ServicePort (rt_Prefill (spec_Runtime (lic_Spec c)))) →
  item_safe ns (mkItem KDeployment n (mutate_router_deployment c sm sa B)).
Proof.
  intros [dp Hd] [pp Hp] w. simpl. unfold mutate_router_deployment, update_first, router_container.
  destruct (base_containers w n ns) as (_ & _ & _ & x & l & ->). rewrite Hd, Hp. apply owned_panics.
Qed.

(** ** What each handler performs *)
Lemma performs_unit {A} ns (m : M W A) l (Q : W → W → A → Prop) :
  performs ns m l Q → performs ns (let! _ := m in mret tt) l any.
Proof.
  intros Hm. eapply performs_bind; [done| |by rewrite app_nil_r]. intros. by apply performs_ret.
Qed.

Lemma performs_item ns k n (f : obj k → result (obj k)) :
  item_safe ns (mkItem k n f) →
  performs ns (let! _ := create_or_update k n ns f in mret tt) [mkItem k n f] any.
Proof. intros Hs. eapply performs_unit, (performs_apply ns (mkItem k n f) Hs). Qed.

Lemma performs_role_service c role n port B :
  performs (om_Namespace (lic_Meta c)) (reconcileRoleService c role n port B)
    [mkItem KService n (mutate_service c (roleLabels B role) (role_ports port))] any.
Proof. apply performs_item. intros w. apply owned_panics. Qed.

Lemma performs_router_service c n B :
  performs (om_Namespace (lic_Meta c)) (reconcileRouterService c n B)
    [mkItem KService n (mutate_service c (roleLabels B roleRouter) router_ports)] any.
Proof. apply performs_item. intros w. apply owned_panics. Qed.

Lemma performs_role_deployment c role sn B o :
  performs (om_Namespace (lic_Meta c)) (reconcileRoleDeployment c role sn B o)
    [mkItem KDeployment (child c ("-" +:+ role)) (mutate_role_deployment c role sn B o)] any.
Proof. apply performs_item, role_deployment_safe. Qed.

Lemma performs_router_deployment c sm sa B :
  is_Some (role_ServicePort (rt_Decode (spec_Runtime (lic_Spec c)))) →
  is_Some (role_ServicePort (rt_Prefill (spec_Runtime (lic_Spec c)))) →
  performs (om_Namespace (lic_Meta c)) (reconcileRouterDeployment c sm sa B)
    [mkItem KDeployment (child c "-router") (mutate_router_deployment c sm sa B)] any.
Proof. intros. by apply performs_item, router_deployment_safe. Qed.

Lemma performs_shardmap c n B j :
  performs (om_Namespace (lic_Meta c)) (reconcileShardMapConfigMap c n B j)
    [mkItem KConfigMap n (mutate_shardmap c B j)] any.
Proof. apply performs_item. intros w. apply owned_panics. Qed.

Lemma performs_signals c n B :
  performs (om_Namespace (lic_Meta c)) (reconcileSignalsConfigMap c n B)
    [mkItem KConfigMap n (mutate_signals c B)] any.
Proof. apply performs_item. intros w. apply owned_panics. Qed.

Lemma base_named w k n ns :
  om_Name (obj_meta (base_object (store_of w) k n ns)) = n ∧
  om_Namespace (obj_meta (base_object (store_of w) k n ns)) = ns.
Proof.
  unfold base_object, store_of. destruct (stored k w n ns) eqn:E; [by apply (stored_named k w)|].
  by destruct k.
Qed.

Lemma performs_rbac c sa B :
  let ns := om_Namespace (lic_Meta c) in
  performs ns (reconcileRouterRBAC c sa B)
    [mkItem KServiceAccount sa (mutate_sa c B); mkItem KRole sa (mutate_role c B);
     mkItem KRoleBinding sa
       (mutate_rolebinding c B (new_obj KRole sa ns) (new_obj KServiceAccount sa ns))] any.
Proof.
  intros ns. unfold reconcileRouterRBAC.
  eapply performs_bind; [apply (performs_apply ns (mkItem KServiceAccount sa (mutate_sa c B)));
    intros w; apply owned_panics| |reflexivity].
  intros w1 w1' a _ Ha. eapply performs_bind; [apply (performs_apply ns (mkItem KRole sa (mutate_role c B)));
    intros w; apply owned_panics| |reflexivity].
  intros w2 w2' r _ Hr. simpl in *.
  destruct (base_named w1 KServiceAccount sa ns) as [Hn1 Hns1].
  destruct (base_named w2 KRole sa ns) as [Hn2 _].
  apply rbind_ok in Ha as (m1 & (Hm1 & Hm1' & _)%owned_meta & [= <-]).
  apply rbind_ok in Hr as (m2 & (Hm2 & _)%owned_meta & [= <-]).
  simpl in *. rewrite Hn1 in Hm1. rewrite Hns1 in Hm1'. rewrite Hn2 in Hm2.
  unfold mutate_rolebinding at 1. simpl. rewrite Hm1, Hm1', Hm2.
  eapply performs_weaken; [apply (performs_item ns KRoleBinding sa (mutate_rolebinding c B
    (new_obj KRole sa ns) (new_obj KServiceAccount sa ns))); intros w; apply owned_panics|done].
Qed.

(** The signals that the adapter read in the run from [w] to [w']. *)
Definition signals_read (w w' : W) c (sig : Signals) : Prop :=
  during w w' (λ u v, Read (signals_adapter c (child c "-signals")) u = (v, Ok sig)).

(** The replicas autoscaling asks for: none when it is disabled. *)
Definition override_ok (w w' : W) c (ov : option Z) : Prop :=
  if autoscaling_enabled c
  then ∃ sig, signals_read w w' c sig ∧ ov = Some (desired_replicas (scaling_bounds c) sig)
  else ov = None.

(** The pods that the API server listed, and the clock that was read next, in
    the run from [w] to [w']. *)
Definition pods_listed (w w' : W) c (pods : list Pod) (t : Z) : Prop :=
  during w w' (λ u v, ∃ x,
    list_pods (om_Namespace (lic_Meta c)) (roleLabels (baseLabels c) roleDecode) u = (x, Ok pods) ∧
    now x = (v, t)).

(** The shards and the document computed from these pods. *)
Definition shards_computed (w w' : W) c (shards : list ShardStatus) (json : string) : Prop :=
  ∃ pods t, pods_listed w w' c pods t ∧
    shard_map_of pods (derefInt32 (kv_NumShards (spec_KVCache (lic_Spec c))) 8) t = Ok (shards, json).

Lemma override_extend w0 w w' w3 c ov :
  rtc api_step w0 w → rtc api_step w' w3 → override_ok w w' c ov → override_ok w0 w3 c ov.
Proof.
  intros H1 H3. unfold override_ok. destruct (autoscaling_enabled c); [|done].
  intros (sig & Hs & ->). exists sig. split; [by eapply during_extend|done].
Qed.

Lemma shards_extend w0 w w' w3 c shards json :
  rtc api_step w0 w → rtc api_step w' w3 →
  shards_computed w w' c shards json → shards_computed w0 w3 c shards json.
Proof.
  intros H1 H3 (pods & t & Hl & Hs). exists pods, t. split; [by eapply during_extend|done].
Qed.

Lemma performs_Read ns a : performs ns (Read a) [] (λ w w' sig, Read a w = (w', Ok sig)).
Proof.
  destruct a as [n m|url]; simpl.
  - unfold Fake_Read. eapply performs_bind;
      [apply performs_read; [apply getcm_stored|eauto using step_getcm]| |reflexivity].
    intros w w1 cm _ E. apply performs_ret. intros ? ->. unfold mbind'. by rewrite E.
  - by apply performs_lift.
Qed.

Lemma performs_condition ns c t st re ms :
  performs ns (condition_now c t st re ms) [] (λ _ _ c', same_source c c').
Proof.
  unfold condition_now. eapply performs_bind; [apply performs_now| |reflexivity].
  intros w w1 tm _ _. apply performs_ret. intros _ _. by apply same_source_condition.
Qed.

Lemma performs_computeDecodeReplicas ns c :
  performs ns (computeDecodeReplicas c (child c "-signals")) []
    (λ w w' '(z, _), ∃ sig, signals_read w w' c sig ∧ z = desired_replicas (scaling_bounds c) sig).
Proof.
  unfold computeDecodeReplicas.
  eapply performs_bind; [apply performs_Read| |reflexivity].
  intros w w1 sig _ Hsig. apply performs_ret. intros ? ->. exists sig. split; [by apply during_now|done].
Qed.

Lemma performs_autoscaling c :
  performs (om_Namespace (lic_Meta c)) (reconcileAutoscaling c (child c "-signals") (baseLabels c))
    (signals_items c) (λ w w' '(c', ov), same_source c c' ∧ override_ok w w' c ov).
Proof.
  unfold reconcileAutoscaling, signals_items, override_ok.
  destruct (autoscaling_enabled c); [|by apply performs_ret].
  eapply performs_bind; [apply performs_signals| |by rewrite app_nil_r]. intros w w1 _ H1 _.
  eapply performs_bind; [apply performs_computeDecodeReplicas| |reflexivity].
  intros u w2 [z b] H2 (sig & Hsig & ->).
  eapply performs_bind; [destruct b; apply performs_condition| |reflexivity].
  intros v w3 c' H3 Hc'. apply performs_ret. intros ? -> -> ->.
  split; [done|]. exists sig. split; [by eapply during_extend|done].
Qed.

Lemma performs_shard_map c :
  0 <= derefInt32 (kv_NumShards (spec_KVCache (lic_Spec c))) 8 →
  is_int32 (derefInt32 (kv_NumShards (spec_KVCache (lic_Spec c))) 8) = true →
  performs (om_Namespace (lic_Meta c)) (computeShardMap c (baseLabels c)) []
    (λ w w' '(shards, json), shards_computed w w' c shards json).
Proof.
  intros Hn Hr. unfold computeShardMap.
  eapply performs_bind;
    [apply performs_read; [apply list_stored|eauto using step_list]| |reflexivity].
  intros w w1 pods _ Hl. eapply performs_bind; [apply performs_now| |reflexivity].
  intros u w2 t _ Ht. apply performs_lift.
  - rewrite shard_map_of_spec by done. by destruct (Marshal_doc _) eqn:E.
  - intros ? [shards json] E -> ->. exists pods, t. split; [apply during_now; by exists w1|done].
Qed.

(** ** The refinement *)

(** Only the children of the cluster, in its namespace, may differ. *)
Definition only_children c (s s' : store) : Prop :=
  ∀ k n ns, ¬ (ns = om_Namespace (lic_Meta c) ∧ (k, n) ∈ child_keys c) → s' k n ns = s k n ns.

Definition ports c (dp pp : Z) : Prop :=
  role_ServicePort (rt_Decode (spec_Runtime (lic_Spec c))) = Some dp ∧
  role_ServicePort (rt_Prefill (spec_Runtime (lic_Spec c))) = Some pp.

(** The store after a complete reconciliation: the plan of the cluster has
    been applied, for the replicas and the shard map computed on the way. *)
Definition implements_plan c (w w' : W) : Prop :=
  ∃ dp pp ov shards json, ports c dp pp ∧ override_ok w w' c ov ∧ shards_computed w w' c shards json ∧
    items_applied (om_Namespace (lic_Meta c)) (plan c dp pp ov json) (store_of w) (store_of w').

Definition active_refines c (w0 w' : W) (r : result (Result * option error)) : Prop :=
  match r with
  | Ok (_, None) => implements_plan c w0 w'
  | Ok (_, Some _) => only_children c (store_of w0) (store_of w')
  | _ => False
  end.

(** The run from [w0] has applied these items when it is in [w]. *)
Definition reached c (its : list item) (w0 w : W) : Prop :=
  rtc api_step w0 w ∧ items_applied (om_Namespace (lic_Meta c)) its (store_of w0) (store_of w).

Lemma items_only_children c its s s' :
  (∀ it, it ∈ its → key it ∈ child_keys c) →
  untouched (om_Namespace (lic_Meta c)) its s s' → only_children c s s'.
Proof.
  intros Hk Hu k n ns Hne. apply Hu. intros it Hit [= -> -> ->]. apply Hne. split; [done|].
  by apply Hk.
Qed.

Lemma only_children_equiv c s s1 s2 : only_children c s s1 → s1 ≡ s2 → only_children c s s2.
Proof. intros H1 H2 k n ns Hne. rewrite <- (H1 k n ns Hne). apply H2. Qed.

Lemma wp_condition_stored c t st re ms (Q : W → result LLMInferenceCluster → Prop) w :
  (∀ w' c', api_step w w' → store_of w ≡ store_of w' → same_source c c' → Q w' (Ok c')) →
  wp (condition_now c t st re ms) Q w.
Proof.
  intros HQ. apply wp_condition_now. intros w' tm E.
  apply HQ; [by eapply step_now| |by apply same_source_condition].
  intros k n ns. by eapply now_stored.
Qed.

Lemma wp_degraded_store c cl e w0 w :
  only_children c (store_of w0) (store_of w) → wp (requeueDegraded cl e) (active_refines c w0) w.
Proof.
  intros Ho. unfold requeueDegraded. wp_step. apply wp_condition_stored. intros w1 c1 _ H1 _.
  unfold after. wp_step. apply wp_condition_stored. intros w2 c2 _ H2 _. unfold after. wp_step.
  apply wp_intro. intros w3 r E. destruct (supdate_stored _ _ _ _ E) as [Hp H3].
  destruct r; unfold after; [wp_step|wp_step|done]; simpl;
    (eapply only_children_equiv; [|exact H3]); (eapply only_children_equiv; [|exact H2]);
    by eapply only_children_equiv.
Qed.

Lemma prefix_keys c its dp pp ov j :
  its `prefix_of` plan c dp pp ov j → ∀ it, it ∈ its → key it ∈ child_keys c.
Proof.
  intros [rest Hrest] it Hit. rewrite <- (plan_child_keys c dp pp ov j), Hrest.
  apply list_elem_of_fmap_2, elem_of_app. by left.
Qed.

(** A step that is followed by [requeueDegraded] on an error. *)
Lemma wp_try_performs {A} c cl (m : M W A) k its its' (Q : W → W → A → Prop) dp pp ov j w0 w :
  performs (om_Namespace (lic_Meta c)) m its' Q →
  reached c its w0 w →
  (its ++ its') `prefix_of` plan c dp pp ov j →
  (∀ w' a, rtc api_step w w' → Q w w' a → reached c (its ++ its') w0 w' →
     wp (k a) (active_refines c w0) w') →
  wp (mtry m (λ e, requeueDegraded cl e) k) (active_refines c w0) w.
Proof.
  intros Hm [Hw Hs] Hk Hnext. wp_step. eapply wp_mono; [apply Hm|].
  intros w' [a|e|p] [Hw' Hr]; unfold after.
  - destruct Hr as [HQ Hr]. apply Hnext; [done|done|]. split; [by etrans|]. by eapply items_applied_app.
  - apply wp_degraded_store. eapply items_only_children; [by eapply prefix_keys|].
    by eapply untouched_app.
  - done.
Qed.

Lemma item_equiv_keys l l' : Forall2 item_equiv l l' → key <$> l' = key <$> l.
Proof. induction 1 as [|a b l l' [] _ IH]; [done|]. rewrite !fmap_cons. by rewrite IH. Qed.

(** The handlers run on a cluster [cl] whose status differs from that of [c];
    the changes are those of [c]. *)
Lemma performs_ext {A} ns (m : M W A) l l' (Q : W → W → A → Prop) :
  Forall2 item_equiv l l' → performs ns m l Q → performs ns m l' Q.
Proof.
  intros Hl Hm w. eapply wp_mono; [apply Hm|]. intros w' r [Hw Hr]. split; [done|].
  destruct r as [a|e|p]; [| |done].
  - destruct Hr. split; [done|]. by eapply items_applied_ext.
  - intros k n ns' Hne. apply Hr. intros it Hit [= -> -> ->].
    assert (key it ∈ key <$> l') as (it' & Hk & Hit')%list_elem_of_fmap.
    { rewrite (item_equiv_keys l l' Hl). by apply list_elem_of_fmap_2. }
    apply (Hne it' Hit'). unfold key in Hk. by injection Hk as -> ->.
Qed.

Lemma source_intent c cl : same_source c cl → same_intent c cl.
Proof. intros [Hm Hs]. split; [|done]. split_and!; by rewrite Hm. Qed.

#[local] Ltac one_item L := repeat constructor; intros ?; symmetry; by apply L.

(** The tail of [reconcileActive], after the children of the roles. *)
Lemma wp_shards_and_status orig c cl dp pp ov w0 w :
  same_source c cl → ports c dp pp → override_ok w0 w c ov →
  0 <= derefInt32 (kv_NumShards (spec_KVCache (lic_Spec c))) 8 →
  is_int32 (derefInt32 (kv_NumShards (spec_KVCache (lic_Spec c))) 8) = true →
  reached c
    (signals_items c ++ [service_item c "-decode" roleDecode (role_ports dp);
       service_item c "-prefill" rolePrefill (role_ports pp);
       service_item c "-router" roleRouter router_ports] ++
     rbac_items c ++ deployment_items c ov) w0 w →
  wp (let! (shards, shardMapJSON) := computeShardMap cl (baseLabels c)
        onerr err => requeueDegraded cl err in
      let cluster := set_shards shards cl in
      let! _ := reconcileShardMapConfigMap cluster (child c "-shardmap") (baseLabels c) shardMapJSON
        onerr err => requeueDegraded cluster err in
      let cluster := set_observed (om_Generation (lic_Meta cluster)) (endpoints_of cluster dp pp) cluster in
      let! cluster := condition_now cluster conditionReady ConditionTrue "Reconciled"
                        "Resources are reconciled" in
      let! cluster := condition_now cluster conditionDegraded ConditionFalse "Healthy"
                        "No reconciliation errors" in
      let! _ := status_patch cluster orig onerr err => mret (no_requeue, Some err) in
      mret (mkResult (30 * Second), None)) (active_refines c w0) w.
Proof.
  intros Hsrc Hports Hov Hn Hr Hs. pose proof Hsrc as [Hm Hsp].
  assert (computeShardMap cl (baseLabels c) = computeShardMap c (baseLabels c)) as ->
    by (unfold computeShardMap; by rewrite Hm, Hsp).
  eapply (wp_try_performs c cl _ _ _ _ _ dp pp ov emp); [by apply performs_shard_map|exact Hs| |].
  { exists [shardmap_item c emp]. unfold plan, role_items. by rewrite app_nil_r, <- !app_assoc. }
  intros w1 [shards json] R1 Hsh Hs1. rewrite app_nil_r in Hs1.
  eapply (wp_try_performs c _ _ _ _ [shardmap_item c json] _ dp pp ov json); [|exact Hs1| |].
  { assert (om_Namespace (lic_Meta c) = om_Namespace (lic_Meta (set_shards shards cl))) as ->
      by (simpl; by rewrite Hm).
    eapply performs_ext; [|apply performs_shardmap].
    constructor; [|done]. constructor. intros x. symmetry.
    apply mutate_shardmap_intent, source_intent. by apply same_source_status. }
  { exists []. unfold plan, role_items. by rewrite app_nil_r, <- !app_assoc. }
  intros w2 _ R2 _ [Hw2 Hs2]. simpl. wp_step. apply wp_condition_stored. intros w3 c3 S3 H3 _. unfold after.
  wp_step. apply wp_condition_stored. intros w4 c4 S4 H4 _. unfold after. wp_step.
  apply wp_intro. intros w5 r E. destruct (spatch_stored _ _ _ _ _ E) as [Hp H5].
  assert (rtc api_step w2 w5) as R5.
  { eapply rtc_l, rtc_l, rtc_once, step_spatch; [exact S3|exact S4|exact E]. }
  assert (items_applied (om_Namespace (lic_Meta c)) (plan c dp pp ov json) (store_of w0) (store_of w5)) as Hend.
  { unfold plan, role_items. rewrite <- !app_assoc in Hs2.
    eapply items_applied_equiv; [|exact H5]. eapply items_applied_equiv; [|exact H4].
    by eapply items_applied_equiv; [|exact H3]. }
  destruct r; unfold after; [wp_step|wp_step|done]; simpl.
  - exists dp, pp, ov, shards, json. split_and!; [done| | |done].
    + eapply override_extend; [apply rtc_refl| |exact Hov]. etrans; [exact R1|]. by etrans.
    + eapply shards_extend; [exact (proj1 Hs)| |exact Hsh]. by etrans.
  - eapply items_only_children; [by eapply (prefix_keys c _ dp pp ov json)|].
    intros k n ns Hne. by eapply items_applied_frame.
Qed.

(** A step of the plan, run on a cluster whose status may differ. *)
Lemma wp_plan_step c cl (m : M W unit) k its l its' dp pp ov w0 w :
  same_source c cl → performs (om_Namespace (lic_Meta cl)) m l any →
  Forall2 item_equiv l its' →
  reached c its w0 w →
  (its ++ its') `prefix_of` plan c dp pp ov emp →
  (∀ w', rtc api_step w w' → reached c (its ++ its') w0 w' → wp (k tt) (active_refines c w0) w') →
  wp (mtry m (λ e, requeueDegraded cl e) k) (active_refines c w0) w.
Proof.
  intros [Hm _] Hp Hl Hs Hpre Hk. rewrite Hm in Hp.
  eapply (wp_try_performs c cl _ _ its its'); [by eapply performs_ext|done|done|].
  intros w' [] R _. by apply Hk.
Qed.

#[local] Ltac plan_prefix :=
  unfold plan, role_items, rbac_items, deployment_items; rewrite <- ?app_assoc; cbn [app];
  eexists; rewrite <- ?app_assoc; cbn [app]; reflexivity.
#[local] Ltac same_items :=
  repeat constructor; intros ?; simpl; symmetry;
  first [by apply mutate_service_intent|by apply mutate_sa_intent|by apply mutate_role_intent
        |by apply mutate_rolebinding_intent|by apply mutate_role_deployment_intent
        |by apply mutate_router_deployment_intent].

(** The children of the roles, and what follows them. *)
Lemma wp_roles c cl dp pp ov k w0 w :
  same_source c cl → ports c dp pp → reached c (signals_items c) w0 w →
  (∀ w', rtc api_step w w' → reached c
    (signals_items c ++ [service_item c "-decode" roleDecode (role_ports dp);
       service_item c "-prefill" rolePrefill (role_ports pp);
       service_item c "-router" roleRouter router_ports] ++
     rbac_items c ++ deployment_items c ov) w0 w' → wp k (active_refines c w0) w') →
  let degraded := λ e, requeueDegraded cl e in
  wp (mtry (reconcileRoleService cl roleDecode (child c "-decode") dp (baseLabels c)) degraded (λ _,
      mtry (reconcileRoleService cl rolePrefill (child c "-prefill") pp (baseLabels c)) degraded (λ _,
      mtry (reconcileRouterService cl (child c "-router") (baseLabels c)) degraded (λ _,
      mtry (reconcileRouterRBAC cl (child c "-router") (baseLabels c)) degraded (λ _,
      mtry (reconcileRoleDeployment cl roleDecode (child c "-decode") (baseLabels c) ov) degraded (λ _,
      mtry (reconcileRoleDeployment cl rolePrefill (child c "-prefill") (baseLabels c) None) degraded (λ _,
      mtry (reconcileRouterDeployment cl (child c "-shardmap") (child c "-router") (baseLabels c))
        degraded (λ _, k)))))))) (active_refines c w0) w.
Proof.
  intros Hsrc [Hd Hp] H1 Hk degraded. pose proof Hsrc as [Hm Hsp].
  pose proof (source_intent _ _ Hsrc) as Hi.
  eapply (wp_plan_step c cl _ _ _ _ [service_item c "-decode" roleDecode (role_ports dp)] dp pp ov);
    [done|apply performs_role_service|same_items|exact H1|plan_prefix|]. clear H1. intros w1 R1 H1.
  eapply (wp_plan_step c cl _ _ _ _ [service_item c "-prefill" rolePrefill (role_ports pp)] dp pp ov);
    [done|apply performs_role_service|same_items|exact H1|plan_prefix|]. clear H1. intros w2 R2 H1.
  eapply (wp_plan_step c cl _ _ _ _ [service_item c "-router" roleRouter router_ports] dp pp ov);
    [done|apply performs_router_service|same_items|exact H1|plan_prefix|]. clear H1. intros w3 R3 H1.
  eapply (wp_plan_step c cl _ _ _ _ (rbac_items c) dp pp ov);
    [done|apply performs_rbac|rewrite Hm; same_items|exact H1|plan_prefix|]. clear H1. intros w4 R4 H1.
  eapply (wp_plan_step c cl _ _ _ _ [role_deployment c "-decode" roleDecode ov] dp pp ov);
    [done|apply performs_role_deployment|rewrite (child_intent c cl) by done; same_items
    |exact H1|plan_prefix|]. clear H1. intros w5 R5 H1.
  eapply (wp_plan_step c cl _ _ _ _ [role_deployment c "-prefill" rolePrefill None] dp pp ov);
    [done|apply performs_role_deployment|rewrite (child_intent c cl) by done; same_items
    |exact H1|plan_prefix|]. clear H1. intros w6 R6 H1.
  eapply (wp_plan_step c cl _ _ _ _ [router_deployment c] dp pp ov);
    [done|apply performs_router_deployment; rewrite Hsp; by eexists
    |rewrite (child_intent c cl) by done; same_items|exact H1|plan_prefix|]. clear H1. intros w7 R7 H1.
  apply Hk; [repeat (etrans; [eassumption|]); apply rtc_refl|].
  unfold deployment_items. rewrite <- !app_assoc in H1. exact H1.
Qed.

Lemma wp_active_refines orig c dp pp w :
  ports c dp pp →
  0 <= derefInt32 (kv_NumShards (spec_KVCache (lic_Spec c))) 8 →
  is_int32 (derefInt32 (kv_NumShards (spec_KVCache (lic_Spec c))) 8) = true →
  wp (reconcileActive orig c) (active_refines c w) w.
Proof.
  intros Hports Hn Hr. unfold reconcileActive. cbv zeta.
  eapply (wp_try_performs c c _ _ [] _ _ dp pp None emp); [apply performs_autoscaling| | |].
  { split; [apply rtc_refl|done]. }
  { by eexists. }
  intros w1 [cl ov] R1 [Hsrc Hov] H1. rewrite app_nil_l in H1.
  pose proof Hsrc as [_ Hsp]. pose proof Hports as [Hd Hp]. rewrite Hsp, Hd, Hp.
  eapply (wp_roles c cl dp pp ov); [done..|]. intros w2 R2 H2.
  eapply wp_shards_and_status; try done. eapply override_extend; [apply rtc_refl|exact R2|exact Hov].
Qed.

(** ** The whole handler *)

(** The cluster that was asked for: the fetched one with its defaults. *)
Definition desired_cluster (req : NamespacedName) (w : W) c : Prop :=
  ∃ w1 c0, get_cluster req w = (w1, Ok c0) ∧ lic_Spec c = default_spec (lic_Spec c0) ∧
           same_owner c0 c.

Definition fetched_valid (req : NamespacedName) (w : W) : Prop :=
  ∀ w1 c0, get_cluster req w = (w1, Ok c0) → valid_spec (lic_Spec c0) = true.

Definition reconcile_refines (req : NamespacedName) (w w' : W) (r : result (Result * option error))
  : Prop :=
  match r with
  | Ok (res, err) =>
      (res = no_requeue ∧ store_of w ≡ store_of w') ∨
      ∃ c, desired_cluster req w c ∧
           match err with
           | None => implements_plan c w w'
           | Some _ => only_children c (store_of w) (store_of w')
           end
  | _ => False
  end.

Lemma same_owner_trans c1 c2 c3 : same_owner c1 c2 → same_owner c2 c3 → same_owner c1 c3.
Proof. intros (?&?&?) (?&?&?). repeat split; congruence. Qed.

Lemma wp_active_desired req orig c w w0 :
  fetched_valid req w → desired_cluster req w c → rtc api_step w w0 → store_of w ≡ store_of w0 →
  wp (reconcileActive orig c) (reconcile_refines req w) w0.
Proof.
  intros Hv (w1 & c0 & Hget & Hspec & Hown) R Heq. pose proof (Hv _ _ Hget) as Hc0.
  destruct (default_spec_usable _ Hc0) as ((dp & Hd & _) & (pp & Hp & _) & n & Hn & Hpos & Hint).
  eapply wp_mono; [apply (wp_active_refines orig c dp pp)|].
  - unfold ports. by rewrite Hspec.
  - rewrite Hspec, Hn. simpl. lia.
  - by rewrite Hspec, Hn.
  - intros w' [[res [e|]]| |] Hr; simpl in *; [| |done|done]; right; exists c;
      (split; [by exists w1, c0|]).
    + intros k m ns Hne. rewrite (Hr k m ns Hne). apply Heq.
    + destruct Hr as (dp' & pp' & ov & shards & json & Ha & Hb & Hc & Hitems).
      exists dp', pp', ov, shards, json. split_and!; [done| | |].
      * by eapply override_extend; [exact R|apply rtc_refl|].
      * by eapply shards_extend; [exact R|apply rtc_refl|].
      * by apply (items_applied_app _ [] _ _ (store_of w0)).
Qed.

Lemma wp_Reconcile_refines req w :
  fetched_valid req w → wp (Reconcile req) (reconcile_refines req w) w.
Proof.
  intros Hv. unfold Reconcile. wp_step. apply wp_intro. intros w1 r0 E0.
  destruct (get_stored _ _ _ _ E0) as [Hp0 Hst0]. destruct r0 as [c0|e|p]; unfold after; [|wp_step; by left|done].
  wp_step. apply wp_intro. intros w2 r1 E1. destruct (patch_stored _ _ _ _ _ E1) as [Hp1 Hst1].
  assert (store_of w ≡ store_of w2) as Hst by (etrans; [exact Hst0|exact Hst1]).
  assert (rtc api_step w w2) as R2 by (eapply rtc_l, rtc_once; [by eapply step_get|by eapply step_patch]).
  destruct r1 as [c1|e|p]; unfold after; [|wp_step; by left|done].
  destruct (patch_returns _ _ _ _ _ E1) as (Hs1 & Ho1 & _ & _).
  assert (same_owner c0 c1) as Ho by (by eapply same_owner_trans).
  destruct (om_DeletionTimestamp (lic_Meta c1)).
  - destruct (ContainsFinalizer _ _); [|wp_step; by left]. wp_step. apply wp_intro. intros w3 r2 E2.
    destruct (update_stored _ _ _ _ E2) as [Hp2 Hst2].
    assert (store_of w ≡ store_of w3) by (etrans; [exact Hst|exact Hst2]).
    destruct r2; unfold after; [wp_step; by left|wp_step; by left|done].
  - destruct (ContainsFinalizer _ _).
    { apply wp_active_desired; [done| |done|done]. by exists w1, c0. }
    wp_step. apply wp_intro. intros w3 r2 E2. destruct (update_stored _ _ _ _ E2) as [Hp2 Hst2].
    assert (store_of w ≡ store_of w3) as Hst3 by (etrans; [exact Hst|exact Hst2]).
    destruct r2 as [c2|e|p]; unfold after; [|wp_step; by left|done].
    destruct (update_returns _ _ _ _ E2) as (Hs2 & Ho2 & _).
    destruct (add_finalizer c1 llmInferenceClusterFinalizer) as (fs & Hfs & _).
    rewrite Hfs in Hs2, Ho2. simpl in Hs2.
    apply wp_active_desired; [done| |eapply rtc_r; [exact R2|by eapply step_update]|done].
    exists w1, c0. split_and!; [done|by rewrite Hs2|].
    by eapply same_owner_trans.
Qed.

Lemma implements_only_children c w w' :
  implements_plan c w w' → only_children c (store_of w) (store_of w').
Proof.
  intros (dp & pp & ov & shards & json & _ & _ & _ & Hi).
  eapply items_only_children; [by eapply (prefix_keys c _ dp pp ov json)|].
  intros k n ns Hne. by eapply items_applied_frame.
Qed.

(** C1: the reconciler implements the abstract plan.  For a valid resource,
    a reconciliation that reports success leaves the store of child objects
    exactly as applying the plan of the defaulted resource does: each child
    is the stored one (or a new one) with the change of the plan, with the
    replicas computed from the signals that were read and the shard map of
    the pods that were listed on the way from the first world to the last, and
    nothing else differs. *)
Theorem reconcile_implements_plan (req : NamespacedName) (w w' : W) :
  fetched_valid req w →
  Reconcile req w = (w', Ok (mkResult (30 * Second), None)) →
  ∃ c, desired_cluster req w c ∧ implements_plan c w w'.
Proof.
  intros Hv E. destruct (wp_run _ _ _ _ _ (wp_Reconcile_refines req w Hv) E) as [[Hr _]|Hc]; [done|].
  exact Hc.
Qed.

(** C3: on a valid resource no reconciliation panics, whatever fails on the
    way, and none changes an object that is not a child of that resource in
    its namespace. *)
Theorem reconcile_safe (req : NamespacedName) (w w' : W) (r : result (Result * option error)) :
  fetched_valid req w →
  Reconcile req w = (w', r) →
  (∃ res err, r = Ok (res, err)) ∧
  ∀ k n ns,
    (∀ c, desired_cluster req w c → ¬ (ns = om_Namespace (lic_Meta c) ∧ (k, n) ∈ child_keys c)) →
    stored k w' n ns = stored k w n ns.
Proof.
  intros Hv E. pose proof (wp_run _ _ _ _ _ (wp_Reconcile_refines req w Hv) E) as Hr.
  destruct r as [[res err]| |]; [|done|done]. split; [by eauto|]. intros k n ns Hne.
  destruct Hr as [[_ Heq]|(c & Hc & Hr)]; [apply Heq|].
  destruct err; [|apply implements_only_children in Hr]; apply Hr; by apply Hne.
Qed.

End Refine.

(** ** Witnesses *)
Lemma sample_valid : fetched_valid sample_req (world_of sample_cluster).
Proof. intros w1 c0 E. vm_compute in E. injection E as <- <-. vm_compute. reflexivity. Qed.

Lemma reconcile_implements_plan_witness :
  ∃ c, desired_cluster sample_req (world_of sample_cluster) c ∧
       implements_plan c (world_of sample_cluster) (reconciled (world_of sample_cluster)).
Proof.
  apply (reconcile_implements_plan sample_req); [exact sample_valid|]. unfold reconciled.
  rewrite <- sample_reconciles. apply surjective_pairing.
Defined.

Lemma reconcile_safe_witness :
  ∃ res err, (Reconcile sample_req (world_of sample_cluster)).2 = Ok (res, err).
Proof.
  apply (reconcile_safe sample_req (world_of sample_cluster) _ _ sample_valid (surjective_pairing _)).
Defined.
