(* ===== verification/Children.v ===== *)
(** * The child objects fit together

    What the stored Services, Deployments, RBAC objects and ConfigMaps of a
    cluster look like after a successful reconciliation, and that they refer
    to each other consistently. *)
From S2P Require Import Prelude Strconv Utf8 ShardMap Types Defaults Kube Signals Autoscale Resources Shards Reconcile Laws Trace Memory Hoare Sample Calls Outcome Plan Refine.
From stdpp Require Import options.
#[local] Set Default Proof Using "Type*".

(** The pods of a Deployment carry the labels that its own selector and the
    Service select, and every port of the Service leads to a port that the
    container declares, under the same number. *)
Definition reaches (svc : Service) (d : Deployment) : Prop :=
  dep_Selector d = Some (dep_TemplateLabels d) ∧
  svc_Selector svc = dep_TemplateLabels d ∧
  ∃ x l, dep_Containers d = Some (x :: l) ∧
    ∀ p, p ∈ svc_Ports svc →
      ∃ q, q ∈ ct_Ports x ∧ sp_TargetPort p = IntVal (cp_ContainerPort q) ∧
           sp_Port p = cp_ContainerPort q.

Section Children.
Context {W : Type} `{!Client W} `{!StoreLaws W} `{!Machinery} `{!MachineryLaws}.
Implicit Types (c : LLMInferenceCluster) (w : W).

Lemma roleLabels_role c role :
  roleLabels (baseLabels c) role !! "inference.llm.io/role" = Some role ∧
  roleLabels (baseLabels c) role !! "inference.llm.io/cluster" = Some (om_Name (lic_Meta c)).
Proof. unfold roleLabels, baseLabels. split; by simplify_map_eq. Qed.

#[local] Ltac changed H :=
  let m := fresh "m" in let Hm := fresh "Hm" in
  apply rbind_ok in H as (m & Hm & [= <-]); apply owned_meta in Hm.

Lemma service_shape c L ports x y :
  mutate_service c L ports x = Ok y → svc_Selector y = L ∧ svc_Ports y = ports.
Proof. unfold mutate_service. intros Hy. changed Hy. done. Qed.

Lemma update_first_shape n f cs cs' :
  update_first n f cs = Ok cs' → ∃ x y l, f x = Ok y ∧ cs' = Some (y :: l).
Proof.
  unfold update_first. destruct (default _ cs) as [|x l]; [done|].
  intros (y & Hy & [= <-])%rbind_ok. by exists x, y, l.
Qed.

Lemma role_deployment_shape c role n B o x y :
  mutate_role_deployment c role n B o x = Ok y →
  dep_Selector y = Some (roleLabels B role) ∧ dep_TemplateLabels y = roleLabels B role ∧
  dep_Replicas y = Some (role_replicas c role o) ∧
  ∃ ct l, dep_Containers y = Some (ct :: l) ∧
    ct_Image ct = model_Image (spec_Model (lic_Spec c)) ∧ ct_Env ct = worker_env c role n ∧
    ct_Args ct = model_Args (spec_Model (lic_Spec c)) ∧
    ct_Ports ct = [mkContainerPort "http" (servicePortForRole c role)].
Proof.
  unfold mutate_role_deployment.
  intros (cs & (x' & ct & l & [= <-] & ->)%update_first_shape & Hy)%rbind_ok. changed Hy.
  split_and!; try done. by eexists _, l.
Qed.

Lemma router_deployment_shape c sm sa B x y dp pp :
  ports c dp pp →
  mutate_router_deployment c sm sa B x = Ok y →
  dep_Selector y = Some (roleLabels B roleRouter) ∧ dep_TemplateLabels y = roleLabels B roleRouter ∧
  dep_ServiceAccountName y = sa ∧
  ∃ ct l, dep_Containers y = Some (ct :: l) ∧
    ct_Args ct = ["--shardmap-configmap"; sm;
                  "--hash-key"; derefString (routing_HashKey (spec_Routing (lic_Spec c))) "conversationId"] ∧
    ct_Env ct =
      [mkCoreEnvVar "NAMESPACE" emp (Some "metadata.namespace");
       mkCoreEnvVar "DECODE_SERVICE_DNS"
         (service_dns (child c "-decode") (om_Namespace (lic_Meta c)) dp) None;
       mkCoreEnvVar "PREFILL_SERVICE_DNS"
         (service_dns (child c "-prefill") (om_Namespace (lic_Meta c)) pp) None] ∧
    ct_Ports ct = [mkContainerPort "http" 8080; mkContainerPort "metrics" 9090].
Proof.
  intros [Hd Hp]. unfold mutate_router_deployment.
  intros (cs & (x' & ct & l & Hct & ->)%update_first_shape & Hy)%rbind_ok. changed Hy.
  unfold router_container in Hct. rewrite Hd, Hp in Hct. simpl in Hct. injection Hct as <-.
  split_and!; try done. by eexists _, l.
Qed.

(** The object that a key of the plan holds after a reconciliation. *)
Lemma planned c dp pp ov json s s' it :
  items_applied (om_Namespace (lic_Meta c)) (plan c dp pp ov json) s s' →
  it ∈ plan c dp pp ov json →
  ∃ x y, it_mutate it x = Ok y ∧ s' (it_kind it) (it_name it) (om_Namespace (lic_Meta c)) = Some y.
Proof.
  intros Hi Hin. destruct (items_applied_lookup _ _ _ _ it (plan_keys c dp pp ov json) Hi Hin)
    as (y & Hy & Hs). by eexists _, y.
Qed.

#[local] Ltac in_plan :=
  unfold plan, role_items, rbac_items, deployment_items;
  rewrite ?elem_of_app, ?elem_of_cons; tauto.

Lemma port_target p : 1 <= p <= 65535 → intstrFromInt p = IntVal p.
Proof. intros. unfold intstrFromInt. rewrite int32_small; [done|]. unfold is_int32. lia. Qed.

Lemma role_reaches c suffix role p o x y x' d :
  1 <= p <= 65535 → servicePortForRole c role = p →
  mutate_service c (roleLabels (baseLabels c) role) (role_ports p) x = Ok y →
  mutate_role_deployment c role suffix (baseLabels c) o x' = Ok d → reaches y d.
Proof.
  intros Hp Hport (Hsel & Hports)%service_shape (Hs & Hl & _ & ct & l & Hc & _ & _ & _ & Hq)%role_deployment_shape.
  split_and!; [by rewrite Hs, Hl|by rewrite Hsel, Hl|]. exists ct, l. split; [done|].
  rewrite Hports, Hq. intros q Hin%list_elem_of_singleton. subst q. eexists. split; [by apply list_elem_of_singleton|].
  simpl. by rewrite (port_target p Hp), Hport.
Qed.

Lemma router_reaches c dp pp sm sa x y x' d :
  ports c dp pp →
  mutate_service c (roleLabels (baseLabels c) roleRouter) router_ports x = Ok y →
  mutate_router_deployment c sm sa (baseLabels c) x' = Ok d → reaches y d.
Proof.
  intros Hports (Hsel & Hps)%service_shape Hd.
  destruct (router_deployment_shape _ _ _ _ _ _ _ _ Hports Hd)
    as (Hs & Hl & _ & ct & l & Hc & _ & _ & Hq).
  split_and!; [by rewrite Hs, Hl|by rewrite Hsel, Hl|]. exists ct, l. split; [done|].
  rewrite Hps, Hq. intros q Hq'. apply elem_of_cons in Hq' as [->|Hq'%list_elem_of_singleton]; [|subst q];
    [exists (mkContainerPort "http" 8080)|exists (mkContainerPort "metrics" 9090)];
    (split; [set_solver|done]).
Qed.

(** The Service and the Deployment of a role, as they are stored. *)
Definition role_exposed c (s : store) (role : string) : Prop :=
  ∃ svc d, s KService (child c ("-" +:+ role)) (om_Namespace (lic_Meta c)) = Some svc ∧
    s KDeployment (child c ("-" +:+ role)) (om_Namespace (lic_Meta c)) = Some d ∧
    reaches svc d ∧
    svc_Selector svc !! "inference.llm.io/role" = Some role ∧
    svc_Selector svc !! "inference.llm.io/cluster" = Some (om_Name (lic_Meta c)).

Lemma plan_exposes c dp pp ov json s s' role :
  ports c dp pp → 1 <= dp <= 65535 → 1 <= pp <= 65535 →
  items_applied (om_Namespace (lic_Meta c)) (plan c dp pp ov json) s s' →
  role ∈ [roleDecode; rolePrefill; roleRouter] → role_exposed c s' role.
Proof.
  intros Hports Hd Hp Hi Hrole. pose proof Hports as [Ed Ep].
  assert (servicePortForRole c roleDecode = dp) as Pd by (unfold servicePortForRole; by rewrite Ed).
  assert (servicePortForRole c rolePrefill = pp) as Pp by (unfold servicePortForRole; by rewrite Ep).
  assert (∃ p o, servicePortForRole c role = p ∧ 1 <= p <= 65535 ∧
    service_item c ("-" +:+ role) role (role_ports p) ∈ plan c dp pp ov json ∧
    role_deployment c ("-" +:+ role) role o ∈ plan c dp pp ov json ∨ role = roleRouter) as Hcase.
  { apply elem_of_cons in Hrole as [->|Hrole]; [exists dp, ov; left; split_and!; try done; in_plan|].
    apply elem_of_cons in Hrole as [->|Hrole]; [exists pp, None; left; split_and!; try done; in_plan|].
    exists 0, None. right. by apply list_elem_of_singleton in Hrole. }
  destruct Hcase as (p & o & [(Pr & Hpr & Hin1 & Hin2)| ->]).
  - destruct (planned _ _ _ _ _ _ _ _ Hi Hin1) as (x & svc & Hx & Hsvc).
    destruct (planned _ _ _ _ _ _ _ _ Hi Hin2) as (x' & d & Hx' & Hdep). simpl in *.
    pose proof (service_shape _ _ _ _ _ Hx) as [Hsel _]. exists svc, d. rewrite Hsel.
    split_and!; [done|done|by eapply role_reaches|apply roleLabels_role..].
  - destruct (planned _ _ _ _ _ _ _ (service_item c "-router" roleRouter router_ports) Hi)
      as (x & svc & Hx & Hsvc); [in_plan|].
    destruct (planned _ _ _ _ _ _ _ (router_deployment c) Hi) as (x' & d & Hx' & Hdep); [in_plan|].
    simpl in *. pose proof (service_shape _ _ _ _ _ Hx) as [Hsel _]. exists svc, d. rewrite Hsel.
    split_and!; [done|done|by eapply router_reaches|apply roleLabels_role..].
Qed.

(** A successful reconciliation, with the ports and the shard count in range. *)
Lemma reconciled_plan req w w' :
  fetched_valid req w → Reconcile req w = (w', Ok (mkResult (30 * Second), None)) →
  ∃ c dp pp ov shards json, desired_cluster req w c ∧ ports c dp pp ∧
    1 <= dp <= 65535 ∧ 1 <= pp <= 65535 ∧ override_ok w w' c ov ∧ shards_computed w w' c shards json ∧
    (∃ n, kv_NumShards (spec_KVCache (lic_Spec c)) = Some n ∧ 1 <= n ∧ is_int32 n = true) ∧
    items_applied (om_Namespace (lic_Meta c)) (plan c dp pp ov json) (store_of w) (store_of w').
Proof.
  intros Hv E. destruct (wp_run _ _ _ _ _ (wp_Reconcile_refines req w Hv) E)
    as [[Hr _]|(c & Hc & dp & pp & ov & shards & json & [Ed Ep] & Hov & Hsh & Hi)]; [done|].
  pose proof Hc as (w1 & c0 & Hget & Hs & _).
  destruct (default_spec_usable _ (Hv _ _ Hget)) as ((dp' & Ed' & Hd) & (pp' & Ep' & Hp) & Hn).
  rewrite <- Hs in Ed', Ep', Hn. simplify_eq.
  exists c, dp, pp, ov, shards, json. split_and!; try done; lia.
Qed.

(** C13: after a successful reconciliation each role (decode, prefill,
    router) has a stored Service and a stored Deployment that fit: the
    Service and the Deployment select exactly the pods of the template, every
    Service port leads to a declared container port of the same number, and
    the selector carries the cluster and the role, so no two Services of the
    cluster select the same pod. *)
Theorem services_reach_pods (req : NamespacedName) (w w' : W) :
  fetched_valid req w →
  Reconcile req w = (w', Ok (mkResult (30 * Second), None)) →
  ∃ c, desired_cluster req w c ∧
       ∀ role, role ∈ [roleDecode; rolePrefill; roleRouter] → role_exposed c (store_of w') role.
Proof.
  intros Hv E. destruct (reconciled_plan req w w' Hv E)
    as (c & dp & pp & ov & shards & json & Hc & Hports & Hd & Hp & _ & _ & _ & Hi).
  exists c. split; [done|]. intros role. by eapply plan_exposes.
Qed.

(** ** The router *)

(** The stored objects through which the router works: its Deployment runs
    under the stored ServiceAccount, which the stored RoleBinding gives the
    stored Role, which allows reading ConfigMaps; its arguments name the
    stored shard map, and its environment the stored Services. *)
Definition router_wired c (s : store) (shards : list ShardStatus) : Prop :=
  ∃ d sa role rb cm ct l json dsvc psvc,
    let ns := om_Namespace (lic_Meta c) in
    s KDeployment (child c "-router") ns = Some d ∧ s KServiceAccount (child c "-router") ns = Some sa ∧
    s KRole (child c "-router") ns = Some role ∧ s KRoleBinding (child c "-router") ns = Some rb ∧
    s KConfigMap (child c "-shardmap") ns = Some cm ∧
    s KService (child c "-decode") ns = Some dsvc ∧ s KService (child c "-prefill") ns = Some psvc ∧
    dep_ServiceAccountName d = child c "-router" ∧
    rb_RoleRef rb = mkRoleRef "rbac.authorization.k8s.io" "Role" (child c "-router") ∧
    rb_Subjects rb = [mkSubject "ServiceAccount" (child c "-router") ns] ∧
    ro_Rules role = [mkPolicyRule [emp] ["configmaps"] ["get"; "list"; "watch"]] ∧
    dep_Containers d = Some (ct :: l) ∧
    (∃ k, ct_Args ct = ["--shardmap-configmap"; child c "-shardmap"; "--hash-key"; k]) ∧
    (∃ dp pp, sp_Port <$> svc_Ports dsvc = [dp] ∧ sp_Port <$> svc_Ports psvc = [pp] ∧
       mkCoreEnvVar "DECODE_SERVICE_DNS" (service_dns (child c "-decode") ns dp) None ∈ ct_Env ct ∧
       mkCoreEnvVar "PREFILL_SERVICE_DNS" (service_dns (child c "-prefill") ns pp) None ∈ ct_Env ct) ∧
    (default ∅ (cm_Data cm)) !! "shardmap.json" = Some json ∧
    ParseShardMapJSON json = Ok (mkShardMap 1 (assignment_of <$> shards)).

Lemma published_parses w0 w1 c shards json :
  (∃ n, kv_NumShards (spec_KVCache (lic_Spec c)) = Some n ∧ 1 <= n ∧ is_int32 n = true) →
  shards_computed w0 w1 c shards json →
  ParseShardMapJSON json = Ok (mkShardMap 1 (assignment_of <$> shards)).
Proof.
  intros (n & Hn & Hpos & Hint) (pods & t & _ & E). rewrite Hn in E. simpl in E.
  rewrite shard_map_of_spec in E by (done || lia).
  destruct (Marshal_doc_reads_back _ (doc_spec_ok pods n Hint)) as (b & Hm & Hp).
  rewrite Hm in E. simpl in E. injection E as <- <-. by rewrite Hp, (read_doc_spec pods n t).
Qed.

Lemma plan_wires c dp pp ov shards json s s' :
  ports c dp pp →
  ParseShardMapJSON json = Ok (mkShardMap 1 (assignment_of <$> shards)) →
  items_applied (om_Namespace (lic_Meta c)) (plan c dp pp ov json) s s' →
  router_wired c s' shards.
Proof.
  intros Hports Hparse Hi.
  destruct (planned _ _ _ _ _ _ _ (router_deployment c) Hi) as (x1 & d & Hd & Sd); [in_plan|].
  destruct (planned _ _ _ _ _ _ _ (mkItem KServiceAccount (child c "-router") (mutate_sa c (baseLabels c))) Hi)
    as (x2 & sa & Hsa & Ssa); [in_plan|].
  destruct (planned _ _ _ _ _ _ _ (mkItem KRole (child c "-router") (mutate_role c (baseLabels c))) Hi)
    as (x3 & role & Hrole & Srole); [in_plan|].
  destruct (planned _ _ _ _ _ _ _ (nth 2 (rbac_items c) (router_deployment c)) Hi)
    as (x4 & rb & Hrb & Srb); [in_plan|].
  destruct (planned _ _ _ _ _ _ _ (shardmap_item c json) Hi) as (x5 & cm & Hcm & Scm); [in_plan|].
  destruct (planned _ _ _ _ _ _ _ (service_item c "-decode" roleDecode (role_ports dp)) Hi)
    as (x6 & dsvc & Hdsvc & Sdsvc); [in_plan|].
  destruct (planned _ _ _ _ _ _ _ (service_item c "-prefill" rolePrefill (role_ports pp)) Hi)
    as (x7 & psvc & Hpsvc & Spsvc); [in_plan|].
  simpl in *. destruct (router_deployment_shape _ _ _ _ _ _ _ _ Hports Hd)
    as (_ & _ & Hacc & ct & l & Hct & Hargs & Henv & _).
  apply service_shape in Hdsvc as [_ Hdsvc]. apply service_shape in Hpsvc as [_ Hpsvc].
  unfold mutate_role in Hrole. changed Hrole. unfold mutate_rolebinding in Hrb. changed Hrb.
  unfold mutate_shardmap in Hcm. changed Hcm.
  eexists d, sa, _, _, _, ct, l, json, dsvc, psvc. simpl.
  split_and!; try done; [by eexists|exists dp, pp|simpl; by rewrite lookup_insert_eq].
  rewrite Hdsvc, Hpsvc, Henv. split_and!; try done; set_solver.
Qed.

(** C14: after a successful reconciliation the router can do its work: it
    runs under a ServiceAccount that is bound to a Role allowing it to read
    ConfigMaps, is pointed at the ConfigMap that holds the shard map, and
    that document parses to the shards computed from the listed pods; the
    Services named in its environment exist and expose those ports. *)
Theorem router_is_wired (req : NamespacedName) (w w' : W) :
  fetched_valid req w →
  Reconcile req w = (w', Ok (mkResult (30 * Second), None)) →
  ∃ c shards json, desired_cluster req w c ∧ shards_computed w w' c shards json ∧
                   router_wired c (store_of w') shards.
Proof.
  intros Hv E. destruct (reconciled_plan req w w' Hv E)
    as (c & dp & pp & ov & shards & json & Hc & Hports & _ & _ & _ & Hsh & Hn & Hi).
  exists c, shards, json. split_and!; [done..|]. eapply plan_wires; [done| |done].
  by eapply published_parses.
Qed.

(** ** Ownership *)

(** The object is labelled with the cluster and controlled by it. *)
Definition owned_by c (m : ObjectMeta) : Prop :=
  om_Labels m !! "inference.llm.io/cluster" = Some (om_Name (lic_Meta c)) ∧ controls c m.

Lemma owned_labelled c role m m' :
  SetControllerReference c (set_labels (roleLabels (baseLabels c) role) m) = Ok m' → owned_by c m'.
Proof.
  intros (_ & _ & Hl & Hr)%owned_meta. split; [|done]. rewrite Hl. apply roleLabels_role.
Qed.

Lemma plan_item_owned c dp pp ov json it x y :
  it ∈ plan c dp pp ov json → it_mutate it x = Ok y → owned_by c (obj_meta y).
Proof.
  unfold plan, role_items, signals_items, rbac_items, deployment_items.
  rewrite !elem_of_app, !elem_of_cons. intros Hin Hy.
  destruct Hin as [Hin|Hin].
  { destruct (autoscaling_enabled c); [|by apply elem_of_nil in Hin].
    apply list_elem_of_singleton in Hin as ->. simpl in *. unfold mutate_signals in Hy.
    apply rbind_ok in Hy as (m & Hm & [= <-]). by eapply owned_labelled. }
  rewrite !elem_of_nil in Hin. destruct_or! Hin; subst; try done; simpl in *;
    unfold mutate_service, mutate_sa, mutate_role, mutate_rolebinding, mutate_role_deployment,
      mutate_router_deployment, mutate_shardmap in Hy;
    repeat (apply rbind_ok in Hy as (? & ? & Hy)); injection Hy as <-; by eapply owned_labelled.
Qed.

Lemma owned_children (req : NamespacedName) (w w' : W) :
  fetched_valid req w →
  Reconcile req w = (w', Ok (mkResult (30 * Second), None)) →
  ∃ c, desired_cluster req w c ∧
       ∀ k n, (k, n) ∈ child_keys c →
              ∃ y, stored k w' n (om_Namespace (lic_Meta c)) = Some y ∧
                   om_Namespace (obj_meta y) = om_Namespace (lic_Meta c) ∧ owned_by c (obj_meta y).
Proof.
  intros Hv E. destruct (reconciled_plan req w w' Hv E)
    as (c & dp & pp & ov & shards & json & Hc & _ & _ & _ & _ & _ & _ & Hi).
  exists c. split; [done|]. intros k n. rewrite <- (plan_child_keys c dp pp ov json).
  intros (it & [= -> ->] & Hit)%list_elem_of_fmap.
  destruct (planned _ _ _ _ _ _ _ it Hi Hit) as (x & y & Hy & Hs).
  exists y. split; [done|]. split; [by eapply stored_named|by eapply plan_item_owned].
Qed.

(** C15: every child is owned: after a successful reconciliation each object
    of the list of children is stored, labelled with the cluster and
    controlled by it, so deleting the resource garbage-collects it. *)
Theorem children_are_owned (req : NamespacedName) (w w' : W) :
  fetched_valid req w →
  Reconcile req w = (w', Ok (mkResult (30 * Second), None)) →
  ∃ c, desired_cluster req w c ∧
       ∀ k n, (k, n) ∈ child_keys c →
              ∃ y, stored k w' n (om_Namespace (lic_Meta c)) = Some y ∧ owned_by c (obj_meta y).
Proof.
  intros Hv E. destruct (owned_children req w w' Hv E) as (c & Hc & Hk). exists c. split; [done|].
  intros k n Hin. destruct (Hk k n Hin) as (y & Hs & _ & Ho). by exists y.
Qed.

(** ** Workers *)

(** C23: the decode Deployment runs the model: as many replicas as
    autoscaling asks for (or the spec, or one), the image of the model, and
    an environment that lists the variables of the model sorted by name and
    then the role, the Service name and the shard count, so that the
    operator's values come last and win over a variable of the same name. *)
Theorem decode_workers (req : NamespacedName) (w w' : W) :
  fetched_valid req w →
  Reconcile req w = (w', Ok (mkResult (30 * Second), None)) →
  ∃ c d ct l ov user, desired_cluster req w c ∧ override_ok w w' c ov ∧
    stored KDeployment w' (child c "-decode") (om_Namespace (lic_Meta c)) = Some d ∧
    dep_Replicas d =
      Some (default (default 1 (role_Replicas (rt_Decode (spec_Runtime (lic_Spec c))))) ov) ∧
    dep_Containers d = Some (ct :: l) ∧
    ct_Image ct = model_Image (spec_Model (lic_Spec c)) ∧
    user ≡ₚ (λ e, mkCoreEnvVar (env_Name e) (env_Value e) None) <$> model_Env (spec_Model (lic_Spec c)) ∧
    Sorted env_le user ∧
    ∃ n, kv_NumShards (spec_KVCache (lic_Spec c)) = Some n ∧
      ct_Env ct = user ++ [mkCoreEnvVar "INFERENCE_ROLE" "decode" None;
                           mkCoreEnvVar "SERVICE_NAME" (child c "-decode") None;
                           mkCoreEnvVar "KV_SHARDS" (Itoa n) None].
Proof.
  intros Hv E. destruct (reconciled_plan req w w' Hv E)
    as (c & dp & pp & ov & shards & json & Hc & _ & _ & _ & Hov & _ & (n & Hn & _) & Hi).
  destruct (planned _ _ _ _ _ _ _ (role_deployment c "-decode" roleDecode ov) Hi)
    as (x & d & Hd & Sd); [in_plan|]. simpl in *.
  apply role_deployment_shape in Hd as (_ & _ & Hrep & ct & l & Hct & Himg & Henv & _).
  exists c, d, ct, l, ov, (buildEnvVars (model_Env (spec_Model (lic_Spec c)))). split_and!; try done.
  - apply sort_Slice_perm.
  - apply sort_Slice_sorted.
  - exists n. split; [done|]. rewrite Henv. unfold worker_env. by rewrite Hn.
Qed.

(** ** ConfigMaps *)

(** C29: the operator does not overwrite what others keep in its ConfigMaps:
    the signals map gets its three keys with the value 0 only where they are
    missing and keeps every other entry, and the shard map changes the one
    key it publishes. *)
Theorem configmaps_keep_data c (B : gmap string string) (json : string) (cm cm1 cm2 : ConfigMap) :
  mutate_signals c B cm = Ok cm1 → mutate_shardmap c B json cm = Ok cm2 →
  ∀ k,
    default ∅ (cm_Data cm1) !! k =
      match default ∅ (cm_Data cm) !! k with
      | Some v => Some v
      | None => if bool_decide (k ∈ ["queueDepth"; "tokensPerSecond"; "memPressure"])
                then Some "0" else None
      end ∧
    default ∅ (cm_Data cm2) !! k =
      if bool_decide (k = "shardmap.json") then Some json else default ∅ (cm_Data cm) !! k.
Proof.
  unfold mutate_signals, mutate_shardmap. intros H1 H2 k.
  apply rbind_ok in H1 as (m1 & _ & [= <-]). apply rbind_ok in H2 as (m2 & _ & [= <-]).
  simpl. split.
  - rewrite !init_key_lookup. destruct (default ∅ (cm_Data cm) !! k); repeat case_bool_decide; set_solver.
  - case_bool_decide as Hk; [subst; apply lookup_insert_eq|by apply lookup_insert_ne].
Qed.

(** ** Prometheus *)

(** [requeueDegraded] reads the clock for its two conditions, writes the status
    with them, and returns whatever the write answers. *)
Definition writes_degraded c (e : error) (w w' : W) : Prop :=
  ∃ w1 w2 t1 t2 cl r, now w = (w1, t1) ∧ now w1 = (w2, t2) ∧ status_update cl w2 = (w', r) ∧
    same_source c cl ∧ degraded_report e cl.

Lemma requeue_writes c e w :
  ∃ w', requeueDegraded c e w = (w', Ok (mkResult (5 * Second), Some e)) ∧
        writes_degraded c e w w' ∧ store_of w ≡ store_of w'.
Proof.
  destruct (now w) as [w1 t1] eqn:E1. destruct (now w1) as [w2 t2] eqn:E2.
  set (cond t st re := λ cl tm, setCondition cl (mkCondition t st (om_Generation (lic_Meta cl)) tm re (Error e))).
  set (cl := cond conditionDegraded ConditionTrue "ReconcileError"
               (cond conditionReady ConditionFalse "Error" c t1) t2).
  destruct (status_update cl w2) as [w3 r] eqn:E3. destruct (supdate_stored _ _ _ _ E3) as [Hp Hs].
  exists w3. split_and!.
  - unfold requeueDegraded, condition_now, mtry, mbind', mnow, mret. rewrite E1, E2.
    fold (cond conditionReady ConditionFalse "Error" c t1). change (setCondition _ _) with cl.
    rewrite E3. by destruct r.
  - exists w1, w2, t1, t2, cl, r. split_and!; try done.
    split; [apply reports_other; [done|]|]; apply reports_set.
  - etrans; [exact (now_stored _ _ _ E1)|]. etrans; [exact (now_stored _ _ _ E2)|exact Hs].
Qed.

(** C30: asking for Prometheus signals is reported, not ignored: with
    autoscaling enabled on that source the reconciliation stops as soon as
    the signals ConfigMap is in place: but for the clock, its only further
    call writes the status, with Degraded true, Ready false and the adapter's
    error as their message; it retries after 5 s with that error, and no other
    child is touched. *)
Theorem prometheus_is_degraded (orig c : LLMInferenceCluster) (w w1 : W) (cm : ConfigMap) :
  autoscaling_enabled c = true →
  sig_Source (as_Signals (spec_Autoscaling (lic_Spec c))) = SignalsSourcePrometheus →
  create_or_update KConfigMap (child c "-signals") (om_Namespace (lic_Meta c))
    (mutate_signals c (baseLabels c)) w = (w1, Ok cm) →
  let e := errors_New "prometheus adapter not implemented in v1" in
  ∃ w', reconcileActive orig c w = (w', Ok (mkResult (5 * Second), Some e)) ∧
        writes_degraded c e w1 w' ∧ store_of w1 ≡ store_of w'.
Proof.
  intros Ha Hsrc Ecm e. unfold reconcileActive. cbv zeta. unfold mtry at 1.
  unfold reconcileAutoscaling, reconcileSignalsConfigMap, mbind', computeDecodeReplicas.
  rewrite Ha. change (om_Name (lic_Meta c) +:+ "-signals") with (child c "-signals"). rewrite Ecm.
  unfold signals_adapter. rewrite Hsrc. simpl. apply requeue_writes.
Qed.

End Children.

(** ** Witnesses *)
Lemma sample_run :
  Reconcile sample_req (world_of sample_cluster) =
    (reconciled (world_of sample_cluster), Ok (mkResult (30 * Second), None)).
Proof. unfold reconciled. rewrite <- sample_reconciles. apply surjective_pairing. Qed.

Lemma services_reach_pods_witness :
  ∃ c, desired_cluster sample_req (world_of sample_cluster) c ∧
       role_exposed c (store_of (reconciled (world_of sample_cluster))) "decode".
Proof.
  destruct (services_reach_pods sample_req _ _ sample_valid sample_run) as (c & Hc & Hr).
  exists c. split; [exact Hc|]. apply Hr. left.
Defined.

Lemma router_is_wired_witness :
  ∃ c shards json, desired_cluster sample_req (world_of sample_cluster) c ∧
    shards_computed (world_of sample_cluster) (reconciled (world_of sample_cluster)) c shards json ∧
    router_wired c (store_of (reconciled (world_of sample_cluster))) shards.
Proof. exact (router_is_wired sample_req _ _ sample_valid sample_run). Defined.

Lemma children_are_owned_witness :
  ∃ c, desired_cluster sample_req (world_of sample_cluster) c ∧
       ∀ k n, (k, n) ∈ child_keys c →
              ∃ y, stored k (reconciled (world_of sample_cluster)) n (om_Namespace (lic_Meta c)) = Some y ∧
                   owned_by c (obj_meta y).
Proof. exact (children_are_owned sample_req _ _ sample_valid sample_run). Defined.

Lemma decode_workers_witness :
  ∃ c d, desired_cluster sample_req (world_of sample_cluster) c ∧
    stored KDeployment (reconciled (world_of sample_cluster)) (child c "-decode")
      (om_Namespace (lic_Meta c)) = Some d.
Proof.
  destruct (decode_workers sample_req _ _ sample_valid sample_run)
    as (c & d & ct & l & ov & user & Hc & _ & Hd & _).
  exists c, d. split; [exact Hc|exact Hd].
Defined.

Definition user_configmap : ConfigMap :=
  mkConfigMap (new_meta "s" "default") (Some {["queueDepth" := "120"; "note" := "mine"]}) [].
Definition signals_configmap : ConfigMap :=
  ok_or user_configmap (mutate_signals sample_cluster ∅ user_configmap).
Definition shardmap_configmap : ConfigMap :=
  ok_or user_configmap (mutate_shardmap sample_cluster ∅ "{}" user_configmap).

Lemma configmaps_keep_data_witness :
  default ∅ (cm_Data signals_configmap) !! "queueDepth" = Some "120" ∧
  default ∅ (cm_Data signals_configmap) !! "memPressure" = Some "0" ∧
  default ∅ (cm_Data shardmap_configmap) !! "note" = Some "mine".
Proof.
  assert (mutate_signals sample_cluster ∅ user_configmap = Ok signals_configmap) as H1
    by (vm_compute; reflexivity).
  assert (mutate_shardmap sample_cluster ∅ "{}" user_configmap = Ok shardmap_configmap) as H2
    by (vm_compute; reflexivity).
  pose proof (configmaps_keep_data sample_cluster ∅ "{}" _ _ _ H1 H2) as Hk.
  split_and!; [rewrite (proj1 (Hk _))|rewrite (proj1 (Hk _))|rewrite (proj2 (Hk _))]; vm_compute; reflexivity.
Defined.

Definition prometheus_cluster : LLMInferenceCluster :=
  mkCluster sample_meta
    (mkSpec (spec_Model sample_spec) (spec_Runtime sample_spec) (spec_KVCache sample_spec)
       (spec_Routing sample_spec)
       (mkAutoscalingSpec (Some true) None None (mkSignalsSpec "prometheus" (Some "http://p")))) empty_status.

Lemma prometheus_is_degraded_witness :
  ∃ w', reconcileActive prometheus_cluster prometheus_cluster (world_of prometheus_cluster) =
          (w', Ok (mkResult (5 * Second),
                   Some (errors_New "prometheus adapter not implemented in v1"))).
Proof.
  destruct (prometheus_is_degraded prometheus_cluster prometheus_cluster (world_of prometheus_cluster)
    (fst (create_or_update KConfigMap "llminferencecluster-sample-signals" "default"
       (mutate_signals prometheus_cluster (baseLabels prometheus_cluster)) (world_of prometheus_cluster)))
    (ok_or (new_obj KConfigMap emp emp)
       (snd (create_or_update KConfigMap "llminferencecluster-sample-signals" "default"
       (mutate_signals prometheus_cluster (baseLabels prometheus_cluster)) (world_of prometheus_cluster)))))
    as (w' & E & _); [reflexivity|reflexivity|vm_compute; reflexivity|].
  exists w'. exact E.
Defined.
