(* ===== verification/Router.v ===== *)
(** * The router

    src/cmd/router/main.go: session affinity by hashing the conversation
    identifier into the shard space of the published map, the HTTP handler
    with its metrics, and the loop that polls the shard map.  The handler is
    split where it waits for the upstream answer, so that polls and other
    requests can come in between; [chat_completions] is the two halves run
    together. *)
From S2P Require Import Prelude Strconv Fnv Utf8 Json JsonFacts ShardMap Kube Signals.
From stdpp Require Import options.

(** ** Options *)
Record options := mkOptions {
  listenAddr : string;
  metricsAddr : string;
  shardMapConfigMap : string;
  hashKey : string;
  namespace : string;
  decodeServiceDNS : string;
  kubeconfig : string;
  pollInterval : Z }.

(** ** Conversation identifiers *)
Record chatRequest := mkChatRequest { ConversationID : string }.

Definition chat_field (r : chatRequest) (key : string) (v : json) : option chatRequest :=
  if key_is "conversationId" key then mkChatRequest <$> decode_string (ConversationID r) v
  else Some r.

Definition extractConversationID (body : string) : string :=
  match Unmarshal chat_field (mkChatRequest emp) body with
  | Ok req => ConversationID req
  | _ => emp
  end.

(** [hex.EncodeToString]. *)
Fixpoint EncodeToString (b : list Z) : string :=
  match b with
  | [] => emp
  | x :: b' => String (hex_chr (x / 16)) (String (hex_chr (x mod 16)) (EncodeToString b'))
  end.

(** [rnd] is what [rand.Read] delivers: the rest of the array stays zero, and
    its error is dropped. *)
Definition newConversationID (rnd : list Z) : string :=
  EncodeToString (take 16 (rnd ++ replicate 16 0)).

(** ** Choosing a shard *)
Definition maxShardID (l : list ShardAssignment) : Z :=
  foldl (λ m s, if m <? ShardID s then ShardID s else m) 0 l.

Definition pickShardForConversation (sm : ShardMap) (conversationID : string) : Z :=
  let h := fnv32a conversationID in
  let m := maxShardID (Shards sm) in
  if m <=? 0 then 0 else int32 (h mod uint32 (int32 (m + 1))).

(** ** HTTP *)

(** Header fields under their canonical names; [Get] of a missing one is the
    empty string. *)
Abbreviation headers := (gmap string string).
Definition header_get (h : headers) (k : string) : string := default emp (h !! k).

Record http_request := mkRequest { rq_Header : headers; rq_Body : result string }.
Record http_response := mkResponse { rs_StatusCode : Z; rs_Header : headers; rs_Body : string }.
Record upstream_request := mkUpstream {
  up_Method : string; up_URL : string; up_Header : headers; up_Body : string }.

(** [http.Error]. *)
Definition http_Error (msg : string) (code : Z) : http_response :=
  mkResponse code
    (<["Content-Type" := "text/plain; charset=utf-8"]>
       (<["X-Content-Type-Options" := "nosniff"]> ∅))
    (msg +:+ str1 (byte_chr 10)).

(** [w.WriteHeader] panics on a code that is not three digits. *)
Definition valid_code (code : Z) : bool := (100 <=? code) && (code <=? 999).

(** ** State: the current shard map and the metrics *)
Record RouterState := mkRouter {
  currentShardMap : option ShardMap;
  shardMapErrors : Z;
  routeLatency : Z;                    (* number of observations *)
  routeTotal : gmap string Z;
  chosenShard : gmap string Z }.

Definition init_router : RouterState := mkRouter None 0 0 ∅ ∅.

(** [vec.WithLabelValues(k).Inc()]. *)
Definition inc (k : string) (m : gmap string Z) : gmap string Z := <[k := default 0 (m !! k) + 1]> m.

Definition count_route (label : string) (st : RouterState) : RouterState :=
  mkRouter (currentShardMap st) (shardMapErrors st) (routeLatency st)
    (inc label (routeTotal st)) (chosenShard st).
Definition count_shard (label : string) (st : RouterState) : RouterState :=
  mkRouter (currentShardMap st) (shardMapErrors st) (routeLatency st) (routeTotal st)
    (inc label (chosenShard st)).
Definition observe (st : RouterState) : RouterState :=
  mkRouter (currentShardMap st) (shardMapErrors st) (routeLatency st + 1) (routeTotal st)
    (chosenShard st).

(** ** The handler of /v1/chat/completions *)

(** A request that waits for the upstream answer. *)
Record pending := mkPending { p_convID : string; p_shardID : Z; p_request : upstream_request }.

Inductive progress := Answered (r : result http_response) | Waiting (p : pending).

Definition choose_shard (st : RouterState) (convID : string) : Z :=
  match currentShardMap st with
  | Some sm => if 0 <? Z.of_nat (length (Shards sm)) then pickShardForConversation sm convID else 0
  | None => 0
  end.

(** Up to the call of [httpClient.Do].  [url_ok] tells whether
    [http.NewRequestWithContext] accepts the URL. *)
Definition start_chat (url_ok : string → bool) (opt : options) (rnd : list Z) (st : RouterState)
    (r : http_request) : RouterState * progress :=
  match rq_Body r with
  | Panic p => (observe st, Answered (Panic p))
  | Err _ => (observe (count_route "400" st), Answered (Ok (http_Error "bad request" 400)))
  | Ok body =>
      let convID := extractConversationID body in
      let convID := if bool_decide (convID = emp) then newConversationID rnd else convID in
      let shardID := choose_shard st convID in
      let st := count_shard (Itoa shardID) st in
      let url := "http://" +:+ decodeServiceDNS opt +:+ "/v1/chat/completions" in
      if url_ok url then
        let hdr := <["X-KV-Shard" := Itoa shardID]>
                     (<["X-Conversation-Id" := convID]>
                        (<["Content-Type" := header_get (rq_Header r) "Content-Type"]> ∅)) in
        (st, Waiting (mkPending convID shardID (mkUpstream "POST" url hdr body)))
      else (observe (count_route "500" st),
            Answered (Ok (http_Error "upstream request build failed" 500)))
  end.

(** From the answer of [httpClient.Do] on. *)
Definition finish_chat (st : RouterState) (p : pending) (reply : result http_response)
  : RouterState * result http_response :=
  match reply with
  | Panic m => (observe st, Panic m)
  | Err _ => (observe (count_route "502" st), Ok (http_Error "upstream unavailable" 502))
  | Ok resp =>
      if valid_code (rs_StatusCode resp) then
        (observe (count_route (Itoa (rs_StatusCode resp)) st),
         Ok (mkResponse (rs_StatusCode resp)
               (<["X-Conversation-Id" := p_convID p]>
                  (<["Content-Type" := header_get (rs_Header resp) "Content-Type"]> ∅))
               (rs_Body resp)))
      else (observe st, Panic "invalid WriteHeader code")
  end.

Definition chat_completions (url_ok : string → bool) (Do : upstream_request → result http_response)
    (opt : options) (rnd : list Z) (st : RouterState) (r : http_request)
  : RouterState * result http_response :=
  match start_chat url_ok opt rnd st r with
  | (st, Answered x) => (st, x)
  | (st, Waiting p) => finish_chat st p (Do (p_request p))
  end.

Definition healthz (r : http_request) : http_response := mkResponse 200 ∅ emp.

(** ** Polling: one tick of [pollShardMap] *)
Definition set_map (sm : ShardMap) (st : RouterState) : RouterState :=
  mkRouter (Some sm) (shardMapErrors st) (routeLatency st) (routeTotal st) (chosenShard st).
Definition count_error (st : RouterState) : RouterState :=
  mkRouter (currentShardMap st) (shardMapErrors st + 1) (routeLatency st) (routeTotal st)
    (chosenShard st).

Definition poll_tick (reply : option ConfigMap) (st : RouterState) : RouterState :=
  match reply with
  | Some cm =>
      match ParseShardMapJSON (data_get (cm_Data cm) "shardmap.json") with
      | Ok sm => set_map sm st
      | _ => count_error st
      end
  | None => count_error st
  end.

(** The replies of the API server, one per tick ([None] when the [Get]
    failed), until the context ends. *)
Definition pollShardMap (replies : list (option ConfigMap)) (st : RouterState) : RouterState :=
  foldl (λ st r, poll_tick r st) st replies.

(** ** Choosing a shard: facts *)
Lemma maxShardID_foldl l m :
  m <= foldl (λ m s, if m <? ShardID s then ShardID s else m) m l ∧
  (∀ a, a ∈ l → ShardID a <= foldl (λ m s, if m <? ShardID s then ShardID s else m) m l) ∧
  (foldl (λ m s, if m <? ShardID s then ShardID s else m) m l = m ∨
   ∃ a, a ∈ l ∧ ShardID a = foldl (λ m s, if m <? ShardID s then ShardID s else m) m l).
Proof.
  revert m. induction l as [|x l IH]; intros m; simpl.
  - split_and!; [lia|by intros ? ?%elem_of_nil|by left].
  - destruct (IH (if m <? ShardID x then ShardID x else m)) as (H1 & H2 & H3). split_and!.
    + destruct (Z.ltb_spec m (ShardID x)); lia.
    + intros a [->|Ha]%elem_of_cons; [destruct (Z.ltb_spec m (ShardID x)); lia|by apply H2].
    + destruct H3 as [H3|(a & Ha & H3)]; [|right; exists a; set_solver].
      destruct (m <? ShardID x); [right; exists x; set_solver|by left].
Qed.

Lemma maxShardID_spec l :
  0 <= maxShardID l ∧ (∀ a, a ∈ l → ShardID a <= maxShardID l) ∧
  (maxShardID l = 0 ∨ ∃ a, a ∈ l ∧ ShardID a = maxShardID l).
Proof. apply maxShardID_foldl. Qed.

Lemma maxShardID_typed l :
  Forall id_typed l → maxShardID l <= 2147483647.
Proof.
  intros Hl. destruct (maxShardID_spec l) as (_ & _ & [->|(a & Ha & <-)]); [lia|].
  rewrite list.Forall_forall in Hl. specialize (Hl a Ha). unfold id_typed, is_int32 in Hl. lia.
Qed.

(** The modulus is the size of the shard space, also at the largest int32,
    where [maxShardID+1] wraps and the conversion to uint32 undoes it. *)
Lemma pick_spec sm id :
  Forall id_typed (Shards sm) →
  pickShardForConversation sm id = fnv32a id mod (maxShardID (Shards sm) + 1).
Proof.
  intros Ht%maxShardID_typed. destruct (maxShardID_spec (Shards sm)) as [H0 _].
  unfold pickShardForConversation. pose proof (fnv32a_range id).
  destruct (Z.leb_spec (maxShardID (Shards sm)) 0) as [Hm|Hm].
  { replace (maxShardID (Shards sm)) with 0 by lia. by rewrite Z.mod_1_r. }
  assert (uint32 (int32 (maxShardID (Shards sm) + 1)) = maxShardID (Shards sm) + 1) as -> by width_lia.
  apply int32_small. pose proof (Z.mod_pos_bound (fnv32a id) (maxShardID (Shards sm) + 1)).
  unfold is_int32. lia.
Qed.

(** C19: the shard chosen for a conversation is a function of the identifier
    and of the largest shard identifier alone, and always lies between zero
    and that identifier, for any map the router can have loaded: reordering
    the map, changing owners or bumping the version moves no conversation,
    and the int32 arithmetic never produces a negative shard. *)
Theorem pick_shard_range (sm : ShardMap) (id : string) :
  Forall id_typed (Shards sm) →
  0 <= pickShardForConversation sm id <= maxShardID (Shards sm) ∧
  ∀ sm', Forall id_typed (Shards sm') → maxShardID (Shards sm') = maxShardID (Shards sm) →
         pickShardForConversation sm' id = pickShardForConversation sm id.
Proof.
  intros Ht. rewrite pick_spec by done. destruct (maxShardID_spec (Shards sm)) as [H0 _]. split.
  - pose proof (Z.mod_pos_bound (fnv32a id) (maxShardID (Shards sm) + 1)). lia.
  - intros sm' Ht' Hm. by rewrite pick_spec, Hm by done.
Qed.

Lemma pick_shard_range_witness :
  pickShardForConversation (mkShardMap 1 [mkAssignment 2147483647 "d" "p"]) "a" = 1678518572.
Proof.
  destruct (pick_shard_range (mkShardMap 2 [mkAssignment 5 "d" "q"; mkAssignment 2147483647 "d" "p"]) "a")
    as [_ H]; [repeat constructor|].
  rewrite (H (mkShardMap 1 [mkAssignment 2147483647 "d" "p"]));
    [vm_compute; reflexivity|repeat constructor|reflexivity].
Defined.

(** ** Conversation identifiers: facts *)
Lemma EncodeToString_length b :
  String.length (EncodeToString b) = (2 * length b)%nat.
Proof. induction b as [|x b IH]; simpl; [done|]. rewrite IH. lia. Qed.

Definition is_byte (x : Z) : bool := (0 <=? x) && (x <? 256).

Lemma hex_chr_inj a b : 0 <= a < 16 → 0 <= b < 16 → hex_chr a = hex_chr b → a = b.
Proof.
  intros Ha Hb E. pose proof (hex_chr_digit a Ha) as Ea. rewrite E, hex_chr_digit in Ea by done.
  congruence.
Qed.

Lemma EncodeToString_inj b1 b2 :
  Forall (λ x, is_byte x = true) b1 → Forall (λ x, is_byte x = true) b2 →
  EncodeToString b1 = EncodeToString b2 → b1 = b2.
Proof.
  intros H1. revert b2. induction H1 as [|x b1 Hx _ IH]; intros b2 [|y b2' Hy H2]; simpl; try done.
  assert (0 <= x < 256 ∧ 0 <= y < 256) as [Bx By] by (unfold is_byte in *; lia).
  intros [= Eh El Er]. f_equal; [|by apply IH].
  apply hex_chr_inj in Eh; [|Z.div_mod_to_equations; lia..].
  apply hex_chr_inj in El; [|Z.div_mod_to_equations; lia..].
  rewrite (Z.div_mod x 16), (Z.div_mod y 16) by lia. by rewrite Eh, El.
Qed.

Definition is_hex_string (s : string) : bool :=
  forallb is_hex (String.list_ascii_of_string s).

Lemma EncodeToString_hex b :
  Forall (λ x, is_byte x = true) b → is_hex_string (EncodeToString b) = true.
Proof.
  unfold is_hex_string. induction 1 as [|x b Hx _ IH]; simpl; [done|].
  assert (0 <= x < 256) by (unfold is_byte in *; lia).
  rewrite !hex_chr_is_hex by (Z.div_mod_to_equations; lia). done.
Qed.

Lemma rand_bytes rnd :
  Forall (λ x, is_byte x = true) rnd →
  Forall (λ x, is_byte x = true) (take 16 (rnd ++ replicate 16 0)) ∧
  length (take 16 (rnd ++ replicate 16 0)) = 16%nat.
Proof.
  intros Hr. split.
  - apply Forall_take, Forall_app. split; [done|]. by apply Forall_replicate.
  - rewrite length_take, length_app, length_replicate. lia.
Qed.

(** A generated conversation identifier is 32 hexadecimal digits,
    whatever the random source delivers, and two identifiers generated from
    different full reads differ. *)
Lemma generated_ids (rnd1 rnd2 : list Z) :
  Forall (λ x, is_byte x = true) rnd1 → Forall (λ x, is_byte x = true) rnd2 →
  String.length (newConversationID rnd1) = 32%nat ∧
  is_hex_string (newConversationID rnd1) = true ∧
  newConversationID rnd1 ≠ emp ∧
  (length rnd1 = 16%nat → length rnd2 = 16%nat →
   newConversationID rnd1 = newConversationID rnd2 → rnd1 = rnd2).
Proof.
  intros H1 H2. destruct (rand_bytes rnd1 H1) as [B1 L1]. destruct (rand_bytes rnd2 H2) as [B2 L2].
  unfold newConversationID. rewrite EncodeToString_length, L1. split_and!.
  - done.
  - by apply EncodeToString_hex.
  - intros E%(f_equal String.length). by rewrite EncodeToString_length, L1 in E.
  - intros Hl1 Hl2 E%EncodeToString_inj; [|done..].
    by rewrite !take_app_le, !take_ge in E by lia.
Qed.

Lemma generated_ids_witness :
  newConversationID [171; 205; 0; 1; 2; 3; 4; 5; 6; 7; 8; 9; 10; 11; 12; 255] ≠ emp ∧
  newConversationID [] = "00000000000000000000000000000000".
Proof.
  split; [|reflexivity].
  apply (generated_ids [171; 205; 0; 1; 2; 3; 4; 5; 6; 7; 8; 9; 10; 11; 12; 255] []);
    repeat constructor.
Defined.

(** The body of a request: a conversation identifier among other members. *)
Definition chat_json (pre : list (string * json)) (id : string) (post : list (string * json)) : json :=
  JObj (pre ++ [("conversationId", JStr id)] ++ post).

Definition other_key (kv : string * json) : bool := negb (key_is "conversationId" kv.1).

Lemma chat_fields_skip r m :
  forallb other_key m = true → decode_fields chat_field r m = Some r.
Proof.
  induction m as [|[k v] m IH]; simpl; [done|]. intros [Hk Hm]%andb_prop. unfold chat_field at 1.
  unfold other_key in Hk. apply negb_true_iff in Hk. simpl in Hk. rewrite Hk. by apply IH.
Qed.

Lemma decode_fields_app {A} (field : A → string → json → option A) cur m1 m2 x :
  decode_fields field cur m1 = Some x →
  decode_fields field cur (m1 ++ m2) = decode_fields field x m2.
Proof.
  revert cur. induction m1 as [|[k v] m1 IH]; intros cur; simpl; [by intros [= ->]|].
  destruct (field cur k v); [apply IH|done].
Qed.

Definition member (kv : string * json) : string * json := (utf8_sanitize kv.1, sanitize kv.2).

Lemma extract_spec pre id post :
  num_json (chat_json pre id post) = true → height (chat_json pre id post) <= maxNestingDepth →
  forallb other_key (member <$> pre) = true → forallb other_key (member <$> post) = true →
  extractConversationID (print (chat_json pre id post)) = utf8_sanitize id.
Proof.
  intros Hi Hh Hpre Hpost. unfold extractConversationID, Unmarshal. rewrite json_parse_print by done.
  assert (sanitize (chat_json pre id post) =
          JObj ((member <$> pre) ++ ("conversationId", JStr (utf8_sanitize id)) :: (member <$> post))) as ->.
  { unfold chat_json. cbn [sanitize]. rewrite !fmap_app. reflexivity. }
  unfold decode_struct. erewrite decode_fields_app by (by apply chat_fields_skip).
  rewrite (decode_fields_cons _ _ _ _ _ (mkChatRequest (utf8_sanitize id))) by reflexivity.
  by rewrite chat_fields_skip.
Qed.

(** ** What the body says

    The reference reading of a request body: the members of the object whose
    key is conversationId up to case, in order; each must be a string or null,
    and the last string counts. *)
Definition id_values (m : list (string * json)) : list json :=
  snd <$> filter (λ kv, key_is "conversationId" kv.1 = true) m.

Definition string_or_null (j : json) : bool :=
  match j with JStr _ | JNull => true | _ => false end.

Definition as_string (j : json) : option string := match j with JStr s => Some s | _ => None end.

Definition body_id (body : string) : string :=
  match json_parse body with
  | Some (JObj m) =>
      if forallb string_or_null (id_values m)
      then default emp (list.last (omap as_string (id_values m))) else emp
  | _ => emp
  end.

Lemma id_values_cons k v m :
  id_values ((k, v) :: m) =
    if key_is "conversationId" k then v :: id_values m else id_values m.
Proof.
  unfold id_values. rewrite filter_cons. simpl. destruct (key_is "conversationId" k) eqn:E.
  - by rewrite decide_True.
  - by rewrite decide_False.
Qed.

Lemma chat_fields_spec r m :
  decode_fields chat_field r m =
    if forallb string_or_null (id_values m)
    then Some (mkChatRequest (default (ConversationID r) (list.last (omap as_string (id_values m)))))
    else None.
Proof.
  revert r. induction m as [|[k v] m IH]; intros r; [by destruct r|].
  rewrite id_values_cons. cbn [decode_fields]. unfold chat_field at 1.
  destruct (key_is "conversationId" k); [|apply IH].
  destruct v; cbn [decode_string fmap option_fmap option_map]; try done; rewrite IH; simpl.
  - done.
  - destruct (forallb string_or_null (id_values m)); [|done].
    rewrite last_cons. by destruct (list.last _).
Qed.

Lemma extract_body_id body : extractConversationID body = body_id body.
Proof.
  unfold extractConversationID, Unmarshal, body_id. destruct (json_parse body) as [[]|]; try done.
  cbn [decode_struct]. rewrite chat_fields_spec. by destruct (forallb _ _).
Qed.

(** C39: which conversation identifier the router reads, for every request
    body.  It is that of the object in the body: the last string under a key
    that is conversationId up to case, whatever other members, white space
    and numbers there are; a body that is not a JSON object, one without such
    a member, and one where such a member is neither a string nor null, count
    as no identifier.  So a client that encodes an identifier, with
    json.Marshal's text of an object nested at most 10000 deep in which no
    other key is conversationId up to case, is understood: its identifier is
    read, with U+FFFD for bytes that are not UTF-8. *)
Theorem conversation_id_extracted (body : string) :
  extractConversationID body = body_id body ∧
  ∀ pre id post,
    num_json (chat_json pre id post) = true → height (chat_json pre id post) <= maxNestingDepth →
    forallb other_key (member <$> pre) = true → forallb other_key (member <$> post) = true →
    body = print (chat_json pre id post) →
    extractConversationID body = utf8_sanitize id ∧
    (utf8_valid id = true → extractConversationID body = id).
Proof.
  split; [apply extract_body_id|].
  intros pre id post ? ? ? ? ->. rewrite extract_spec by done. split; [done|]. apply utf8_sanitize_valid.
Qed.

Lemma conversation_id_extracted_witness :
  extractConversationID (print (chat_json [("temperature", JNum "0.7")] "conv-7" [("n", JNum "3")])) = "conv-7"
  ∧ extractConversationID "not json" = emp.
Proof.
  split; [|rewrite (proj1 (conversation_id_extracted "not json")); vm_compute; reflexivity].
  apply (proj2 (conversation_id_extracted _) [("temperature", JNum "0.7")] "conv-7" [("n", JNum "3")]);
    try (vm_compute; reflexivity). vm_compute. discriminate.
Defined.

(** ** One request *)

(** C18: session affinity: two requests that carry the same conversation
    identifier, while the same shard map is loaded, are forwarded with the
    same shard and that identifier in their headers, whatever the metrics,
    the random source and the rest of the requests are; their bodies are
    passed on unchanged. *)
Theorem session_affinity (url_ok : string → bool) (opt : options) (rnd1 rnd2 : list Z)
    (st1 st2 st1' st2' : RouterState) (r1 r2 : http_request) (body1 body2 : string)
    (p1 p2 : pending) :
  rq_Body r1 = Ok body1 → rq_Body r2 = Ok body2 →
  extractConversationID body1 = extractConversationID body2 →
  extractConversationID body1 ≠ emp →
  currentShardMap st1 = currentShardMap st2 →
  start_chat url_ok opt rnd1 st1 r1 = (st1', Waiting p1) →
  start_chat url_ok opt rnd2 st2 r2 = (st2', Waiting p2) →
  p_shardID p1 = p_shardID p2 ∧
  up_Header (p_request p1) !! "X-KV-Shard" = Some (Itoa (p_shardID p1)) ∧
  up_Header (p_request p2) !! "X-KV-Shard" = Some (Itoa (p_shardID p1)) ∧
  up_Header (p_request p1) !! "X-Conversation-Id" = Some (extractConversationID body1) ∧
  up_Header (p_request p2) !! "X-Conversation-Id" = Some (extractConversationID body1) ∧
  up_Body (p_request p1) = body1 ∧ up_Body (p_request p2) = body2.
Proof.
  unfold start_chat. intros -> -> He Hne Hm.
  rewrite <- He, !(bool_decide_eq_false_2 _ Hne).
  destruct (url_ok _); [|done]. intros [= _ <-] [= _ <-]. simpl.
  assert (choose_shard st2 (extractConversationID body1) = choose_shard st1 (extractConversationID body1))
    as -> by (unfold choose_shard; by rewrite Hm).
  split_and!; try done; by simplify_map_eq.
Qed.

Definition sample_map : ShardMap :=
  mkShardMap 1 [mkAssignment 0 "decode" "p0"; mkAssignment 1 "decode" "p1"; mkAssignment 2 "decode" "p2"].
Definition sample_options : options := mkOptions ":8080" ":9090" "m" "k" "ns" "d:8000" emp 2000000000.
Definition sample_body (n : string) : string :=
  print (chat_json [("prompt", JStr n)] "conv-7" []).
Definition sample_state : RouterState := mkRouter (Some sample_map) 0 5 ∅ ∅.

Lemma session_affinity_witness :
  ∃ st1 st2 p1 p2,
    start_chat (λ _, true) sample_options [1] sample_state (mkRequest ∅ (Ok (sample_body "a"))) = (st1, Waiting p1) ∧
    start_chat (λ _, true) sample_options [2] (set_map sample_map init_router)
      (mkRequest ∅ (Ok (sample_body "b"))) = (st2, Waiting p2) ∧
    p_shardID p1 = p_shardID p2.
Proof.
  do 4 eexists. split; [reflexivity|]. split; [reflexivity|].
  eapply (session_affinity (λ _, true) sample_options [1] [2] sample_state (set_map sample_map init_router)
    _ _ (mkRequest ∅ (Ok (sample_body "a"))) (mkRequest ∅ (Ok (sample_body "b")))
    (sample_body "a") (sample_body "b")); try reflexivity; vm_compute; discriminate.
Defined.
