(* ===== verification/RouterSystem.v ===== *)
(** * The router as a system

    Requests and polls interleave: a request starts, waits for its upstream
    while others start, finish or the shard map is replaced, and finishes
    later.  The step relation has one rule for each of these, and the
    invariants hold in every reachable state. *)
From S2P Require Import Prelude Strconv Fnv Utf8 Json JsonFacts ShardMap Kube Signals Router.
From stdpp Require Import options.

(** ** Counters *)
Definition total (m : gmap string Z) : Z := map_fold (λ _ v a, v + a) 0 m.
Arguments total : simpl never.

Lemma total_insert m k v :
  m !! k = None → total (<[k := v]> m) = v + total m.
Proof. intros Hk. unfold total. rewrite map_fold_insert_L; [done| |done]. intros. lia. Qed.

Lemma total_inc k m : total (inc k m) = total m + 1.
Proof.
  unfold inc. destruct (m !! k) as [v|] eqn:E; simpl.
  - rewrite <- insert_delete_eq, total_insert by apply lookup_delete_eq.
    rewrite <- (insert_id m k v E) at 2.
    rewrite <- (insert_delete_eq m k v), total_insert by apply lookup_delete_eq. lia.
  - rewrite total_insert by done. lia.
Qed.

(** ** One request, start to end *)

(** C21: every request is accounted for once: the latency is observed once on
    every path, an answer is counted under exactly the status code that the
    client receives (400, 500, 502 or that of the upstream), the chosen shard
    is counted once when the body could be read and not otherwise, and the
    request leaves the shard map alone.  Only an upstream status outside
    100..999 aborts the connection uncounted. *)
Theorem chat_accounting (url_ok : string → bool) (Do : upstream_request → result http_response)
    (opt : options) (rnd : list Z) (st st' : RouterState) (r : http_request)
    (res : result http_response) :
  chat_completions url_ok Do opt rnd st r = (st', res) →
  routeLatency st' = routeLatency st + 1 ∧
  currentShardMap st' = currentShardMap st ∧ shardMapErrors st' = shardMapErrors st ∧
  match res with
  | Ok resp => routeTotal st' = inc (Itoa (rs_StatusCode resp)) (routeTotal st)
  | Panic _ => routeTotal st' = routeTotal st
  | Err _ => False
  end ∧
  total (chosenShard st') = total (chosenShard st) + (if is_ok (rq_Body r) then 1 else 0).
Proof.
  unfold chat_completions, start_chat. destruct (rq_Body r) as [body|e|m]; simpl.
  2-3: intros [= <- <-]; simpl; split_and!; try done; lia.
  destruct (url_ok _); simpl.
  - unfold finish_chat. destruct (Do _) as [resp|e|m]; [destruct (valid_code _)| |];
      intros [= <- <-]; simpl; rewrite total_inc; by split_and!.
  - intros [= <- <-]; simpl; rewrite total_inc; by split_and!.
Qed.

Lemma chat_accounting_witness :
  let '(st, res) := chat_completions (λ _, true) (λ _, Err (errors_New "refused")) sample_options []
                      sample_state (mkRequest ∅ (Ok (sample_body "hi"))) in
  routeTotal st = inc "502" ∅ ∧ total (chosenShard st) = 1.
Proof.
  pose proof (chat_accounting (λ _, true) (λ _, Err (errors_New "refused")) sample_options []
    sample_state _ (mkRequest ∅ (Ok (sample_body "hi"))) _ (surjective_pairing _)) as (_ & _ & _ & H & H').
  split; [exact H|exact H'].
Defined.

(** A successful upstream answer reaches the client as it is: status,
    body and content type are passed through and the conversation identifier
    used for routing is added; an unreachable upstream is a 502. *)
Lemma upstream_passed_through (st : RouterState) (p : pending) (reply : result http_response) :
  match reply with
  | Ok resp =>
      valid_code (rs_StatusCode resp) = true →
      ∃ st' out, finish_chat st p reply = (st', Ok out) ∧
        rs_StatusCode out = rs_StatusCode resp ∧ rs_Body out = rs_Body resp ∧
        header_get (rs_Header out) "Content-Type" = header_get (rs_Header resp) "Content-Type" ∧
        header_get (rs_Header out) "X-Conversation-Id" = p_convID p
  | Err _ => ∃ st' out, finish_chat st p reply = (st', Ok out) ∧ rs_StatusCode out = 502
  | Panic _ => True
  end.
Proof.
  destruct reply as [resp|e|m]; [|by do 2 eexists|done].
  intros Hc. unfold finish_chat. rewrite Hc. do 2 eexists. split; [done|]. unfold header_get. simpl.
  split_and!; try done; by simplify_map_eq.
Qed.

(** ** Polling *)
Definition good_map (reply : option ConfigMap) : option ShardMap :=
  match reply with
  | Some cm => match ParseShardMapJSON (data_get (cm_Data cm) "shardmap.json") with
               | Ok sm => Some sm
               | _ => None
               end
  | None => None
  end.

Lemma poll_tick_spec reply st :
  poll_tick reply st = match good_map reply with Some sm => set_map sm st | None => count_error st end.
Proof. unfold poll_tick, good_map. destruct reply; [|done]. by destruct (ParseShardMapJSON _). Qed.

(** C22: polling keeps the last good shard map: after any sequence of replies
    the loaded map is the one of the last reply that could be fetched and
    parsed, or the one loaded before when there is none, and the error
    counter has counted exactly the other replies. *)
Theorem poll_keeps_last_good (replies : list (option ConfigMap)) (st : RouterState) :
  currentShardMap (pollShardMap replies st) =
    match list.last (omap good_map replies) with
    | Some sm => Some sm
    | None => currentShardMap st
    end ∧
  shardMapErrors (pollShardMap replies st) =
    shardMapErrors st + Z.of_nat (length replies) - Z.of_nat (length (omap good_map replies)) ∧
  routeTotal (pollShardMap replies st) = routeTotal st ∧
  chosenShard (pollShardMap replies st) = chosenShard st.
Proof.
  revert st. induction replies as [|r rs IH]; intros st; simpl; [split_and!; try done; lia|].
  rewrite poll_tick_spec. destruct (IH (match good_map r with Some sm => set_map sm st
    | None => count_error st end)) as (H1 & H2 & H3 & H4).
  rewrite H1, H2, H3, H4. destruct (good_map r) as [sm|] eqn:E; simpl;
    change (list_omap _ _ good_map rs) with (omap good_map rs); split_and!; try done; try lia.
  rewrite last_cons. by destruct (list.last (omap good_map rs)).
Qed.

(** ** Interleaving *)

(** The router with the requests that wait for their upstream, and counts of
    the requests that started, were answered, were aborted by a panic, and
    had an unreadable body. *)
Record system := mkSystem {
  router : RouterState;
  inflight : list pending;
  started : Z;
  answered : Z;
  aborted : Z;
  unread : Z }.

Definition init_system : system := mkSystem init_router [] 0 0 0 0.

Definition is_answer (r : result http_response) : Z := if panics r then 0 else 1.

Inductive sstep (url_ok : string → bool) (opt : options) : system → system → Prop :=
| step_poll s reply :
    sstep url_ok opt s
      (mkSystem (poll_tick reply (router s)) (inflight s) (started s) (answered s) (aborted s) (unread s))
| step_answered s rnd r st' res :
    start_chat url_ok opt rnd (router s) r = (st', Answered res) →
    Forall (λ x, is_byte x = true) rnd →
    sstep url_ok opt s
      (mkSystem st' (inflight s) (started s + 1) (answered s + is_answer res)
         (aborted s + (1 - is_answer res)) (unread s + (if is_ok (rq_Body r) then 0 else 1)))
| step_waiting s rnd r st' p :
    start_chat url_ok opt rnd (router s) r = (st', Waiting p) →
    Forall (λ x, is_byte x = true) rnd →
    sstep url_ok opt s
      (mkSystem st' (p :: inflight s) (started s + 1) (answered s) (aborted s) (unread s))
| step_finish s l1 p l2 reply st' res :
    inflight s = l1 ++ p :: l2 →
    finish_chat (router s) p reply = (st', res) →
    sstep url_ok opt s
      (mkSystem st' (l1 ++ l2) (started s) (answered s + is_answer res)
         (aborted s + (1 - is_answer res)) (unread s)).

Definition reachable (url_ok : string → bool) (opt : options) (s : system) : Prop :=
  rtc (sstep url_ok opt) init_system s.

(** A waiting request names a shard in range and a conversation, and its
    upstream request carries both. *)
Definition pending_ok (p : pending) : Prop :=
  0 <= p_shardID p <= 2147483647 ∧ p_convID p ≠ emp ∧
  up_Header (p_request p) !! "X-KV-Shard" = Some (Itoa (p_shardID p)) ∧
  up_Header (p_request p) !! "X-Conversation-Id" = Some (p_convID p).

Definition map_ok (st : RouterState) : Prop :=
  ∀ sm, currentShardMap st = Some sm → Forall id_typed (Shards sm).

Definition system_inv (s : system) : Prop :=
  map_ok (router s) ∧ Forall pending_ok (inflight s) ∧
  started s = answered s + aborted s + Z.of_nat (length (inflight s)) ∧
  routeLatency (router s) = answered s + aborted s ∧
  total (routeTotal (router s)) = answered s ∧
  total (chosenShard (router s)) = started s - unread s.

Lemma choose_shard_range st id :
  map_ok st → 0 <= choose_shard st id <= 2147483647.
Proof.
  intros Hm. unfold choose_shard. destruct (currentShardMap st) as [sm|] eqn:E; [|lia].
  specialize (Hm sm E). destruct (0 <? _); [|lia]. rewrite pick_spec by done.
  pose proof (maxShardID_typed _ Hm). destruct (maxShardID_spec (Shards sm)) as [H0 _].
  pose proof (Z.mod_pos_bound (fnv32a id) (maxShardID (Shards sm) + 1)). lia.
Qed.

Lemma newConversationID_ne rnd : newConversationID rnd ≠ emp.
Proof.
  unfold newConversationID. destruct rnd; simpl; done.
Qed.

(** The effects of the two halves of the handler on the metrics. *)
Lemma start_answered url_ok opt rnd st r st' res :
  start_chat url_ok opt rnd st r = (st', Answered res) →
  currentShardMap st' = currentShardMap st ∧ routeLatency st' = routeLatency st + 1 ∧
  total (routeTotal st') = total (routeTotal st) + is_answer res ∧
  total (chosenShard st') = total (chosenShard st) + (if is_ok (rq_Body r) then 1 else 0).
Proof.
  unfold start_chat. destruct (rq_Body r); [case_match; [done|]| |]; intros [= <- <-];
    simpl; rewrite ?total_inc; split_and!; try done; unfold is_answer; simpl; lia.
Qed.

Lemma start_waiting url_ok opt rnd st r st' p :
  map_ok st → start_chat url_ok opt rnd st r = (st', Waiting p) →
  pending_ok p ∧ currentShardMap st' = currentShardMap st ∧ routeLatency st' = routeLatency st ∧
  total (routeTotal st') = total (routeTotal st) ∧
  total (chosenShard st') = total (chosenShard st) + 1.
Proof.
  intros Hm. unfold start_chat. destruct (rq_Body r) as [body| |]; [|done|done].
  destruct (url_ok _); [|done]. intros [= <- <-]. simpl. rewrite total_inc.
  split_and!; try done. split_and!; simpl; [apply choose_shard_range; done..| | |].
  - case_bool_decide; [apply newConversationID_ne|done].
  - by simplify_map_eq.
  - by simplify_map_eq.
Qed.

Lemma finish_effect st p reply st' res :
  finish_chat st p reply = (st', res) →
  currentShardMap st' = currentShardMap st ∧ routeLatency st' = routeLatency st + 1 ∧
  total (routeTotal st') = total (routeTotal st) + is_answer res ∧ chosenShard st' = chosenShard st.
Proof.
  unfold finish_chat. destruct reply as [resp| |]; [case_match| |]; intros [= <- <-];
    simpl; rewrite ?total_inc; split_and!; try done; unfold is_answer; simpl; lia.
Qed.

Lemma poll_effect reply st :
  (map_ok st → map_ok (poll_tick reply st)) ∧ routeLatency (poll_tick reply st) = routeLatency st ∧
  routeTotal (poll_tick reply st) = routeTotal st ∧ chosenShard (poll_tick reply st) = chosenShard st.
Proof.
  unfold poll_tick. destruct reply as [cm|]; [|done].
  destruct (ParseShardMapJSON _) as [sm| |] eqn:E; split_and!; try done.
  intros _ sm' [= <-]. by eapply ParseShardMapJSON_typed.
Qed.

Lemma sstep_inv url_ok opt s s' : sstep url_ok opt s s' → system_inv s → system_inv s'.
Proof.
  intros Hstep (Hm & Hp & Hs & Hl & Ht & Hc). destruct Hstep as
    [s reply|s rnd r st' res E _|s rnd r st' p E _|s l1 p l2 reply st' res Hin E].
  - destruct (poll_effect reply (router s)) as (Pm & Pl & Pt & Pc).
    split_and!; simpl; rewrite ?Pl, ?Pt, ?Pc; auto.
  - destruct (start_answered _ _ _ _ _ _ _ E) as (Em & El & Et & Ec).
    split_and!; simpl; try done; [unfold map_ok; by rewrite Em|lia..|].
    rewrite Ec. destruct (is_ok (rq_Body r)); lia.
  - destruct (start_waiting _ _ _ _ _ _ _ Hm E) as (Hok & Em & El & Et & Ec).
    split_and!; simpl; [unfold map_ok; by rewrite Em|by constructor|lia..].
  - destruct (finish_effect _ _ _ _ _ E) as (Em & El & Et & Ec). rewrite Hin in Hp, Hs.
    apply Forall_app in Hp as [Hp1 [_ Hp2]%Forall_cons_1]. rewrite length_app in Hs. simpl in Hs.
    split_and!; simpl; rewrite ?Ec; try lia;
      [unfold map_ok; by rewrite Em|by apply Forall_app|rewrite length_app; lia].
Qed.

(** C8: in every reachable state of the router, with polls and requests
    interleaved in any way: the loaded shard map has int32 identifiers, every
    waiting request names a non-negative shard and a conversation and its
    upstream headers carry both, no request is lost or answered twice
    (started = answered + aborted + waiting), and the exported metrics agree:
    the latency observations and the sum of the status counters count the
    finished requests, the sum of the shard counters those with a readable
    body. *)
Theorem router_invariant (url_ok : string → bool) (opt : options) (s : system) :
  reachable url_ok opt s → system_inv s.
Proof.
  intros Hr. unfold reachable in Hr.
  assert (system_inv init_system) as H0.
  { split_and!; try done. }
  induction Hr as [|x y z Hxy _ IH]; [done|]. apply IH. by eapply sstep_inv.
Qed.

Lemma router_invariant_witness :
  ∃ s, reachable (λ _, true) sample_options s ∧ length (inflight s) = 1%nat ∧ system_inv s.
Proof.
  assert (reachable (λ _, true) sample_options
    (mkSystem (start_chat (λ _, true) sample_options [] init_router (mkRequest ∅ (Ok "{}"))).1
       [mkPending (newConversationID []) 0
          (mkUpstream "POST" "http://d:8000/v1/chat/completions"
             (<["X-KV-Shard" := "0"]> (<["X-Conversation-Id" := newConversationID []]>
                (<["Content-Type" := emp]> ∅))) "{}")] 1 0 0 0)) as Hr.
  { eapply rtc_l; [|apply rtc_refl].
    apply (step_waiting (λ _, true) sample_options init_system [] (mkRequest ∅ (Ok "{}")));
      [vm_compute; reflexivity|constructor]. }
  eexists. split; [exact Hr|]. split; [reflexivity|].
  apply (router_invariant (λ _, true) sample_options). exact Hr.
Defined.
