(* ===== verification/Flags.v ===== *)
(** * Command lines

    What the three commands use of Go's [flag] and [time] packages: parsing a
    command line of string, boolean and duration flags ([FlagSet.Parse] with
    [ExitOnError]) and [time.ParseDuration]. *)
From S2P Require Import Prelude Strconv Float64.
From Stdlib Require Import SpecFloat.
From stdpp Require Import options.

(** ** time.ParseDuration, in nanoseconds *)
Definition is_dot (c : Ascii.ascii) : bool := byte_val c =? 46.

(** [leadingInt]: [None] on overflow. *)
Fixpoint leadingInt (x : Z) (s : string) : option (Z * string) :=
  match s with
  | String c s' =>
      if is_digit c then
        if 2 ^ 63 / 10 <? x then None
        else let y := x * 10 + (byte_val c - 48) in
             if 2 ^ 63 <? y then None else leadingInt y s'
      else Some (x, s)
  | EmptyString => Some (x, emp)
  end.

Definition f64_mul : float64 → float64 → float64 := SFmul prec64 emax64.
Definition f64_div : float64 → float64 → float64 := SFdiv prec64 emax64.

(** [leadingFraction]: digits beyond an overflow are skipped. *)
Fixpoint leadingFraction (x : Z) (scale : float64) (overflow : bool) (s : string)
  : Z * float64 * string :=
  match s with
  | String c s' =>
      if is_digit c then
        let y := x * 10 + (byte_val c - 48) in
        if overflow || ((2 ^ 63 - 1) / 10 <? x) || (2 ^ 63 <? y)
        then leadingFraction x scale true s'
        else leadingFraction y (f64_mul scale (f64_of_Z 10)) false s'
      else (x, scale, s)
  | EmptyString => (x, scale, emp)
  end.

(** [uint64(f)] for a finite non-negative [f]: truncation. *)
Definition f64_trunc (f : float64) : Z :=
  match f with
  | S754_finite _ m e => if 0 <=? e then Z.shiftl (Zpos m) e else Z.shiftr (Zpos m) (- e)
  | _ => 0
  end.

(** The unit extends to the next digit or dot. *)
Fixpoint split_unit (s : string) : string * string :=
  match s with
  | String c s' =>
      if is_dot c || is_digit c then (emp, s)
      else let '(u, r) := split_unit s' in (String c u, r)
  | EmptyString => (emp, emp)
  end.

(** [unitMap]; the micro sign and the Greek mu, in UTF-8, are both accepted. *)
Definition micro_sign : string := String (byte_chr 0xC2) (str1 (byte_chr 0xB5)).
Definition greek_mu : string := String (byte_chr 0xCE) (str1 (byte_chr 0xBC)).

Definition unitMap (u : string) : option Z :=
  if bool_decide (u = "ns") then Some 1
  else if bool_decide (u = "us") || bool_decide (u = micro_sign +:+ "s")
          || bool_decide (u = greek_mu +:+ "s") then Some 1000
  else if bool_decide (u = "ms") then Some 1000000
  else if bool_decide (u = "s") then Some 1000000000
  else if bool_decide (u = "m") then Some 60000000000
  else if bool_decide (u = "h") then Some 3600000000000
  else None.

(** One [number unit] group: its value and the rest. *)
Definition duration_group (s : string) : option (Z * string) :=
  match s with
  | EmptyString => None
  | String c _ =>
      if is_dot c || is_digit c then
        match leadingInt 0 s with
        | None => None
        | Some (v, s1) =>
            let pre := is_digit c in
            let '(f, scale, s2, post) :=
              match s1 with
              | String d s1' =>
                  if is_dot d then
                    let '(f, scale, r) := leadingFraction 0 (f64_of_Z 1) false s1' in
                    (f, scale, r, negb (String.length r =? String.length s1')%nat)
                  else (0, f64_of_Z 1, s1, false)
              | EmptyString => (0, f64_of_Z 1, s1, false)
              end in
            if pre || post then
              let '(u, s3) := split_unit s2 in
              match unitMap u with
              | None => None
              | Some unit =>
                  if 2 ^ 63 / unit <? v then None
                  else
                    let v := v * unit in
                    let v := if 0 <? f
                             then v + f64_trunc (f64_mul (f64_of_Z f) (f64_div (f64_of_Z unit) scale))
                             else v in
                    if 2 ^ 63 <? v then None else Some (v, s3)
              end
            else None
        end
      else None
  end.

(** Each group consumes at least one byte, so the length is enough fuel. *)
Fixpoint duration_groups (fuel : nat) (d : Z) (s : string) : option Z :=
  match s, fuel with
  | EmptyString, _ => Some d
  | _, O => None
  | _, S f =>
      match duration_group s with
      | None => None
      | Some (v, r) => if 2 ^ 63 <? d + v then None else duration_groups f (d + v) r
      end
  end.

Definition ParseDuration (s : string) : option Z :=
  let '(neg, t) := split_sign s in
  if bool_decide (t = "0") then Some 0
  else match t with
       | EmptyString => None
       | _ => match duration_groups (String.length t) 0 t with
              | None => None
              | Some d => if neg then Some (- d) else if 2 ^ 63 - 1 <? d then None else Some d
              end
       end.

Example duration_examples :
  ParseDuration "2s" = Some 2000000000 ∧ ParseDuration "1h15m30.918s" = Some 4530918000000 ∧
  ParseDuration "-1.5h" = Some (-5400000000000) ∧ ParseDuration "0" = Some 0 ∧
  ParseDuration "3" = None ∧ ParseDuration ".s" = None ∧
  ParseDuration "9223372036854775807ns" = Some 9223372036854775807 ∧
  ParseDuration "9223372036854775808ns" = None.
Proof. vm_compute. split_and!; reflexivity. Qed.

(** ** flag.Parse *)
Inductive parsed (A : Type) := Parsed (a : A) | Exit (code : Z).
Arguments Parsed {A} a.
Arguments Exit {A} code.

(** [name=value], with the equals sign not first. *)
Fixpoint split_eq (s : string) : string * option string :=
  match s with
  | EmptyString => (emp, None)
  | String c s' =>
      if byte_val c =? 61 then (emp, Some s')
      else let '(n, v) := split_eq s' in (String c n, v)
  end.

Inductive argument :=
| ArgStop                                        (* not a flag, or the terminator *)
| ArgBad
| ArgFlag (name : string) (value : option string).

Definition classify (s : string) : argument :=
  match s with
  | String c1 (String c2 r) =>
      if byte_val c1 =? 45 then
        let name := if byte_val c2 =? 45 then r else String c2 r in
        if (byte_val c2 =? 45) && bool_decide (r = emp) then ArgStop
        else match name with
             | EmptyString => ArgBad
             | String n0 rest =>
                 if (byte_val n0 =? 45) || (byte_val n0 =? 61) then ArgBad
                 else let '(n, v) := split_eq rest in ArgFlag (String n0 n) v
             end
      else ArgStop
  | _ => ArgStop
  end.

(** A registered flag: whether it is boolean (its value may be left out), and
    [Value.Set], which refuses a value with [None]. *)
Record flag (A : Type) := mkFlag { IsBoolFlag : bool; Set_ : string → A → option A }.
Arguments mkFlag {A} IsBoolFlag Set_.
Arguments IsBoolFlag {A} f.
Arguments Set_ {A} f.

(** [strconv.ParseBool]. *)
Definition ParseBool (s : string) : option bool :=
  if bool_decide (s ∈ ["1"; "t"; "T"; "true"; "TRUE"; "True"]) then Some true
  else if bool_decide (s ∈ ["0"; "f"; "F"; "false"; "FALSE"; "False"]) then Some false
  else None.

Definition StringVar {A : Type} (set : string → A → A) : flag A := mkFlag false (λ v a, Some (set v a)).
Definition BoolVar {A : Type} (set : bool → A → A) : flag A :=
  mkFlag true (λ v a, (λ b, set b a) <$> ParseBool v).
Definition DurationVar {A : Type} (set : Z → A → A) : flag A :=
  mkFlag false (λ v a, (λ d, set d a) <$> ParseDuration v).

(** The flags of a command, by name. *)
Fixpoint find_flag {A : Type} (fs : list (string * flag A)) (name : string) : option (flag A) :=
  match fs with
  | [] => None
  | (n, f) :: fs' => if bool_decide (name = n) then Some f else find_flag fs' name
  end.

(** Errors exit with status 2, a request for help with status 0. *)
Section Parse.
Context {A : Type} (lookup : string → option (flag A)).

Fixpoint flag_parse (a : A) (args : list string) : parsed A :=
  match args with
  | [] => Parsed a
  | s :: rest =>
      match classify s with
      | ArgStop => Parsed a
      | ArgBad => Exit 2
      | ArgFlag name value =>
          match lookup name with
          | None => if bool_decide (name = "help") || bool_decide (name = "h") then Exit 0 else Exit 2
          | Some f =>
              match value, IsBoolFlag f, rest with
              | Some v, _, _ =>
                  match Set_ f v a with Some a' => flag_parse a' rest | None => Exit 2 end
              | None, true, _ =>
                  match Set_ f "true" a with Some a' => flag_parse a' rest | None => Exit 2 end
              | None, false, v :: rest' =>
                  match Set_ f v a with Some a' => flag_parse a' rest' | None => Exit 2 end
              | None, false, [] => Exit 2
              end
          end
      end
  end.

(** ** Any command line *)

(** What every flag of the command line keeps, its result has.  A boolean
    flag without a value is set to true. *)
Lemma flag_parse_keeps (P : A → Prop) n a args a' :
  (length args <= n)%nat → P a →
  (∀ s name w f v x y, s ∈ args → classify s = ArgFlag name w → lookup name = Some f →
     (IsBoolFlag f = true → v = default "true"%string w) → Set_ f v x = Some y → P x → P y) →
  flag_parse a args = Parsed a' → P a'.
Proof.
  revert a args. induction n as [|n IH]; intros a [|s rest] Hn Ha Hset; simpl in *;
    try (intros [= <-]; done); [lia|].
  destruct (classify s) as [| |name w] eqn:Ec; [by intros [= <-]|done|].
  destruct (lookup name) as [f|] eqn:Ef; [|by destruct (_ || _)].
  destruct w as [v|]; [|destruct (IsBoolFlag f) eqn:Eb; [|destruct rest as [|v rest]; [done|]]];
    match goal with |- match ?o with _ => _ end = _ → _ => destruct o eqn:Es; [|done] end;
    apply IH; simpl in *; try lia;
    try (intros s' name' w' f' v' x y Hs'; apply (Hset s'); set_solver);
    (eapply (Hset s); [set_solver|done|done| |exact Es|done]); intros; simpl; congruence.
Qed.

Lemma flag_parse_exit n a args code :
  (length args <= n)%nat → flag_parse a args = Exit code → code = 0 ∨ code = 2.
Proof.
  revert a args. induction n as [|n IH]; intros a [|s rest] Hn; simpl in *; try done; [lia|].
  destruct (classify s) as [| |name value]; [done|intros [= <-]; by right|].
  destruct (lookup name) as [f|]; [|destruct (_ || _); intros [= <-]; [by left|by right]].
  destruct value as [v|]; [|destruct (IsBoolFlag f); [|destruct rest as [|v rest]; [intros [= <-]; by right|]]];
    match goal with |- match ?o with _ => _ end = _ → _ => destruct o end;
    first [intros [= <-]; by right|apply IH; simpl in *; lia].
Qed.
End Parse.
