(* ===== verification/RouterMain.v ===== *)
(** * Starting the router

    The part of [main] in src/cmd/router/main.go that turns the command line
    and the environment into options, and that the container the operator
    writes starts a router on its own shard map and decode Service. *)
From S2P Require Import Prelude Strconv Float64 Flags Types Defaults Kube Signals Autoscale Resources Shards ShardMap Reconcile Laws Memory Sample Plan Refine Children Router.
From stdpp Require Import options.

Definition set_listen (v : string) (o : options) : options :=
  mkOptions v (metricsAddr o) (shardMapConfigMap o) (hashKey o) (namespace o)
          (decodeServiceDNS o) (kubeconfig o) (pollInterval o).
Definition set_metrics (v : string) (o : options) : options :=
  mkOptions (listenAddr o) v (shardMapConfigMap o) (hashKey o) (namespace o)
          (decodeServiceDNS o) (kubeconfig o) (pollInterval o).
Definition set_shardmap (v : string) (o : options) : options :=
  mkOptions (listenAddr o) (metricsAddr o) v (hashKey o) (namespace o)
          (decodeServiceDNS o) (kubeconfig o) (pollInterval o).
Definition set_hashkey (v : string) (o : options) : options :=
  mkOptions (listenAddr o) (metricsAddr o) (shardMapConfigMap o) v (namespace o)
          (decodeServiceDNS o) (kubeconfig o) (pollInterval o).
Definition set_namespace (v : string) (o : options) : options :=
  mkOptions (listenAddr o) (metricsAddr o) (shardMapConfigMap o) (hashKey o) v
          (decodeServiceDNS o) (kubeconfig o) (pollInterval o).
Definition set_decode (v : string) (o : options) : options :=
  mkOptions (listenAddr o) (metricsAddr o) (shardMapConfigMap o) (hashKey o) (namespace o)
          v (kubeconfig o) (pollInterval o).
Definition set_kubeconfig (v : string) (o : options) : options :=
  mkOptions (listenAddr o) (metricsAddr o) (shardMapConfigMap o) (hashKey o) (namespace o)
          (decodeServiceDNS o) v (pollInterval o).
Definition set_poll (d : Z) (o : options) : options :=
  mkOptions (listenAddr o) (metricsAddr o) (shardMapConfigMap o) (hashKey o) (namespace o)
          (decodeServiceDNS o) (kubeconfig o) d.

Definition router_flags : list (string * flag options) :=
  [("listen", StringVar set_listen); ("metrics-listen", StringVar set_metrics);
   ("shardmap-configmap", StringVar set_shardmap); ("hash-key", StringVar set_hashkey);
   ("namespace", StringVar set_namespace); ("decode-service-dns", StringVar set_decode);
   ("kubeconfig", StringVar set_kubeconfig); ("poll-interval", DurationVar set_poll)].

(** [getenv] is [os.Getenv]. *)
Definition flag_defaults (getenv : string → string) : options :=
  mkOptions ":8080" ":9090" emp "conversationId" (getenv "NAMESPACE")
    (getenv "DECODE_SERVICE_DNS") emp (2 * Second).

Definition router_options (getenv : string → string) (args : list string) : parsed options :=
  match flag_parse (find_flag router_flags) (flag_defaults getenv) args with
  | Exit c => Exit c
  | Parsed o =>
      if bool_decide (shardMapConfigMap o = emp) then Exit 2
      else
        let o := if bool_decide (namespace o = emp)
                 then set_namespace "default" o else o in
        let o := if bool_decide (decodeServiceDNS o = emp)
                 then set_decode "localhost:8000" o else o in
        Parsed o
  end.

(** ** The environment of a container

    The variables of the container spec, the last one of a name winning, with
    the namespace of the pod filled in by the downward API. *)
Definition env_value (ns : string) (e : CoreEnvVar) : string :=
  match cenv_FieldPath e with
  | Some p => if bool_decide (p = "metadata.namespace") then ns else emp
  | None => cenv_Value e
  end.

Definition container_getenv (ns : string) (env : list CoreEnvVar) (name : string) : string :=
  foldl (λ acc e, if bool_decide (cenv_Name e = name) then env_value ns e else acc) emp env.

Lemma parse_operator_args getenv sm k :
  flag_parse (find_flag router_flags) (flag_defaults getenv) ["--shardmap-configmap"; sm; "--hash-key"; k] =
    Parsed (mkOptions ":8080" ":9090" sm k (getenv "NAMESPACE") (getenv "DECODE_SERVICE_DNS") emp
              (2 * Second)).
Proof. reflexivity. Qed.

Lemma router_getenv ns a b :
  let env := [mkCoreEnvVar "NAMESPACE" emp (Some "metadata.namespace");
              mkCoreEnvVar "DECODE_SERVICE_DNS" a None; mkCoreEnvVar "PREFILL_SERVICE_DNS" b None] in
  container_getenv ns env "NAMESPACE" = ns ∧ container_getenv ns env "DECODE_SERVICE_DNS" = a.
Proof. split; reflexivity. Qed.

Lemma str_app_ne a c b : a +:+ String c b ≠ emp.
Proof. by destruct a. Qed.

Lemma service_dns_ne n ns p : service_dns n ns p ≠ emp.
Proof. unfold service_dns. apply str_app_ne. Qed.

(** C35: the container that the operator writes starts a router for its own
    cluster: with the arguments and the environment of the router container
    the command line is accepted, the options name the cluster's shard map,
    its namespace and the address and port of its decode Service, and the
    listen ports are those the Service exposes. *)
Theorem operator_starts_router c (dp pp : Z) (x ct : Container) :
  ports c dp pp → om_Namespace (lic_Meta c) ≠ emp →
  router_container c (child c "-shardmap") x = Ok ct →
  router_options (container_getenv (om_Namespace (lic_Meta c)) (ct_Env ct)) (ct_Args ct) =
    Parsed (mkOptions ":8080" ":9090" (child c "-shardmap")
              (derefString (routing_HashKey (spec_Routing (lic_Spec c))) "conversationId")
              (om_Namespace (lic_Meta c))
              (service_dns (child c "-decode") (om_Namespace (lic_Meta c)) dp) emp (2 * Second)).
Proof.
  intros [Hd Hp] Hns. unfold router_container. rewrite Hd, Hp. cbn [go_deref rbind]. intros [= <-].
  unfold router_options. cbn [ct_Args ct_Env]. rewrite parse_operator_args.
  rewrite (proj1 (router_getenv _ _ _)), (proj2 (router_getenv _ _ _)).
  cbn [shardMapConfigMap namespace decodeServiceDNS].
  rewrite bool_decide_eq_false_2 by apply str_app_ne. 
  rewrite (bool_decide_eq_false_2 (om_Namespace (lic_Meta c) = emp)) by done.
  cbn [decodeServiceDNS]. by rewrite bool_decide_eq_false_2 by apply service_dns_ne.
Qed.

Lemma operator_starts_router_witness :
  ∃ ct, router_container (apply_defaults sample_cluster) "llminferencecluster-sample-shardmap"
          (named_container "router") = Ok ct ∧
    router_options (container_getenv "default" (ct_Env ct)) (ct_Args ct) =
      Parsed (mkOptions ":8080" ":9090" "llminferencecluster-sample-shardmap" "conversationId" "default"
                "llminferencecluster-sample-decode.default.svc.cluster.local:8000" emp 2000000000).
Proof.
  eexists. split; [vm_compute; reflexivity|].
  eapply (operator_starts_router (apply_defaults sample_cluster) 8000 8001 (named_container "router"));
    [split; reflexivity|discriminate|vm_compute; reflexivity].
Defined.

(** Whatever the command line and the environment, either the options name a
    shard map, a namespace and a decode address, or the process has exited
    with status 2 (or 0 after asking for help). *)
Lemma router_options_complete (getenv : string → string) (args : list string) :
  match router_options getenv args with
  | Parsed o => shardMapConfigMap o ≠ emp ∧ namespace o ≠ emp ∧ decodeServiceDNS o ≠ emp
  | Exit code => code = 0 ∨ code = 2
  end.
Proof.
  unfold router_options. destruct (flag_parse _ _ _) as [o|code] eqn:E;
    [|by apply (flag_parse_exit _ (length args)) in E].
  destruct (bool_decide (shardMapConfigMap o = emp)) eqn:Es; [by right|].
  apply bool_decide_eq_false in Es.
  destruct (bool_decide (namespace o = emp)) eqn:En;
    [|apply bool_decide_eq_false in En]; simpl;
    (destruct (bool_decide (decodeServiceDNS o = emp)) eqn:Ed; [|apply bool_decide_eq_false in Ed]);
    simpl; by split_and!.
Qed.

(** ** The rest of [main] *)

(** [kubeConfig]; the two loaders are those of client-go. *)
Definition kubeConfig {C : Type} (BuildConfigFromFlags : string → result C)
    (InClusterConfig : result C) (kubeconfig : string) : result C :=
  if bool_decide (kubeconfig = emp) then InClusterConfig else BuildConfigFromFlags kubeconfig.

Inductive outcome :=
| Exited (code : Z)
| Crashed (msg : string)          (* a panic that nothing recovers *)
| Serving (o : options).

(** [time.NewTicker] panics on an interval that is not positive. *)
Definition NewTicker (d : Z) : result unit :=
  if d <=? 0 then Panic "non-positive interval for NewTicker" else Ok tt.

Section Start.
Context {C K : Type} (BuildConfigFromFlags : string → result C) (InClusterConfig : result C)
  (client_New : C → result K).

(** From the options on: the polling goroutine creates its ticker while the
    main goroutine listens, so with both a bad interval and a bad address the
    process ends in one way or the other.  [listen] is the error of
    [http.ListenAndServe], which returns only with one. *)
Definition run_servers (o : options) (listen : option error) : list outcome :=
  match NewTicker (pollInterval o), listen with
  | Panic m, None => [Crashed m]
  | Panic m, Some _ => [Crashed m; Exited 1]
  | _, Some _ => [Exited 1]
  | _, None => [Serving o]
  end.

Definition router_main (getenv : string → string) (args : list string) (listen : option error)
  : list outcome :=
  match router_options getenv args with
  | Exit c => [Exited c]
  | Parsed o =>
      match kubeConfig BuildConfigFromFlags InClusterConfig (kubeconfig o) with
      | Err _ => [Exited 1]
      | Panic m => [Crashed m]
      | Ok cfg =>
          match client_New cfg with
          | Err _ => [Exited 1]
          | Panic m => [Crashed m]
          | Ok _ => run_servers o listen
          end
      end
  end.

(** C36: what it takes for a router to start: it serves only when the command
    line names a shard map (and then namespace and decode address are set),
    the credentials load, the client can be built, the poll interval is
    positive and the address can be listened on; every other start ends, with
    status 2 for a bad command line, 1 for a failure, or a crash that is due
    to the poll interval unless a loader itself panics. *)
Theorem router_startup (getenv : string → string) (args : list string) (listen : option error) (r : outcome) :
  r ∈ router_main getenv args listen →
  match r with
  | Serving o =>
      router_options getenv args = Parsed o ∧ shardMapConfigMap o ≠ emp ∧ namespace o ≠ emp ∧
      decodeServiceDNS o ≠ emp ∧ 0 < pollInterval o ∧ listen = None ∧
      ∃ cfg k, kubeConfig BuildConfigFromFlags InClusterConfig (kubeconfig o) = Ok cfg ∧
               client_New cfg = Ok k
  | Exited code =>
      (router_options getenv args = Exit code ∧ (code = 0 ∨ code = 2)) ∨
      (code = 1 ∧ ∃ o, router_options getenv args = Parsed o)
  | Crashed m =>
      ∃ o, router_options getenv args = Parsed o ∧
        (pollInterval o <= 0 ∨
         kubeConfig BuildConfigFromFlags InClusterConfig (kubeconfig o) = Panic m ∨
         ∃ cfg, client_New cfg = Panic m)
  end.
Proof.
  pose proof (router_options_complete getenv args) as Hc. unfold router_main, run_servers, NewTicker.
  destruct (router_options getenv args) as [o|code].
  2:{ intros ->%list_elem_of_singleton. by left. }
  destruct (kubeConfig _ _ _) as [cfg|e|m] eqn:Ek.
  2:{ intros ->%list_elem_of_singleton. right. eauto. }
  2:{ intros ->%list_elem_of_singleton. eauto. }
  destruct (client_New cfg) as [k|e|m] eqn:Ec.
  2:{ intros ->%list_elem_of_singleton. right. eauto. }
  2:{ intros ->%list_elem_of_singleton. eauto 7. }
  destruct (Z.leb_spec (pollInterval o) 0), listen as [e|];
    rewrite ?elem_of_cons, elem_of_nil; intros Hr; destruct_or! Hr; subst; try done; eauto 7.
  destruct Hc as (? & ? & ?). split_and!; eauto.
Qed.

(** A router whose poll interval is zero or negative never serves. *)
Lemma bad_interval_crashes getenv args listen o k cfg :
  router_options getenv args = Parsed o → pollInterval o <= 0 →
  kubeConfig BuildConfigFromFlags InClusterConfig (kubeconfig o) = Ok cfg → client_New cfg = Ok k →
  Crashed "non-positive interval for NewTicker" ∈ router_main getenv args listen ∧
  ∀ o', Serving o' ∉ router_main getenv args listen.
Proof.
  intros Ho Hi Hk Hc. unfold router_main, run_servers, NewTicker. rewrite Ho, Hk, Hc.
  rewrite (proj2 (Z.leb_le _ _) Hi). destruct listen; set_solver.
Qed.
End Start.

Lemma router_startup_witness :
  ∃ o, Serving o ∈ router_main (λ _, Ok tt) (Ok tt) (λ _, Ok tt) (λ _, emp)
         ["--shardmap-configmap"; "c-shardmap"; "--poll-interval=500ms"] None ∧
       pollInterval o = 500000000 ∧ decodeServiceDNS o ≠ emp.
Proof.
  eexists (mkOptions _ _ _ _ _ _ _ _). split; [vm_compute; left|]. split; [reflexivity|].
  eapply (router_startup (λ _, Ok tt) (Ok tt) (λ _ : unit, Ok tt) (λ _, emp)
            ["--shardmap-configmap"; "c-shardmap"; "--poll-interval=500ms"] None (Serving _)).
  vm_compute. left.
Defined.

Example zero_interval_crashes :
  router_main (λ _, Ok tt) (Ok tt) (λ _, Ok tt) (λ _, emp)
    ["--shardmap-configmap=m"; "--poll-interval=0"] None = [Crashed "non-positive interval for NewTicker"].
Proof. vm_compute. reflexivity. Qed.

(** ** Dispatch

    [http.ServeMux] with the two patterns of [main], for a path that the mux
    has cleaned; other paths are not found. *)
Definition router_serve (url_ok : string → bool) (Do : upstream_request → result http_response)
    (opt : options) (rnd : list Z) (path : string) (st : RouterState) (r : http_request)
  : RouterState * result http_response :=
  if bool_decide (path = "/healthz") then (st, Ok (healthz r))
  else if bool_decide (path = "/v1/chat/completions") then chat_completions url_ok Do opt rnd st r
  else (st, Ok (http_Error "404 page not found" 404)).
