(* ===== verification/MockWorker.v ===== *)
(** * The mock worker

    src/cmd/mock-worker/main.go: the HTTP handler that stands for a model
    server and reports which conversation and shard it was asked for. *)
From S2P Require Import Prelude Strconv Utf8 Json JsonFacts ShardMap Flags Router.
From stdpp Require Import options.

Record response := mkWorkerResponse {
  w_ConversationID : string;
  w_KVShard : string;
  w_Role : string;
  w_Pod : string;
  w_Message : string }.

Definition response_json (r : response) : json :=
  JObj [("conversationId", JStr (w_ConversationID r)); ("kvShard", JStr (w_KVShard r));
        ("role", JStr (w_Role r)); ("pod", JStr (w_Pod r)); ("message", JStr (w_Message r))].

(** [json.NewEncoder(w).Encode(v)]: [Marshal] and a newline. *)
Definition Encode (r : response) : string := print (response_json r) +:+ str1 (byte_chr 10).

(** [main]: the listen address and the role. *)
Definition worker_listen (args : list string) : parsed string :=
  flag_parse (find_flag [("listen", StringVar (λ v _, v))]) ":8000" args.

Definition worker_role (getenv : string → string) : string :=
  let role := getenv "INFERENCE_ROLE" in
  if bool_decide (role = emp) then "decode" else role.

(** [os.Hostname], with its error. *)
Definition hostname (h : result string) : string := match h with Ok s => s | _ => emp end.

(** The handler; [reqs] is the counter of requests by role. *)
Definition worker_chat (role : string) (host : result string) (reqs : gmap string Z) (h : headers)
  : gmap string Z * http_response :=
  let reqs := inc role reqs in
  let convID := header_get h "X-Conversation-Id" in
  let convID := if bool_decide (convID = emp) then "generated-by-router" else convID in
  let kvShard := header_get h "X-KV-Shard" in
  let kvShard := if bool_decide (kvShard = emp) then "0" else kvShard in
  (reqs,
   mkResponse 200 (<["Content-Type" := "application/json"]> ∅)
     (Encode (mkWorkerResponse convID kvShard role (hostname host)
        ("mock worker response (role=" +:+ role +:+ ", shard=" +:+ kvShard +:+ ")")))).

(** The mux of [main]; [metrics] is the exposition of the registered counters. *)
Definition worker_serve (metrics : gmap string Z → http_response) (role : string)
    (host : result string) (path : string) (reqs : gmap string Z) (h : headers)
  : gmap string Z * http_response :=
  if bool_decide (path = "/metrics") then (reqs, metrics reqs)
  else if bool_decide (path = "/healthz") then (reqs, mkResponse 200 ∅ emp)
  else if bool_decide (path = "/v1/chat/completions") then worker_chat role host reqs h
  else (reqs, http_Error "404 page not found" 404).

(** [main]: what the process does, where [listen] is the error of
    [http.ListenAndServe] on an address, which returns only with one. *)
Inductive worker_outcome :=
| WorkerExited (code : Z)
| WorkerServing (addr role : string).

Definition worker_main (getenv : string → string) (args : list string)
    (listen : string → option error) : worker_outcome :=
  match worker_listen args with
  | Exit code => WorkerExited code
  | Parsed addr =>
      match listen addr with
      | Some _ => WorkerExited 1
      | None => WorkerServing addr (worker_role getenv)
      end
  end.

(** ** What a client reads back *)
Lemma json_parse_line j :
  num_json j = true → height j <= maxNestingDepth →
  json_parse (print j +:+ str1 (byte_chr 10)) = Some (sanitize j).
Proof.
  intros Hi Hh. unfold json_parse. rewrite (print_reads_back j); [done|done|lia|done|].
  unfold json_fuel. rewrite str_length_app. simpl. lia.
Qed.

(** The member of an object that a reader of the response looks up. *)
Fixpoint member_string (k : string) (m : list (string * json)) : option string :=
  match m with
  | [] => None
  | (k', v) :: m' =>
      if bool_decide (k' = k) then match v with JStr s => Some s | _ => None end
      else member_string k m'
  end.

Definition read_member (k body : string) : option string :=
  match json_parse body with Some (JObj m) => member_string k m | _ => None end.

Lemma Encode_reads_back r :
  read_member "conversationId" (Encode r) = Some (utf8_sanitize (w_ConversationID r)) ∧
  read_member "kvShard" (Encode r) = Some (utf8_sanitize (w_KVShard r)) ∧
  read_member "role" (Encode r) = Some (utf8_sanitize (w_Role r)) ∧
  read_member "pod" (Encode r) = Some (utf8_sanitize (w_Pod r)).
Proof.
  unfold read_member, Encode. rewrite json_parse_line by (done || reflexivity).
  split_and!; reflexivity.
Qed.

Lemma digits_ascii s :
  all_digits s = true → forallb (λ c, byte_val c <? 128) (String.list_ascii_of_string s) = true.
Proof.
  induction s as [|c s IH]; simpl; [done|]. intros [Hc Hs]%andb_prop. rewrite IH by done.
  unfold is_digit in Hc. rewrite andb_true_r. lia.
Qed.

Lemma utf8_sanitize_Itoa n : 0 <= n → utf8_sanitize (Itoa n) = Itoa n.
Proof.
  intros Hn. apply utf8_sanitize_valid, utf8_valid_ascii, digits_ascii. unfold Itoa.
  rewrite (proj2 (Z.ltb_ge n 0)) by lia. by apply canonical_nat_digits, udec_canonical.
Qed.

(** The worker reports what it was asked for: it always answers 200 with
    a JSON document from which the conversation identifier and the shard of
    the request headers are read back (valid UTF-8 as it is), with the
    documented stand-ins for missing headers, and counts the request once
    under its role. *)
Lemma worker_echoes (role : string) (host : result string) (reqs : gmap string Z) (h : headers) :
  let '(reqs', out) := worker_chat role host reqs h in
  rs_StatusCode out = 200 ∧ header_get (rs_Header out) "Content-Type" = "application/json" ∧
  reqs' = inc role reqs ∧
  read_member "conversationId" (rs_Body out) =
    Some (utf8_sanitize (if bool_decide (header_get h "X-Conversation-Id" = emp)
                         then "generated-by-router" else header_get h "X-Conversation-Id")) ∧
  read_member "kvShard" (rs_Body out) =
    Some (utf8_sanitize (if bool_decide (header_get h "X-KV-Shard" = emp)
                         then "0" else header_get h "X-KV-Shard")) ∧
  read_member "role" (rs_Body out) = Some (utf8_sanitize role).
Proof.
  unfold worker_chat. cbv zeta. cbn [rs_StatusCode rs_Header rs_Body].
  match goal with |- context [Encode ?r] => pose proof (Encode_reads_back r) as (H1 & H2 & H3 & _) end.
  split_and!; [done|reflexivity|done|exact H1|exact H2|exact H3].
Qed.

(** Without arguments the worker listens on port 8000 whatever its role. *)
Example worker_default_port : worker_listen [] = Parsed ":8000".
Proof. reflexivity. Qed.
