(* ===== verification/EndToEnd.v ===== *)
(** * From the resource to the answer

    The components together: the shard map that a reconciliation publishes is
    the one the router loads and chooses from, and a request that goes
    through the router to a worker comes back for the same conversation. *)
From S2P Require Import Prelude Strconv Fnv Utf8 Json JsonFacts ShardMap Types Defaults Kube Signals Autoscale Ring Resources Shards Reconcile Laws Trace Memory Hoare Sample Calls Outcome Plan Refine Children Router RouterSystem Flags MockWorker.
From stdpp Require Import options.
#[local] Set Default Proof Using "Type*".

(** ** Published shards *)

(** The ids of the shards of a map are [0 .. n-1]. *)
Lemma maxShardID_seq (l : list ShardAssignment) n :
  1 <= n → ShardID <$> l = seqZ 0 n → maxShardID l = n - 1.
Proof.
  intros Hn Hl. destruct (maxShardID_spec l) as (H0 & Hall & Hex).
  assert (n - 1 ∈ ShardID <$> l) as (a & Ha & Hin)%list_elem_of_fmap
    by (rewrite Hl; apply elem_of_seqZ; lia).
  specialize (Hall a Hin). destruct Hex as [Hz|(b & Hb & Eb)]; [lia|].
  assert (ShardID b ∈ ShardID <$> l) as Hb' by (by apply list_elem_of_fmap_2).
  rewrite Hl in Hb'. apply elem_of_seqZ in Hb'. lia.
Qed.

Lemma assignment_ids (shards : list ShardStatus) : ShardID <$> (assignment_of <$> shards) = ss_ShardID <$> shards.
Proof. by rewrite <- list_fmap_compose. Qed.

Lemma shards_spec_ids pods n t : ss_ShardID <$> shards_spec pods n t = seqZ 0 n.
Proof. unfold shards_spec, shard_ids. rewrite <- list_fmap_compose. apply list_fmap_id. Qed.

(** In a map with the shards [0 .. n-1], the chosen shard is one of them. *)
Lemma pick_published (shards : list ShardStatus) n id :
  1 <= n → is_int32 n = true → ss_ShardID <$> shards = seqZ 0 n →
  ∃ s, s ∈ shards ∧
    pickShardForConversation (mkShardMap 1 (assignment_of <$> shards)) id = ss_ShardID s ∧
    ss_ShardID s = fnv32a id mod n.
Proof.
  intros Hn Hi Hids. set (sm := mkShardMap 1 (assignment_of <$> shards)).
  assert (ShardID <$> Shards sm = seqZ 0 n) as Hsm by (simpl; by rewrite assignment_ids).
  assert (Forall id_typed (Shards sm)) as Ht.
  { apply list.Forall_forall. intros a Ha.
    assert (ShardID a ∈ seqZ 0 n) as Hr%elem_of_seqZ by (rewrite <- Hsm; by apply list_elem_of_fmap_2).
    unfold id_typed, is_int32 in *. lia. }
  rewrite (pick_spec sm id Ht), (maxShardID_seq _ n Hn Hsm).
  replace (n - 1 + 1) with n by lia.
  pose proof (Z.mod_pos_bound (fnv32a id) n ltac:(lia)) as Hb.
  assert (fnv32a id mod n ∈ ss_ShardID <$> shards) as (s & Hs & Hin)%list_elem_of_fmap
    by (rewrite Hids; apply elem_of_seqZ; lia).
  by exists s.
Qed.

Section Published.
Context {W : Type} `{!Client W} `{!StoreLaws W} `{!Machinery} `{!MachineryLaws}.

Lemma computed_shards w0 w1 c n shards json :
  kv_NumShards (spec_KVCache (lic_Spec c)) = Some n → is_int32 n = true →
  shards_computed w0 w1 c shards json →
  ∃ pods t, pods_listed w0 w1 c pods t ∧ shards = shards_spec pods n t.
Proof.
  intros Hn Hint (pods & t & Hl & E). rewrite Hn in E. simpl in E. exists pods, t.
  split; [done|]. by eapply shard_map_of_shards.
Qed.

(** C7: the operator and the router agree on the shards.  After a successful
    reconciliation, a router that polls the stored ConfigMap loads exactly the
    shards computed from the decode pods of the cluster that were listed on
    the way, replacing whatever it had; then every conversation is sent to one
    of those shards, the one with number FNV-1a(id) mod numShards, and that
    shard is owned by one of the listed pods, if there was any. *)
Theorem operator_to_router (req : NamespacedName) (w w' : W) :
  fetched_valid req w →
  Reconcile req w = (w', Ok (mkResult (30 * Second), None)) →
  ∃ c cm pods t n, desired_cluster req w c ∧
    kv_NumShards (spec_KVCache (lic_Spec c)) = Some n ∧ pods_listed w w' c pods t ∧
    stored KConfigMap w' (child c "-shardmap") (om_Namespace (lic_Meta c)) = Some cm ∧
    ∀ st id,
      currentShardMap (poll_tick (Some cm) st) =
        Some (mkShardMap 1 (assignment_of <$> shards_spec pods n t)) ∧
      choose_shard (poll_tick (Some cm) st) id = fnv32a id mod n ∧
      ∃ s, s ∈ shards_spec pods n t ∧ ss_ShardID s = fnv32a id mod n ∧
           (pods ≠ [] → ∃ p, p ∈ pods ∧ pod_Name p = ss_OwnerPod s).
Proof.
  intros Hv E. destruct (reconciled_plan req w w' Hv E)
    as (c & dp & pp & ov & shards & json & Hc & Hports & _ & _ & _ & Hsh & (n & Hn & Hpos & Hint) & Hi).
  destruct (computed_shards w w' c n shards json Hn Hint Hsh) as (pods & t & Hl & ->).
  pose proof (published_parses w w' c _ json (ex_intro _ n (conj Hn (conj Hpos Hint))) Hsh) as Hparse.
  destruct (plan_wires _ _ _ _ _ _ _ _ Hports Hparse Hi)
    as (d & sa & role & rb & cm & ct & l & json' & dsvc & psvc & Hw). simpl in Hw.
  destruct Hw as (_ & _ & _ & _ & Scm & _ & _ & _ & _ & _ & _ & _ & _ & _ & Hdata & Hparse').
  exists c, cm, pods, t, n. split_and!; [done..|]. intros st id.
  assert (currentShardMap (poll_tick (Some cm) st) =
          Some (mkShardMap 1 (assignment_of <$> shards_spec pods n t))) as Hcur.
  { unfold poll_tick, data_get. rewrite Hdata. simpl. by rewrite Hparse'. }
  destruct (pick_published _ n id Hpos Hint (shards_spec_ids pods n t)) as (s & Hs & Hpick & Hmod).
  split_and!; [done| |].
  - unfold choose_shard. rewrite Hcur. simpl.
    rewrite length_fmap, (proj2 (Z.ltb_lt _ _)); [by rewrite Hpick|].
    destruct (shards_spec pods n t); [by apply elem_of_nil in Hs|]. simpl. lia.
  - exists s. split_and!; [done..|]. intros Hpods. by apply (owner_is_pod pods n t).
Qed.

End Published.

(** ** A request through the router to a worker *)
Lemma Itoa_ne n : 0 <= n → Itoa n ≠ emp.
Proof.
  intros Hn. unfold Itoa. rewrite (proj2 (Z.ltb_ge n 0)) by lia. by apply udec_nonempty.
Qed.

(** *** The transport

    What [net/http] documents of a request between the router and a worker.
    A header value is a valid field value when it has no control bytes but
    tab; outer blanks are trimmed. *)
Definition field_byte (c : Ascii.ascii) : bool :=
  (byte_val c =? 9) || ((32 <=? byte_val c) && negb (byte_val c =? 127)).

Definition is_blank (c : Ascii.ascii) : bool := (byte_val c =? 32) || (byte_val c =? 9).

Fixpoint ends_blank (s : string) : bool :=
  match s with
  | EmptyString => false
  | String c EmptyString => is_blank c
  | String _ s' => ends_blank s'
  end.

Definition header_value (s : string) : bool :=
  forallb field_byte (String.list_ascii_of_string s) && negb (ends_blank s)
  && negb (match s with String c _ => is_blank c | EmptyString => false end).

(** [Do] reaches, at the address [dns], a server that answers a path and
    headers with [serve]: a request with valid header values is delivered
    with those headers, perhaps among others, and the status, the body and
    the content type of the answer come back. *)
Definition carries (Do : upstream_request → result http_response) (dns : string)
    (serve : string → headers → http_response) : Prop :=
  ∀ u path, up_URL u = "http://" +:+ dns +:+ path →
    map_Forall (λ _ v, header_value v = true) (up_Header u) →
    ∃ h resp, (∀ k v, up_Header u !! k = Some v → header_get h k = v) ∧ Do u = Ok resp ∧
      rs_StatusCode resp = rs_StatusCode (serve path h) ∧ rs_Body resp = rs_Body (serve path h) ∧
      header_get (rs_Header resp) "Content-Type" = header_get (rs_Header (serve path h)) "Content-Type".

Lemma digits_field s : all_digits s = true → forallb field_byte (String.list_ascii_of_string s) = true
  ∧ ends_blank s = false ∧ (match s with String c _ => is_blank c | EmptyString => false end) = false.
Proof.
  induction s as [|c s IH]; [done|]. simpl. intros [Hc Hs]%andb_prop. destruct (IH Hs) as (H1 & H2 & _).
  rewrite H1. unfold is_digit in Hc. unfold field_byte, is_blank. split_and!; [lia| |lia].
  destruct s; [lia|done].
Qed.

Lemma header_value_Itoa n : 0 <= n → header_value (Itoa n) = true.
Proof.
  intros Hn. unfold Itoa. rewrite (proj2 (Z.ltb_ge n 0)) by lia.
  destruct (digits_field (udec n)) as (H1 & H2 & H3); [by apply canonical_nat_digits, udec_canonical|].
  unfold header_value. by rewrite H1, H2, H3.
Qed.

(** What the worker answers to the headers of a conversation. *)
Lemma worker_answers metrics role host reqs h id n :
  id ≠ emp → utf8_valid id = true → 0 <= n →
  header_get h "X-Conversation-Id" = id → header_get h "X-KV-Shard" = Itoa n →
  let out := snd (worker_serve metrics role host "/v1/chat/completions" reqs h) in
  rs_StatusCode out = 200 ∧ read_member "conversationId" (rs_Body out) = Some id ∧
  read_member "kvShard" (rs_Body out) = Some (Itoa n).
Proof.
  intros Hne Hid Hn Hc Hk. unfold worker_serve, worker_chat.
  rewrite !bool_decide_eq_false_2 by done. rewrite bool_decide_eq_true_2 by done. cbn [snd rs_StatusCode rs_Body].
  rewrite Hk, Hc, (bool_decide_eq_false_2 _ Hne), (bool_decide_eq_false_2 _ (Itoa_ne _ Hn)).
  match goal with |- context [Encode ?r] => pose proof (Encode_reads_back r) as (H1 & H2 & _) end.
  cbn [w_ConversationID w_KVShard] in H1, H2.
  rewrite (utf8_sanitize_valid id Hid) in H1. rewrite (utf8_sanitize_Itoa _ Hn) in H2. done.
Qed.

(** C20: a conversation survives the round trip.  For a request whose body
    names a conversation, by an identifier that HTTP can carry in a header
    (no control bytes, no outer blanks), and whose content type HTTP can
    carry, a router that loaded a well-typed shard map and whose decode
    address leads to mock workers over a transport as documented answers 200;
    the header and the JSON body of the answer both name that conversation,
    and its shard is the one the router chose for it. *)
Theorem conversation_roundtrip (url_ok : string → bool) (Do : upstream_request → result http_response)
    (opt : options) (rnd : list Z) (st : RouterState) (hdr : headers) (body id role : string)
    (host : result string) (reqs : gmap string Z) (metrics : gmap string Z → http_response) :
  map_ok st → body_id body = id → id ≠ emp → utf8_valid id = true → header_value id = true →
  header_value (header_get hdr "Content-Type") = true →
  url_ok ("http://" +:+ decodeServiceDNS opt +:+ "/v1/chat/completions") = true →
  carries Do (decodeServiceDNS opt) (λ path h, snd (worker_serve metrics role host path reqs h)) →
  ∃ st' out,
    chat_completions url_ok Do opt rnd st (mkRequest hdr (Ok body)) = (st', Ok out) ∧
    rs_StatusCode out = 200 ∧
    header_get (rs_Header out) "X-Conversation-Id" = id ∧
    read_member "conversationId" (rs_Body out) = Some id ∧
    read_member "kvShard" (rs_Body out) = Some (Itoa (choose_shard st id)).
Proof.
  intros Hm Hb Hne Hid Hval Hct Hurl Hdo. destruct (choose_shard_range st id Hm) as [Hs _].
  unfold chat_completions, start_chat. cbn [rq_Body rq_Header].
  rewrite extract_body_id, Hb, (bool_decide_eq_false_2 _ Hne), Hurl. cbn [p_request].
  match goal with |- context [Do ?u] => destruct (Hdo u "/v1/chat/completions") as (h & resp & Hh & -> & Hst & Hbd & _) end.
  { done. }
  { cbn [up_Header]. repeat apply map_Forall_insert_2; auto using header_value_Itoa. apply map_Forall_empty. }
  cbn [up_Header] in Hh.
  destruct (worker_answers metrics role host reqs h id (choose_shard st id)) as (H200 & Hc & Hk);
    [done|done|done|apply Hh; by simplify_map_eq|apply Hh; by simplify_map_eq|].
  rewrite H200 in Hst. unfold finish_chat. rewrite Hst. cbn [valid_code].
  do 2 eexists. split; [reflexivity|]. cbn [rs_StatusCode rs_Header rs_Body p_convID].
  rewrite Hbd. split_and!; [done|unfold header_get; by simplify_map_eq|done|done].
Qed.

(** ** Witnesses *)
Lemma operator_to_router_witness :
  ∃ c cm pods t n, desired_cluster sample_req (world_of sample_cluster) c ∧
    pods_listed (world_of sample_cluster) (reconciled (world_of sample_cluster)) c pods t ∧
    stored KConfigMap (reconciled (world_of sample_cluster)) (child c "-shardmap")
      (om_Namespace (lic_Meta c)) = Some cm ∧
    choose_shard (poll_tick (Some cm) init_router) "conv-7" = fnv32a "conv-7" mod n.
Proof.
  destruct (operator_to_router sample_req _ _ sample_valid sample_run)
    as (c & cm & pods & t & n & Hc & _ & Hl & Hcm & Hall).
  exists c, cm, pods, t, n. split; [exact Hc|]. split; [exact Hl|]. split; [exact Hcm|].
  apply (Hall init_router "conv-7").
Defined.

(** On the in-memory server the pods do not change in a run, so the listed ones
    are those of the first world. *)
Lemma memory_step_pods (w w' : memory) : api_step w w' → mem_pods w' = mem_pods w.
Proof.
  destruct 1 as [? ? ? ? E|? ? ? ? ? E|? ? ? ? E|? ? ? ? ? E|? ? ? ? E|k ? ? ? ? ? ? E|? ? ? ? E|? ? ? ? ? E|? ? ? E];
    simpl in E; unfold mem_write, mem_write_status, mem_create_or_update in E;
    repeat case_match; simplify_eq; try done. by destruct k.
Qed.

Lemma memory_lists (w w' : memory) c pods t :
  pods_listed w w' c pods t →
  pods = snd <$> filter (λ p, p.1 = om_Namespace (lic_Meta c) ∧
           labels_match (roleLabels (baseLabels c) roleDecode) (pod_Labels p.2) = true) (mem_pods w).
Proof.
  intros (u & v & Hu & (x & E & _) & _). assert (mem_pods u = mem_pods w) as <-.
  { induction Hu as [|? ? ? S _ IH]; [done|]. by rewrite IH, (memory_step_pods _ _ S). }
  simpl in E. by injection E as _ <-.
Qed.

(** A transport that delivers the headers as they are. *)
Definition wire (dns : string) (serve : string → headers → http_response) (u : upstream_request)
  : result http_response :=
  match strip_prefix ("http://" +:+ dns) (up_URL u) with
  | Some path => Ok (serve path (up_Header u))
  | None => Err (errors_New "no such host")
  end.

Lemma strip_prefix_app p s : strip_prefix p (p +:+ s) = Some s.
Proof. induction p as [|c p IH]; [done|]. rewrite str_app_cons. simpl. by rewrite Z.eqb_refl. Qed.

Lemma wire_carries dns serve : carries (wire dns serve) dns serve.
Proof.
  intros u path Hu _. exists (up_Header u), (serve path (up_Header u)).
  split; [intros k v; unfold header_get; by intros ->|].
  split; [|done]. unfold wire. rewrite Hu. by rewrite <- str_app_assoc, strip_prefix_app.
Qed.

Lemma conversation_roundtrip_witness :
  ∃ st' out,
    chat_completions (λ _, true)
      (wire "d:8000" (λ path h, snd (worker_serve (λ _, mkResponse 200 ∅ emp) "decode" (Ok "pod-1") path ∅ h)))
      sample_options [] sample_state
      (mkRequest ∅ (Ok (print (chat_json [("temperature", JNum "0.7")] "conv-7" [])))) = (st', Ok out) ∧
    read_member "kvShard" (rs_Body out) = Some "1".
Proof.
  destruct (conversation_roundtrip (λ _, true)
    (wire "d:8000" (λ path h, snd (worker_serve (λ _, mkResponse 200 ∅ emp) "decode" (Ok "pod-1") path ∅ h)))
    sample_options [] sample_state ∅ (print (chat_json [("temperature", JNum "0.7")] "conv-7" [])) "conv-7"
    "decode" (Ok "pod-1") ∅ (λ _, mkResponse 200 ∅ emp)) as (st' & out & E & _ & _ & _ & Hk).
  - intros sm [= <-]. repeat constructor.
  - vm_compute. reflexivity.
  - discriminate.
  - vm_compute. reflexivity.
  - vm_compute. reflexivity.
  - vm_compute. reflexivity.
  - reflexivity.
  - apply wire_carries.
  - exists st', out. split; [exact E|]. rewrite Hk. vm_compute. reflexivity.
Defined.
