(* ===== verification/Heap.v ===== *)
(** * A heap of Go values

    The rest of the development treats a Go value as an immutable Rocq value.
    The generated deep copies (src/api/v1alpha1/zz_generated.deepcopy.go) are
    about what that hides: structs whose pointers, slices and maps share
    memory.  This file has the memory they work on: cells at addresses,
    allocation, loads and stores, and what it means that a struct denotes a
    value in a heap, which addresses it reaches, and that a function is a deep
    copy.  The cells and the structs of apimachinery are parameters. *)
From S2P Require Import Prelude Types Kube.
From stdpp Require Import options.

Abbreviation loc := positive (only parsing).

(** ** Pointers, slices and maps

    The type argument says what the memory behind holds.  A slice views
    [sl_len] elements of a backing array from [sl_off] on. *)
Inductive ptr (T : Type) := Nil | At (l : loc).
Arguments Nil {T}.
Arguments At {T} l.

Inductive slice (T : Type) := SNil | Slice (sl_array : loc) (sl_off sl_len : nat).
Arguments SNil {T}.
Arguments Slice {T} sl_array sl_off sl_len.

Inductive gomap := MNil | MapAt (l : loc).

(** ** The zero value of a type *)
Class Zero (T : Type) := zero : T.
#[export] Instance zero_string : Zero string := emp.
#[export] Instance zero_bool : Zero bool := false.
#[export] Instance zero_int : Zero Z := 0.
#[export] Instance zero_ptr T : Zero (ptr T) := Nil.
#[export] Instance zero_slice T : Zero (slice T) := SNil.
#[export] Instance zero_gomap : Zero gomap := MNil.
#[export] Instance zero_EnvVar : Zero EnvVar := mkEnvVar zero zero.
#[export] Instance zero_Endpoints : Zero ClusterEndpointsStatus := mkEndpoints zero zero zero.

(** ** Memory operations

    [cell] is what one allocation holds; [Boxed T] says how a value of type
    [T] is kept in a cell.  A load or store at an address that holds no value
    of the type is a panic. *)
Class Boxed (cell T : Type) := {
  box : T → cell;
  unbox : cell → option T;
  unbox_box : ∀ x, unbox (box x) = Some x }.
#[global] Hint Mode Boxed ! ! : typeclass_instances.

Section Memory.
Context {cell : Type}.
Abbreviation heap := (gmap loc cell).
Abbreviation bad := "invalid memory address or nil pointer dereference" (only parsing).

Definition peek {T : Type} `{Boxed cell T} (h : heap) (l : loc) : option T := h !! l ≫= unbox.

Definition load {T : Type} `{Boxed cell T} (l : loc) : M heap T :=
  λ h, (h, match peek h l with Some x => Ok x | None => Panic bad end).

Definition store {T : Type} `{Boxed cell T} (l : loc) (x : T) : M heap unit :=
  λ h, match (peek h l : option T) with
       | Some _ => (<[l := box x]> h, Ok tt)
       | None => (h, Panic bad)
       end.

(** [new(T)], and the allocation behind [make]: an address not in use. *)
Definition alloc {T : Type} `{Boxed cell T} (x : T) : M heap loc :=
  λ h, let l := fresh (dom h) in (<[l := box x]> h, Ok l).

(** [a[i]] and [a[i] = x] on a backing array. *)
Definition load_elem {T : Type} `{Boxed cell (list T)} (l : loc) (i : nat) : M heap T :=
  let! a := load (T:=list T) l in mlift (go_index a (Z.of_nat i)).

Definition store_elem {T : Type} `{Boxed cell (list T)} (l : loc) (i : nat) (x : T) : M heap unit :=
  let! a := load (T:=list T) l in
  let! _ := mlift (go_index a (Z.of_nat i)) in
  store l (<[i := x]> a).

(** ** What the generated code does with them *)

(** [*out = new(T); **out = **in]. *)
Definition copy_ptr {T : Type} `{Zero T, Boxed cell T} (p : ptr T) : M heap (ptr T) :=
  match p with
  | Nil => mret Nil
  | At l =>
      let! o := alloc (zero : T) in
      let! v := load (T:=T) l in
      let! _ := store o v in
      mret (At o)
  end.

(** [if in == nil { return nil }; out := new(T); in.DeepCopyInto(out); return out]. *)
Definition DeepCopy_with {T : Type} `{Zero T, Boxed cell T} (DeepCopyInto : T → M heap T)
    (p : ptr T) : M heap (ptr T) :=
  match p with
  | Nil => mret Nil
  | At l =>
      let! o := alloc (zero : T) in
      let! v := load (T:=T) l in
      let! v' := DeepCopyInto v in
      let! _ := store o v' in
      mret (At o)
  end.

(** [copy(dst, src)] of a view onto the start of an array of the same length. *)
Definition copy_builtin {T : Type} `{Boxed cell (list T)} (dst src : loc) (off n : nat) : M heap unit :=
  let! a := load (T:=list T) src in
  let! b := load (T:=list T) dst in
  store dst (take (n `min` length b) (drop off a) ++ drop (n `min` length b) b).

(** [*out = make([]T, len( *in)); copy( *out, *in)]. *)
Definition copy_slice {T : Type} `{Zero T, Boxed cell (list T)} (s : slice T) : M heap (slice T) :=
  match s with
  | SNil => mret SNil
  | Slice a off n =>
      let! o := alloc (replicate n (zero : T)) in
      let! _ := copy_builtin o a off n in
      mret (Slice o 0 n)
  end.

(** [for i := range *in { ( *in)[i].DeepCopyInto(&( *out)[i]) }], from [i] on with
    [n] elements left. *)
Fixpoint copy_elems {T : Type} `{Boxed cell (list T)} (DeepCopyInto : T → M heap T)
    (src : loc) (off : nat) (dst : loc) (i n : nat) : M heap unit :=
  match n with
  | O => mret tt
  | S n' =>
      let! v := load_elem src (off + i) in
      let! v' := DeepCopyInto v in
      let! _ := store_elem dst i v' in
      copy_elems DeepCopyInto src off dst (S i) n'
  end.

Definition copy_slice_with {T : Type} `{Zero T, Boxed cell (list T)} (DeepCopyInto : T → M heap T)
    (s : slice T) : M heap (slice T) :=
  match s with
  | SNil => mret SNil
  | Slice a off n =>
      let! o := alloc (replicate n (zero : T)) in
      let! _ := copy_elems DeepCopyInto a off o 0 n in
      mret (Slice o 0 n)
  end.

(** [*out = make(map[string]string, len( *in)); for key, val := range *in
    { ( *out)[key] = val }]. *)
Fixpoint copy_entries `{Boxed cell (gmap string string)} (dst : loc) (kvs : list (string * string))
  : M heap unit :=
  match kvs with
  | [] => mret tt
  | (key, val) :: kvs' =>
      let! m := load (T:=gmap string string) dst in
      let! _ := store dst (<[key := val]> m) in
      copy_entries dst kvs'
  end.

Definition copy_map `{Boxed cell (gmap string string)} (m : gomap) : M heap gomap :=
  match m with
  | MNil => mret MNil
  | MapAt l =>
      let! o := alloc (∅ : gmap string string) in
      let! kvs := load (T:=gmap string string) l in
      let! _ := copy_entries o (map_to_list kvs) in
      mret (MapAt o)
  end.

(** ** What a struct denotes and reaches

    [deno h s] is the value of the struct [s] in the heap [h], if none of its
    pointers dangles; [slots h s] lists the pointers it reaches, in the order
    of the fields, a nil pointer as [None]. *)
Class Heaped (S A : Type) := {
  deno : heap → S → option A;
  slots : heap → S → list (option loc) }.

Definition addrs {S A : Type} `{Heaped S A} (h : heap) (s : S) : list loc :=
  omap id (slots h s).
Definition shape {S A : Type} `{Heaped S A} (h : heap) (s : S) : list bool :=
  (λ o, bool_decide (is_Some o)) <$> slots h s.

Class HeapedLaws (S A : Type) `{Heaped S A} := {
  deno_frame : ∀ h h' s a,
    deno h s = Some a → (∀ l, l ∈ addrs h s → h' !! l = h !! l) →
    deno h' s = Some a ∧ slots h' s = slots h s;
  deno_addrs : ∀ h s a l,
    deno h s = Some a → l ∈ addrs h s → is_Some (h !! l) }.

(** The addresses [ls] are new in [h'], and no two are equal. *)
Definition fresh_in (h h' : heap) (ls : list loc) : Prop :=
  NoDup ls ∧ ∀ l, l ∈ ls → h !! l = None ∧ is_Some (h' !! l).

(** A deep copy of [s] made in [h]: the old cells are as they were, the copy
    denotes the same value, is nil where [s] is nil, and shares no memory with
    anything that was there, nor within itself. *)
Definition deep_copies {S A : Type} `{Heaped S A} (copy : S → M heap S) : Prop :=
  ∀ h s a, deno h s = Some a →
    ∃ h' s', copy s h = (h', Ok s') ∧ h ⊆ h' ∧ deno h' s' = Some a ∧
      shape h' s' = shape h s ∧ fresh_in h h' (addrs h' s').

End Memory.

Arguments Heaped cell S A : clear implicits.
Arguments HeapedLaws cell S A {H}.
#[global] Hint Mode Heaped ! ! - : typeclass_instances.

(** ** Denotations of the Go types *)
Section Instances.
Context {cell : Type}.
Abbreviation heap := (gmap loc cell).

(** A type without pointers. *)
Definition plain (V : Type) : Heaped cell V V := {| deno _ v := Some v; slots _ _ := [] |}.

#[global] Instance heaped_string : Heaped cell string string := plain string.
#[global] Instance heaped_bool : Heaped cell bool bool := plain bool.
#[global] Instance heaped_Z : Heaped cell Z Z := plain Z.
#[global] Instance heaped_EnvVar : Heaped cell EnvVar EnvVar := plain EnvVar.
#[global] Instance heaped_Endpoints : Heaped cell ClusterEndpointsStatus ClusterEndpointsStatus :=
  plain ClusterEndpointsStatus.

#[global] Instance heaped_pair {S A T B : Type} `{Heaped cell S A, Heaped cell T B}
  : Heaped cell (S * T) (A * B) := {|
  deno h s := a ← deno h s.1; b ← deno h s.2; Some (a, b);
  slots h s := slots h s.1 ++ slots h s.2 |}.

#[global] Instance heaped_list {S A : Type} `{Heaped cell S A} : Heaped cell (list S) (list A) := {|
  deno h l := mapM (deno h) l;
  slots h l := concat (slots h <$> l) |}.

#[global] Instance heaped_ptr {S A : Type} `{Boxed cell S, Heaped cell S A}
  : Heaped cell (ptr S) (option A) := {|
  deno h p := match p with
              | Nil => Some None
              | At l => v ← peek h l; Some <$> deno h (v : S)
              end;
  slots h p := match p with
               | Nil => [None]
               | At l => Some l :: (default [] (slots h <$> (peek h l : option S)))
               end |}.

Definition view {S : Type} (off n : nat) (a : list S) : option (list S) :=
  if (off + n <=? length a)%nat then Some (take n (drop off a)) else None.

#[global] Instance heaped_slice {S A : Type} `{Boxed cell (list S), Heaped cell S A}
  : Heaped cell (slice S) (list A) := {|
  deno h p := match p with
              | SNil => Some []
              | Slice l off n => a ← peek h l; v ← view off n (a : list S); deno h v
              end;
  slots h p := match p with
               | SNil => [None]
               | Slice l off n =>
                   Some l :: default [] (slots h <$> ((peek h l : option (list S)) ≫= view off n))
               end |}.

#[global] Instance heaped_gomap `{Boxed cell (gmap string string)}
  : Heaped cell gomap (gmap string string) := {|
  deno h p := match p with MNil => Some ∅ | MapAt l => peek h l end;
  slots h p := match p with MNil => [None] | MapAt l => [Some l] end |}.

(** A struct denotes what the tuple of its fields denotes. *)
Definition heaped_via {S T A B : Type} `{Heaped cell T B} (fields : S → T) (value : B → A)
  : Heaped cell S A := {|
  deno h s := value <$> deno h (fields s);
  slots h s := slots h (fields s) |}.

End Instances.

(** ** Frames *)
Section Frames.
Context {cell : Type}.
Implicit Types h : gmap loc cell.

Lemma addrs_app {S A T B} `{Heaped cell S A, Heaped cell T B} h (s : S) (t : T) :
  omap id (slots h s ++ slots h t) = addrs h s ++ addrs h t.
Proof. apply omap_app. Qed.

Lemma elem_of_addrs {S A} `{Heaped cell S A} h (s : S) l : l ∈ addrs h s ↔ Some l ∈ slots h s.
Proof. unfold addrs. rewrite list_elem_of_omap. split; [intros (? & ? & [= ->]); done|by eexists]. Qed.

Lemma peek_insert {T} `{Boxed cell T} h l (x : T) : peek (<[l := box x]> h) l = Some x.
Proof. unfold peek. rewrite lookup_insert_eq. simpl. apply unbox_box. Qed.

Lemma peek_same {T} `{Boxed cell T} h h' l : h' !! l = h !! l → peek (T:=T) h' l = peek h l.
Proof. unfold peek. by intros ->. Qed.

Lemma peek_dom {T} `{Boxed cell T} h l (x : T) : peek h l = Some x → is_Some (h !! l).
Proof. unfold peek. destruct (h !! l); [eauto|done]. Qed.

Lemma alloc_spec {T} `{Boxed cell T} (x : T) h :
  ∃ o, alloc x h = (<[o := box x]> h, Ok o) ∧ h !! o = None ∧ h ⊆ <[o := box x]> h.
Proof.
  exists (fresh (dom h)).
  assert (h !! fresh (dom h) = None) by (apply not_elem_of_dom, is_fresh).
  split_and!; [done..|by apply insert_subseteq].
Qed.

Lemma load_spec {T} `{Boxed cell T} l (x : T) h : peek h l = Some x → load l h = (h, Ok x).
Proof. unfold load. by intros ->. Qed.

Lemma store_spec {T} `{Boxed cell T} l (x y : T) h :
  peek h l = Some y → store l x h = (<[l := box x]> h, Ok tt).
Proof. unfold store. by intros ->. Qed.

(** What a struct denotes depends only on the cells it reaches. *)
Lemma deno_stable {S A} `{HeapedLaws cell S A} h h' (s : S) a :
  deno h s = Some a → (∀ l, l ∈ addrs h s → is_Some (h !! l) → h' !! l = h !! l) →
  deno h' s = Some a ∧ slots h' s = slots h s.
Proof. intros Hd Hs. eapply deno_frame; [done|]. intros l Hl. eapply Hs, deno_addrs; done. Qed.

Lemma deno_mono {S A} `{HeapedLaws cell S A} h h' (s : S) a :
  deno h s = Some a → h ⊆ h' → deno h' s = Some a ∧ slots h' s = slots h s.
Proof.
  intros Hd Hs. eapply deno_stable; [done|]. intros l _ [c Hc]. rewrite Hc.
  by eapply lookup_weaken.
Qed.

Lemma deno_update {S A} `{HeapedLaws cell S A} h (s : S) a l c :
  deno h s = Some a → l ∉ addrs h s →
  deno (<[l := c]> h) s = Some a ∧ slots (<[l := c]> h) s = slots h s.
Proof.
  intros Hd Hs. eapply deno_stable; [done|]. intros k Hk _. apply lookup_insert_ne. set_solver.
Qed.

(** ** Laws of the denotations *)
#[global] Instance plain_laws V : HeapedLaws cell V V (H:=plain V).
Proof. split; [done|]. intros ????? Hl. by apply elem_of_nil in Hl. Qed.

#[global] Instance pair_laws {S A T B} `{HeapedLaws cell S A, HeapedLaws cell T B} :
  HeapedLaws cell (S * T) (A * B).
Proof.
  split.
  - intros h h' [s t] [a b]. unfold addrs. simpl. rewrite addrs_app.
    destruct (deno h s) as [a'|] eqn:Es; simpl; [|done].
    destruct (deno h t) as [b'|] eqn:Et; simpl; [|done]. intros [= -> ->] Hs.
    destruct (deno_frame h h' s a) as [-> ->]; [done|set_solver|].
    destruct (deno_frame h h' t b) as [-> ->]; [done|set_solver|]. done.
  - intros h [s t] [a b] l. unfold addrs. simpl. rewrite addrs_app.
    destruct (deno h s) as [a'|] eqn:Es; simpl; [|done].
    destruct (deno h t) as [b'|] eqn:Et; simpl; [|done].
    intros _ [Hl|Hl]%elem_of_app; [by eapply (deno_addrs h s)|by eapply (deno_addrs h t)].
Qed.

Lemma deno_cons {S A} `{Heaped cell S A} h (s : S) l ks :
  deno h (s :: l) = Some ks ↔ ∃ a k, ks = a :: k ∧ deno h s = Some a ∧ deno h l = Some k.
Proof.
  change (deno h (s :: l)) with (a ← deno h s; k ← deno h l; Some (a :: k)).
  destruct (deno h s) as [a|]; simpl; [|naive_solver].
  destruct (mapM _ l) as [k|]; simpl; naive_solver.
Qed.

Lemma slots_cons {S A} `{Heaped cell S A} h (s : S) l :
  slots h (s :: l) = slots h s ++ slots h l.
Proof. done. Qed.

Lemma addrs_cons {S A} `{Heaped cell S A} h (s : S) l :
  addrs h (s :: l) = addrs h s ++ addrs h l.
Proof. unfold addrs at 1. simpl. apply omap_app. Qed.

#[global] Instance list_laws {S A} `{HeapedLaws cell S A} : HeapedLaws cell (list S) (list A).
Proof.
  split.
  - intros h h' l. induction l as [|s l IH]; intros ks; [done|].
    rewrite deno_cons, addrs_cons. intros (a & k & -> & Hs & Hl) Hf.
    destruct (deno_frame h h' s a Hs) as [Hs' Es]; [set_solver|].
    destruct (IH k Hl) as [Hl' El]; [set_solver|]. split; [apply deno_cons; naive_solver|].
    by rewrite !slots_cons, Es, El.
  - intros h l. induction l as [|s l IH]; intros ks x.
    { intros _ Hx. by apply elem_of_nil in Hx. }
    rewrite deno_cons, addrs_cons. intros (a & k & -> & Hs & Hl) [Hx|Hx]%elem_of_app;
      [by eapply deno_addrs|by eapply IH].
Qed.

Lemma ptr_deno {S A} `{Boxed cell S, Heaped cell S A} h l (p : option A) :
  deno h (At (T:=S) l) = Some p ↔ ∃ v a, p = Some a ∧ peek h l = Some v ∧ deno h (v : S) = Some a.
Proof.
  simpl. destruct (peek h l) as [v|]; simpl; [|naive_solver].
  destruct (deno h v) as [a|] eqn:Ea; simpl; naive_solver.
Qed.

Lemma ptr_slots {S A} `{Boxed cell S, Heaped cell S A} h l v :
  peek h l = Some v → slots h (At (T:=S) l) = Some l :: slots h (v : S).
Proof. simpl. by intros ->. Qed.

#[global] Instance ptr_laws {S A} `{Boxed cell S, HeapedLaws cell S A} : HeapedLaws cell (ptr S) (option A).
Proof.
  split.
  - intros h h' [|l] p; [done|]. intros (v & a & -> & Hv & Ha)%ptr_deno Hf. unfold addrs in Hf.
    rewrite (ptr_slots h l v Hv) in *. simpl in Hf.
    assert (Hv' : peek h' l = Some v) by (rewrite <- Hv; apply peek_same, Hf; set_solver).
    destruct (deno_frame h h' v a Ha) as [Ha' Es]; [set_solver|].
    split; [apply ptr_deno; naive_solver|]. by rewrite (ptr_slots h' l v), Es.
  - intros h [|l] p x; [intros _ Hx; by apply elem_of_nil in Hx|].
    intros (v & a & -> & Hv & Ha)%ptr_deno. unfold addrs. rewrite (ptr_slots h l v Hv). simpl.
    intros [->|Hx]%elem_of_cons; [by eapply peek_dom|by eapply deno_addrs].
Qed.

Lemma slice_deno {S A} `{Boxed cell (list S), Heaped cell S A} h l off n (k : list A) :
  deno h (Slice (T:=S) l off n) = Some k ↔
  ∃ arr vs, peek h l = Some arr ∧ view off n arr = Some vs ∧ deno h (vs : list S) = Some k.
Proof.
  simpl. destruct (peek h l) as [arr|]; simpl; [|naive_solver].
  destruct (view off n arr) as [vs|] eqn:E; simpl; naive_solver.
Qed.

Lemma slice_slots {S A} `{Boxed cell (list S), Heaped cell S A} h l off n arr vs :
  peek h l = Some arr → view off n arr = Some vs →
  slots h (Slice (T:=S) l off n) = Some l :: slots h (vs : list S).
Proof. simpl. intros -> Hv. simpl. by rewrite Hv. Qed.

#[global] Instance slice_laws {S A} `{Boxed cell (list S), HeapedLaws cell S A} :
  HeapedLaws cell (slice S) (list A).
Proof.
  split.
  - intros h h' [|l off n] k; [done|]. intros (arr & vs & Hl & Hv & Ha)%slice_deno Hf.
    unfold addrs in Hf. rewrite (slice_slots h l off n arr vs Hl Hv) in *. simpl in Hf.
    assert (Hl' : peek h' l = Some arr) by (rewrite <- Hl; apply peek_same, Hf; set_solver).
    destruct (deno_frame h h' vs k Ha) as [Ha' Es]; [set_solver|].
    split; [apply slice_deno; naive_solver|]. by rewrite (slice_slots h' l off n arr vs), Es.
  - intros h [|l off n] k x; [intros _ Hx; by apply elem_of_nil in Hx|].
    intros (arr & vs & Hl & Hv & Ha)%slice_deno. unfold addrs.
    rewrite (slice_slots h l off n arr vs Hl Hv). simpl.
    intros [->|Hx]%elem_of_cons; [by eapply peek_dom|by eapply (deno_addrs h vs)].
Qed.

#[global] Instance gomap_laws `{Boxed cell (gmap string string)} :
  HeapedLaws cell gomap (gmap string string).
Proof.
  split.
  - intros h h' [|l] m; [done|]. simpl. intros <- Hf.
    split; [apply peek_same, Hf; set_solver|done].
  - intros h [|l] m x; [intros _ Hx; by apply elem_of_nil in Hx|]. simpl. unfold addrs. simpl.
    intros Hm ->%list_elem_of_singleton. by eapply peek_dom.
Qed.

Lemma via_laws {S T A B} `{HeapedLaws cell T B} (fields : S → T) (value : B → A) :
  HeapedLaws cell S A (H:=heaped_via fields value).
Proof.
  split.
  - intros h h' s a (b & Hb & ->)%fmap_Some Hf. simpl.
    destruct (deno_frame h h' (fields s) b Hb Hf) as [-> ->]. done.
  - intros h s a l (b & Hb & ->)%fmap_Some Hl. by eapply (deno_addrs h (fields s)).
Qed.

End Frames.
