(* ===== verification/HeapCopy.v ===== *)
(** * Deep copies of pointers, slices, maps and structs

    That each piece of generated code in Heap.v is a deep copy, and that a
    struct copied field by field is. *)
From S2P Require Import Prelude Types Kube Heap.
From stdpp Require Import options.

Section Copies.
Context {cell : Type}.
Implicit Types h : gmap loc cell.

(** ** Fresh addresses *)
Lemma fresh_in_nil h h' : fresh_in h h' [].
Proof. split; [constructor|]. intros l Hl. by apply elem_of_nil in Hl. Qed.

Lemma fresh_in_app h h1 h2 ls ks :
  h ⊆ h1 → h1 ⊆ h2 → fresh_in h h1 ls → fresh_in h1 h2 ks → fresh_in h h2 (ls ++ ks).
Proof.
  intros S1 S2 [Nl Fl] [Nk Fk]. split.
  - apply list.NoDup_app. split_and!; [done| |done]. intros l Hl Hk.
    destruct (Fl l Hl) as [_ [c Hc]]. destruct (Fk l Hk) as [Hn _]. congruence.
  - intros l [Hl|Hl]%elem_of_app.
    + destruct (Fl l Hl) as [Hn [c Hc]]. split; [done|]. exists c. by eapply lookup_weaken.
    + destruct (Fk l Hl) as [Hn Hs]. split; [|done].
      destruct (h !! l) as [c|] eqn:Hc; [|done]. by rewrite (lookup_weaken _ _ _ _ Hc S1) in Hn.
Qed.

Lemma fresh_in_write h h1 o c ls : fresh_in h h1 ls → fresh_in h (<[o := c]> h1) ls.
Proof.
  intros [N F]. split; [done|]. intros l Hl. destruct (F l Hl) as [? ?]. split; [done|].
  destruct (decide (o = l)) as [->|]; [rewrite lookup_insert_eq; eauto|by rewrite lookup_insert_ne].
Qed.

Lemma fresh_not_old h h' o ls : fresh_in h h' ls → is_Some (h !! o) → o ∉ ls.
Proof. intros [_ F] [c Hc] Hin. destruct (F o Hin). congruence. Qed.

Lemma fresh_in_cons h h1 h2 o ls :
  h ⊆ h1 → h !! o = None → is_Some (h1 !! o) → is_Some (h2 !! o) → fresh_in h1 h2 ls →
  fresh_in h h2 (o :: ls).
Proof.
  intros S1 No Ho1 Ho2 F. split.
  - apply list.NoDup_cons. split; [by eapply fresh_not_old|apply F].
  - intros l [->|Hl]%elem_of_cons; [done|]. destruct (proj2 F l Hl) as [Hn Hs].
    split; [by eapply lookup_weaken_None|done].
Qed.

(** ** Composition *)
Lemma copies_plain V : deep_copies (H:=plain V) (mret (W:=gmap loc cell)).
Proof.
  intros h s a Hd. exists h, s. split_and!; [done..|]. apply fresh_in_nil.
Qed.

Definition copy_pair {S T} (f : S → M (gmap loc cell) S) (g : T → M (gmap loc cell) T) (st : S * T)
  : M (gmap loc cell) (S * T) :=
  let! s := f st.1 in let! t := g st.2 in mret (s, t).

Lemma copies_pair {S A T B} `{HeapedLaws cell S A, HeapedLaws cell T B} f g :
  deep_copies (S:=S) f → deep_copies (S:=T) g → deep_copies (copy_pair f g).
Proof.
  intros Hf Hg h [s t] [a b]. cbn. intros Hd.
  destruct (deno h s) as [a'|] eqn:Es; simpl in Hd; [|done].
  destruct (deno h t) as [b'|] eqn:Et; simpl in Hd; [|done]. simplify_eq.
  destruct (Hf h s a Es) as (h1 & s' & E1 & S1 & Ds & Hs & Fs).
  destruct (deno_mono h h1 t b Et S1) as [Dt Lt].
  destruct (Hg h1 t b Dt) as (h2 & t' & E2 & S2 & Dt' & Ht & Ft).
  destruct (deno_mono h1 h2 s' a Ds S2) as [Ds' Ls].
  exists h2, (s', t'). unfold copy_pair, mbind', addrs, shape. simpl. rewrite E1, E2, Ds', Dt', Ls.
  split_and!; [done|by etrans|done| |].
  - unfold shape in *. by rewrite !fmap_app, Hs, Ht, Lt.
  - rewrite omap_app. by eapply fresh_in_app.
Qed.

Lemma copies_via {S T A B} `{HeapedLaws cell T B} (fields : S → T) (make : T → S) (value : B → A)
    f (g : S → M (gmap loc cell) S) :
  (∀ t, fields (make t) = t) → deep_copies (S:=T) f →
  (∀ s h, g s h = (let! t := f (fields s) in mret (make t)) h) →
  deep_copies (H:=heaped_via fields value) g.
Proof.
  intros Hm Hf Hg h s a (b & Hb & ->)%fmap_Some.
  destruct (Hf h (fields s) b Hb) as (h1 & t & E & S1 & Dt & Ht & Ft).
  exists h1, (make t). rewrite Hg. unfold mbind', addrs, shape. simpl. rewrite E, !Hm.
  split_and!; [done|done|by rewrite Dt|done|done].
Qed.

(** ** Pointers *)
Lemma alloc_peek {T} `{Boxed cell T} h h' o (x : T) :
  <[o := box x]> h ⊆ h' → peek h' o = Some x.
Proof.
  intros S'. unfold peek. rewrite (lookup_weaken _ _ o (box x) (lookup_insert_eq _ _ _) S').
  simpl. apply unbox_box.
Qed.

Lemma peek_mono {T} `{Boxed cell T} h h' l (x : T) : peek h l = Some x → h ⊆ h' → peek h' l = Some x.
Proof.
  intros Hx S'. rewrite <- Hx. apply peek_same. destruct (peek_dom _ _ _ Hx) as [c Hc].
  rewrite Hc. by eapply lookup_weaken.
Qed.

Lemma copies_DeepCopy {S A} `{Zero S, Boxed cell S, HeapedLaws cell S A}
    (into : S → M (gmap loc cell) S) :
  deep_copies into → deep_copies (DeepCopy_with into).
Proof.
  intros Hi h [|l] p; [intros [= <-]; exists h, Nil; split_and!; try done; apply fresh_in_nil|].
  intros (v & a & -> & Hv & Ha)%ptr_deno.
  destruct (alloc_spec (zero : S) h) as (o & Eo & No & So).
  destruct (deno_mono h _ v a Ha So) as [Ha1 Sl1].
  destruct (Hi _ v a Ha1) as (h2 & v' & E2 & S2 & D2 & Sh2 & F2).
  assert (Hof : o ∉ addrs h2 v').
  { intros Hin. destruct (proj2 F2 o Hin) as [Hn _]. by rewrite lookup_insert_eq in Hn. }
  destruct (deno_update h2 v' a o (box v') D2 Hof) as [D3 Sl3].
  exists (<[o := box v']> h2), (At o). unfold DeepCopy_with, mbind'.
  rewrite Eo, (load_spec l v _ (peek_mono _ _ _ _ Hv So)), E2,
    (store_spec o v' zero h2 (alloc_peek _ _ _ _ S2)).
  unfold addrs, shape in *. rewrite (ptr_slots h l v Hv), (ptr_slots _ o v' (peek_insert _ _ _)), Sl3.
  split_and!; [done| |apply ptr_deno; eexists v', a; split_and!; [done|apply peek_insert|done]| |].
  - apply insert_subseteq_r; [done|]. by etrans.
  - by rewrite !fmap_cons, Sh2, Sl1.
  - simpl. eapply fresh_in_cons; [exact So|done|rewrite lookup_insert_eq; eauto..|].
    by apply fresh_in_write.
Qed.

Lemma copies_ptr {V} `{Zero V, Boxed cell V} :
  deep_copies (cell:=cell) (H:=heaped_ptr (H0:=plain V)) (copy_ptr (T:=V)).
Proof.
  intros h p a Hp. destruct (copies_DeepCopy (H1:=plain V) mret (copies_plain V) h p a Hp)
    as (h' & p' & E & Hc).
  exists h', p'. split; [|exact Hc]. rewrite <- E. by destruct p.
Qed.

(** ** Maps *)
Lemma copy_entries_spec `{Boxed cell (gmap string string)} o kvs h (m : gmap string string) :
  peek h o = Some m →
  ∃ h', copy_entries o kvs h = (h', Ok tt) ∧ peek h' o = Some (list_to_map (reverse kvs) ∪ m) ∧
    ∀ l, l ≠ o → h' !! l = h !! l.
Proof.
  revert h m. induction kvs as [|[k v] kvs IH]; intros h m Hm; simpl.
  { exists h. by rewrite (left_id_L ∅ _). }
  unfold mbind'. rewrite (load_spec _ _ _ Hm), (store_spec _ _ _ _ Hm).
  destruct (IH _ (<[k := v]> m) (peek_insert h o _)) as (h' & E & Hp & Hc).
  exists h'. split_and!; [done| |intros l Hl; by rewrite Hc, lookup_insert_ne].
  rewrite Hp. f_equal. rewrite reverse_cons, list_to_map_app. simpl.
  by rewrite <- (assoc_L (∪)), <- insert_union_l, (left_id_L ∅ (∪)).
Qed.

(** The copy of an array or a map allocated at [o] and then filled. *)
Lemma filled_subseteq h h' o c :
  h !! o = None → (∀ l, l ≠ o → is_Some (<[o := c]> h !! l) → h' !! l = <[o := c]> h !! l) → h ⊆ h'.
Proof.
  intros No Hk. apply map_subseteq_spec. intros l d Hl.
  assert (l ≠ o) by congruence. rewrite Hk; rewrite ?lookup_insert_ne by done; eauto.
Qed.

Lemma map_range (m : gmap string string) : list_to_map (reverse (map_to_list m)) = m.
Proof.
  transitivity (list_to_map (M:=gmap string string) (map_to_list m)); [|apply list_to_map_to_list].
  apply list_to_map_proper; [|by rewrite reverse_Permutation].
  rewrite reverse_Permutation. apply NoDup_fst_map_to_list.
Qed.

Lemma copies_map `{Boxed cell (gmap string string)} : deep_copies (cell:=cell) copy_map.
Proof.
  intros h [|l] m; [intros [= <-]; exists h, MNil; split_and!; try done; apply fresh_in_nil|].
  intros Hm. destruct (alloc_spec (∅ : gmap string string) h) as (o & Eo & No & So).
  destruct (copy_entries_spec o (map_to_list m) _ ∅ (peek_insert h o _)) as (h' & E & Hp & Hk).
  rewrite (right_id_L ∅ (∪)), map_range in Hp.
  exists h', (MapAt o). unfold copy_map, mbind'.
  rewrite Eo, (load_spec l m _ (peek_mono _ _ _ _ Hm So)), E.
  split_and!; [done|by eapply filled_subseteq; eauto|done|done|].
  split; [apply list.NoDup_singleton|]. intros k Hl. apply list_elem_of_singleton in Hl as ->.
  split; [done|]. by eapply peek_dom.
Qed.

(** ** Slices *)
Lemma view_spec {S} off n (a vs : list S) :
  view off n a = Some vs → vs = take n (drop off a) ∧ length vs = n.
Proof.
  unfold view. destruct (Nat.leb_spec (off + n) (length a)); [|done]. intros [= <-].
  split; [done|]. rewrite length_take, length_drop. lia.
Qed.

Lemma view_all {S} (vs : list S) : view 0 (length vs) vs = Some vs.
Proof. unfold view. rewrite drop_0, firstn_all. by rewrite (proj2 (Nat.leb_le _ _)) by lia. Qed.

Lemma load_elem_spec {T} `{Boxed cell (list T)} l i h (arr : list T) v :
  peek h l = Some arr → arr !! i = Some v → load_elem l i h = (h, Ok v).
Proof.
  intros Hl Hv. unfold load_elem, mbind'. rewrite (load_spec _ _ _ Hl). unfold mlift.
  rewrite (go_index_lookup arr _ v); [done|lia|by rewrite Nat2Z.id].
Qed.

Lemma store_elem_spec {T} `{Boxed cell (list T)} l h (xs : list T) z zs x :
  peek h l = Some (xs ++ z :: zs) →
  store_elem l (length xs) x h = (<[l := box ((xs ++ [x]) ++ zs)]> h, Ok tt).
Proof.
  intros Hl. unfold store_elem, mbind'. rewrite (load_spec _ _ _ Hl). unfold mlift.
  rewrite (go_index_lookup _ _ z), (store_spec _ _ _ _ Hl); [|lia|].
  - by rewrite insert_app_r_alt, Nat.sub_diag, <- app_assoc by lia.
  - by rewrite Nat2Z.id, lookup_app_r, Nat.sub_diag by lia.
Qed.

(** [h'] keeps the cells of [h], [o] apart. *)
Definition keeps (o : loc) h h' : Prop := ∀ l, l ≠ o → is_Some (h !! l) → h' !! l = h !! l.

Lemma keeps_deno {S A} `{HeapedLaws cell S A} o h h' (s : S) a :
  deno h s = Some a → o ∉ addrs h s → keeps o h h' → deno h' s = Some a ∧ slots h' s = slots h s.
Proof. intros Hd Ho Hk. eapply deno_stable; [done|]. intros l Hl. apply Hk. set_solver. Qed.

Lemma keeps_write o h h1 c : h ⊆ h1 → keeps o h (<[o := c]> h1).
Proof.
  intros Hs l Hne [d Hd]. rewrite lookup_insert_ne, Hd by done. by eapply lookup_weaken.
Qed.

Lemma keeps_trans o h h1 h2 : keeps o h h1 → keeps o h1 h2 → keeps o h h2.
Proof. intros K1 K2 l Hne Hl. rewrite K2; [by apply K1|done|]. by rewrite K1. Qed.

Lemma keeps_dom o h h' l : keeps o h h' → l ≠ o → is_Some (h !! l) → is_Some (h' !! l).
Proof. intros K Hne Hl. by rewrite K. Qed.

Lemma keeps_fresh o h h1 h2 ls ks :
  is_Some (h !! o) → keeps o h h1 → keeps o h1 h2 → fresh_in h h1 ls → fresh_in h1 h2 ks →
  is_Some (h1 !! o) → fresh_in h h2 (ls ++ ks).
Proof.
  intros Ho K1 K2 [Nl Fl] [Nk Fk] Ho1. split.
  - apply list.NoDup_app. split_and!; [done| |done]. intros l Hl Hk.
    destruct (Fl l Hl) as [_ [c Hc]]. destruct (Fk l Hk) as [Hn _]. congruence.
  - intros l [Hl|Hl]%elem_of_app.
    + destruct (Fl l Hl) as [Hn Hs]. split; [done|]. apply (keeps_dom o h1); [done| |done].
      intros ->. rewrite Hn in Ho. by destruct Ho.
    + destruct (Fk l Hl) as [Hn Hs]. split; [|done]. destruct (h !! l) as [c|] eqn:Hc; [|done].
      destruct (decide (l = o)) as [->|Hne]; [rewrite Hn in Ho1; by destruct Ho1|].
      rewrite (K1 l), Hc in Hn; [done|done|by eexists].
Qed.

(** One element copied and stored: the step of the loop. *)
Lemma copy_elem_step {S A} `{Boxed cell (list S), HeapedLaws cell S A}
    (into : S → M (gmap loc cell) S) o h (v : S) a (xs : list S) z zs :
  deep_copies into → deno h v = Some a → peek h o = Some (xs ++ z :: zs) →
  ∃ h1 h2 v', into v h = (h1, Ok v') ∧ store_elem o (length xs) v' h1 = (h2, Ok tt) ∧
    keeps o h h2 ∧ peek h2 o = Some ((xs ++ [v']) ++ zs) ∧ deno h2 v' = Some a ∧
    shape h2 v' = shape h v ∧ fresh_in h h2 (addrs h2 v') ∧ o ∉ addrs h2 v'.
Proof.
  intros Hi Hv Ho. destruct (Hi h v a Hv) as (h1 & v' & E & S1 & D1 & Sh & F).
  assert (Hof : o ∉ addrs h1 v') by (eapply fresh_not_old; [done|by eapply peek_dom]).
  destruct (deno_update h1 v' a o (box ((xs ++ [v']) ++ zs)) D1 Hof) as [D2 Sl].
  exists h1, (<[o := box ((xs ++ [v']) ++ zs)]> h1), v'. unfold addrs, shape in *. rewrite Sl.
  split_and!; try done; [by eapply store_elem_spec, peek_mono|by apply keeps_write|
    apply peek_insert|by apply fresh_in_write].
Qed.

Lemma copy_elems_spec {S A} `{Zero S, Boxed cell (list S), HeapedLaws cell S A}
    (into : S → M (gmap loc cell) S) src off o (arr : list S) :
  deep_copies into → o ≠ src → ∀ todo xs h k,
  peek h src = Some arr → take (length todo) (drop (off + length xs) arr) = todo →
  peek h o = Some (xs ++ replicate (length todo) zero) →
  deno h todo = Some k → o ∉ addrs h todo →
  ∃ h' ys, copy_elems into src off o (length xs) (length todo) h = (h', Ok tt) ∧
    keeps o h h' ∧ peek h' o = Some (xs ++ ys) ∧ deno h' ys = Some k ∧
    shape h' ys = shape h todo ∧ fresh_in h h' (addrs h' ys).
Proof.
  intros Hi Hne todo. induction todo as [|v todo IH]; intros xs h ks Hsrc Htk Ho Hd Hna.
  { exists h, []. split_and!; try done. apply fresh_in_nil. }
  apply deno_cons in Hd as (a & k & -> & Hv & Hk). rewrite addrs_cons in Hna.
  assert (Hnth : arr !! (off + length xs)%nat = Some v).
  { rewrite <- (Nat.add_0_r (off + length xs)), <- lookup_drop.
    rewrite <- (lookup_take_lt _ (length (v :: todo))) by (simpl; lia). by rewrite Htk. }
  destruct (copy_elem_step into o h v a xs zero (replicate (length todo) zero) Hi Hv Ho)
    as (h1 & h2 & v' & E1 & E2 & K & P2 & D2 & Sh2 & F2 & N2).
  destruct (keeps_deno o h h2 todo k Hk) as [Hk2 Sl2]; [set_solver|done|].
  destruct (IH (xs ++ [v']) h2 k) as (h' & ys & E & K' & P' & D' & Sh' & F'); try done.
  { rewrite (peek_same h h2 src); [done|]. apply K; [done|by eapply peek_dom]. }
  { erewrite (drop_S arr v) in Htk by done. simpl in Htk. rewrite length_app. simpl.
    replace (off + (length xs + 1))%nat with (Datatypes.S (off + length xs)) by lia. by simplify_eq. }
  { unfold addrs. rewrite Sl2. set_solver. }
  destruct (keeps_deno o h2 h' v' a D2 N2 K') as [D3 Sl3].
  exists h', (v' :: ys). simpl length. cbn [copy_elems]. unfold mbind' at 1.
  rewrite (load_elem_spec _ _ _ _ _ Hsrc Hnth). unfold mbind' at 1. rewrite E1.
  unfold mbind' at 1. rewrite E2.
  rewrite length_app, Nat.add_1_r in E. rewrite E, deno_cons, addrs_cons.
  unfold addrs, shape in *. rewrite !slots_cons, !fmap_app, Sl3, Sh2, Sh', Sl2.
  split_and!; try done; [by eapply keeps_trans|by rewrite <- app_assoc in P'|naive_solver|].
  eapply keeps_fresh; [by eapply peek_dom|exact K|done|done|done|by eapply peek_dom].
Qed.

Lemma copies_slice_with {S A} `{Zero S, Boxed cell (list S), HeapedLaws cell S A}
    (into : S → M (gmap loc cell) S) :
  deep_copies into → deep_copies (copy_slice_with into).
Proof.
  intros Hi h [|l off n] k; [intros [= <-]; exists h, SNil; split_and!; try done; apply fresh_in_nil|].
  intros (arr & vs & Hl & Hv & Hk)%slice_deno.
  destruct (view_spec _ _ _ _ Hv) as [Evs Elen].
  destruct (alloc_spec (replicate n (zero : S)) h) as (o & Eo & No & So).
  destruct (deno_mono h _ vs k Hk So) as [Hk1 Sl1].
  assert (Hno : o ∉ addrs h vs).
  { intros Hin. destruct (deno_addrs h vs k o Hk Hin). congruence. }
  destruct (copy_elems_spec into l off o arr Hi) with (todo := vs) (xs := @nil S)
    (h := <[o := box (replicate n (zero : S))]> h) (k := k)
    as (h' & ys & E & K & P & D & Sh & F).
  { intros ->. destruct (peek_dom _ _ _ Hl). congruence. }
  { by eapply peek_mono. }
  { by rewrite Nat.add_0_r, Elen. }
  { rewrite Elen. apply peek_insert. }
  { done. }
  { unfold addrs. by rewrite Sl1. }
  rewrite Elen in E. simpl in E, P.
  assert (Hys : length ys = n).
  { pose proof (length_mapM _ _ _ D). pose proof (length_mapM _ _ _ Hk). congruence. }
  exists h', (Slice o 0 n). unfold copy_slice_with, mbind'. rewrite Eo, E.
  assert (Hvo : view 0 n ys = Some ys) by (rewrite <- Hys; apply view_all).
  unfold addrs, shape in *. rewrite (slice_slots h' o 0 n ys ys P Hvo), (slice_slots h l off n arr vs Hl Hv).
  split_and!; [done|by eapply filled_subseteq|apply slice_deno; naive_solver| |].
  - by rewrite !fmap_cons, Sh, Sl1.
  - eapply fresh_in_cons; [exact So|done|rewrite lookup_insert_eq; eauto|by eapply peek_dom|done].
Qed.

Lemma deno_plain_list {V} h (l : list V) : deno (Heaped:=heaped_list (H:=plain V)) h l = Some l.
Proof. induction l as [|x l IH]; [done|]. apply (deno_cons (H:=plain V)). naive_solver. Qed.

Lemma slots_plain_list {V} h (l : list V) : slots (Heaped:=heaped_list (H:=plain V)) h l = [].
Proof. by induction l. Qed.

Lemma copies_slice {V} `{Zero V, Boxed cell (list V)} :
  deep_copies (cell:=cell) (H:=heaped_slice (H0:=plain V)) (copy_slice (T:=V)).
Proof.
  intros h [|l off n] k; [intros [= <-]; exists h, SNil; split_and!; try done; apply fresh_in_nil|].
  intros (arr & vs & Hl & Hv & Hk)%(slice_deno (H0:=plain V)).
  destruct (view_spec _ _ _ _ Hv) as [Evs Elen].
  rewrite deno_plain_list in Hk. simplify_eq Hk. intros <-.
  destruct (alloc_spec (replicate n (zero : V)) h) as (o & Eo & No & So).
  exists (<[o := box vs]> h), (Slice o 0 n).
  assert (Hvo : view 0 n vs = Some vs) by (rewrite <- Elen; apply view_all).
  assert (Ec : copy_builtin o l off n (<[o := box (replicate n (zero : V))]> h) =
                 (<[o := box vs]> h, Ok tt)).
  { unfold copy_builtin, mbind'. rewrite (load_spec _ _ _ (peek_mono _ _ _ _ Hl So)).
    rewrite (load_spec _ _ _ (peek_insert _ _ _)), (store_spec _ _ _ _ (peek_insert _ _ _)).
    by rewrite length_replicate, Nat.min_id, <- Evs, drop_ge, (right_id_L [] (++)), insert_insert_eq
      by (rewrite length_replicate; lia). }
  unfold copy_slice, mbind', addrs, shape. rewrite Eo, Ec.
  rewrite (slice_slots (H0:=plain V) _ o 0 n vs vs (peek_insert _ _ _) Hvo),
    (slice_slots (H0:=plain V) h l off n arr vs Hl Hv), !slots_plain_list.
  split_and!; [done|by apply insert_subseteq| |done|].
  - apply (slice_deno (H0:=plain V)). exists vs, vs.
    split_and!; [apply peek_insert|done|apply deno_plain_list].
  - split; [apply list.NoDup_singleton|]. intros x Hx. apply list_elem_of_singleton in Hx as ->.
    rewrite lookup_insert_eq. eauto.
Qed.

(** ** Isolation

    Memory that changes only where [s] does not reach leaves [s] as it was. *)
Definition changed_only (ls : list loc) h h' : Prop :=
  ∀ l, l ∉ ls → is_Some (h !! l) → h' !! l = h !! l.

Lemma changed_elsewhere {S A} `{HeapedLaws cell S A} ls h h' (s : S) a :
  deno h s = Some a → changed_only ls h h' → (∀ l, l ∈ ls → l ∉ addrs h s) → deno h' s = Some a.
Proof.
  intros Hd Hc Hdis. eapply deno_stable; [done|]. intros l Hl. apply Hc. set_solver.
Qed.

Lemma copy_isolated {S A} `{HeapedLaws cell S A} (copy : S → M (gmap loc cell) S) h s a :
  deep_copies copy → deno h s = Some a →
  ∃ h' s', copy s h = (h', Ok s') ∧ deno h' s = Some a ∧ deno h' s' = Some a ∧
    (∀ h2, changed_only (addrs h' s') h' h2 → deno h2 s = Some a) ∧
    (∀ h2, changed_only (addrs h s) h' h2 → deno h2 s' = Some a).
Proof.
  intros Hc Hs. destruct (Hc h s a Hs) as (h' & s' & E & Sh & D & _ & F).
  destruct (deno_mono h h' s a Hs Sh) as [D' Sl]. exists h', s'.
  assert (Hdis : ∀ l, l ∈ addrs h' s' → l ∉ addrs h s).
  { intros l Hl Hin. destruct (deno_addrs h s a l Hs Hin) as [c Hcl].
    destruct (proj2 F l Hl). congruence. }
  split_and!; [done..| |]; intros h2 H2.
  - eapply changed_elsewhere; [done|done|]. intros l Hl. unfold addrs at 1. rewrite Sl. by apply Hdis.
  - eapply changed_elsewhere; [done|done|]. intros l Hl Hin. by eapply Hdis.
Qed.

End Copies.
