(* ===== verification/DeepCopy.v ===== *)
(** * Deep copies of the API types

    src/api/v1alpha1/zz_generated.deepcopy.go over the memory of Heap.v.  A
    struct [hT] has the fields of the Go type [T], with pointers, slices and
    maps where the Go type has them; [T_DeepCopyInto] returns what [*out] holds
    at the end, whose first statement overwrites all of it with [*in].  The
    metadata types of apimachinery ([metav1.ObjectMeta], [ListMeta],
    [Condition], [Time]) and their [DeepCopyInto] are parameters; what the code
    relies on is that those are deep copies themselves. *)
From S2P Require Import Prelude Types Kube Heap HeapCopy.
From stdpp Require Import options.

(** ** Types of apimachinery *)
Class Foreign := {
  f_cell : Type;
  f_ObjectMeta : Type;
  f_ListMeta : Type;
  f_Condition : Type;
  f_Time : Type;
  f_ListValue : Type;
  zero_ObjectMeta :: Zero f_ObjectMeta;
  zero_ListMeta :: Zero f_ListMeta;
  zero_Condition :: Zero f_Condition;
  zero_Time :: Zero f_Time }.

Record TypeMeta := mkTypeMeta { tm_Kind : string; tm_APIVersion : string }.
#[export] Instance zero_TypeMeta : Zero TypeMeta := mkTypeMeta zero zero.

(** ** Structs *)
Record hAutoscalingSignalsSpec := mkhSignalsSpec {
  hsig_Source : string;
  hsig_PrometheusURL : ptr string }.

Record hAutoscalingSpec := mkhAutoscalingSpec {
  has_Enabled : ptr bool;
  has_MinReplicas : ptr Z;
  has_MaxReplicas : ptr Z;
  has_Signals : hAutoscalingSignalsSpec }.

Record hKVCacheSpec := mkhKVCacheSpec {
  hkv_Strategy : string;
  hkv_NumShards : ptr Z;
  hkv_EvictionPolicy : string;
  hkv_WarmCache : string }.

Record hModelSpec := mkhModelSpec {
  hmodel_Name : string;
  hmodel_Image : string;
  hmodel_Args : slice string;
  hmodel_Env : slice EnvVar }.

Record hRoutingSpec := mkhRoutingSpec {
  hrouting_Mode : string;
  hrouting_HashKey : ptr string;
  hrouting_RouterReplicas : ptr Z }.

Record hWorkloadRoleSpec := mkhWorkloadRoleSpec {
  hrole_Replicas : ptr Z;
  hrole_ServicePort : ptr Z;
  hrole_PodLabels : gomap }.

Record hRuntimeSpec := mkhRuntimeSpec {
  hrt_Prefill : hWorkloadRoleSpec;
  hrt_Decode : hWorkloadRoleSpec }.

Record hLLMInferenceClusterSpec := mkhSpec {
  hspec_Model : hModelSpec;
  hspec_Runtime : hRuntimeSpec;
  hspec_KVCache : hKVCacheSpec;
  hspec_Routing : hRoutingSpec;
  hspec_Autoscaling : hAutoscalingSpec }.

#[export] Instance zero_hSignalsSpec : Zero hAutoscalingSignalsSpec := mkhSignalsSpec zero zero.
#[export] Instance zero_hAutoscalingSpec : Zero hAutoscalingSpec := mkhAutoscalingSpec zero zero zero zero.
#[export] Instance zero_hKVCacheSpec : Zero hKVCacheSpec := mkhKVCacheSpec zero zero zero zero.
#[export] Instance zero_hModelSpec : Zero hModelSpec := mkhModelSpec zero zero zero zero.
#[export] Instance zero_hRoutingSpec : Zero hRoutingSpec := mkhRoutingSpec zero zero zero.
#[export] Instance zero_hRoleSpec : Zero hWorkloadRoleSpec := mkhWorkloadRoleSpec zero zero zero.
#[export] Instance zero_hRuntimeSpec : Zero hRuntimeSpec := mkhRuntimeSpec zero zero.
#[export] Instance zero_hSpec : Zero hLLMInferenceClusterSpec := mkhSpec zero zero zero zero zero.

Section Structs.
Context {F : Foreign}.

Record hShardStatus := mkhShardStatus {
  hss_ShardID : Z;
  hss_Role : string;
  hss_OwnerPod : string;
  hss_Phase : string;
  hss_LastHeartbeat : f_Time }.

Record hLLMInferenceClusterStatus := mkhStatus {
  hst_ObservedGeneration : Z;
  hst_Endpoints : ClusterEndpointsStatus;
  hst_Shards : slice hShardStatus;
  hst_Conditions : slice f_Condition }.

Record hLLMInferenceCluster := mkhCluster {
  hlic_TypeMeta : TypeMeta;
  hlic_Meta : f_ObjectMeta;
  hlic_Spec : hLLMInferenceClusterSpec;
  hlic_Status : hLLMInferenceClusterStatus }.

Record hLLMInferenceClusterList := mkhList {
  hlist_TypeMeta : TypeMeta;
  hlist_Meta : f_ListMeta;
  hlist_Items : slice hLLMInferenceCluster }.

#[export] Instance zero_hShardStatus : Zero hShardStatus := mkhShardStatus zero zero zero zero zero.
#[export] Instance zero_hStatus : Zero hLLMInferenceClusterStatus := mkhStatus zero zero zero zero.
#[export] Instance zero_hCluster : Zero hLLMInferenceCluster := mkhCluster zero zero zero zero.
#[export] Instance zero_hList : Zero hLLMInferenceClusterList := mkhList zero zero zero.

(** ** Cells

    One allocation: a variable, a struct, the backing array of a slice, a map,
    or memory of apimachinery. *)
Inductive cell :=
| CString (x : string)
| CBool (x : bool)
| CInt (x : Z)
| CStrings (x : list string)
| CEnvVars (x : list EnvVar)
| CStringMap (x : gmap string string)
| CShards (x : list hShardStatus)
| CConditions (x : list f_Condition)
| CItems (x : list hLLMInferenceCluster)
| CAutoscalingSignalsSpec (x : hAutoscalingSignalsSpec)
| CAutoscalingSpec (x : hAutoscalingSpec)
| CClusterEndpointsStatus (x : ClusterEndpointsStatus)
| CEnvVar (x : EnvVar)
| CKVCacheSpec (x : hKVCacheSpec)
| CLLMInferenceCluster (x : hLLMInferenceCluster)
| CLLMInferenceClusterList (x : hLLMInferenceClusterList)
| CLLMInferenceClusterSpec (x : hLLMInferenceClusterSpec)
| CLLMInferenceClusterStatus (x : hLLMInferenceClusterStatus)
| CModelSpec (x : hModelSpec)
| CRoutingSpec (x : hRoutingSpec)
| CRuntimeSpec (x : hRuntimeSpec)
| CShardStatus (x : hShardStatus)
| CWorkloadRoleSpec (x : hWorkloadRoleSpec)
| CForeign (x : f_cell).

#[global] Instance boxed_CString : Boxed cell string :=
  {| box := CString; unbox c := match c with CString x => Some x | _ => None end; unbox_box _ := eq_refl |}.
#[global] Instance boxed_CBool : Boxed cell bool :=
  {| box := CBool; unbox c := match c with CBool x => Some x | _ => None end; unbox_box _ := eq_refl |}.
#[global] Instance boxed_CInt : Boxed cell Z :=
  {| box := CInt; unbox c := match c with CInt x => Some x | _ => None end; unbox_box _ := eq_refl |}.
#[global] Instance boxed_CStrings : Boxed cell (list string) :=
  {| box := CStrings; unbox c := match c with CStrings x => Some x | _ => None end; unbox_box _ := eq_refl |}.
#[global] Instance boxed_CEnvVars : Boxed cell (list EnvVar) :=
  {| box := CEnvVars; unbox c := match c with CEnvVars x => Some x | _ => None end; unbox_box _ := eq_refl |}.
#[global] Instance boxed_CStringMap : Boxed cell (gmap string string) :=
  {| box := CStringMap; unbox c := match c with CStringMap x => Some x | _ => None end; unbox_box _ := eq_refl |}.
#[global] Instance boxed_CShards : Boxed cell (list hShardStatus) :=
  {| box := CShards; unbox c := match c with CShards x => Some x | _ => None end; unbox_box _ := eq_refl |}.
#[global] Instance boxed_CConditions : Boxed cell (list f_Condition) :=
  {| box := CConditions; unbox c := match c with CConditions x => Some x | _ => None end; unbox_box _ := eq_refl |}.
#[global] Instance boxed_CItems : Boxed cell (list hLLMInferenceCluster) :=
  {| box := CItems; unbox c := match c with CItems x => Some x | _ => None end; unbox_box _ := eq_refl |}.
#[global] Instance boxed_CAutoscalingSignalsSpec : Boxed cell hAutoscalingSignalsSpec :=
  {| box := CAutoscalingSignalsSpec; unbox c := match c with CAutoscalingSignalsSpec x => Some x | _ => None end; unbox_box _ := eq_refl |}.
#[global] Instance boxed_CAutoscalingSpec : Boxed cell hAutoscalingSpec :=
  {| box := CAutoscalingSpec; unbox c := match c with CAutoscalingSpec x => Some x | _ => None end; unbox_box _ := eq_refl |}.
#[global] Instance boxed_CClusterEndpointsStatus : Boxed cell ClusterEndpointsStatus :=
  {| box := CClusterEndpointsStatus; unbox c := match c with CClusterEndpointsStatus x => Some x | _ => None end; unbox_box _ := eq_refl |}.
#[global] Instance boxed_CEnvVar : Boxed cell EnvVar :=
  {| box := CEnvVar; unbox c := match c with CEnvVar x => Some x | _ => None end; unbox_box _ := eq_refl |}.
#[global] Instance boxed_CKVCacheSpec : Boxed cell hKVCacheSpec :=
  {| box := CKVCacheSpec; unbox c := match c with CKVCacheSpec x => Some x | _ => None end; unbox_box _ := eq_refl |}.
#[global] Instance boxed_CLLMInferenceCluster : Boxed cell hLLMInferenceCluster :=
  {| box := CLLMInferenceCluster; unbox c := match c with CLLMInferenceCluster x => Some x | _ => None end; unbox_box _ := eq_refl |}.
#[global] Instance boxed_CLLMInferenceClusterList : Boxed cell hLLMInferenceClusterList :=
  {| box := CLLMInferenceClusterList; unbox c := match c with CLLMInferenceClusterList x => Some x | _ => None end; unbox_box _ := eq_refl |}.
#[global] Instance boxed_CLLMInferenceClusterSpec : Boxed cell hLLMInferenceClusterSpec :=
  {| box := CLLMInferenceClusterSpec; unbox c := match c with CLLMInferenceClusterSpec x => Some x | _ => None end; unbox_box _ := eq_refl |}.
#[global] Instance boxed_CLLMInferenceClusterStatus : Boxed cell hLLMInferenceClusterStatus :=
  {| box := CLLMInferenceClusterStatus; unbox c := match c with CLLMInferenceClusterStatus x => Some x | _ => None end; unbox_box _ := eq_refl |}.
#[global] Instance boxed_CModelSpec : Boxed cell hModelSpec :=
  {| box := CModelSpec; unbox c := match c with CModelSpec x => Some x | _ => None end; unbox_box _ := eq_refl |}.
#[global] Instance boxed_CRoutingSpec : Boxed cell hRoutingSpec :=
  {| box := CRoutingSpec; unbox c := match c with CRoutingSpec x => Some x | _ => None end; unbox_box _ := eq_refl |}.
#[global] Instance boxed_CRuntimeSpec : Boxed cell hRuntimeSpec :=
  {| box := CRuntimeSpec; unbox c := match c with CRuntimeSpec x => Some x | _ => None end; unbox_box _ := eq_refl |}.
#[global] Instance boxed_CShardStatus : Boxed cell hShardStatus :=
  {| box := CShardStatus; unbox c := match c with CShardStatus x => Some x | _ => None end; unbox_box _ := eq_refl |}.
#[global] Instance boxed_CWorkloadRoleSpec : Boxed cell hWorkloadRoleSpec :=
  {| box := CWorkloadRoleSpec; unbox c := match c with CWorkloadRoleSpec x => Some x | _ => None end; unbox_box _ := eq_refl |}.
#[global] Instance boxed_CForeign : Boxed cell f_cell :=
  {| box := CForeign; unbox c := match c with CForeign x => Some x | _ => None end; unbox_box _ := eq_refl |}.

End Structs.

Abbreviation gheap := (gmap loc cell).

(** ** The code outside the repository *)
Class ForeignCopy `{F : Foreign} := {
  ObjectMeta_DeepCopyInto : f_ObjectMeta → M gheap f_ObjectMeta;
  ListMeta_DeepCopyInto : f_ListMeta → M gheap f_ListMeta;
  Condition_DeepCopyInto : f_Condition → M gheap f_Condition;
  Time_DeepCopyInto : f_Time → M gheap f_Time }.

(** ** DeepCopyInto *)
Section Functions.
Context `{FC : ForeignCopy}.

Definition AutoscalingSignalsSpec_DeepCopyInto (in_ : hAutoscalingSignalsSpec)
  : M gheap hAutoscalingSignalsSpec :=
  let! url := copy_ptr (hsig_PrometheusURL in_) in
  mret (mkhSignalsSpec (hsig_Source in_) url).

Definition AutoscalingSpec_DeepCopyInto (in_ : hAutoscalingSpec) : M gheap hAutoscalingSpec :=
  let! enabled := copy_ptr (has_Enabled in_) in
  let! min := copy_ptr (has_MinReplicas in_) in
  let! max := copy_ptr (has_MaxReplicas in_) in
  let! signals := AutoscalingSignalsSpec_DeepCopyInto (has_Signals in_) in
  mret (mkhAutoscalingSpec enabled min max signals).

Definition ClusterEndpointsStatus_DeepCopyInto (in_ : ClusterEndpointsStatus)
  : M gheap ClusterEndpointsStatus := mret in_.

Definition EnvVar_DeepCopyInto (in_ : EnvVar) : M gheap EnvVar := mret in_.

Definition KVCacheSpec_DeepCopyInto (in_ : hKVCacheSpec) : M gheap hKVCacheSpec :=
  let! shards := copy_ptr (hkv_NumShards in_) in
  mret (mkhKVCacheSpec (hkv_Strategy in_) shards (hkv_EvictionPolicy in_) (hkv_WarmCache in_)).

Definition ModelSpec_DeepCopyInto (in_ : hModelSpec) : M gheap hModelSpec :=
  let! args := copy_slice (hmodel_Args in_) in
  let! env := copy_slice (hmodel_Env in_) in
  mret (mkhModelSpec (hmodel_Name in_) (hmodel_Image in_) args env).

Definition RoutingSpec_DeepCopyInto (in_ : hRoutingSpec) : M gheap hRoutingSpec :=
  let! key := copy_ptr (hrouting_HashKey in_) in
  let! replicas := copy_ptr (hrouting_RouterReplicas in_) in
  mret (mkhRoutingSpec (hrouting_Mode in_) key replicas).

Definition WorkloadRoleSpec_DeepCopyInto (in_ : hWorkloadRoleSpec) : M gheap hWorkloadRoleSpec :=
  let! replicas := copy_ptr (hrole_Replicas in_) in
  let! port := copy_ptr (hrole_ServicePort in_) in
  let! labels := copy_map (hrole_PodLabels in_) in
  mret (mkhWorkloadRoleSpec replicas port labels).

Definition RuntimeSpec_DeepCopyInto (in_ : hRuntimeSpec) : M gheap hRuntimeSpec :=
  let! prefill := WorkloadRoleSpec_DeepCopyInto (hrt_Prefill in_) in
  let! decode := WorkloadRoleSpec_DeepCopyInto (hrt_Decode in_) in
  mret (mkhRuntimeSpec prefill decode).

Definition LLMInferenceClusterSpec_DeepCopyInto (in_ : hLLMInferenceClusterSpec)
  : M gheap hLLMInferenceClusterSpec :=
  let! model := ModelSpec_DeepCopyInto (hspec_Model in_) in
  let! runtime := RuntimeSpec_DeepCopyInto (hspec_Runtime in_) in
  let! kv := KVCacheSpec_DeepCopyInto (hspec_KVCache in_) in
  let! routing := RoutingSpec_DeepCopyInto (hspec_Routing in_) in
  let! autoscaling := AutoscalingSpec_DeepCopyInto (hspec_Autoscaling in_) in
  mret (mkhSpec model runtime kv routing autoscaling).

Definition ShardStatus_DeepCopyInto (in_ : hShardStatus) : M gheap hShardStatus :=
  let! heartbeat := Time_DeepCopyInto (hss_LastHeartbeat in_) in
  mret (mkhShardStatus (hss_ShardID in_) (hss_Role in_) (hss_OwnerPod in_) (hss_Phase in_) heartbeat).

Definition LLMInferenceClusterStatus_DeepCopyInto (in_ : hLLMInferenceClusterStatus)
  : M gheap hLLMInferenceClusterStatus :=
  let! shards := copy_slice_with ShardStatus_DeepCopyInto (hst_Shards in_) in
  let! conditions := copy_slice_with Condition_DeepCopyInto (hst_Conditions in_) in
  mret (mkhStatus (hst_ObservedGeneration in_) (hst_Endpoints in_) shards conditions).

Definition LLMInferenceCluster_DeepCopyInto (in_ : hLLMInferenceCluster)
  : M gheap hLLMInferenceCluster :=
  let! meta := ObjectMeta_DeepCopyInto (hlic_Meta in_) in
  let! spec := LLMInferenceClusterSpec_DeepCopyInto (hlic_Spec in_) in
  let! status := LLMInferenceClusterStatus_DeepCopyInto (hlic_Status in_) in
  mret (mkhCluster (hlic_TypeMeta in_) meta spec status).

Definition LLMInferenceClusterList_DeepCopyInto (in_ : hLLMInferenceClusterList)
  : M gheap hLLMInferenceClusterList :=
  let! meta := ListMeta_DeepCopyInto (hlist_Meta in_) in
  let! items := copy_slice_with LLMInferenceCluster_DeepCopyInto (hlist_Items in_) in
  mret (mkhList (hlist_TypeMeta in_) meta items).

(** ** DeepCopy *)
Definition AutoscalingSignalsSpec_DeepCopy : ptr hAutoscalingSignalsSpec → M gheap (ptr hAutoscalingSignalsSpec) :=
  DeepCopy_with AutoscalingSignalsSpec_DeepCopyInto.
Definition AutoscalingSpec_DeepCopy : ptr hAutoscalingSpec → M gheap (ptr hAutoscalingSpec) :=
  DeepCopy_with AutoscalingSpec_DeepCopyInto.
Definition ClusterEndpointsStatus_DeepCopy : ptr ClusterEndpointsStatus → M gheap (ptr ClusterEndpointsStatus) :=
  DeepCopy_with ClusterEndpointsStatus_DeepCopyInto.
Definition EnvVar_DeepCopy : ptr EnvVar → M gheap (ptr EnvVar) :=
  DeepCopy_with EnvVar_DeepCopyInto.
Definition KVCacheSpec_DeepCopy : ptr hKVCacheSpec → M gheap (ptr hKVCacheSpec) :=
  DeepCopy_with KVCacheSpec_DeepCopyInto.
Definition LLMInferenceCluster_DeepCopy : ptr hLLMInferenceCluster → M gheap (ptr hLLMInferenceCluster) :=
  DeepCopy_with LLMInferenceCluster_DeepCopyInto.
Definition LLMInferenceClusterList_DeepCopy : ptr hLLMInferenceClusterList → M gheap (ptr hLLMInferenceClusterList) :=
  DeepCopy_with LLMInferenceClusterList_DeepCopyInto.
Definition LLMInferenceClusterSpec_DeepCopy : ptr hLLMInferenceClusterSpec → M gheap (ptr hLLMInferenceClusterSpec) :=
  DeepCopy_with LLMInferenceClusterSpec_DeepCopyInto.
Definition LLMInferenceClusterStatus_DeepCopy : ptr hLLMInferenceClusterStatus → M gheap (ptr hLLMInferenceClusterStatus) :=
  DeepCopy_with LLMInferenceClusterStatus_DeepCopyInto.
Definition ModelSpec_DeepCopy : ptr hModelSpec → M gheap (ptr hModelSpec) :=
  DeepCopy_with ModelSpec_DeepCopyInto.
Definition RoutingSpec_DeepCopy : ptr hRoutingSpec → M gheap (ptr hRoutingSpec) :=
  DeepCopy_with RoutingSpec_DeepCopyInto.
Definition RuntimeSpec_DeepCopy : ptr hRuntimeSpec → M gheap (ptr hRuntimeSpec) :=
  DeepCopy_with RuntimeSpec_DeepCopyInto.
Definition ShardStatus_DeepCopy : ptr hShardStatus → M gheap (ptr hShardStatus) :=
  DeepCopy_with ShardStatus_DeepCopyInto.
Definition WorkloadRoleSpec_DeepCopy : ptr hWorkloadRoleSpec → M gheap (ptr hWorkloadRoleSpec) :=
  DeepCopy_with WorkloadRoleSpec_DeepCopyInto.

(** A [runtime.Object]: an interface value, which is nil only when it holds no
    pointer at all. *)
Inductive Object :=
| OCluster (p : ptr hLLMInferenceCluster)
| OList (p : ptr hLLMInferenceClusterList).

Definition LLMInferenceCluster_DeepCopyObject (in_ : ptr hLLMInferenceCluster)
  : M gheap (option Object) :=
  let! c := LLMInferenceCluster_DeepCopy in_ in
  match c with Nil => mret None | At _ => mret (Some (OCluster c)) end.

Definition LLMInferenceClusterList_DeepCopyObject (in_ : ptr hLLMInferenceClusterList)
  : M gheap (option Object) :=
  let! c := LLMInferenceClusterList_DeepCopy in_ in
  match c with Nil => mret None | At _ => mret (Some (OList c)) end.

End Functions.

(** ** What the structs denote *)
#[export] Instance heaped_TypeMeta {F : Foreign} : Heaped cell TypeMeta TypeMeta := plain TypeMeta.

Section Values.
Context {F : Foreign}.

#[global] Instance heaped_Signals : Heaped cell hAutoscalingSignalsSpec AutoscalingSignalsSpec :=
  heaped_via (λ s, (hsig_Source s, hsig_PrometheusURL s)) (λ '(a, b), mkSignalsSpec a b).
#[global] Instance heaped_Autoscaling : Heaped cell hAutoscalingSpec AutoscalingSpec :=
  heaped_via (λ s, (has_Enabled s, (has_MinReplicas s, (has_MaxReplicas s, has_Signals s))))
    (λ '(a, (b, (c, d))), mkAutoscalingSpec a b c d).
#[global] Instance heaped_KVCache : Heaped cell hKVCacheSpec KVCacheSpec :=
  heaped_via (λ s, (hkv_Strategy s, (hkv_NumShards s, (hkv_EvictionPolicy s, hkv_WarmCache s))))
    (λ '(a, (b, (c, d))), mkKVCacheSpec a b c d).
#[global] Instance heaped_Model : Heaped cell hModelSpec ModelSpec :=
  heaped_via (λ s, (hmodel_Name s, (hmodel_Image s, (hmodel_Args s, hmodel_Env s))))
    (λ '(a, (b, (c, d))), mkModelSpec a b c d).
#[global] Instance heaped_Routing : Heaped cell hRoutingSpec RoutingSpec :=
  heaped_via (λ s, (hrouting_Mode s, (hrouting_HashKey s, hrouting_RouterReplicas s)))
    (λ '(a, (b, c)), mkRoutingSpec a b c).
#[global] Instance heaped_Role : Heaped cell hWorkloadRoleSpec WorkloadRoleSpec :=
  heaped_via (λ s, (hrole_Replicas s, (hrole_ServicePort s, hrole_PodLabels s)))
    (λ '(a, (b, c)), mkWorkloadRoleSpec a b c).
#[global] Instance heaped_Runtime : Heaped cell hRuntimeSpec RuntimeSpec :=
  heaped_via (λ s, (hrt_Prefill s, hrt_Decode s)) (λ '(a, b), mkRuntimeSpec a b).
#[global] Instance heaped_Spec : Heaped cell hLLMInferenceClusterSpec LLMInferenceClusterSpec :=
  heaped_via
    (λ s, (hspec_Model s, (hspec_Runtime s, (hspec_KVCache s, (hspec_Routing s, hspec_Autoscaling s)))))
    (λ '(a, (b, (c, (d, e)))), mkSpec a b c d e).
End Values.

(** The documented behaviour of apimachinery: its structs denote values, and
    its [DeepCopyInto] functions are deep copies. *)
Class ForeignLaws `{FC : ForeignCopy} := {
  heaped_Meta :: Heaped cell f_ObjectMeta ObjectMeta;
  heaped_ListMeta :: Heaped cell f_ListMeta f_ListValue;
  heaped_Condition :: Heaped cell f_Condition Condition;
  heaped_Time :: Heaped cell f_Time Z;
  laws_Meta :: HeapedLaws cell f_ObjectMeta ObjectMeta;
  laws_ListMeta :: HeapedLaws cell f_ListMeta f_ListValue;
  laws_Condition :: HeapedLaws cell f_Condition Condition;
  laws_Time :: HeapedLaws cell f_Time Z;
  copies_Meta : deep_copies ObjectMeta_DeepCopyInto;
  copies_ListMeta : deep_copies ListMeta_DeepCopyInto;
  copies_Condition : deep_copies Condition_DeepCopyInto;
  copies_Time : deep_copies Time_DeepCopyInto }.

(** A list as the client returns it. *)
Record ListValue `{Foreign} := mkListValue {
  lv_TypeMeta : TypeMeta;
  lv_Meta : f_ListValue;
  lv_Items : list (TypeMeta * LLMInferenceCluster) }.

Section Documents.
Context `{FL : ForeignLaws}.

#[global] Instance heaped_Shard : Heaped cell hShardStatus ShardStatus :=
  heaped_via (λ s, (hss_ShardID s, (hss_Role s, (hss_OwnerPod s, (hss_Phase s, hss_LastHeartbeat s)))))
    (λ '(a, (b, (c, (d, e)))), mkShardStatus a b c d e).
#[global] Instance heaped_Status : Heaped cell hLLMInferenceClusterStatus LLMInferenceClusterStatus :=
  heaped_via (λ s, (hst_ObservedGeneration s, (hst_Endpoints s, (hst_Shards s, hst_Conditions s))))
    (λ '(a, (b, (c, d))), mkStatus a b c d).
#[global] Instance heaped_Cluster : Heaped cell hLLMInferenceCluster (TypeMeta * LLMInferenceCluster) :=
  heaped_via (λ s, (hlic_TypeMeta s, (hlic_Meta s, (hlic_Spec s, hlic_Status s))))
    (λ '(t, (a, (b, c))), (t, mkCluster a b c)).
#[global] Instance heaped_List : Heaped cell hLLMInferenceClusterList ListValue :=
  heaped_via (λ s, (hlist_TypeMeta s, (hlist_Meta s, hlist_Items s)))
    (λ '(a, (b, c)), mkListValue _ a b c).
End Documents.

(** ** The generated functions are deep copies *)
Create HintDb copies.
#[export] Hint Resolve copies_plain copies_ptr copies_slice copies_map
  copies_Meta copies_ListMeta copies_Condition copies_Time : copies.
#[export] Hint Extern 1 (deep_copies (copy_slice_with _)) => apply copies_slice_with : copies.

(** A struct copied field by field: [make] builds it from its fields and [f]
    copies the tuple of them. *)
Tactic Notation "struct_copy" uconstr(make) uconstr(f) :=
  refine (copies_via _ make _ f _ _ _ _);
  [intros; repeat match goal with t : _ * _ |- _ => destruct t end; reflexivity
  |repeat apply copies_pair; eauto with copies
  |intros s h; match goal with |- ?l = _ => let g := get_head l in unfold g end; unfold copy_pair, mbind', mret; simpl; repeat (case_match; simplify_eq/=; try done)].

Section Proofs.
Context `{FL : ForeignLaws}.
#[global] Instance laws_Signals : HeapedLaws cell hAutoscalingSignalsSpec AutoscalingSignalsSpec := via_laws _ _.
#[global] Instance laws_Autoscaling : HeapedLaws cell hAutoscalingSpec AutoscalingSpec := via_laws _ _.
#[global] Instance laws_KVCache : HeapedLaws cell hKVCacheSpec KVCacheSpec := via_laws _ _.
#[global] Instance laws_Model : HeapedLaws cell hModelSpec ModelSpec := via_laws _ _.
#[global] Instance laws_Routing : HeapedLaws cell hRoutingSpec RoutingSpec := via_laws _ _.
#[global] Instance laws_Role : HeapedLaws cell hWorkloadRoleSpec WorkloadRoleSpec := via_laws _ _.
#[global] Instance laws_Runtime : HeapedLaws cell hRuntimeSpec RuntimeSpec := via_laws _ _.
#[global] Instance laws_Spec : HeapedLaws cell hLLMInferenceClusterSpec LLMInferenceClusterSpec := via_laws _ _.
#[global] Instance laws_Shard : HeapedLaws cell hShardStatus ShardStatus := via_laws _ _.
#[global] Instance laws_Status : HeapedLaws cell hLLMInferenceClusterStatus LLMInferenceClusterStatus := via_laws _ _.
#[global] Instance laws_Cluster : HeapedLaws cell hLLMInferenceCluster (TypeMeta * LLMInferenceCluster) := via_laws _ _.
#[global] Instance laws_List : HeapedLaws cell hLLMInferenceClusterList ListValue := via_laws _ _.

Lemma copies_Signals : deep_copies AutoscalingSignalsSpec_DeepCopyInto.
Proof.
  struct_copy (λ '(a, b), mkhSignalsSpec a b)
    (copy_pair mret copy_ptr).
Qed.
#[local] Hint Resolve copies_Signals : copies.

Lemma copies_Autoscaling : deep_copies AutoscalingSpec_DeepCopyInto.
Proof.
  struct_copy (λ '(a, (b, (c, d))), mkhAutoscalingSpec a b c d)
    (copy_pair copy_ptr (copy_pair copy_ptr (copy_pair copy_ptr AutoscalingSignalsSpec_DeepCopyInto))).
Qed.
#[local] Hint Resolve copies_Autoscaling : copies.

Lemma copies_KVCache : deep_copies KVCacheSpec_DeepCopyInto.
Proof.
  struct_copy (λ '(a, (b, (c, d))), mkhKVCacheSpec a b c d)
    (copy_pair mret (copy_pair copy_ptr (copy_pair mret mret))).
Qed.
#[local] Hint Resolve copies_KVCache : copies.

Lemma copies_Model : deep_copies ModelSpec_DeepCopyInto.
Proof.
  struct_copy (λ '(a, (b, (c, d))), mkhModelSpec a b c d)
    (copy_pair mret (copy_pair mret (copy_pair copy_slice copy_slice))).
Qed.
#[local] Hint Resolve copies_Model : copies.

Lemma copies_Routing : deep_copies RoutingSpec_DeepCopyInto.
Proof.
  struct_copy (λ '(a, (b, c)), mkhRoutingSpec a b c)
    (copy_pair mret (copy_pair copy_ptr copy_ptr)).
Qed.
#[local] Hint Resolve copies_Routing : copies.

Lemma copies_Role : deep_copies WorkloadRoleSpec_DeepCopyInto.
Proof.
  struct_copy (λ '(a, (b, c)), mkhWorkloadRoleSpec a b c)
    (copy_pair copy_ptr (copy_pair copy_ptr copy_map)).
Qed.
#[local] Hint Resolve copies_Role : copies.

Lemma copies_Runtime : deep_copies RuntimeSpec_DeepCopyInto.
Proof.
  struct_copy (λ '(a, b), mkhRuntimeSpec a b)
    (copy_pair WorkloadRoleSpec_DeepCopyInto WorkloadRoleSpec_DeepCopyInto).
Qed.
#[local] Hint Resolve copies_Runtime : copies.

Lemma copies_Spec : deep_copies LLMInferenceClusterSpec_DeepCopyInto.
Proof.
  struct_copy (λ '(a, (b, (c, (d, e)))), mkhSpec a b c d e)
    (copy_pair ModelSpec_DeepCopyInto (copy_pair RuntimeSpec_DeepCopyInto
      (copy_pair KVCacheSpec_DeepCopyInto (copy_pair RoutingSpec_DeepCopyInto AutoscalingSpec_DeepCopyInto)))).
Qed.
#[local] Hint Resolve copies_Spec : copies.

Lemma copies_Shard : deep_copies ShardStatus_DeepCopyInto.
Proof.
  struct_copy (λ '(a, (b, (c, (d, e)))), mkhShardStatus a b c d e)
    (copy_pair mret (copy_pair mret (copy_pair mret (copy_pair mret Time_DeepCopyInto)))).
Qed.
#[local] Hint Resolve copies_Shard : copies.

Lemma copies_Status : deep_copies LLMInferenceClusterStatus_DeepCopyInto.
Proof.
  struct_copy (λ '(a, (b, (c, d))), mkhStatus a b c d)
    (copy_pair mret (copy_pair mret (copy_pair (copy_slice_with ShardStatus_DeepCopyInto)
      (copy_slice_with Condition_DeepCopyInto)))).
Qed.
#[local] Hint Resolve copies_Status : copies.

Lemma copies_Cluster : deep_copies LLMInferenceCluster_DeepCopyInto.
Proof.
  struct_copy (λ '(t, (a, (b, c))), mkhCluster t a b c)
    (copy_pair mret (copy_pair ObjectMeta_DeepCopyInto (copy_pair LLMInferenceClusterSpec_DeepCopyInto
      LLMInferenceClusterStatus_DeepCopyInto))).
Qed.
#[local] Hint Resolve copies_Cluster : copies.

Lemma copies_List : deep_copies LLMInferenceClusterList_DeepCopyInto.
Proof.
  struct_copy (λ '(a, (b, c)), mkhList a b c)
    (copy_pair mret (copy_pair ListMeta_DeepCopyInto (copy_slice_with LLMInferenceCluster_DeepCopyInto))).
Qed.
#[local] Hint Resolve copies_List : copies.

(** What a [DeepCopyObject] promises: the nil interface for a nil receiver,
    not an interface that holds a nil pointer, and otherwise an interface that
    holds a deep copy of what the receiver points to. *)
Definition copies_object {T A : Type} `{Boxed cell T} `{!Heaped cell T A} (wrap : ptr T → Object)
    (copy : ptr T → M gheap (option Object)) : Prop :=
  (∀ h, copy Nil h = (h, Ok None)) ∧
  ∀ h l a, deno h (At (T:=T) l) = Some (Some a) →
    ∃ h' o, copy (At l) h = (h', Ok (Some (wrap (At o)))) ∧ h ⊆ h' ∧
      deno h' (At (T:=T) o) = Some (Some a) ∧ shape h' (At (T:=T) o) = shape h (At (T:=T) l) ∧
      fresh_in h h' (addrs h' (At (T:=T) o)).

Lemma object_copies {T A : Type} `{Boxed cell T} `{!Heaped cell T A} (wrap : ptr T → Object) f :
  (∀ h, f Nil h = (h, Ok Nil)) → deep_copies (S:=ptr T) f →
  copies_object wrap (λ p, let! c := f p in
                           match c with Nil => mret None | At _ => mret (Some (wrap c)) end).
Proof.
  intros Hnil Hf. split; [intros h; unfold mbind'; by rewrite Hnil|].
  intros h l a Hl. destruct (Hf h (At l) _ Hl) as (h' & [|o] & E & S & D & Sh & Fr); [done|].
  exists h', o. split_and!; try done. unfold mbind'. by rewrite E.
Qed.

(** C12: every generated [DeepCopy] is a deep copy: for a pointer to memory
    without dangling pointers it returns, leaves every existing cell as it
    was, and the result denotes the same value, is nil exactly where the
    original is nil, and reaches only new memory, each address once.  Both
    [DeepCopyObject] return an interface that holds such a copy, and for a nil
    receiver the nil interface, not an interface that holds a nil pointer. *)
Theorem generated_deep_copies :
  deep_copies AutoscalingSignalsSpec_DeepCopy ∧
  deep_copies AutoscalingSpec_DeepCopy ∧
  deep_copies ClusterEndpointsStatus_DeepCopy ∧
  deep_copies EnvVar_DeepCopy ∧
  deep_copies KVCacheSpec_DeepCopy ∧
  deep_copies LLMInferenceCluster_DeepCopy ∧
  deep_copies LLMInferenceClusterList_DeepCopy ∧
  deep_copies LLMInferenceClusterSpec_DeepCopy ∧
  deep_copies LLMInferenceClusterStatus_DeepCopy ∧
  deep_copies ModelSpec_DeepCopy ∧
  deep_copies RoutingSpec_DeepCopy ∧
  deep_copies RuntimeSpec_DeepCopy ∧
  deep_copies ShardStatus_DeepCopy ∧
  deep_copies WorkloadRoleSpec_DeepCopy ∧
  copies_object OCluster LLMInferenceCluster_DeepCopyObject ∧
  copies_object OList LLMInferenceClusterList_DeepCopyObject.
Proof.
  split_and!;
    try (match goal with |- deep_copies ?f => let g := get_head f in unfold g end;
         apply copies_DeepCopy; eauto with copies; apply copies_plain).
  - apply (object_copies OCluster LLMInferenceCluster_DeepCopy); [done|].
    by apply copies_DeepCopy, copies_Cluster.
  - apply (object_copies OList LLMInferenceClusterList_DeepCopy); [done|].
    by apply copies_DeepCopy, copies_List.
Qed.

End Proofs.

(** ** A layout of the metadata types

    Concrete metadata with the pointers that [metav1.ObjectMeta] has, copied
    the way its own deep copy does: the laws can hold. *)
Record mObjectMeta := mkmMeta {
  mm_Name : string; mm_Namespace : string; mm_UID : string;
  mm_Labels : gomap;
  mm_Generation : Z;
  mm_DeletionTimestamp : ptr Z;
  mm_Finalizers : slice string;
  mm_OwnerReferences : slice OwnerReference;
  mm_other : list (string * string) }.

#[export] Instance zero_owner : Zero OwnerReference := mkOwnerRef zero zero zero zero zero.
Definition zero_mMeta : Zero mObjectMeta := mkmMeta zero zero zero zero zero zero zero zero [].

Definition layout : Foreign := {|
  f_cell := list OwnerReference; f_ObjectMeta := mObjectMeta; f_ListMeta := string;
  f_Condition := Condition; f_Time := Z; f_ListValue := string;
  zero_ObjectMeta := zero_mMeta; zero_ListMeta := zero_string;
  zero_Condition := mkCondition zero ConditionUnknown zero zero zero zero; zero_Time := zero_int |}.
#[local] Existing Instance layout.

#[local] Instance boxed_owners : Boxed cell (list OwnerReference) := boxed_CForeign.
#[local] Instance heaped_owner : Heaped cell OwnerReference OwnerReference := plain OwnerReference.

Definition mObjectMeta_DeepCopyInto (m : mObjectMeta) : M gheap mObjectMeta :=
  let! labels := copy_map (mm_Labels m) in
  let! deleted := copy_ptr (mm_DeletionTimestamp m) in
  let! finalizers := copy_slice (mm_Finalizers m) in
  let! owners := copy_slice (mm_OwnerReferences m) in
  mret (mkmMeta (mm_Name m) (mm_Namespace m) (mm_UID m) labels (mm_Generation m) deleted
          finalizers owners (mm_other m)).

Definition layout_copy : ForeignCopy (F:=layout) := {|
  ObjectMeta_DeepCopyInto := mObjectMeta_DeepCopyInto;
  ListMeta_DeepCopyInto := mret;
  Condition_DeepCopyInto := mret;
  Time_DeepCopyInto := mret |}.
#[local] Existing Instance layout_copy.

#[local] Instance heaped_other : Heaped cell (list (string * string)) (list (string * string)) :=
  plain (list (string * string)).

Definition heaped_mMeta : Heaped cell mObjectMeta ObjectMeta :=
  heaped_via (λ m, (mm_Name m, (mm_Namespace m, (mm_UID m, (mm_Labels m, (mm_Generation m,
                     (mm_DeletionTimestamp m, (mm_Finalizers m, (mm_OwnerReferences m, mm_other m)))))))))
    (λ '(a, (b, (c, (d, (e, (f, (g, (h, i)))))))), mkMeta a b c d e f g h i).

Lemma copies_mMeta : deep_copies (H:=heaped_mMeta) mObjectMeta_DeepCopyInto.
Proof.
  struct_copy (λ '(a, (b, (c, (d, (e, (f, (g, (h, i)))))))), mkmMeta a b c d e f g h i)
    (copy_pair mret (copy_pair mret (copy_pair mret (copy_pair copy_map (copy_pair mret
      (copy_pair copy_ptr (copy_pair copy_slice (copy_pair copy_slice mret)))))))).
Qed.

Definition layout_laws : ForeignLaws (FC:=layout_copy) := {|
  heaped_Meta := heaped_mMeta; heaped_ListMeta := plain string; heaped_Condition := plain Condition;
  heaped_Time := plain Z;
  laws_Meta := via_laws _ _; laws_ListMeta := plain_laws _; laws_Condition := plain_laws _;
  laws_Time := plain_laws _;
  copies_Meta := copies_mMeta; copies_ListMeta := copies_plain _; copies_Condition := copies_plain _;
  copies_Time := copies_plain _ |}.

(** A cluster whose two roles share one label map and one replica count, held
    by two variables (4 and 6). *)
Definition shared_role : hWorkloadRoleSpec := mkhWorkloadRoleSpec (At 2%positive) Nil (MapAt 1%positive).
Definition shared_cluster : hLLMInferenceCluster :=
  mkhCluster (mkTypeMeta "LLMInferenceCluster" "inference.llm.io/v1alpha1")
    (mkmMeta "c" "default" "u" MNil 1 Nil (Slice 3%positive 1 1) SNil [] : f_ObjectMeta)
    (mkhSpec (mkhModelSpec "m" "img" (Slice 3%positive 0 3) SNil)
       (mkhRuntimeSpec shared_role shared_role)
       (mkhKVCacheSpec emp Nil emp emp) (mkhRoutingSpec emp Nil Nil)
       (mkhAutoscalingSpec Nil Nil Nil (mkhSignalsSpec "fake" Nil)))
    (mkhStatus 0 zero SNil (Slice 5%positive 0 1)).

Definition shared_heap : gheap :=
  list_to_map [(1%positive, CStringMap {[ "tier" := "gpu" ]}); (2%positive, CInt 3);
    (3%positive, CStrings ["a"; "b"; "c"]); (4%positive, CLLMInferenceCluster shared_cluster);
    (6%positive, CLLMInferenceCluster shared_cluster);
    (5%positive, CConditions [mkCondition "Ready" ConditionTrue 1 7 "Reconciled" "ok" : f_Condition])].

#[local] Existing Instance layout_laws.

Lemma generated_deep_copies_witness :
  ∃ a h' q, deno shared_heap (At (T:=hLLMInferenceCluster) 4%positive) = Some (Some a) ∧
    LLMInferenceCluster_DeepCopy (At 4%positive) shared_heap = (h', Ok q) ∧
    deno h' q = Some (Some a) ∧ NoDup (addrs h' q).
Proof.
  destruct (deno shared_heap (At (T:=hLLMInferenceCluster) 4%positive)) as [[a|]|] eqn:E;
    [|vm_compute in E; discriminate E..].
  destruct generated_deep_copies as (_ & _ & _ & _ & _ & Hc & _).
  destruct (Hc _ _ _ E) as (h' & q & Eq & _ & D & _ & F).
  exists a, h', q. split_and!; [done|done|done|apply F].
Defined.
