(* ===== verification/Aliasing.v ===== *)
(** * Why the reconciler works on a deep copy

    The first statements of [Reconcile] in
    src/internal/controller/llminferencecluster_controller.go over the memory
    of Heap.v: the fetched resource is replaced by a deep copy of itself, a
    second deep copy is kept as the base of the patch, and the defaults are
    written into the first.  They do what the value-level model (Defaults.v)
    says, and nothing written through the working copy later, such as the
    conditions that are updated in place, reaches the base of the patch or
    the cache. *)
From S2P Require Import Prelude Types Defaults Kube Heap HeapCopy DeepCopy.
From stdpp Require Import options.

Section Prologue.
Context `{FC : ForeignCopy}.

(** [if x == nil { var v T = d; x = &v }]. *)
Definition default_field {T : Type} `{Boxed cell T} (d : T) (p : ptr T) : M gheap (ptr T) :=
  match p with
  | Nil => let! l := alloc d in mret (At l)
  | At l => mret (At l)
  end.

Definition set_port (p : ptr Z) (r : hWorkloadRoleSpec) : hWorkloadRoleSpec :=
  mkhWorkloadRoleSpec (hrole_Replicas r) p (hrole_PodLabels r).

Definition heap_defaults (c : hLLMInferenceCluster) : M gheap hLLMInferenceCluster :=
  let s := hlic_Spec c in
  let r := hspec_Routing s in
  let k := hspec_KVCache s in
  let decode := hrt_Decode (hspec_Runtime s) in
  let prefill := hrt_Prefill (hspec_Runtime s) in
  let mode := default_str RoutingModeSessionAffinity (hrouting_Mode r) in
  let! key := default_field "conversationId" (hrouting_HashKey r) in
  let! replicas := default_field 1 (hrouting_RouterReplicas r) in
  let! dport := default_field 8000 (hrole_ServicePort decode) in
  let! pport := default_field 8001 (hrole_ServicePort prefill) in
  let strategy := default_str KVCacheStrategySharded (hkv_Strategy k) in
  let! shards := default_field 8 (hkv_NumShards k) in
  let eviction := default_str EvictionPolicyLRU (hkv_EvictionPolicy k) in
  let warm := default_str WarmCacheNone (hkv_WarmCache k) in
  mret (mkhCluster (hlic_TypeMeta c) (hlic_Meta c)
          (mkhSpec (hspec_Model s) (mkhRuntimeSpec (set_port pport prefill) (set_port dport decode))
             (mkhKVCacheSpec strategy shards eviction warm) (mkhRoutingSpec mode key replicas)
             (hspec_Autoscaling s))
          (hlic_Status c)).

(** [*p] for a pointer that a deep copy returned. *)
Definition deref_cluster (p : ptr hLLMInferenceCluster) : M gheap hLLMInferenceCluster :=
  match p with
  | Nil => mlift (Panic "invalid memory address or nil pointer dereference")
  | At l => load l
  end.

(** [cl] is the variable [cluster]; the result is [original]. *)
Definition prologue (cl : loc) : M gheap (ptr hLLMInferenceCluster) :=
  let! p := LLMInferenceCluster_DeepCopy (At cl) in
  let! v := deref_cluster p in
  let! _ := store cl v in
  let! original := LLMInferenceCluster_DeepCopy (At cl) in
  let! c := load (T:=hLLMInferenceCluster) cl in
  let! c' := heap_defaults c in
  let! _ := store cl c' in
  mret original.

End Prologue.

(** ** The defaults *)
Section Refines.
Context `{FL : ForeignLaws}.
Implicit Types h : gheap.

Lemma default_field_spec {T} `{Boxed cell T} (d : T) (p : ptr T) h v :
  deno (Heaped:=heaped_ptr (H0:=plain T)) h p = Some v →
  ∃ h' p', default_field d p h = (h', Ok p') ∧ h ⊆ h' ∧
    deno (Heaped:=heaped_ptr (H0:=plain T)) h' p' = Some (default_ptr d v) ∧
    ∀ l, Some l ∈ slots (Heaped:=heaped_ptr (H0:=plain T)) h' p' →
         Some l ∈ slots (Heaped:=heaped_ptr (H0:=plain T)) h p ∨ h !! l = None.
Proof.
  destruct p as [|l].
  - intros [= <-]. destruct (alloc_spec d h) as (o & Eo & No & So).
    exists (<[o := box d]> h), (At o). unfold default_field, mbind'. rewrite Eo.
    split_and!; [done|done|by cbn; rewrite peek_insert|].
    intros l. rewrite (ptr_slots (H0:=plain T) _ _ _ (peek_insert h o d)). cbn.
    intros Hl. right. by apply list_elem_of_singleton in Hl as [= ->].
  - intros Hv. exists h, (At l). split_and!; [done|done| |by left].
    apply (ptr_deno (H0:=plain T)) in Hv as (x & a & -> & Hx & Ha). cbn. rewrite Hx. cbn.
    by injection Ha as ->.
Qed.

(** The same in a later heap. *)
Lemma default_field_later {T} `{Boxed cell T} (d : T) (p : ptr T) h0 h v :
  let _ : Heaped cell T T := plain T in
  deno h0 p = Some v → h0 ⊆ h →
  ∃ h' p', default_field d p h = (h', Ok p') ∧ h ⊆ h' ∧ deno h' p' = Some (default_ptr d v) ∧
    ∀ h'' l, h' ⊆ h'' → Some l ∈ slots h'' p' → Some l ∈ slots h0 p ∨ h0 !! l = None.
Proof.
  intros HT Hv S0.
  destruct (deno_mono (H0:=ptr_laws (H1:=plain_laws T)) h0 h p v Hv S0) as [Hv' Sl].
  destruct (default_field_spec d p h v Hv') as (h' & p' & E & S1 & D & Hl).
  exists h', p'. split_and!; [done..|]. intros h'' l S2 Hin.
  destruct (deno_mono (H0:=ptr_laws (H1:=plain_laws T)) h' h'' p' _ D S2) as [_ Sl'].
  unfold HT in *. rewrite Sl' in Hin. destruct (Hl l Hin) as [Ho|Hn]; [left|right].
  - by rewrite Sl in Ho.
  - by eapply lookup_weaken_None.
Qed.

(** Field by field. *)
Tactic Notation "struct_deno" reference(inst) :=
  match goal with |- deno _ _ = Some ?a ↔ _ => first [is_var a; destruct a|idtac] end;
  cbn [deno inst heaped_via heaped_pair heaped_string heaped_TypeMeta plain fst snd];
  repeat match goal with
         | |- context [@deno ?c ?S ?A ?H ?h ?x] => generalize (@deno c S A H h x); intros ?o
         end;
  repeat match goal with o : option _ |- _ => destruct o; simpl end; naive_solver.

Lemma role_deno h s a :
  deno h s = Some a ↔ deno h (hrole_Replicas s) = Some (role_Replicas a) ∧
    deno h (hrole_ServicePort s) = Some (role_ServicePort a) ∧
    deno h (hrole_PodLabels s) = Some (role_PodLabels a).
Proof. struct_deno heaped_Role. Qed.

Lemma runtime_deno h s a :
  deno h s = Some a ↔ deno h (hrt_Prefill s) = Some (rt_Prefill a) ∧
    deno h (hrt_Decode s) = Some (rt_Decode a).
Proof. struct_deno heaped_Runtime. Qed.

Lemma kvcache_deno h s a :
  deno h s = Some a ↔ hkv_Strategy s = kv_Strategy a ∧
    deno h (hkv_NumShards s) = Some (kv_NumShards a) ∧
    hkv_EvictionPolicy s = kv_EvictionPolicy a ∧ hkv_WarmCache s = kv_WarmCache a.
Proof. struct_deno heaped_KVCache. Qed.

Lemma routing_deno h s a :
  deno h s = Some a ↔ hrouting_Mode s = routing_Mode a ∧
    deno h (hrouting_HashKey s) = Some (routing_HashKey a) ∧
    deno h (hrouting_RouterReplicas s) = Some (routing_RouterReplicas a).
Proof. struct_deno heaped_Routing. Qed.

Lemma spec_deno h s a :
  deno h s = Some a ↔ deno h (hspec_Model s) = Some (spec_Model a) ∧
    deno h (hspec_Runtime s) = Some (spec_Runtime a) ∧
    deno h (hspec_KVCache s) = Some (spec_KVCache a) ∧
    deno h (hspec_Routing s) = Some (spec_Routing a) ∧
    deno h (hspec_Autoscaling s) = Some (spec_Autoscaling a).
Proof. struct_deno heaped_Spec. Qed.

Lemma cluster_deno h s t a :
  deno h s = Some (t, a) ↔ hlic_TypeMeta s = t ∧ deno h (hlic_Meta s) = Some (lic_Meta a) ∧
    deno h (hlic_Spec s) = Some (lic_Spec a) ∧ deno h (hlic_Status s) = Some (lic_Status a).
Proof. destruct a. struct_deno heaped_Cluster. Qed.

(** The pointers of a cluster, with those that the defaults may set apart. *)
Definition other_slots h (c : hLLMInferenceCluster) : list (option loc) :=
  slots h (hlic_Meta c) ++ slots h (hspec_Model (hlic_Spec c)) ++
  slots h (hrole_Replicas (hrt_Prefill (hspec_Runtime (hlic_Spec c)))) ++
  slots h (hrole_PodLabels (hrt_Prefill (hspec_Runtime (hlic_Spec c)))) ++
  slots h (hrole_Replicas (hrt_Decode (hspec_Runtime (hlic_Spec c)))) ++
  slots h (hrole_PodLabels (hrt_Decode (hspec_Runtime (hlic_Spec c)))) ++
  slots h (hspec_Autoscaling (hlic_Spec c)) ++ slots h (hlic_Status c).

Lemma cluster_slots h c o :
  o ∈ slots h c ↔ o ∈ other_slots h c ∨
    o ∈ slots h (hrouting_HashKey (hspec_Routing (hlic_Spec c))) ∨
    o ∈ slots h (hrouting_RouterReplicas (hspec_Routing (hlic_Spec c))) ∨
    o ∈ slots h (hrole_ServicePort (hrt_Decode (hspec_Runtime (hlic_Spec c)))) ∨
    o ∈ slots h (hrole_ServicePort (hrt_Prefill (hspec_Runtime (hlic_Spec c)))) ∨
    o ∈ slots h (hkv_NumShards (hspec_KVCache (hlic_Spec c))).
Proof.
  unfold other_slots.
  cbn [slots heaped_Cluster heaped_Spec heaped_Runtime heaped_Role heaped_KVCache heaped_Routing
       heaped_via heaped_pair heaped_string heaped_TypeMeta plain fst snd].
  rewrite !elem_of_app. set_solver.
Qed.

Lemma other_slots_later h h' c t a :
  deno h c = Some (t, a) → h ⊆ h' → other_slots h' c = other_slots h c.
Proof.
  intros (_ & Hm & (Hmo & (Hp & Hd)%runtime_deno & _ & _ & Ha)%spec_deno & Hs)%cluster_deno S1.
  apply role_deno in Hp as (Hpr & _ & Hpl), Hd as (Hdr & _ & Hdl).
  unfold other_slots. do 7 (apply (f_equal2 app); [by eapply deno_mono|]).
  by eapply deno_mono.
Qed.

Lemma heap_defaults_spec h c t a :
  deno h c = Some (t, a) →
  ∃ h' c', heap_defaults c h = (h', Ok c') ∧ h ⊆ h' ∧ deno h' c' = Some (t, apply_defaults a) ∧
    ∀ l, l ∈ addrs h' c' → l ∈ addrs h c ∨ h !! l = None.
Proof.
  intros Hc. pose proof Hc as (Ht & Hm & (Hmo & (Hp & Hd)%runtime_deno & Hk & Hr & Ha)%spec_deno & Hs)%cluster_deno.
  apply role_deno in Hp as (Hpr & Hpp & Hpl), Hd as (Hdr & Hdp & Hdl).
  apply kvcache_deno in Hk as (Hk1 & Hk2 & Hk3 & Hk4).
  apply routing_deno in Hr as (Hr1 & Hr2 & Hr3).
  destruct (default_field_later "conversationId"%string _ h h _ Hr2) as (h1 & p1 & E1 & S1 & D1 & L1); [done|].
  destruct (default_field_later 1 _ h h1 _ Hr3) as (h2 & p2 & E2 & S2 & D2 & L2); [done|].
  assert (S02 : h ⊆ h2) by by etrans.
  destruct (default_field_later 8000 _ h h2 _ Hdp) as (h3 & p3 & E3 & S3 & D3 & L3); [done|].
  assert (S03 : h ⊆ h3) by by etrans.
  destruct (default_field_later 8001 _ h h3 _ Hpp) as (h4 & p4 & E4 & S4 & D4 & L4); [done|].
  assert (S04 : h ⊆ h4) by by etrans.
  destruct (default_field_later 8 _ h h4 _ Hk2) as (h5 & p5 & E5 & S5 & D5 & L5); [done|].
  assert (S05 : h ⊆ h5) by by etrans.
  assert (S35 : h3 ⊆ h5) by by etrans.
  assert (S25 : h2 ⊆ h5) by by etrans.
  assert (S15 : h1 ⊆ h5) by by etrans.
  eexists h5, _. split_and!; [|done| |].
  { unfold heap_defaults, mbind'. rewrite E1, E2, E3, E4, E5. reflexivity. }
  - rewrite cluster_deno, spec_deno, runtime_deno, !role_deno, kvcache_deno, routing_deno. cbn -[deno].
    split_and!; try done; first [by eapply deno_mono|by f_equal].
  - intros l. rewrite !elem_of_addrs, !cluster_slots. cbn -[slots other_slots].
    intros [Ho|Hds]; [left; left; rewrite <- (other_slots_later h h5 c t a Hc S05); exact Ho|].
    destruct Hds as [Hl|[Hl|[Hl|[Hl|Hl]]]];
      first [apply L1 in Hl|apply L2 in Hl|apply L3 in Hl|apply L4 in Hl|apply L5 in Hl]; try done; tauto.
Qed.

(** ** The two copies *)

(** [cluster = *cluster.DeepCopy()]: the variable holds the same value, and
    apart from the variable itself only new memory. *)
Lemma replace_by_copy h cl x :
  deno h (At (T:=hLLMInferenceCluster) cl) = Some (Some x) →
  ∃ h1 l (v : hLLMInferenceCluster), LLMInferenceCluster_DeepCopy (At cl) h = (h1, Ok (At l)) ∧ h ⊆ h1 ∧
    load l h1 = (h1, Ok v) ∧
    let h2 := <[cl := box v]> h1 in
    store cl v h1 = (h2, Ok tt) ∧ peek h2 cl = Some v ∧ deno h2 v = Some x ∧ slots h2 v = slots h1 v ∧
    ∀ k, k ∈ addrs h2 v → h !! k = None ∧ is_Some (h1 !! k).
Proof.
  intros Hd. destruct (copies_DeepCopy _ copies_Cluster h (At cl) _ Hd)
    as (h1 & p & E & S1 & D & _ & Fp).
  destruct p as [|l]; [done|]. apply ptr_deno in D as (v & x' & [= <-] & Hv & Hx).
  assert (Fv : ∀ k, k ∈ addrs h1 v → h !! k = None ∧ is_Some (h1 !! k)).
  { intros k Hk. apply Fp. rewrite elem_of_addrs, (ptr_slots h1 l v Hv).
    right. by apply elem_of_addrs. }
  apply ptr_deno in Hd as (v0 & _ & _ & Hcl & _).
  assert (Hncl : cl ∉ addrs h1 v).
  { intros Hk. destruct (Fv cl Hk) as [Hn _]. destruct (peek_dom _ _ _ Hcl). congruence. }
  destruct (deno_update h1 v x cl (box v) Hx Hncl) as [Dx Sl].
  exists h1, l, v. cbn zeta. unfold addrs. rewrite Sl.
  split_and!; [done|done|by apply load_spec|by eapply store_spec, peek_mono|apply peek_insert|done|done|].
  exact Fv.
Qed.

(** [original := cluster.DeepCopy()] and the defaults. *)
Lemma keep_and_default h cl (v : hLLMInferenceCluster) t a :
  peek h cl = Some v → deno h v = Some (t, a) → cl ∉ addrs h v →
  ∃ h3 o h4 c' h', LLMInferenceCluster_DeepCopy (At cl) h = (h3, Ok (At o)) ∧
    load cl h3 = (h3, Ok v) ∧ heap_defaults v h3 = (h4, Ok c') ∧ store cl c' h4 = (h', Ok tt) ∧
    keeps cl h h' ∧ deno h' (At (T:=hLLMInferenceCluster) cl) = Some (Some (t, apply_defaults a)) ∧
    deno h' (At (T:=hLLMInferenceCluster) o) = Some (Some (t, a)) ∧
    ∀ k, k ∈ addrs h' (At (T:=hLLMInferenceCluster) cl) →
      (k = cl ∨ k ∈ addrs h v ∨ h !! k = None) ∧ k ∉ addrs h' (At (T:=hLLMInferenceCluster) o).
Proof.
  intros Hv Dv Hcl. pose proof (peek_dom _ _ _ Hv) as Hdom.
  assert (Hd : deno h (At (T:=hLLMInferenceCluster) cl) = Some (Some (t, a))) by (apply ptr_deno; eauto).
  destruct (copies_DeepCopy _ copies_Cluster h (At cl) _ Hd) as (h3 & [|o] & E3 & S3 & D3 & _ & F3); [done|].
  destruct (deno_mono h h3 v _ Dv S3) as [Dv3 Sv3].
  destruct (heap_defaults_spec h3 v t a Dv3) as (h4 & c' & E4 & S4 & D4 & F4).
  assert (Hc' : ∀ k, k ∈ addrs h4 c' → k ∈ addrs h v ∨ h3 !! k = None).
  { intros k Hk. rewrite elem_of_addrs, <- Sv3, <- elem_of_addrs. by apply F4. }
  assert (Hn : cl ∉ addrs h4 c').
  { intros [?|Hn]%Hc'; [done|]. pose proof (lookup_weaken_None _ _ _ Hn S3) as Hk.
    rewrite Hk in Hdom. by destruct Hdom. }
  assert (Ho : cl ∉ addrs h3 (At (T:=hLLMInferenceCluster) o)) by by eapply fresh_not_old.
  destruct (deno_update h4 c' _ cl (box c') D4 Hn) as [D5 Sl5].
  destruct (keeps_deno cl h3 (<[cl := box c']> h4) (At o) _ D3 Ho (keeps_write _ _ _ _ S4)) as [D6 Sl6].
  exists h3, o, h4, c', (<[cl := box c']> h4).
  split_and!; [done|by eapply load_spec, peek_mono|done|by apply (store_spec _ _ v), (peek_mono h3), S4; apply (peek_mono h)|
    apply keeps_write; by etrans|apply ptr_deno; eexists c', _; split_and!; [done|apply peek_insert|done]|done|].
  replace (addrs (<[cl:=box c']> h4) (At o)) with (addrs h3 (At (T:=hLLMInferenceCluster) o))
    by (unfold addrs; by rewrite Sl6).
  intros k. rewrite elem_of_addrs, (ptr_slots _ cl c' (peek_insert _ _ _)), Sl5, elem_of_cons.
  intros [[= ->]|Hk%elem_of_addrs]; [split; [by left|done]|].
  split.
  - destruct (Hc' k Hk) as [?|?]; [by right; left|right; right; by eapply lookup_weaken_None].
  - intros Hin. destruct (proj2 F3 k Hin) as [Hn1 [? Hn2]].
    destruct (Hc' k Hk) as [Hv'|?]; [|congruence]. destruct (deno_addrs h v _ k Dv Hv'). congruence.
Qed.

(** C11: the first statements of [Reconcile], run on memory, do what the model
    of the defaults says: [cluster] denotes the fetched resource with its
    defaults and [original], the base of the patch, the resource as it was
    fetched.  Whatever is written through [cluster] afterwards, [original]
    stays as it is, and so does every value that others hold, such as the
    object in the cache, even where the fetched struct shared memory with it. *)
Theorem prologue_isolates h cl t a :
  deno h (At (T:=hLLMInferenceCluster) cl) = Some (Some (t, a)) →
  ∃ h' o, prologue cl h = (h', Ok (At o)) ∧
    deno h' (At (T:=hLLMInferenceCluster) cl) = Some (Some (t, apply_defaults a)) ∧
    ∀ h2, changed_only (addrs h' (At (T:=hLLMInferenceCluster) cl)) h' h2 →
      deno h2 (At (T:=hLLMInferenceCluster) o) = Some (Some (t, a)) ∧
      ∀ S A (HS : Heaped cell S A) (LS : HeapedLaws cell S A) (s : S) x,
        deno h s = Some x → cl ∉ addrs h s → deno h2 s = Some x.
Proof.
  intros Hd. destruct (replace_by_copy h cl _ Hd) as (h1 & l & v & E1 & S1 & E2 & E3 & Hv & Dv & _ & Fv).
  assert (Hcl : is_Some (h !! cl)) by (apply ptr_deno in Hd as (? & _ & _ & Hp & _); by eapply peek_dom).
  assert (Hnv : cl ∉ addrs (<[cl := box v]> h1) v).
  { intros Hk. destruct (Fv cl Hk) as [Hn _]. rewrite Hn in Hcl. by destruct Hcl. }
  destruct (keep_and_default _ cl v t a Hv Dv Hnv)
    as (h3 & o & h4 & c' & h' & F1 & F2 & F3 & F4 & K & Dc & Do & Ha).
  exists h', o. split_and!; [|done|].
  { unfold prologue, deref_cluster, mbind'. rewrite E1, E2, E3, F1, F2, F3, F4. done. }
  assert (K' : keeps cl h h') by (eapply keeps_trans; [by apply keeps_write|done]).
  intros h2 Hch. split; [eapply changed_elsewhere; [done..|apply Ha]|].
  intros S A HS LS s x Hs Hnot. destruct (keeps_deno cl h h' s x Hs Hnot K') as [Hs' Sl].
  eapply changed_elsewhere; [done..|]. intros k Hk. rewrite elem_of_addrs, Sl, <- elem_of_addrs.
  intros Hin. destruct (deno_addrs h s x k Hs Hin) as [c Hc].
  destruct (proj1 (Ha k Hk)) as [->|[Hkv|Hkn]]; [done| |].
  - destruct (Fv k Hkv). congruence.
  - rewrite lookup_insert_ne in Hkn by (intros ->; done).
    by rewrite (lookup_weaken _ _ _ _ Hc S1) in Hkn.
Qed.

End Refines.

(** The variable 4 was filled from the cache entry 6, with which it shares all
    its memory. *)
#[local] Existing Instance layout.
#[local] Existing Instance layout_copy.
#[local] Existing Instance layout_laws.

Lemma prologue_isolates_witness :
  ∃ a h' o, deno shared_heap (At (T:=hLLMInferenceCluster) 6%positive) = Some (Some a) ∧
    prologue 4%positive shared_heap = (h', Ok (At o)) ∧
    deno h' (At (T:=hLLMInferenceCluster) 4%positive) = Some (Some (a.1, apply_defaults a.2)) ∧
    ∀ h2, changed_only (addrs h' (At (T:=hLLMInferenceCluster) 4%positive)) h' h2 →
      deno h2 (At (T:=hLLMInferenceCluster) 6%positive) = Some (Some a).
Proof.
  destruct (deno shared_heap (At (T:=hLLMInferenceCluster) 6%positive)) as [[[t a]|]|] eqn:E;
    [|vm_compute in E; discriminate E..].
  assert (E4 : deno shared_heap (At (T:=hLLMInferenceCluster) 4%positive) = Some (Some (t, a)))
    by (rewrite <- E; vm_compute; reflexivity).
  destruct (prologue_isolates shared_heap 4%positive t a E4) as (h' & o & Ep & Dc & Hw).
  exists (t, a), h', o. split_and!; [done|done|done|]. intros h2 Hh2.
  eapply (proj2 (Hw h2 Hh2)); [apply _|exact E|].
  apply (bool_decide_unpack (_ ∉ _)). vm_compute. exact I.
Defined.
