(* ===== verification/Typed.v ===== *)
(** * The integers of the children

    Go's int32 fields and the API's port numbers: every number that the
    operator writes into a Service or Deployment, and every shard number it
    publishes, is one that its Go type can hold and the API allows. *)
From S2P Require Import Prelude Strconv Float64 ShardMap Types Defaults Kube Signals Autoscale Resources Shards Reconcile Laws Memory Sample Plan Refine Children.
From stdpp Require Import options.
#[local] Set Default Proof Using "Type*".

Definition port_typed (p : Z) : Prop := 1 <= p <= 65535.
Definition count_typed (z : Z) : Prop := 0 <= z ∧ is_int32 z = true.

Definition object_typed (k : kind) : obj k → Prop :=
  match k return obj k → Prop with
  | KService => λ s, ∀ p, p ∈ svc_Ports s →
      port_typed (sp_Port p) ∧ ∃ q, sp_TargetPort p = IntVal q ∧ port_typed q
  | KDeployment => λ d,
      (∃ z, dep_Replicas d = Some z ∧ count_typed z) ∧
      ∃ ct l, dep_Containers d = Some (ct :: l) ∧
        ∀ p, p ∈ ct_Ports ct → port_typed (cp_ContainerPort p)
  | _ => λ _, True
  end.

(** ** Replicas *)
Lemma desired_typed c s :
  valid_spec (lic_Spec c) = true → count_typed (desired_replicas (scaling_bounds c) s).
Proof.
  unfold valid_spec, valid_role. rewrite !andb_true_iff. intros Hv. destruct_and! Hv.
  assert (Hm : 0 <= b_min (scaling_bounds c) ∧ is_int32 (b_min (scaling_bounds c)) = true).
  { unfold scaling_bounds. simpl. destruct (as_MinReplicas _); simpl in *; [|done]. unfold is_int32 in *. lia. }
  assert (HM : 1 <= b_max (scaling_bounds c) ∧ is_int32 (b_max (scaling_bounds c)) = true).
  { unfold scaling_bounds. simpl. destruct (as_MaxReplicas _); simpl in *; unfold is_int32 in *;
      repeat case_match; lia. }
  unfold count_typed, desired_replicas. unfold is_int32 in *. cbv zeta.
  generalize (if f64_gt (QueueDepth s) (f64_of_Z 100) then int32 (b_current (scaling_bounds c) + 1)
    else if f64_lt (QueueDepth s) (f64_of_Z 10) && (b_min (scaling_bounds c) <? b_current (scaling_bounds c))
         then int32 (b_current (scaling_bounds c) - 1) else b_current (scaling_bounds c)).
  intros z. repeat case_match; lia.
Qed.

Lemma role_count_typed c role ov :
  valid_spec (lic_Spec c) = true → (∀ z, ov = Some z → count_typed z) →
  count_typed (role_replicas c role ov).
Proof.
  unfold valid_spec, valid_role. rewrite !andb_true_iff. intros Hv Hov. destruct_and! Hv.
  assert (Hd : count_typed (default 1 (role_Replicas (rt_Decode (spec_Runtime (lic_Spec c)))))).
  { unfold count_typed. destruct (role_Replicas (rt_Decode _)); simpl in *; [|done]. unfold is_int32 in *. lia. }
  assert (Hp : count_typed (default 1 (role_Replicas (rt_Prefill (spec_Runtime (lic_Spec c)))))).
  { unfold count_typed. destruct (role_Replicas (rt_Prefill _)); simpl in *; [|done]. unfold is_int32 in *. lia. }
  unfold role_replicas. destruct (decide (role = roleDecode)) as [->|Hne].
  - simpl. destruct ov as [z|]; simpl; [by apply Hov|exact Hd].
  - rewrite !(bool_decide_eq_false_2 (role = roleDecode)) by done.
    destruct (bool_decide (role = rolePrefill)); [exact Hp|by split].
Qed.

Section Typed.
Context {W : Type} `{!Client W} `{!StoreLaws W} `{!Machinery} `{!MachineryLaws}.
Implicit Types (c : LLMInferenceCluster) (w : W).

Lemma service_typed c L p x y :
  port_typed p → mutate_service c L (role_ports p) x = Ok y → object_typed KService y.
Proof.
  intros Hp [_ Hy]%service_shape. simpl. rewrite Hy. intros q Hq%list_elem_of_singleton. subst q.
  split; [done|]. exists p. split; [by apply port_target|done].
Qed.

Lemma role_deployment_typed c role n B ov x y :
  valid_spec (lic_Spec c) = true → (∀ z, ov = Some z → count_typed z) →
  port_typed (servicePortForRole c role) →
  mutate_role_deployment c role n B ov x = Ok y → object_typed KDeployment y.
Proof.
  intros Hv Hov Hp (_ & _ & Hr & ct & l & Hc & _ & _ & _ & Hq)%role_deployment_shape. simpl. split.
  - eexists. split; [exact Hr|]. by apply role_count_typed.
  - exists ct, l. split; [done|]. rewrite Hq. intros q Hin%list_elem_of_singleton. by subst q.
Qed.

Lemma router_deployment_typed c sm sa B x y dp pp n :
  ports c dp pp → routing_RouterReplicas (spec_Routing (lic_Spec c)) = Some n → count_typed n →
  mutate_router_deployment c sm sa B x = Ok y → object_typed KDeployment y.
Proof.
  intros Hports Hn Ht Hy. pose proof (router_deployment_shape _ _ _ _ _ _ _ _ Hports Hy)
    as (_ & _ & _ & ct & l & Hc & _ & _ & Hq). simpl. split.
  - exists n. split; [|done]. unfold mutate_router_deployment in Hy.
    apply rbind_ok in Hy as (cs & _ & (m & _ & [= <-])%rbind_ok). done.
  - exists ct, l. split; [done|]. rewrite Hq. unfold port_typed. intros q.
    rewrite !elem_of_cons, elem_of_nil. intros [->|[->|[]]]; simpl; lia.
Qed.

Lemma plan_item_typed c dp pp ov json it x y n :
  valid_spec (lic_Spec c) = true → ports c dp pp → port_typed dp → port_typed pp →
  (∀ z, ov = Some z → count_typed z) →
  routing_RouterReplicas (spec_Routing (lic_Spec c)) = Some n → count_typed n →
  it ∈ plan c dp pp ov json → it_mutate it x = Ok y → object_typed (it_kind it) y.
Proof.
  intros Hv Hports Hd Hp Hov Hn Ht. pose proof Hports as [Ed Ep].
  assert (servicePortForRole c roleDecode = dp) as Pd by (unfold servicePortForRole; by rewrite Ed).
  assert (servicePortForRole c rolePrefill = pp) as Pp by (unfold servicePortForRole; by rewrite Ep).
  unfold plan, role_items, signals_items, rbac_items, deployment_items.
  rewrite !elem_of_app, !elem_of_cons, !elem_of_nil. intros Hin Hy. destruct Hin as [Hin|Hin].
  { destruct (autoscaling_enabled c); [|by apply elem_of_nil in Hin].
    by apply list_elem_of_singleton in Hin as ->. }
  destruct_or! Hin; subst it; try done; cbn [it_mutate it_kind service_item role_deployment router_deployment] in *.
  - by eapply (service_typed c _ dp).
  - by eapply (service_typed c _ pp).
  - apply service_shape in Hy as [_ Hy]. simpl. rewrite Hy. intros q.
    unfold router_ports, port_typed. rewrite !elem_of_cons, elem_of_nil. intros [->|[->|[]]]; simpl.
    + split; [lia|]. exists 8080. split; [done|lia].
    + split; [lia|]. exists 9090. split; [done|lia].
  - eapply (role_deployment_typed c roleDecode); [done|done|by rewrite Pd|exact Hy].
  - eapply (role_deployment_typed c rolePrefill _ _ None); [done|done|by rewrite Pp|exact Hy].
  - by eapply (router_deployment_typed c).
Qed.

Lemma computed_ids w0 w1 c shards json n :
  shards_computed w0 w1 c shards json → kv_NumShards (spec_KVCache (lic_Spec c)) = Some n →
  1 <= n → is_int32 n = true → ss_ShardID <$> shards = seqZ 0 n.
Proof.
  intros (pods & t & _ & Hsh) Hn Hpos Hint. rewrite Hn in Hsh. simpl in Hsh.
  rewrite shard_map_of_spec in Hsh by (done || lia). simpl in Hsh. injection Hsh as <- _.
  unfold shards_spec, shard_ids. rewrite <- list_fmap_compose. apply list_fmap_id.
Qed.

(** The shard map that is stored for the cluster numbers its shards from 0. *)
Definition shard_numbers c (w : W) (n : Z) : Prop :=
  ∃ cm json sm, stored KConfigMap w (child c "-shardmap") (om_Namespace (lic_Meta c)) = Some cm ∧
    default ∅ (cm_Data cm) !! "shardmap.json" = Some json ∧ ParseShardMapJSON json = Ok sm ∧
    ShardID <$> Shards sm = seqZ 0 n.

Lemma plan_shard_numbers w0 w1 c dp pp ov shards json n :
  ports c dp pp → kv_NumShards (spec_KVCache (lic_Spec c)) = Some n → 1 <= n → is_int32 n = true →
  shards_computed w0 w1 c shards json →
  items_applied (om_Namespace (lic_Meta c)) (plan c dp pp ov json) (store_of w0) (store_of w1) →
  shard_numbers c w1 n.
Proof.
  intros Hports Hn Hpos Hint Hsh Hi.
  pose proof (published_parses w0 w1 c _ json (ex_intro _ n (conj Hn (conj Hpos Hint))) Hsh) as Hparse.
  destruct (plan_wires _ _ _ _ _ _ _ _ Hports Hparse Hi)
    as (d & sa & role & rb & cm & ct & l & json' & dsvc & psvc & Hw). simpl in Hw.
  destruct Hw as (_ & _ & _ & _ & Scm & _ & _ & _ & _ & _ & _ & _ & _ & _ & Hdata & Hparse').
  eexists cm, json', _. split_and!; [exact Scm|exact Hdata|exact Hparse'|].
  simpl. rewrite <- list_fmap_compose, <- (computed_ids w0 w1 c shards json n) by done. done.
Qed.

(** C16: what the operator writes is well typed: for a valid resource, after a
    successful reconciliation every port and target port of its Services and
    every port of the container it manages in its Deployments (the first one)
    is between 1 and 65535, every Deployment asks for a replica count that is
    a non-negative int32, whatever the autoscaling signals were, and the
    shard map in the stored ConfigMap numbers its shards 0, 1, ... below the
    shard count, which is a positive int32. *)
Theorem children_typed (req : NamespacedName) (w w' : W) :
  fetched_valid req w →
  Reconcile req w = (w', Ok (mkResult (30 * Second), None)) →
  ∃ c n, desired_cluster req w c ∧
    (∀ k m, (k, m) ∈ child_keys c →
       ∃ y, stored k w' m (om_Namespace (lic_Meta c)) = Some y ∧ object_typed k y) ∧
    kv_NumShards (spec_KVCache (lic_Spec c)) = Some n ∧ 1 <= n ∧ is_int32 n = true ∧
    shard_numbers c w' n.
Proof.
  intros Hv E. destruct (reconciled_plan req w w' Hv E)
    as (c & dp & pp & ov & shards & json & Hc & Hports & Hd & Hp & Hov & Hsh & (ns & Hns & Hpos & Hint) & Hi).
  pose proof Hc as (w1 & c0 & Hget & Hs & _).
  assert (Hvalid : valid_spec (lic_Spec c) = true) by (rewrite Hs; by apply default_spec_valid, (Hv w1)).
  assert (Hr : ∃ n, routing_RouterReplicas (spec_Routing (lic_Spec c)) = Some n ∧ count_typed n).
  { pose proof Hvalid as Hv'. unfold valid_spec in Hv'. rewrite !andb_true_iff in Hv'. destruct_and! Hv'.
    rewrite Hs in *. destruct (default_ptr_some 1 (routing_RouterReplicas (spec_Routing (lic_Spec c0)))) as [n Hn].
    simpl in *. rewrite Hn in *. simpl in *. exists n. split; [done|]. unfold count_typed, is_int32 in *. lia. }
  assert (Hot : ∀ z, ov = Some z → count_typed z).
  { intros z ->. unfold override_ok in Hov. destruct (autoscaling_enabled c); [|done].
    destruct Hov as (sig & _ & [= ->]). by apply desired_typed. }
  destruct Hr as (n & Hn & Hnt). exists c, ns.
  split_and!; [done| |done|done|done|by eapply plan_shard_numbers].
  intros k m. rewrite <- (plan_child_keys c dp pp ov json).
  intros (it & [= -> ->] & Hit)%list_elem_of_fmap.
  destruct (planned _ _ _ _ _ _ _ it Hi Hit) as (x & y & Hy & Hst).
  exists y. split; [done|]. by eapply plan_item_typed.
Qed.
End Typed.

Lemma children_typed_witness :
  ∃ c n, desired_cluster sample_req (world_of sample_cluster) c ∧
    shard_numbers c (reconciled (world_of sample_cluster)) n ∧
    ∀ k m, (k, m) ∈ child_keys c →
      ∃ y, stored k (reconciled (world_of sample_cluster)) m (om_Namespace (lic_Meta c)) = Some y ∧
           object_typed k y.
Proof.
  destruct (children_typed sample_req _ _ sample_valid sample_run) as (c & n & Hc & Hk & _ & _ & _ & Hs).
  exists c, n. split_and!; [exact Hc|exact Hs|exact Hk].
Defined.
