(* ===== verification/Live.v ===== *)
(** * Progress

    Refine.v says what a reconciliation has done when it reports success; this
    file shows that it does report success.  [LiveClient] states when the calls
    of the code outside src/ succeed: the API server answers, the resource
    exists, nobody else writes it in between, and the server accepts the
    objects that the plan makes. *)
From S2P Require Import Prelude Strconv Float64 ShardMap Types Defaults Kube Signals Autoscale Resources Shards Reconcile Laws Trace Memory Hoare Sample Calls Outcome Plan Refine Children.
From stdpp Require Import options.
#[local] Set Default Proof Using "Type*".

Definition named (nn : NamespacedName) (c : LLMInferenceCluster) : Prop :=
  om_Name (lic_Meta c) = nn_Name nn ∧ om_Namespace (lic_Meta c) = nn_Namespace nn.

Lemma shard_map_of_ok pods n t :
  0 <= n → is_int32 n = true → ∃ shards json, shard_map_of pods n t = Ok (shards, json).
Proof.
  intros Hn Hint. rewrite shard_map_of_spec by done.
  destruct (Marshal_doc_reads_back _ (doc_spec_ok pods n Hint)) as (b & -> & _). by do 2 eexists.
Qed.

Class LiveClient (W : Type) `{!Client W} `{!StoreLaws W} := {
  (** the server answers requests about the resource, which exists *)
  up : NamespacedName → W → Prop;
  (** the server accepts the object in place of the stored one *)
  accepts : ∀ k : kind, option (obj k) → obj k → Prop;
  up_get nn w : up nn w → ∃ w' c, get_cluster nn w = (w', Ok c) ∧ up nn w' ∧ named nn c;
  up_patch nn c o w : up nn w → named nn c → ∃ w' c', patch_cluster c o w = (w', Ok c') ∧ up nn w';
  up_update nn c w : up nn w → named nn c → ∃ w' c', update_cluster c w = (w', Ok c') ∧ up nn w';
  up_status nn c o w : up nn w → named nn c → ∃ w' c', status_patch c o w = (w', Ok c') ∧ up nn w';
  up_cou nn k n ns f w y : up nn w →
    f (default (new_obj k n ns) (stored k w n ns)) = Ok y →
    om_Name (obj_meta y) = n → om_Namespace (obj_meta y) = ns → accepts k (stored k w n ns) y →
    ∃ w', create_or_update k n ns f w = (w', Ok y) ∧ up nn w';
  up_getcm nn n ns cm w : up nn w → stored KConfigMap w n ns = Some cm →
    ∃ w' cm', get_configmap (mkNN ns n) w = (w', Ok cm') ∧ up nn w';
  up_list nn ns l w : up nn w → ∃ w' pods, list_pods ns l w = (w', Ok pods) ∧ up nn w';
  up_now nn w w' t : up nn w → now w = (w', t) → up nn w' }.

Section Live.
Context {W : Type} `{!Client W} `{!StoreLaws W} `{!Machinery} `{!MachineryLaws} `{!LiveClient W}.
Implicit Types (c cl : LLMInferenceCluster) (w : W).

(** No child is controlled by anything else. *)
Definition children_free c w : Prop :=
  ∀ k n y, (k, n) ∈ child_keys c → stored k w n (om_Namespace (lic_Meta c)) = Some y →
           adoptable c (obj_meta y).

(** ** What the server has to accept

    The objects that reconciliations of the cluster can write: an item of its
    plan, with the ports of the resource, a replica count that autoscaling can
    ask for, and a shard map of pods that the server listed ... *)
Definition override_possible c (ov : option Z) : Prop :=
  if autoscaling_enabled c
  then ∃ sig, ov = Some (desired_replicas (scaling_bounds c) sig) else ov = None.

Definition document_possible (nn : NamespacedName) c (json : string) : Prop :=
  ∃ w w' pods t shards, up nn w ∧
    list_pods (om_Namespace (lic_Meta c)) (roleLabels (baseLabels c) roleDecode) w = (w', Ok pods) ∧
    shard_map_of pods (derefInt32 (kv_NumShards (spec_KVCache (lic_Spec c))) 8) t = Ok (shards, json).

Definition of_plan (nn : NamespacedName) c (it : item) : Prop :=
  ∃ dp pp ov json, ports c dp pp ∧ override_possible c ov ∧ document_possible nn c json ∧
    it ∈ plan c dp pp ov json.

(** ... applied to what is stored in the world [w0], or to what such a change
    made of it. *)
Inductive produced (nn : NamespacedName) c (w0 : W) : ∀ k : kind, string → option (obj k) → Prop :=
| produced_stored k n : produced nn c w0 k n (stored k w0 n (om_Namespace (lic_Meta c)))
| produced_write it old y :
    of_plan nn c it → produced nn c w0 (it_kind it) (it_name it) old →
    it_mutate it (default (new_obj (it_kind it) (it_name it) (om_Namespace (lic_Meta c))) old) = Ok y →
    produced nn c w0 (it_kind it) (it_name it) (Some y).

(** The server accepts each of these writes. *)
Definition acceptable (nn : NamespacedName) c (w0 : W) : Prop :=
  ∀ it old y, of_plan nn c it → produced nn c w0 (it_kind it) (it_name it) old →
    it_mutate it (default (new_obj (it_kind it) (it_name it) (om_Namespace (lic_Meta c))) old) = Ok y →
    accepts (it_kind it) old y.

Section Run.
Context (base : W).

(** A world of a run that started in [base]. *)
Definition ready_to_run (nn : NamespacedName) c w : Prop :=
  up nn w ∧ children_free c w ∧
  ∀ k n, produced nn c base k n (stored k w n (om_Namespace (lic_Meta c))).

(** [lives nn c m Q]: run while the server is up, [m] returns, with [Q]. *)
Definition lives {A : Type} (nn : NamespacedName) c (m : M W A) (Q : A → W → Prop) : Prop :=
  ∀ w, ready_to_run nn c w →
    wp m (λ w' r, match r with Ok a => Q a w' ∧ ready_to_run nn c w' | _ => False end) w.

Lemma lives_ret {A} nn c (a : A) : lives nn c (mret a) (λ b _, b = a).
Proof. intros w Hw. by wp_step. Qed.

Lemma lives_weaken {A} nn c (m : M W A) (Q Q' : A → W → Prop) :
  lives nn c m Q → (∀ a w, Q a w → Q' a w) → lives nn c m Q'.
Proof.
  intros Hm HQ w Hw. eapply wp_mono; [by apply Hm|]. intros w' [a| |]; [|done|done].
  intros []. split; [by apply HQ|done].
Qed.

Lemma lives_try {A B} nn c (m : M W A) h (k : A → M W B) Q Q' :
  lives nn c m Q →
  (∀ a w, Q a w → ready_to_run nn c w →
     wp (k a) (λ w' r, match r with Ok b => Q' b w' ∧ ready_to_run nn c w' | _ => False end) w) →
  lives nn c (mtry m h k) Q'.
Proof.
  intros Hm Hk w Hw. wp_step. eapply wp_mono; [by apply Hm|]. intros w' [a| |]; [|done|done].
  intros []. by apply Hk.
Qed.

Lemma lives_bind {A B} nn c (m : M W A) (k : A → M W B) Q Q' :
  lives nn c m Q →
  (∀ a w, Q a w → ready_to_run nn c w →
     wp (k a) (λ w' r, match r with Ok b => Q' b w' ∧ ready_to_run nn c w' | _ => False end) w) →
  lives nn c (mbind' m k) Q'.
Proof.
  intros Hm Hk w Hw. wp_step. eapply wp_mono; [by apply Hm|]. intros w' [a| |]; [|done|done].
  intros []. by apply Hk.
Qed.

(** The same store serves as well. *)
Lemma ready_stored nn c w w' :
  up nn w' → (∀ k n ns, stored k w' n ns = stored k w n ns) → ready_to_run nn c w → ready_to_run nn c w'.
Proof.
  intros Hu Hst (_ & Hf & Hp). split_and!; [done| |].
  - intros k n y Hin. rewrite Hst. by apply Hf.
  - intros k n. rewrite Hst. apply Hp.
Qed.

(** A call that succeeds and changes no child. *)
Lemma lives_call {A} nn c (m : M W A) :
  (∀ w, up nn w → ∃ w' a, m w = (w', Ok a) ∧ up nn w') →
  (∀ w w' r, m w = (w', r) → ∀ k n ns, stored k w' n ns = stored k w n ns) →
  lives nn c m (λ a w', ∃ w, up nn w ∧ m w = (w', Ok a)).
Proof.
  intros Hup Hst w Hw. pose proof Hw as [Hu _]. destruct (Hup w Hu) as (w' & a & E & Hu').
  apply wp_intro. intros w2 r. rewrite E. intros [= <- <-]. split; [by exists w|].
  eapply ready_stored; [done|by eapply Hst|done].
Qed.

Lemma lives_now nn c : lives nn c mnow (λ _ _, True).
Proof.
  eapply lives_weaken; [apply lives_call|done].
  - intros w Hu. unfold mnow. destruct (now w) as [w' t] eqn:E. exists w', t. split; [done|].
    by eapply up_now.
  - intros w w' r. unfold mnow. destruct (now w) as [w1 t] eqn:E. intros [= <- <-]. by eapply now_stored.
Qed.

Lemma lives_condition nn c cl t st re ms :
  lives nn c (condition_now cl t st re ms) (λ cl' _, same_source cl cl').
Proof.
  unfold condition_now. eapply lives_bind; [apply lives_now|]. intros tm w _ Hw. wp_step.
  split; [|done]. by apply same_source_condition.
Qed.
(** ** The children *)
Lemma adoptable_controls c m : controls c m → adoptable c m.
Proof.
  intros (r & Hr & Hv & Hk & Hn & _) r' Hr'. rewrite Hr in Hr'. injection Hr' as <-. by rewrite Hv.
Qed.

(** The items of the plan keep the name of the object and do not fail on an
    object that the cluster may own. *)
Definition has_containers (k : kind) : obj k → Prop :=
  match k return obj k → Prop with KDeployment => λ d, dep_Containers d ≠ Some [] | _ => λ _, True end.

Definition item_good c (it : item) : Prop :=
  (∀ x y, it_mutate it x = Ok y →
     om_Name (obj_meta y) = om_Name (obj_meta x) ∧ om_Namespace (obj_meta y) = om_Namespace (obj_meta x)) ∧
  (∀ x, adoptable c (obj_meta x) → om_Namespace (obj_meta x) = om_Namespace (lic_Meta c) →
        has_containers (it_kind it) x → ∃ y, it_mutate it x = Ok y).

Lemma adopts_labelled c L m :
  adoptable c m → om_Namespace m = om_Namespace (lic_Meta c) →
  ∃ m', SetControllerReference c (set_labels L m) = Ok m'.
Proof.
  intros Ha Hn. pose proof (scr_adopts c (set_labels L m) Ha Hn) as Hok.
  destruct (SetControllerReference c (set_labels L m)); [eauto|done|done].
Qed.

(** A change that sets labels and owner and fills the other fields. *)
Lemma owned_good c k n (f : obj k → result (obj k)) L (g : obj k → ObjectMeta → obj k) :
  (∀ x, f x = let? m := SetControllerReference c (set_labels L (obj_meta x)) in Ok (g x m)) →
  (∀ x m, obj_meta (g x m) = m) → item_good c (mkItem k n f).
Proof.
  intros Hf Hg. split; simpl.
  - intros x y. rewrite Hf. intros (m & (Hn & Hns & _)%owned_meta & [= <-])%rbind_ok. by rewrite Hg.
  - intros x Ha Hns _. rewrite Hf. destruct (adopts_labelled c L (obj_meta x) Ha Hns) as [m ->]. by eexists.
Qed.

(** The same for a Deployment whose first container is updated. *)
Lemma deployment_good c n name (u : Container → result Container) L f
    (g : Deployment → option (list Container) → ObjectMeta → Deployment) :
  (∀ d, f d = let? cs := update_first name u (dep_Containers d) in
              let? m := SetControllerReference c (set_labels L (dep_Meta d)) in Ok (g d cs m)) →
  (∀ d cs m, dep_Meta (g d cs m) = m) → (∀ x, is_ok (u x) = true) →
  item_good c (mkItem KDeployment n f).
Proof.
  intros Hf Hg Hu. split; simpl.
  - intros x y. rewrite Hf. intros (cs & _ & (m & (Hn & Hns & _)%owned_meta & [= <-])%rbind_ok)%rbind_ok.
    by rewrite Hg.
  - intros x Ha Hns Hc. rewrite Hf. unfold update_first.
    destruct (adopts_labelled c L (dep_Meta x) Ha Hns) as [m ->].
    destruct (default [named_container name] (dep_Containers x)) as [|z l] eqn:E.
    { by destruct (dep_Containers x) as [[|]|]. }
    pose proof (Hu z) as Hz. destruct (u z); [|done|done]. by eexists.
Qed.

Lemma plan_item_good c dp pp ov json it :
  ports c dp pp → it ∈ plan c dp pp ov json → item_good c it.
Proof.
  intros [Hd Hp]. unfold plan, role_items, signals_items, rbac_items, deployment_items.
  rewrite !elem_of_app, !elem_of_cons, !elem_of_nil. intros Hin.
  destruct Hin as [Hin|Hin].
  { destruct (autoscaling_enabled c); [|by apply elem_of_nil in Hin].
    apply list_elem_of_singleton in Hin as ->. by eapply (owned_good c KConfigMap _ _ _ (λ x m, mkConfigMap m _ _)). }
  destruct_or! Hin; subst; try done.
  - by eapply (owned_good c KService _ _ _ (λ x m, mkService m _ _ _)).
  - by eapply (owned_good c KService _ _ _ (λ x m, mkService m _ _ _)).
  - by eapply (owned_good c KService _ _ _ (λ x m, mkService m _ _ _)).
  - by eapply (owned_good c KServiceAccount _ _ _ (λ x m, mkServiceAccount m _)).
  - by eapply (owned_good c KRole _ _ _ (λ x m, mkRBACRole m _)).
  - by eapply (owned_good c KRoleBinding _ _ _ (λ x m, mkRoleBinding m _ _)).
  - by eapply (deployment_good c _ _ _ _ _ (λ d cs m, mkDeployment m _ _ _ _ cs _)).
  - by eapply (deployment_good c _ _ _ _ _ (λ d cs m, mkDeployment m _ _ _ _ cs _)).
  - eapply (deployment_good c _ _ _ _ _ (λ d cs m, mkDeployment m _ _ _ _ cs _)); try done.
    intros x. unfold router_container. by rewrite Hd, Hp.
  - by eapply (owned_good c KConfigMap _ _ _ (λ x m, mkConfigMap m _ _)).
Qed.

Lemma new_obj_free c k n ns : adoptable c (obj_meta (new_obj k n ns)) ∧ has_containers k (new_obj k n ns).
Proof. split; [by destruct k|]. by destruct k. Qed.

Lemma base_good c w k n :
  children_free c w → (k, n) ∈ child_keys c →
  let x := base_object (store_of w) k n (om_Namespace (lic_Meta c)) in
  adoptable c (obj_meta x) ∧ has_containers k x.
Proof.
  intros Hf Hin. unfold base_object, store_of. simpl.
  destruct (stored k w n (om_Namespace (lic_Meta c))) as [y|] eqn:E; [|apply new_obj_free].
  split; [by eapply Hf|]. destruct k; try done. by eapply deployment_containers.
Qed.

(** One object of the plan. *)
Lemma lives_cou nn c it f :
  acceptable nn c base → of_plan nn c it → (∀ x, f x = it_mutate it x) →
  lives nn c (create_or_update (it_kind it) (it_name it) (om_Namespace (lic_Meta c)) f)
    (λ y w, stored (it_kind it) w (it_name it) (om_Namespace (lic_Meta c)) = Some y).
Proof.
  intros Hacc Hof Hf w (Hu & Hfree & Hprod). set (ns := om_Namespace (lic_Meta c)).
  pose proof Hof as (dp & pp & ov & json & Hp & _ & _ & Hit).
  assert (Hkey : (it_kind it, it_name it) ∈ child_keys c).
  { rewrite <- (plan_child_keys c dp pp ov json). by apply (list_elem_of_fmap_2 key). }
  destruct (plan_item_good c dp pp ov json it Hp Hit) as [Hnames Hok].
  destruct (base_good c w _ _ Hfree Hkey) as [Ha Hc].
  destruct (base_named w (it_kind it) (it_name it) ns) as [Hn Hns].
  destruct (Hok _ Ha Hns Hc) as [y Hy]. destruct (Hnames _ _ Hy) as [Hny Hnsy].
  destruct (up_cou nn (it_kind it) (it_name it) ns f w y) as (w' & E & Hu');
    [done|by rewrite Hf|by etrans|by etrans|by eapply Hacc|].
  apply wp_intro. intros w2 r. rewrite E. intros [= <- <-].
  destruct (cou_stored _ _ _ _ _ _ _ E) as [_ Hs]. split; [done|]. split_and!; [done| |].
  - intros k n z Hin Hz. destruct (decide ((k, n, ns) = (it_kind it, it_name it, ns))) as [[= -> ->]|Hne].
    + fold ns in Hz. rewrite Hs in Hz. injection Hz as <-. apply adoptable_controls.
      by apply (plan_item_owned c dp pp ov json it _ _ Hit Hy).
    + fold ns in Hz. rewrite (cou_frame _ _ _ _ _ _ _ _ _ _ E Hne) in Hz. by eapply Hfree.
  - intros k n. destruct (decide ((k, n, ns) = (it_kind it, it_name it, ns))) as [[= -> ->]|Hne].
    + fold ns. rewrite Hs. by eapply produced_write.
    + fold ns. rewrite (cou_frame _ _ _ _ _ _ _ _ _ _ E Hne). apply Hprod.
Qed.

Lemma lives_item nn c it f :
  acceptable nn c base → of_plan nn c it → (∀ x, f x = it_mutate it x) →
  lives nn c (let! _ := create_or_update (it_kind it) (it_name it) (om_Namespace (lic_Meta c)) f in mret tt)
    (λ _ _, True).
Proof.
  intros Ha Hit Hf. eapply lives_bind; [by eapply lives_cou|]. intros y w _ Hw. by wp_step.
Qed.

(** ** The handlers, run on a cluster that differs in its status *)
#[local] Ltac planned_item :=
  unfold plan, role_items, rbac_items, deployment_items; rewrite ?elem_of_app, ?elem_of_cons; tauto.
#[local] Ltac same_change :=
  intros ?; simpl;
  first [by apply mutate_service_intent|by apply mutate_sa_intent|by apply mutate_role_intent
        |by apply mutate_rolebinding_intent|by apply mutate_role_deployment_intent
        |by apply mutate_router_deployment_intent|by apply mutate_shardmap_intent].

Section Handlers.
Context (nn : NamespacedName) (c : LLMInferenceCluster) (dp pp : Z).
Context (Hports : ports c dp pp) (Hacc : acceptable nn c base).
Context (ov0 : option Z) (json0 : string).
Context (Hov0 : override_possible c ov0) (Hjson0 : document_possible nn c json0).

Lemma of_plan_some it ov json :
  override_possible c ov → document_possible nn c json → it ∈ plan c dp pp ov json → of_plan nn c it.
Proof using All. intros Hov Hj Hit. by exists dp, pp, ov, json. Qed.

#[local] Ltac planned := apply (of_plan_some _ ov0 json0); [done|done|planned_item].

Lemma lives_role_service cl role suffix port :
  same_source c cl → of_plan nn c (service_item c suffix role (role_ports port)) →
  lives nn c (reconcileRoleService cl role (child c suffix) port (baseLabels c)) (λ _ _, True).
Proof using All.
  intros Hsrc Hit. pose proof (source_intent _ _ Hsrc) as Hi. unfold reconcileRoleService.
  rewrite (proj1 Hsrc).
  apply (lives_item nn c (service_item c suffix role (role_ports port))); [done|exact Hit|same_change].
Qed.

Lemma lives_router_service cl :
  same_source c cl →
  lives nn c (reconcileRouterService cl (child c "-router") (baseLabels c)) (λ _ _, True).
Proof using All.
  intros Hsrc. pose proof (source_intent _ _ Hsrc) as Hi. unfold reconcileRouterService.
  rewrite (proj1 Hsrc).
  apply (lives_item nn c (service_item c "-router" roleRouter router_ports)); [done|planned|same_change].
Qed.

Lemma lives_role_deployment cl role suffix ov :
  same_source c cl → "-" +:+ role = suffix →
  of_plan nn c (role_deployment c suffix role ov) →
  lives nn c (reconcileRoleDeployment cl role (child c suffix) (baseLabels c) ov) (λ _ _, True).
Proof using All.
  intros Hsrc <- Hit. pose proof (source_intent _ _ Hsrc) as Hi. unfold reconcileRoleDeployment.
  rewrite (proj1 Hsrc).
  apply (lives_item nn c (role_deployment c ("-" +:+ role) role ov)); [done|exact Hit|same_change].
Qed.

Lemma lives_router_deployment cl :
  same_source c cl →
  lives nn c (reconcileRouterDeployment cl (child c "-shardmap") (child c "-router") (baseLabels c))
    (λ _ _, True).
Proof using All.
  intros Hsrc. pose proof (source_intent _ _ Hsrc) as Hi. unfold reconcileRouterDeployment.
  rewrite (proj1 Hsrc).
  apply (lives_item nn c (router_deployment c)); [done|planned|same_change].
Qed.

Lemma lives_shardmap cl json :
  same_source c cl → document_possible nn c json →
  lives nn c (reconcileShardMapConfigMap cl (child c "-shardmap") (baseLabels c) json) (λ _ _, True).
Proof using All.
  intros Hsrc Hj. pose proof (source_intent _ _ Hsrc) as Hi. unfold reconcileShardMapConfigMap.
  rewrite (proj1 Hsrc). apply (lives_item nn c (shardmap_item c json)); [done| |same_change].
  apply (of_plan_some _ ov0 json); [done|done|planned_item].
Qed.

Lemma lives_rbac cl :
  same_source c cl →
  lives nn c (reconcileRouterRBAC cl (child c "-router") (baseLabels c)) (λ _ _, True).
Proof using All.
  intros Hsrc. pose proof (source_intent _ _ Hsrc) as Hi. unfold reconcileRouterRBAC. cbv zeta.
  rewrite (proj1 Hsrc). set (sa := child c "-router"). set (ns := om_Namespace (lic_Meta c)).
  assert (Hname : ∀ k w (y : obj k), stored k w sa ns = Some y →
    om_Name (obj_meta y) = sa ∧ om_Namespace (obj_meta y) = ns) by (intros k w y; apply stored_named).
  eapply lives_bind; [apply (lives_cou nn c (mkItem KServiceAccount sa (mutate_sa c (baseLabels c))));
    [done|planned|same_change]|].
  intros a w1 Ha Hw1. apply Hname in Ha as [Ha Ha'].
  refine (lives_bind nn c _ _ _ _ (lives_cou nn c (mkItem KRole sa (mutate_role c (baseLabels c)))
    _ _ _ _) _ w1 Hw1); [done|planned|same_change|].
  intros r w2 Hr Hw2. apply Hname in Hr as [Hr _].
  refine (lives_item nn c (mkItem KRoleBinding sa (mutate_rolebinding c (baseLabels c)
    (new_obj KRole sa ns) (new_obj KServiceAccount sa ns))) _ _ _ _ w2 Hw2); [done|planned|].
  intros x. simpl in *. rewrite (mutate_rolebinding_intent c cl) by done. unfold mutate_rolebinding.
  simpl. by rewrite Ha, Ha', Hr.
Qed.

(** ** Autoscaling and the shard map *)
Lemma lives_signals :
  autoscaling_enabled c = true →
  lives nn c (reconcileSignalsConfigMap c (child c "-signals") (baseLabels c))
    (λ _ w, ∃ cm, stored KConfigMap w (child c "-signals") (om_Namespace (lic_Meta c)) = Some cm).
Proof using All.
  intros He. unfold reconcileSignalsConfigMap.
  eapply lives_bind; [apply (lives_cou nn c
    (mkItem KConfigMap (child c "-signals") (mutate_signals c (baseLabels c)))); [done| |done]|].
  { apply (of_plan_some _ ov0 json0); [done|done|]. unfold plan, signals_items. rewrite He. set_solver. }
  intros y w Hy Hw. wp_step. split; [by exists y|done].
Qed.

Lemma fake_adapter :
  sig_Source (as_Signals (spec_Autoscaling (lic_Spec c))) ≠ SignalsSourcePrometheus →
  signals_adapter c (child c "-signals") =
    FakeConfigMapAdapter (om_Namespace (lic_Meta c)) (child c "-signals").
Proof using All.
  intros Hne. unfold signals_adapter. case_bool_decide; [done|].
  by rewrite (bool_decide_eq_false_2 (_ = SignalsSourcePrometheus)) by done || by case_bool_decide.
Qed.

Lemma wp_read_signals w cm :
  sig_Source (as_Signals (spec_Autoscaling (lic_Spec c))) ≠ SignalsSourcePrometheus →
  stored KConfigMap w (child c "-signals") (om_Namespace (lic_Meta c)) = Some cm →
  ready_to_run nn c w →
  wp (computeDecodeReplicas c (child c "-signals"))
    (λ w' r, match r with
             | Ok (z, _) => ready_to_run nn c w' ∧ ∃ sig, z = desired_replicas (scaling_bounds c) sig
             | _ => False end) w.
Proof using All.
  intros Hne Hcm Hw. pose proof Hw as [Hu _]. unfold computeDecodeReplicas. rewrite fake_adapter by done. simpl.
  destruct (up_getcm nn _ _ cm w Hu Hcm) as (w' & cm' & E & Hu').
  assert (Hw' : ready_to_run nn c w').
  { eapply ready_stored; [done|apply (getcm_stored _ _ _ _ E)|done]. }
  wp_step. unfold Fake_Read. wp_step. apply wp_intro. intros w2 r. rewrite E. intros [= <- <-].
  split; [done|]. by eexists.
Qed.

Lemma lives_autoscaling :
  (autoscaling_enabled c = true →
   sig_Source (as_Signals (spec_Autoscaling (lic_Spec c))) ≠ SignalsSourcePrometheus) →
  lives nn c (reconcileAutoscaling c (child c "-signals") (baseLabels c))
    (λ r _, same_source c r.1 ∧ override_possible c r.2).
Proof using All.
  intros Hsrc. unfold reconcileAutoscaling, override_possible. destruct (autoscaling_enabled c) eqn:He.
  2:{ eapply lives_weaken; [apply lives_ret|]. by intros ? ? ->. }
  eapply lives_bind; [by apply lives_signals|]. intros _ w [cm Hcm] Hw. wp_step.
  eapply wp_mono; [apply (wp_read_signals w cm); [by apply Hsrc|done|done]|].
  intros w' [[z b]| |] Hr; [|done|done]. destruct Hr as [Hw' [sig Hz]]. unfold after.
  refine (lives_bind nn c _ _ (λ c' _, same_source c c') _ _ _ w' Hw').
  { destruct b; apply lives_condition. }
  intros c' w2 Hc' Hw2. wp_step. split; [|done]. split; [done|]. exists sig. by rewrite Hz.
Qed.

Lemma lives_shards cl n :
  same_source c cl → kv_NumShards (spec_KVCache (lic_Spec c)) = Some n → 1 <= n → is_int32 n = true →
  lives nn c (computeShardMap cl (baseLabels c)) (λ r _, document_possible nn c r.2).
Proof using All.
  intros [Hm Hs] Hn Hpos Hint. unfold computeShardMap. rewrite Hm, Hs, Hn. simpl.
  eapply lives_bind; [apply lives_call; [intros w Hu; by apply up_list|]|].
  { intros w w' r E. apply (list_stored _ _ _ _ _ E). }
  intros pods w (w0 & Hu0 & Hl) Hw. refine (lives_bind nn c _ _ _ _ (lives_now nn c) _ w Hw).
  intros t w' _ Hw'. wp_step. destruct (shard_map_of_ok pods n t) as (shards & json & E); [lia|done|].
  rewrite E. split; [|done]. exists w0, w, pods, t, shards. by rewrite Hn.
Qed.

(** ** The whole handler *)
Lemma named_source cl : named nn c → same_source c cl → named nn cl.
Proof using All. intros [Hn Hns] [Hm _]. unfold named. by rewrite Hm. Qed.

(** The end of [reconcileActive]. *)
Lemma wp_report orig cl ep w :
  named nn c → same_source c cl → ready_to_run nn c w →
  wp (let cluster := set_observed (om_Generation (lic_Meta cl)) ep cl in
      let! cluster := condition_now cluster conditionReady ConditionTrue "Reconciled"
                        "Resources are reconciled" in
      let! cluster := condition_now cluster conditionDegraded ConditionFalse "Healthy"
                        "No reconciliation errors" in
      let! _ := status_patch cluster orig onerr err => mret (no_requeue, Some err) in
      mret (mkResult (30 * Second), None))
    (λ w' r, match r with
             | Ok b => b = (mkResult (30 * Second), None) ∧ ready_to_run nn c w' | _ => False end) w.
Proof using All.
  intros Hn Hsrc Hw. cbv zeta.
  refine (lives_bind nn c _ _ _ (λ b _, b = _) (lives_condition nn c _ _ _ _ _) _ w Hw).
  intros c1 w1 H1 Hw1. refine (lives_bind nn c _ _ _ (λ b _, b = _) (lives_condition nn c _ _ _ _ _) _ w1 Hw1).
  intros c2 w2 H2 Hw2.
  assert (Hc2 : named nn c2).
  { apply named_source; [done|]. etrans; [|exact H2]. etrans; [|exact H1]. by apply same_source_status. }
  refine (lives_try nn c _ _ _ _ (λ b _, b = _) (lives_call nn c (status_patch c2 orig) _ _) _ w2 Hw2).
  - intros w3 Hu. by apply up_status.
  - intros w3 w4 r E. apply (spatch_stored _ _ _ _ _ E).
  - intros c3 w3 _ Hw3. by wp_step.
Qed.

Lemma lives_active orig n :
  named nn c →
  (autoscaling_enabled c = true →
   sig_Source (as_Signals (spec_Autoscaling (lic_Spec c))) ≠ SignalsSourcePrometheus) →
  kv_NumShards (spec_KVCache (lic_Spec c)) = Some n → 1 <= n → is_int32 n = true →
  lives nn c (reconcileActive orig c) (λ r _, r = (mkResult (30 * Second), None)).
Proof using All.
  intros Hn Hprom Hs Hpos Hint. unfold reconcileActive. cbv zeta.
  eapply lives_try; [by apply lives_autoscaling|]. intros [cl ov] w1 [Hsrc Hov] Hw1. simpl in Hsrc, Hov.
  pose proof Hsrc as [_ Hsp]. pose proof Hports as [Hd Hp]. rewrite Hsp, Hd, Hp. cbn [go_deref].
  refine (lives_bind nn c _ _ (λ z _, z = dp) _ (lives_ret nn c dp) _ w1 Hw1). intros ? w2 -> Hw2.
  refine (lives_try nn c _ _ _ _ _ (lives_role_service cl roleDecode "-decode" dp Hsrc _) _ w2 Hw2);
    [planned|]. intros _ w3 _ Hw3.
  refine (lives_bind nn c _ _ (λ z _, z = pp) _ (lives_ret nn c pp) _ w3 Hw3). intros ? w4 -> Hw4.
  refine (lives_try nn c _ _ _ _ _ (lives_role_service cl rolePrefill "-prefill" pp Hsrc _) _ w4 Hw4);
    [planned|]. intros _ w5 _ Hw5.
  refine (lives_try nn c _ _ _ _ _ (lives_router_service cl Hsrc) _ w5 Hw5). intros _ w6 _ Hw6.
  refine (lives_try nn c _ _ _ _ _ (lives_rbac cl Hsrc) _ w6 Hw6). intros _ w7 _ Hw7.
  refine (lives_try nn c _ _ _ _ _ (lives_role_deployment cl roleDecode "-decode" ov Hsrc _ _) _ w7 Hw7);
    [done|apply (of_plan_some _ ov json0); [done|done|planned_item]|]. intros _ w8 _ Hw8.
  refine (lives_try nn c _ _ _ _ _ (lives_role_deployment cl rolePrefill "-prefill" None Hsrc _ _) _ w8 Hw8);
    [done|planned|]. intros _ w9 _ Hw9.
  refine (lives_try nn c _ _ _ _ _ (lives_router_deployment cl Hsrc) _ w9 Hw9). intros _ w10 _ Hw10.
  refine (lives_try nn c _ _ _ _ _ (lives_shards cl n Hsrc Hs Hpos Hint) _ w10 Hw10).
  intros [shards json] w11 Hj Hw11. simpl in Hj.
  assert (Hsrc2 : same_source c (set_shards shards cl)) by by apply same_source_status.
  refine (lives_try nn c _ _ _ _ _ (lives_shardmap _ json Hsrc2 Hj) _ w11 Hw11). intros _ w12 _ Hw12.
  by apply wp_report.
Qed.
End Handlers.
End Run.

Lemma named_owner nn c c' : named nn c → same_owner c c' → named nn c'.
Proof. intros [Hn Hns] (Hn' & Hns' & _). split; congruence. Qed.

(** Nothing stands in the way of reconciling the cluster: its children are its
    own, the server accepts what is written, and it does not ask for the
    adapter that is not implemented. *)
Definition reconcilable (nn : NamespacedName) c w : Prop :=
  children_free c w ∧ acceptable nn c w ∧
  (autoscaling_enabled c = true →
   sig_Source (as_Signals (spec_Autoscaling (lic_Spec c))) ≠ SignalsSourcePrometheus).

Lemma active_live req orig c w w0 :
  fetched_valid req w → desired_cluster req w c → reconcilable req c w → named req c →
  up req w0 → store_of w ≡ store_of w0 →
  ∃ w', reconcileActive orig c w0 = (w', Ok (mkResult (30 * Second), None)) ∧ up req w'.
Proof.
  intros Hv (w1 & c0 & Hget & Hspec & Hown) (Hfree & Hacc & Hprom) Hn Hu Heq.
  destruct (default_spec_usable _ (Hv _ _ Hget)) as ((dp & Hd & _) & (pp & Hp & _) & n & Hns & Hpos & Hint).
  rewrite <- Hspec in Hd, Hp, Hns.
  assert (Hst : ∀ k m ns, stored k w0 m ns = stored k w m ns) by (intros k m ns; exact (Heq k m ns)).
  assert (Hw0 : ready_to_run w req c w0).
  { split_and!; [done| |].
    - intros k m y Hin Hy. apply (Hfree k m y Hin). by rewrite <- Hst.
    - intros k m. rewrite Hst. constructor. }
  destruct (up_list req (om_Namespace (lic_Meta c)) (roleLabels (baseLabels c) roleDecode) w0 Hu)
    as (w2 & pods & Hl & _).
  destruct (shard_map_of_ok pods n 0) as (shards & json & Hj); [lia|done|].
  assert (Hdoc : document_possible req c json) by (exists w0, w2, pods, 0, shards; by rewrite Hns).
  assert (∃ ov, override_possible c ov) as [ov Hov].
  { unfold override_possible. destruct (autoscaling_enabled c); [|by eexists].
    eexists (Some _), (mkSignals f64_zero f64_zero f64_zero). done. }
  pose proof (lives_active w req c dp pp (conj Hd Hp) Hacc ov json Hov Hdoc orig n Hn Hprom Hns Hpos Hint w0 Hw0)
    as Hwp.
  unfold wp in Hwp. destruct (reconcileActive orig c w0) as [w' [r| |]]; [|done|done].
  destruct Hwp as [-> [Hu' _]]. by exists w'.
Qed.


End Live.

(** ** The in-memory server makes progress *)
Definition mem_up (nn : NamespacedName) (w : memory) : Prop :=
  ∃ c, mem_clusters w !! (nn_Name nn, nn_Namespace nn) = Some c ∧ named nn c.

Lemma mem_find_up nn c w : mem_up nn w → named nn c → ∃ s, mem_find c w = Some s ∧ named nn s.
Proof. intros (s & Hs & Hn) [Hc Hc']. exists s. unfold mem_find. by rewrite Hc, Hc'. Qed.

Lemma put_cluster_up nn c w : named nn c → mem_up nn (put_cluster c w).
Proof. intros [Hn Hns]. exists c. split; [|done]. simpl. rewrite Hn, Hns. apply lookup_insert_eq. Qed.

Lemma mem_write_up nn c w : mem_up nn w → named nn c → ∃ w' c', mem_write c w = (w', Ok c') ∧ mem_up nn w'.
Proof.
  intros Hu Hc. destruct (mem_find_up nn c w Hu Hc) as (s & Hs & _). unfold mem_write. rewrite Hs.
  eexists _, _. split; [done|]. by apply put_cluster_up.
Qed.

Lemma mem_write_status_up nn c w :
  mem_up nn w → named nn c → ∃ w' c', mem_write_status c w = (w', Ok c') ∧ mem_up nn w'.
Proof.
  intros Hu Hc. destruct (mem_find_up nn c w Hu Hc) as (s & Hs & Hn). unfold mem_write_status. rewrite Hs.
  eexists _, _. split; [done|]. by apply put_cluster_up.
Qed.

#[export] Program Instance memory_live : LiveClient memory :=
  {| up := mem_up; accepts k _ y := has_container k y = true |}.
Next Obligation.
  intros nn w (c & Hc & Hn). exists w, c. simpl. rewrite Hc. split_and!; [done| |done]. by exists c.
Qed.
Next Obligation. intros nn c o w. apply mem_write_up. Qed.
Next Obligation. intros nn c w. apply mem_write_up. Qed.
Next Obligation. intros nn c o w. apply mem_write_status_up. Qed.
Next Obligation.
  intros nn k n ns f w y (c & Hc & Hn) Hy Hname Hns Hcont. simpl in *. unfold mem_create_or_update.
  rewrite Hy. unfold mem_valid. rewrite Hcont, !bool_decide_eq_true_2 by done.
  eexists. split; [done|]. exists c. split; [|done]. by destruct k.
Qed.
Next Obligation.
  intros nn n ns cm w Hu. simpl. unfold mem_stored, mem_lookup.
  destruct (mem_configmaps w !! (n, ns)) as [y|]; [|done]. intros _. by exists w, y.
Qed.
Next Obligation. intros nn ns l w Hu. by eexists _, _. Qed.
Next Obligation. intros nn w w' t (c & Hc & Hn) [= <- _]. by exists c. Qed.

(** Every Deployment of a plan has a container. *)
Lemma plan_has_container c dp pp ov json it x y :
  it ∈ plan c dp pp ov json → it_mutate it x = Ok y → has_container (it_kind it) y = true.
Proof.
  unfold plan, role_items, signals_items, rbac_items, deployment_items.
  rewrite !elem_of_app, !elem_of_cons, !elem_of_nil. intros Hin Hy. destruct Hin as [Hin|Hin].
  { destruct (autoscaling_enabled c); [|by apply elem_of_nil in Hin].
    by apply list_elem_of_singleton in Hin as ->. }
  destruct_or! Hin; subst; try done; cbn [it_mutate it_kind role_deployment router_deployment] in *;
    unfold mutate_role_deployment, mutate_router_deployment in Hy;
    apply rbind_ok in Hy as (cs & (? & z & l & _ & ->)%update_first_shape & Hy);
    apply rbind_ok in Hy as (m & _ & [= <-]); done.
Qed.

Lemma sample_reconcilable c :
  desired_cluster sample_req (world_of sample_cluster) c →
  reconcilable sample_req c (world_of sample_cluster).
Proof.
  intros (w1 & c0 & E & Hs & Ho). vm_compute in E. injection E as <- <-. split_and!.
  - intros k n y _ Hy. exfalso. by destruct k.
  - intros it old y (dp & pp & ov & json & _ & _ & _ & Hit) _. by eapply plan_has_container.
  - intros _. by rewrite Hs.
Qed.

