(* ===== verification/Setup.v ===== *)
(** * Registering the types and the controller

    src/api/v1alpha1/groupversion_info.go and the [init] of
    llminferencecluster_types.go (the types of the API group in a scheme), the
    [init] of src/cmd/main.go, and [SetupWithManager] of
    src/internal/controller/llminferencecluster_controller.go (which objects
    the controller watches).  The scheme and the controller builder of
    controller-runtime are parameters. *)
From S2P Require Import Prelude Strconv Types Defaults Kube Signals Autoscale Resources Shards Reconcile Laws Memory Sample Plan Refine Children.
From stdpp Require Import options.

(** ** Kinds of a group and version *)
Record GroupVersion := mkGV { gv_Group : string; gv_Version : string }.
#[export] Instance GroupVersion_eq_dec : EqDecision GroupVersion.
Proof. solve_decision. Defined.

Record GVK := mkGVK { gvk_GV : GroupVersion; gvk_Kind : string }.
#[export] Instance GVK_eq_dec : EqDecision GVK.
Proof. solve_decision. Defined.

Definition SchemeGroupVersion : GroupVersion := mkGV "inference.llm.io" "v1alpha1".
Definition GV_alias : GroupVersion := SchemeGroupVersion.

(** [scheme.Builder]: the kinds registered so far. *)
Record SchemeBuilder := mkBuilder { sb_GroupVersion : GroupVersion; sb_objects : list string }.

Definition Register (kinds : list string) (b : SchemeBuilder) : SchemeBuilder :=
  mkBuilder (sb_GroupVersion b) (sb_objects b ++ kinds).

Definition new_builder : SchemeBuilder := mkBuilder SchemeGroupVersion [].

(** The builder after the [init] functions of the package. *)
Definition api_builder : SchemeBuilder :=
  Register ["LLMInferenceCluster"; "LLMInferenceClusterList"] new_builder.

Definition builder_kinds (b : SchemeBuilder) : list GVK := mkGVK (sb_GroupVersion b) <$> sb_objects b.

(** The Go types of the objects that the operator manages. *)
Definition kind_gvk (k : kind) : GVK :=
  match k with
  | KService => mkGVK (mkGV emp "v1") "Service"
  | KDeployment => mkGVK (mkGV "apps" "v1") "Deployment"
  | KConfigMap => mkGVK (mkGV emp "v1") "ConfigMap"
  | KServiceAccount => mkGVK (mkGV emp "v1") "ServiceAccount"
  | KRole => mkGVK (mkGV "rbac.authorization.k8s.io" "v1") "Role"
  | KRoleBinding => mkGVK (mkGV "rbac.authorization.k8s.io" "v1") "RoleBinding"
  end.
Definition cluster_gvk : GVK := mkGVK SchemeGroupVersion "LLMInferenceCluster".

(** ** The scheme *)
Class SchemeAPI := {
  Scheme : Type;
  NewScheme : Scheme;
  builder_AddToScheme : SchemeBuilder → Scheme → result Scheme;
  clientgo_AddToScheme : Scheme → result Scheme;
  Recognizes : Scheme → GVK → bool }.

(** Documented behaviour: a builder adds the kinds registered with it (a
    version must be given), client-go adds the built-in kinds, and neither
    forgets a kind. *)
Class SchemeLaws `{SchemeAPI} := {
  builder_adds b s : gv_Version (sb_GroupVersion b) ≠ emp →
    ∃ s', builder_AddToScheme b s = Ok s' ∧
      ∀ g, Recognizes s' g = Recognizes s g || bool_decide (g ∈ builder_kinds b);
  clientgo_adds s : ∃ s', clientgo_AddToScheme s = Ok s' ∧
      (∀ k, Recognizes s' (kind_gvk k) = true) ∧
      ∀ g, Recognizes s g = true → Recognizes s' g = true }.

(** [utilruntime.Must]. *)
Definition Must {A : Type} (r : result A) : result A :=
  match r with Err e => Panic (Error e) | _ => r end.

(** [AddToScheme] of the package, and the [init] of the command. *)
Definition AddToScheme `{SchemeAPI} : Scheme → result Scheme := builder_AddToScheme api_builder.

Definition main_scheme `{SchemeAPI} : result Scheme :=
  let? s := Must (clientgo_AddToScheme NewScheme) in
  Must (AddToScheme s).

(** ** The controller *)
Record controller := mkController { c_For : GVK; c_Owns : list GVK; c_Named : string }.

Definition llm_controller : controller :=
  mkController cluster_gvk [kind_gvk KDeployment; kind_gvk KService; kind_gvk KConfigMap]
    "llminferencecluster".

(** [Complete] of the builder is a parameter. *)
Definition SetupWithManager {W : Type} (Complete : controller → M W unit) : M W unit :=
  Complete llm_controller.

(** ** Which changes wake the controller

    [requests c g m] are the requests that a change of an object of kind [g]
    with metadata [m] enqueues: documented of [For] (the object itself) and
    [Owns] (the controller of the object, if it is of the group and kind of
    [For]). *)
Definition owned_kind (c : controller) (r : OwnerReference) : Prop :=
  api_group (or_APIVersion r) = gv_Group (gvk_GV (c_For c)) ∧ or_Kind r = gvk_Kind (c_For c).
#[export] Instance owned_kind_dec c r : Decision (owned_kind c r).
Proof. unfold owned_kind. apply _. Defined.

Class Watches := { requests : controller → GVK → ObjectMeta → list NamespacedName }.

Class WatchLaws `{Watches} := {
  for_requests c m : requests c (c_For c) m = [mkNN (om_Namespace m) (om_Name m)];
  owns_requests c g m r : g ∈ c_Owns c → g ≠ c_For c → controller_of m = Some r →
    requests c g m =
      (if bool_decide (owned_kind c r) then [mkNN (om_Namespace m) (or_Name r)] else []);
  other_requests c g m : g ≠ c_For c → g ∉ c_Owns c → requests c g m = [] }.

Definition watched (k : kind) : bool :=
  match k with KDeployment | KService | KConfigMap => true | _ => false end.

Lemma kind_gvk_cluster k : kind_gvk k ≠ cluster_gvk.
Proof. by destruct k. Qed.

Lemma watched_owns k : watched k = true ↔ kind_gvk k ∈ c_Owns llm_controller.
Proof.
  rewrite <- (bool_decide_eq_true (kind_gvk k ∈ _)). by destruct k.
Qed.

(** The command can build its controller: the scheme it hands to the
    manager is built without a panic and knows the custom resource, its list
    type, every kind the controller watches and every kind it writes. *)
Lemma scheme_complete `{SchemeLaws} :
  ∃ s, main_scheme = Ok s ∧ Recognizes s (c_For llm_controller) = true ∧
    Recognizes s (mkGVK SchemeGroupVersion "LLMInferenceClusterList") = true ∧
    (∀ g, g ∈ c_Owns llm_controller → Recognizes s g = true) ∧
    (∀ k, Recognizes s (kind_gvk k) = true).
Proof.
  destruct (clientgo_adds NewScheme) as (s1 & E1 & Hk & _).
  destruct (builder_adds api_builder s1) as (s2 & E2 & Hr); [done|].
  exists s2. unfold main_scheme, AddToScheme. rewrite E1. simpl. rewrite E2.
  split_and!; [done|by rewrite Hr, orb_true_r..| |intros k; by rewrite Hr, Hk].
  intros g Hg. change (g ∈ [kind_gvk KDeployment; kind_gvk KService; kind_gvk KConfigMap]) in Hg.
  assert (∃ k, g = kind_gvk k) as [k ->] by (rewrite !elem_of_cons, elem_of_nil in Hg;
      destruct Hg as [Hg|[Hg|[Hg|[]]]]; by eexists).
  by rewrite Hr, Hk.
Qed.

Section Wake.
Context {W : Type} `{!Client W} `{!StoreLaws W} `{!Machinery} `{!MachineryLaws}.
Context {HW : Watches} {LW : WatchLaws}.

(** C34: after a successful reconciliation the controller notices changes of its
    children: a change of a Deployment, Service or ConfigMap of the cluster
    enqueues exactly that cluster, and a change of the resource itself enqueues
    it; but a change of the ServiceAccount, Role or RoleBinding, which the
    cluster owns as well, enqueues nothing, so it is only repaired by the next
    periodic reconciliation. *)
Theorem children_are_watched (req : NamespacedName) (w w' : W) :
  fetched_valid req w →
  Reconcile req w = (w', Ok (mkResult (30 * Second), None)) →
  ∃ c, desired_cluster req w c ∧
    requests llm_controller cluster_gvk (lic_Meta c) =
      [mkNN (om_Namespace (lic_Meta c)) (om_Name (lic_Meta c))] ∧
    ∀ k n, (k, n) ∈ child_keys c →
      ∃ y, stored k w' n (om_Namespace (lic_Meta c)) = Some y ∧
        requests llm_controller (kind_gvk k) (obj_meta y) =
          (if watched k then [mkNN (om_Namespace (lic_Meta c)) (om_Name (lic_Meta c))] else []).
Proof using All.
  intros Hv E. destruct (owned_children req w w' Hv E) as (c & Hc & Hk). exists c.
  split_and!; [done|apply (for_requests llm_controller)|].
  intros k n Hin. destruct (Hk k n Hin) as (y & Hs & Hns & _ & r & Hr & Hrv & Hrk & Hrn & _).
  exists y. split; [done|]. destruct (watched k) eqn:Ew.
  - rewrite (owns_requests llm_controller _ _ r); [|by apply watched_owns|apply kind_gvk_cluster|done].
    by rewrite bool_decide_eq_true_2, Hns, Hrn by (unfold owned_kind; by rewrite Hrv).
  - apply other_requests; [apply kind_gvk_cluster|]. rewrite <- watched_owns. by rewrite Ew.
Qed.
End Wake.

(** ** A scheme and watches as documented *)
Definition list_scheme : SchemeAPI := {|
  Scheme := list GVK; NewScheme := [];
  builder_AddToScheme b s :=
    if bool_decide (gv_Version (sb_GroupVersion b) = emp) then Panic "version is required on all types"
    else Ok (s ++ builder_kinds b);
  clientgo_AddToScheme s :=
    Ok (s ++ (kind_gvk <$> [KService; KDeployment; KConfigMap; KServiceAccount; KRole; KRoleBinding]));
  Recognizes s g := bool_decide (g ∈ s) |}.

Lemma list_scheme_laws : SchemeLaws (H:=list_scheme).
Proof.
  split; cbn.
  - intros b s Hv. rewrite bool_decide_eq_false_2 by done. eexists. split; [done|].
    intros g. apply Bool.eq_iff_eq_true. rewrite orb_true_iff, !bool_decide_eq_true. apply elem_of_app.
  - intros s. eexists. split; [done|]. split.
    + intros k. apply bool_decide_eq_true_2, elem_of_app. right. destruct k; set_solver.
    + intros g. rewrite !bool_decide_eq_true. set_solver.
Qed.

Lemma scheme_complete_witness : ∃ s, main_scheme (H:=list_scheme) = Ok s ∧
  Recognizes s cluster_gvk = true.
Proof.
  destruct (scheme_complete (H:=list_scheme) (H0:=list_scheme_laws)) as (s & E & Hs & _).
  by exists s.
Defined.

Definition owner_watches : Watches := {|
  requests c g m :=
    if bool_decide (g = c_For c) then [mkNN (om_Namespace m) (om_Name m)]
    else if bool_decide (g ∈ c_Owns c) then
      match controller_of m with
      | Some r => if bool_decide (owned_kind c r)
                  then [mkNN (om_Namespace m) (or_Name r)] else []
      | None => []
      end
    else [] |}.

Lemma owner_watches_laws : WatchLaws (H:=owner_watches).
Proof.
  split; cbn.
  - intros c m. by rewrite bool_decide_eq_true_2.
  - intros c g m r Hg Hf Hr. rewrite (bool_decide_eq_false_2 (g = c_For c)) by done.
    by rewrite (bool_decide_eq_true_2 (g ∈ c_Owns c)), Hr by done.
  - intros c g m Hf Hg. rewrite (bool_decide_eq_false_2 (g = c_For c)) by done.
    by rewrite (bool_decide_eq_false_2 (g ∈ c_Owns c)).
Qed.

Lemma children_are_watched_witness :
  ∃ c, desired_cluster sample_req (world_of sample_cluster) c ∧
    ∀ k n, (k, n) ∈ child_keys c →
      ∃ y, stored k (reconciled (world_of sample_cluster)) n (om_Namespace (lic_Meta c)) = Some y ∧
        requests (Watches:=owner_watches) llm_controller (kind_gvk k) (obj_meta y) =
          (if watched k then [mkNN (om_Namespace (lic_Meta c)) (om_Name (lic_Meta c))] else []).
Proof.
  destruct (children_are_watched (HW:=owner_watches) (LW:=owner_watches_laws) sample_req _ _
              sample_valid sample_run) as (c & Hc & _ & Hk).
  by exists c.
Defined.
