(* ===== verification/Manager.v ===== *)
(** * The manager command

    src/cmd/main.go: the command line, the options of the webhook server, the
    metrics server and the manager, and the order and exit statuses of the
    start-up.  The flags that zap and controller-runtime register, and the
    manager itself, are parameters. *)
From S2P Require Import Prelude Strconv Float64 Flags Types Kube Setup.
From stdpp Require Import options.

(** ** Flags *)
Record certFlags := mkCert { certPath : string; certName : string; certKey : string }.

Record managerFlags := mkManagerFlags {
  metricsAddr : string;
  probeAddr : string;
  enableLeaderElection : bool;
  secureMetrics : bool;
  webhookCert : certFlags;
  metricsCert : certFlags;
  enableHTTP2 : bool }.

Definition manager_defaults : managerFlags :=
  mkManagerFlags "0" ":8081" false true (mkCert emp "tls.crt" "tls.key") (mkCert emp "tls.crt" "tls.key")
    false.

Definition set_metricsAddr v f := mkManagerFlags v (probeAddr f) (enableLeaderElection f)
  (secureMetrics f) (webhookCert f) (metricsCert f) (enableHTTP2 f).
Definition set_probeAddr v f := mkManagerFlags (metricsAddr f) v (enableLeaderElection f)
  (secureMetrics f) (webhookCert f) (metricsCert f) (enableHTTP2 f).
Definition set_leader v f := mkManagerFlags (metricsAddr f) (probeAddr f) v
  (secureMetrics f) (webhookCert f) (metricsCert f) (enableHTTP2 f).
Definition set_secure v f := mkManagerFlags (metricsAddr f) (probeAddr f) (enableLeaderElection f)
  v (webhookCert f) (metricsCert f) (enableHTTP2 f).
Definition set_webhook_cert (g : certFlags → certFlags) f := mkManagerFlags (metricsAddr f) (probeAddr f)
  (enableLeaderElection f) (secureMetrics f) (g (webhookCert f)) (metricsCert f) (enableHTTP2 f).
Definition set_metrics_cert (g : certFlags → certFlags) f := mkManagerFlags (metricsAddr f) (probeAddr f)
  (enableLeaderElection f) (secureMetrics f) (webhookCert f) (g (metricsCert f)) (enableHTTP2 f).
Definition set_http2 v f := mkManagerFlags (metricsAddr f) (probeAddr f) (enableLeaderElection f)
  (secureMetrics f) (webhookCert f) (metricsCert f) v.

Definition set_path v c := mkCert v (certName c) (certKey c).
Definition set_name v c := mkCert (certPath c) v (certKey c).
Definition set_key v c := mkCert (certPath c) (certName c) v.

Definition manager_flags : list (string * flag managerFlags) :=
  [("metrics-bind-address", StringVar set_metricsAddr);
   ("health-probe-bind-address", StringVar set_probeAddr);
   ("leader-elect", BoolVar set_leader);
   ("metrics-secure", BoolVar set_secure);
   ("webhook-cert-path", StringVar (λ v, set_webhook_cert (set_path v)));
   ("webhook-cert-name", StringVar (λ v, set_webhook_cert (set_name v)));
   ("webhook-cert-key", StringVar (λ v, set_webhook_cert (set_key v)));
   ("metrics-cert-path", StringVar (λ v, set_metrics_cert (set_path v)));
   ("metrics-cert-name", StringVar (λ v, set_metrics_cert (set_name v)));
   ("metrics-cert-key", StringVar (λ v, set_metrics_cert (set_key v)));
   ("enable-http2", BoolVar set_http2)].

(** The command line with the flags that other packages registered, which set
    a state of their own. *)
Section CommandLine.
Context {X : Type} (foreign : string → option (flag X)).

Definition own_flag (f : flag managerFlags) : flag (managerFlags * X) :=
  mkFlag (IsBoolFlag f) (λ v mx, (λ m, (m, mx.2)) <$> Set_ f v mx.1).
Definition foreign_flag (f : flag X) : flag (managerFlags * X) :=
  mkFlag (IsBoolFlag f) (λ v mx, (λ x, (mx.1, x)) <$> Set_ f v mx.2).

Definition manager_lookup (name : string) : option (flag (managerFlags * X)) :=
  match find_flag manager_flags name with
  | Some f => Some (own_flag f)
  | None => foreign_flag <$> foreign name
  end.

Definition manager_parse (x0 : X) (args : list string) : parsed (managerFlags * X) :=
  flag_parse manager_lookup (manager_defaults, x0) args.
End CommandLine.

(** ** Options *)

(** [tls.Config], with the field that is set here. *)
Record tlsConfig := mkTLS { NextProtos : list string; tls_other : list (string * string) }.

Definition disableHTTP2 (c : tlsConfig) : tlsConfig := mkTLS ["http/1.1"] (tls_other c).

Definition tlsOpts (f : managerFlags) : list (tlsConfig → tlsConfig) :=
  if enableHTTP2 f then [] else [disableHTTP2].

Record webhookOptions := mkWebhookOptions {
  wo_TLSOpts : list (tlsConfig → tlsConfig);
  wo_CertDir : string; wo_CertName : string; wo_KeyName : string }.

Definition webhookServerOptions (f : managerFlags) : webhookOptions :=
  let o := mkWebhookOptions (tlsOpts f) emp emp emp in
  let c := webhookCert f in
  if (0 <? String.length (certPath c))%nat
  then mkWebhookOptions (wo_TLSOpts o) (certPath c) (certName c) (certKey c) else o.

Inductive filterProvider := WithAuthenticationAndAuthorization.

Record metricsOptions := mkMetricsOptions {
  mo_BindAddress : string;
  mo_SecureServing : bool;
  mo_TLSOpts : list (tlsConfig → tlsConfig);
  mo_FilterProvider : option filterProvider;
  mo_CertDir : string; mo_CertName : string; mo_KeyName : string }.

Definition metricsServerOptions (f : managerFlags) : metricsOptions :=
  let filter := if secureMetrics f then Some WithAuthenticationAndAuthorization else None in
  let o := mkMetricsOptions (metricsAddr f) (secureMetrics f) (tlsOpts f) filter emp emp emp in
  let c := metricsCert f in
  if (0 <? String.length (certPath c))%nat
  then mkMetricsOptions (mo_BindAddress o) (mo_SecureServing o) (mo_TLSOpts o) (mo_FilterProvider o)
         (certPath c) (certName c) (certKey c)
  else o.

Record managerOptions (S : Type) := mkManagerOptions {
  mgr_Scheme : S;
  mgr_Metrics : metricsOptions;
  mgr_WebhookServer : webhookOptions;
  mgr_HealthProbeBindAddress : string;
  mgr_LeaderElection : bool;
  mgr_LeaderElectionID : string }.
Arguments mkManagerOptions {S}.

Definition manager_options {S : Type} (scheme : S) (f : managerFlags) : managerOptions S :=
  mkManagerOptions scheme (metricsServerOptions f) (webhookServerOptions f) (probeAddr f)
    (enableLeaderElection f) "dd64864b.llm.io".

(** ** Start-up

    The calls that [main] makes into controller-runtime; each may fail. *)
Class ManagerAPI (S W : Type) := {
  GetConfigOrDie : M W unit;
  NewManager : managerOptions S → M W unit;
  Complete : controller → M W unit;
  AddHealthzCheck : string → M W unit;
  AddReadyzCheck : string → M W unit;
  Start : M W unit }.

Section Main.
Context {S W X : Type} `{!ManagerAPI S W} (foreign : string → option (flag X)) (x0 : X).

(** [if err := m(); err != nil { os.Exit(1) }]. *)
Definition or_exit (m : M W unit) (k : M W Z) : M W Z :=
  let! _ := m onerr _e => mret 1 in k.

(** The status the process exits with; [mgr.Start] returns when the process
    is asked to stop. *)
Definition manager_main (scheme : S) (args : list string) : M W Z :=
  match manager_parse foreign x0 args with
  | Exit c => mret c
  | Parsed (f, _) =>
      or_exit GetConfigOrDie (
      or_exit (NewManager (manager_options scheme f)) (
      or_exit (SetupWithManager Complete) (
      or_exit (AddHealthzCheck "healthz") (
      or_exit (AddReadyzCheck "readyz") (
      or_exit Start (mret 0))))))
  end.
End Main.

(** ** The servers are hardened by default *)
Definition apply_tls (opts : list (tlsConfig → tlsConfig)) (c : tlsConfig) : tlsConfig :=
  foldl (λ c o, o c) c opts.

(** The command line sets the boolean flag [name] to [b]. *)
Definition asks (args : list string) (name : string) (b : bool) : Prop :=
  ∃ s w, s ∈ args ∧ classify s = ArgFlag name w ∧ ParseBool (default "true"%string w) = Some b.

Lemma find_flag_elem {A} (fs : list (string * flag A)) name f :
  find_flag fs name = Some f → (name, f) ∈ fs.
Proof.
  induction fs as [|[n g] fs IH]; simpl; [done|]. case_bool_decide; [intros [= <-]; subst; left|right; auto].
Qed.

Section Hardened.
Context {X : Type} (foreign : string → option (flag X)) (x0 : X).

(** A field that only the boolean flag [name] sets: it has its default unless
    the command line asks for the other value. *)
Lemma bool_flag_asked (field : managerFlags → bool) set name args f x :
  (∀ n g, (n, g) ∈ manager_flags → n ≠ name →
     ∀ v a a', Set_ g v a = Some a' → field a' = field a) →
  find_flag manager_flags name = Some (BoolVar set) → (∀ b a, field (set b a) = b) →
  manager_parse foreign x0 args = Parsed (f, x) →
  field f = field manager_defaults ∨ asks args name (negb (field manager_defaults)).
Proof.
  intros Hother Hfind Hset Hp.
  apply (flag_parse_keeps _ (λ mx, field mx.1 = field manager_defaults ∨
           asks args name (negb (field manager_defaults))) (length args)) in Hp; [done|done|by left|].
  intros s n w g v [a y] [a' y'] Hs Hc Hl Hv Hstep Hx. cbn [fst snd] in *. unfold manager_lookup in Hl.
  destruct (decide (n = name)) as [->|Hne].
  - rewrite Hfind in Hl. injection Hl as <-. cbn in Hv, Hstep. specialize (Hv eq_refl) as ->.
    destruct (ParseBool (default "true" w)) as [b|] eqn:Eb; [|done]. injection Hstep as <- _.
    rewrite Hset. destruct (decide (b = field manager_defaults)) as [->|Hb]; [by left|right].
    exists s, w. split_and!; [done|done|]. rewrite Eb. f_equal.
    by destruct b, (field manager_defaults).
  - destruct (find_flag manager_flags n) as [g'|] eqn:Eg.
    + injection Hl as <-. cbn in Hstep. apply find_flag_elem in Eg.
      destruct (Set_ g' v a) as [a1|] eqn:E1; [|done]. injection Hstep as <- _.
      by rewrite (Hother n g' Eg Hne v a a1 E1).
    + destruct (foreign n) as [g'|]; [|done]. injection Hl as <-. cbn in Hstep.
      destruct (Set_ g' v y); [|done]. by injection Hstep as <- _.
Qed.

(** The other flags leave the field alone. *)
#[local] Ltac other_flags :=
  intros n g Hin Hne v a a' Hs; unfold manager_flags in Hin; rewrite !elem_of_cons, elem_of_nil in Hin;
  destruct_or! Hin; try done; injection Hin as -> ->; try done; simpl in Hs;
  try (destruct (ParseBool v); [|done]); by injection Hs as <-.

Lemma http2_asked args f x :
  manager_parse foreign x0 args = Parsed (f, x) → enableHTTP2 f = true → asks args "enable-http2" true.
Proof.
  intros Hp Hf. destruct (bool_flag_asked enableHTTP2 set_http2 "enable-http2" args f x) as [E|E]; try done.
  - other_flags.
  - by rewrite Hf in E.
Qed.

Lemma insecure_asked args f x :
  manager_parse foreign x0 args = Parsed (f, x) → secureMetrics f = false →
  asks args "metrics-secure" false.
Proof.
  intros Hp Hf. destruct (bool_flag_asked secureMetrics set_secure "metrics-secure" args f x) as [E|E]; try done.
  - other_flags.
  - by rewrite Hf in E.
Qed.

(** C37: the servers are hardened unless the command line asks otherwise:
    whatever flags other packages add, the TLS options of the webhook and
    metrics servers leave only HTTP/1.1 unless [--enable-http2] is given with
    a true value, and the metrics endpoint is served over TLS with
    authentication and authorization unless [--metrics-secure] is given with
    a false value; a certificate is configured exactly when its directory is
    given. *)
Theorem servers_hardened (args : list string) (f : managerFlags) (x : X) :
  manager_parse foreign x0 args = Parsed (f, x) →
  (asks args "enable-http2" true ∨
   ∀ c, NextProtos (apply_tls (wo_TLSOpts (webhookServerOptions f)) c) = ["http/1.1"] ∧
        NextProtos (apply_tls (mo_TLSOpts (metricsServerOptions f)) c) = ["http/1.1"]) ∧
  (asks args "metrics-secure" false ∨
   mo_SecureServing (metricsServerOptions f) = true ∧
   mo_FilterProvider (metricsServerOptions f) = Some WithAuthenticationAndAuthorization) ∧
  (wo_CertDir (webhookServerOptions f) ≠ emp ↔ certPath (webhookCert f) ≠ emp) ∧
  (mo_CertDir (metricsServerOptions f) ≠ emp ↔ certPath (metricsCert f) ≠ emp).
Proof.
  intros Hp. split_and!.
  - destruct (enableHTTP2 f) eqn:E; [left; by eapply http2_asked|right]. intros c.
    unfold webhookServerOptions, metricsServerOptions, tlsOpts. rewrite E. by repeat case_match.
  - destruct (secureMetrics f) eqn:E; [right|left; by eapply insecure_asked].
    unfold metricsServerOptions. rewrite E. by repeat case_match.
  - unfold webhookServerOptions. destruct (certPath (webhookCert f)) eqn:E; cbn; by rewrite ?E.
  - unfold metricsServerOptions. destruct (certPath (metricsCert f)) eqn:E; cbn; by rewrite ?E.
Qed.
End Hardened.

(** ** Start-up *)
Section Startup.
Context {S W X : Type} `{HM : !ManagerAPI S W} (foreign : string → option (flag X)) (x0 : X).

Definition startup (scheme : S) (f : managerFlags) : list (M W unit) :=
  [GetConfigOrDie; NewManager (manager_options scheme f); SetupWithManager Complete;
   AddHealthzCheck "healthz"; AddReadyzCheck "readyz"; Start].

(** The calls succeed one after the other. *)
Fixpoint all_ok (ms : list (M W unit)) (w w' : W) : Prop :=
  match ms with
  | [] => w' = w
  | m :: ms' => ∃ w1, m w = (w1, Ok tt) ∧ all_ok ms' w1 w'
  end.

(** Some call fails, and none after it is made. *)
Definition stopped_at (ms : list (M W unit)) (w w' : W) : Prop :=
  ∃ pre m post w1 e, ms = pre ++ m :: post ∧ all_ok pre w w1 ∧ m w1 = (w', Err e).

Lemma or_exit_run (m : M W unit) (k : M W Z) (ms : list (M W unit)) w w' code :
  (∀ w1 code, k w1 = (w', Ok code) →
     (code = 0 ∧ all_ok ms w1 w') ∨ (code = 1 ∧ stopped_at ms w1 w')) →
  or_exit m k w = (w', Ok code) →
  (code = 0 ∧ all_ok (m :: ms) w w') ∨ (code = 1 ∧ stopped_at (m :: ms) w w').
Proof.
  intros Hk. unfold or_exit, mtry. destruct (m w) as [w1 [[]|e|p]] eqn:Em; [|intros [= <- <-]|done].
  - intros [[-> Hok]|[-> (pre & m' & post & w2 & e & -> & Hok & He)]]%Hk.
    + left. split; [done|]. by exists w1.
    + right. split; [done|]. exists (m :: pre), m', post, w2, e. split_and!; [done| |done]. by exists w1.
  - right. split; [done|]. by exists [], m, ms, w, e.
Qed.

(** C38: the exit status tells how the start-up went: a command line that is not
    accepted exits with status 2, or 0 after asking for help, before anything
    is called; otherwise the status is 0 only when the manager was built, the
    controller and both probes were registered and the manager ran to its end,
    and 1 when one of these failed, in which case none of the later ones was
    tried. *)
Theorem manager_exit_status (scheme : S) (args : list string) (w w' : W) (code : Z) :
  manager_main foreign x0 scheme args w = (w', Ok code) →
  match manager_parse foreign x0 args with
  | Exit c => code = c ∧ w' = w ∧ (c = 0 ∨ c = 2)
  | Parsed (f, _) =>
      (code = 0 ∧ all_ok (startup scheme f) w w') ∨ (code = 1 ∧ stopped_at (startup scheme f) w w')
  end.
Proof.
  unfold manager_main. destruct (manager_parse foreign x0 args) as [[f x]|c] eqn:Ep.
  - unfold startup. repeat (apply or_exit_run; intros ? ?). intros [= -> <-]. by left.
  - intros [= -> ->]. split_and!; [done|done|]. by eapply flag_parse_exit.
Qed.
End Startup.

(** ** A manager that records its calls and fails at one of them *)
Inductive mcall := CConfig | CNew (leader : bool) | CController (name : string)
| CHealthz | CReadyz | CStart.
#[export] Instance mcall_eq_dec : EqDecision mcall.
Proof. solve_decision. Defined.

Definition record (bad : option mcall) (c : mcall) : M (list mcall) unit :=
  λ w, (w ++ [c], if bool_decide (bad = Some c) then Err (errors_New "failed") else Ok tt).

Definition recorder (bad : option mcall) : ManagerAPI unit (list mcall) := {|
  GetConfigOrDie := record bad CConfig;
  NewManager o := record bad (CNew (mgr_LeaderElection _ o));
  Complete c := record bad (CController (c_Named c));
  AddHealthzCheck _ := record bad CHealthz;
  AddReadyzCheck _ := record bad CReadyz;
  Start := record bad CStart |}.

Definition zap_devel (name : string) : option (flag bool) :=
  if bool_decide (name = "zap-devel") then Some (BoolVar (λ b _, b)) else None.

Definition deploy_args : list string :=
  ["--metrics-bind-address=:8443"; "--leader-elect"; "--zap-devel=false";
   "--health-probe-bind-address"; ":8081"].

Lemma servers_hardened_witness :
  ∃ f, manager_parse zap_devel true deploy_args = Parsed (f, false) ∧
    metricsAddr f = ":8443" ∧
    (asks deploy_args "enable-http2" true ∨
     ∀ c, NextProtos (apply_tls (wo_TLSOpts (webhookServerOptions f)) c) = ["http/1.1"] ∧
          NextProtos (apply_tls (mo_TLSOpts (metricsServerOptions f)) c) = ["http/1.1"]).
Proof.
  eexists. split; [vm_compute; reflexivity|]. split; [reflexivity|].
  eapply (servers_hardened zap_devel true deploy_args). vm_compute. reflexivity.
Defined.

Lemma manager_exit_status_witness :
  manager_main (ManagerAPI0:=recorder (Some CHealthz)) zap_devel true tt deploy_args [] =
    ([CConfig; CNew true; CController "llminferencecluster"; CHealthz], Ok 1) ∧
  ∃ f, stopped_at (startup (HM:=recorder (Some CHealthz)) tt f) []
         [CConfig; CNew true; CController "llminferencecluster"; CHealthz].
Proof.
  assert (E : manager_main (ManagerAPI0:=recorder (Some CHealthz)) zap_devel true tt deploy_args [] =
    ([CConfig; CNew true; CController "llminferencecluster"; CHealthz], Ok 1))
    by (vm_compute; reflexivity).
  split; [exact E|].
  pose proof (manager_exit_status (HM:=recorder (Some CHealthz)) zap_devel true tt deploy_args _ _ _ E) as Hs.
  destruct (manager_parse zap_devel true deploy_args) as [[f x]|c] eqn:Ep; [|vm_compute in Ep; discriminate Ep].
  exists f. destruct Hs as [[Hc _]|[_ Hs]]; [discriminate Hc|exact Hs].
Defined.
