(* ===== verification/Deployed.v ===== *)
(** * The workers that the operator deploys

    The stored Services and Deployments of the two worker roles together with
    the command they run: which role a worker takes, which address it listens
    on, and whether the Service of its role leads to that address. *)
From S2P Require Import Prelude Strconv Types Defaults Kube Resources Shards Reconcile Laws Trace Memory Hoare Sample Calls Outcome Plan Refine Children Router Flags RouterMain MockWorker.
From stdpp Require Import options.
#[local] Set Default Proof Using "Type*".

(** ** Addresses

    A listen address is [host:port], split at the last colon; the port is a
    number or a service name that [net.LookupPort] resolves, and an empty
    address stands for [:http].  A listener on no host takes the traffic of
    every interface, one on a host only that of the interface the host names:
    whether it gets what a Service sends to the pod is up to the network of
    the pod ([127.0.0.1] does not, the pod's own address does). *)
Definition is_colon (c : Ascii.ascii) : bool := byte_val c =? 58.

Fixpoint has_colon (a : string) : bool :=
  match a with String c a' => is_colon c || has_colon a' | EmptyString => false end.

Fixpoint port_of (a : string) : string :=
  match a with
  | String c a' => if has_colon a' then port_of a' else if is_colon c then a' else emp
  | EmptyString => emp
  end.

Fixpoint host_of (a : string) : string :=
  match a with
  | String c a' => if has_colon a' then String c (host_of a') else if is_colon c then emp else a
  | EmptyString => emp
  end.

Definition listen_address (a : string) : string := if bool_decide (a = emp) then ":http" else a.

Class Network := {
  LookupPort : string → option Z;
  on_pod_address : string → bool }.

Class NetworkLaws `{!Network} := {
  lookup_decimal p : 0 <= p <= 65535 → LookupPort (Itoa p) = Some p;
  every_interface : on_pod_address emp = true }.

#[local] Ltac in_plan :=
  unfold plan, role_items, rbac_items, deployment_items;
  rewrite ?elem_of_app, ?elem_of_cons; tauto.

Section Deployed.
Context {W : Type} `{!Client W} `{!StoreLaws W} `{!Machinery} `{!MachineryLaws}.
Context `{!Network} `{!NetworkLaws}.
Implicit Types (c : LLMInferenceCluster) (w : W).

(** The port at the pod's address on which a server that listens on [a]
    answers. *)
Definition pod_port (a : string) : option Z :=
  let a := listen_address a in
  if on_pod_address (host_of a) then LookupPort (port_of a) else None.

(** The same for a worker with these arguments, when nothing else holds the
    address. *)
Definition listen_port (args : list string) : option Z :=
  match worker_listen args with Parsed a => pod_port a | Exit _ => None end.

(** The pods behind the Service of a role answer: the container of its
    Deployment, with its own arguments and environment, serves as that role
    at the pod's address, on the port to which the Service sends its traffic. *)
Definition answers c (s : store) (role : string) : Prop :=
  ∃ svc d ct l p addr,
    let ns := om_Namespace (lic_Meta c) in
    s KService (child c ("-" +:+ role)) ns = Some svc ∧
    s KDeployment (child c ("-" +:+ role)) ns = Some d ∧
    dep_Containers d = Some (ct :: l) ∧
    sp_TargetPort <$> svc_Ports svc = [IntVal p] ∧
    worker_main (container_getenv ns (ct_Env ct)) (ct_Args ct) (λ _, None) =
      WorkerServing addr role ∧
    pod_port addr = Some p.

(** The operator's variables come last, so they are what the worker sees
    even when the model's environment sets them too. *)
Lemma worker_env_role c role n ns :
  role ≠ emp → worker_role (container_getenv ns (worker_env c role n)) = role.
Proof.
  intros Hr. unfold worker_role.
  assert (container_getenv ns (worker_env c role n) "INFERENCE_ROLE" = role) as ->.
  { unfold container_getenv, worker_env. rewrite foldl_app. reflexivity. }
  by rewrite bool_decide_eq_false_2.
Qed.

Lemma role_answers c (s : store) role n p o x svc y d :
  1 <= p <= 65535 → role ≠ emp →
  mutate_service c (roleLabels (baseLabels c) role) (role_ports p) x = Ok svc →
  mutate_role_deployment c role n (baseLabels c) o y = Ok d →
  s KService (child c ("-" +:+ role)) (om_Namespace (lic_Meta c)) = Some svc →
  s KDeployment (child c ("-" +:+ role)) (om_Namespace (lic_Meta c)) = Some d →
  answers c s role ↔ listen_port (model_Args (spec_Model (lic_Spec c))) = Some p.
Proof.
  intros Hp Hr (_ & Hports)%service_shape
    (_ & _ & _ & ct & l & Hct & _ & Henv & Hargs & _)%role_deployment_shape Ssvc Sd.
  assert (sp_TargetPort <$> svc_Ports svc = [IntVal p]) as Ht
    by (rewrite Hports; simpl; by rewrite port_target).
  unfold answers, listen_port, worker_main. split.
  - intros (svc' & d' & ct' & l' & q & a & ? & ? & ? & Hq & Hm & Ha). simplify_eq.
    rewrite Ht in Hq. injection Hq as <-. rewrite Hargs in Hm.
    destruct (worker_listen _) as [a'|]; [|done]. injection Hm as -> _. done.
  - intros Hl. destruct (worker_listen _) as [a|code] eqn:El; [|done].
    eexists svc, d, ct, l, p, a. split_and!; try done.
    rewrite Hargs, Henv, El. by rewrite worker_env_role.
Qed.

Lemma plan_answers c dp pp ov json s s' :
  1 <= dp <= 65535 → 1 <= pp <= 65535 →
  items_applied (om_Namespace (lic_Meta c)) (plan c dp pp ov json) s s' →
  (answers c s' roleDecode ↔ listen_port (model_Args (spec_Model (lic_Spec c))) = Some dp) ∧
  (answers c s' rolePrefill ↔ listen_port (model_Args (spec_Model (lic_Spec c))) = Some pp).
Proof.
  intros Hd Hp Hi.
  destruct (planned _ _ _ _ _ _ _ (service_item c "-decode" roleDecode (role_ports dp)) Hi)
    as (? & svc & Hsvc & Ssvc); [in_plan|].
  destruct (planned _ _ _ _ _ _ _ (role_deployment c "-decode" roleDecode ov) Hi)
    as (? & d & Hdep & Sd); [in_plan|].
  destruct (planned _ _ _ _ _ _ _ (service_item c "-prefill" rolePrefill (role_ports pp)) Hi)
    as (? & svc' & Hsvc' & Ssvc'); [in_plan|].
  destruct (planned _ _ _ _ _ _ _ (role_deployment c "-prefill" rolePrefill None) Hi)
    as (? & d' & Hdep' & Sd'); [in_plan|].
  simpl in *. split; [by eapply (role_answers c s' roleDecode)|by eapply (role_answers c s' rolePrefill)].
Qed.

Lemma listen_port_default : listen_port [] = Some 8000.
Proof.
  unfold listen_port, pod_port, listen_address. cbn.
  rewrite every_interface. apply (lookup_decimal 8000). lia.
Qed.

End Deployed.

(** ** Witness: the sample, whose prefill port is 8001 *)
#[local] Instance decimal_ports : Network := {|
  LookupPort := ParseInt64;
  on_pod_address h := bool_decide (h = emp) || bool_decide (h = "0.0.0.0") |}.

#[local] Instance decimal_ports_laws : NetworkLaws.
Proof. constructor; [|done]. intros p Hp. apply ParseInt64_Itoa. unfold is_int64. lia. Qed.

Example listen_ports :
  listen_port ["--listen"; "127.0.0.1:8000"] = None ∧ listen_port ["--listen=0.0.0.0:8001"] = Some 8001.
Proof. split; vm_compute; reflexivity. Qed.

